(** * Eldar: a shallow embedding of the decision core of [AIEldar.cc]

    The player recomputes, every round, three matrices describing the board,
    a proximity index for the bonuses, and then lets every citizen run a
    weighted shortest-path search ([approach_target]).  The instructions the
    citizens decide on are buffered in a priority queue that is flushed at the
    end of the round.

    Conventions of the embedding:
    - [int] values are unbounded [Z] (signed overflow is undefined in C++ and
      does not occur for the magnitudes the game uses);
    - [/] on [int] is [Z.quot], which truncates towards zero as C++ does; a
      division by zero is undefined in C++, and the source divides by the
      demolition rates and by the damage of a hit without a guard, while
      [Z.quot] yields zero there: the statements that a round or a search
      returns are therefore made for positive rates ([rates_positive]);
    - [char] and [unsigned short] stores are truncated explicitly with
      [wrap_char] and [wrap_ushort];
    - [vector<vector<T>>] is a list of rows, indexed with stdpp's lookup;
    - [std::map<Pos, Bonus_Info>] is a [gmap];
    - [std::priority_queue] is an interface ([PriorityQueue]): the standard
      only promises that [top] is a greatest element, not which one among
      equivalent elements. *)

From Stdlib Require Import ZArith Lia Bool List Permutation Sorted.
From stdpp Require Import base tactics option list numbers countable sorting gmap.

Open Scope Z_scope.

(** ** Machine integers *)

Definition INT_MIN : Z := - 2147483648.
Definition USHRT_MAX : Z := 65535.

(** Conversion of an [int] to [unsigned short] (modulo 2^16). *)
Definition wrap_ushort (x : Z) : Z := x mod 65536.

(** Conversion of an [int] to a signed 8-bit [char] (modulo 2^8, two's
    complement). *)
Definition wrap_char (x : Z) : Z := (x + 128) mod 256 - 128.

(** ** Host types (Structs.hh of the game) *)

Inductive Dir := Up | Down | Left | Right.

Record Pos := mkPos { pi : Z; pj : Z }.

Inductive CellType := Street | Building.
Inductive BonusType := NoBonus | Money | Food.
Inductive WeaponType := NoWeapon | Hammer | Gun | Bazooka.
Inductive CitizenType := Warrior | Builder.

Record Cell := mkCell {
  c_type : CellType;
  c_bonus : BonusType;
  c_weapon : WeaponType;
  c_id : Z;            (* -1 when nobody is there *)
  c_resistance : Z;    (* -1 when there is no barricade *)
  c_b_owner : Z
}.

Record Citizen := mkCitizen {
  cit_type : CitizenType;
  cit_weapon : WeaponType;
  cit_life : Z;
  cit_player : Z;
  cit_pos : Pos
}.

Global Instance Dir_eq_dec : EqDecision Dir.
Proof. solve_decision. Defined.
Global Instance Pos_eq_dec : EqDecision Pos.
Proof. solve_decision. Defined.
Global Instance CellType_eq_dec : EqDecision CellType.
Proof. solve_decision. Defined.
Global Instance BonusType_eq_dec : EqDecision BonusType.
Proof. solve_decision. Defined.
Global Instance WeaponType_eq_dec : EqDecision WeaponType.
Proof. solve_decision. Defined.
Global Instance CitizenType_eq_dec : EqDecision CitizenType.
Proof. solve_decision. Defined.

Global Program Instance Pos_countable : Countable Pos :=
  inj_countable' (fun p => (pi p, pj p)) (fun q => mkPos (fst q) (snd q)) _.
Next Obligation. by intros []. Qed.

(** Modelled from the spec: the host's [Pos + Dir] (Structs.hh is not part of
    the sources); rows grow downwards and columns to the right, in agreement
    with the neighbours [(i-1,j)], [(i+1,j)], [(i,j-1)], [(i,j+1)] that
    [build_board] enumerates. *)
Definition pos_add (p : Pos) (d : Dir) : Pos :=
  match d with
  | Up => mkPos (pi p - 1) (pj p)
  | Down => mkPos (pi p + 1) (pj p)
  | Left => mkPos (pi p) (pj p - 1)
  | Right => mkPos (pi p) (pj p + 1)
  end.

(** [const vector<Dir> Directions = {Up, Down, Left, Right}] *)
Definition Directions : list Dir := [Up; Down; Left; Right].

(** ** The host interface (Player.hh), taken as a parameter *)

Record Host := mkHost {
  board_rows : Z;
  board_cols : Z;
  cell : Z -> Z -> Cell;
  citizen : Z -> Citizen;
  me : Z;
  round : Z;
  is_round_day : Z -> bool;
  life_lost_in_attack : Z;
  builder_ini_life : Z;
  warrior_ini_life : Z;
  builder_strength_demolish : Z;
  hammer_strength_demolish : Z;
  gun_strength_demolish : Z;
  bazooka_strength_demolish : Z;
  barricade_max_resistance : Z;
  max_num_barricades : Z;
  barricades_me : Z;       (* barricades(me()).size() *)
  builders_me : list Z;    (* builders(me()) *)
  warriors_me : list Z     (* warriors(me()) *)
}.

(** Modelled from the spec: the host's day/night queries and bound check. *)
Definition is_day (h : Host) : bool := is_round_day h (round h).
Definition is_night (h : Host) : bool := negb (is_day h).
Definition is_round_night (h : Host) (r : Z) : bool := negb (is_round_day h r).
Definition pos_ok (h : Host) (p : Pos) : bool :=
  (0 <=? pi p) && (pi p <? board_rows h) && (0 <=? pj p) && (pj p <? board_cols h).

(** ** Matrices *)

Abbreviation Matrix A := (list (list A)) (only parsing).

Definition mnew {A} (n m : Z) (x : A) : Matrix A :=
  replicate (Z.to_nat n) (replicate (Z.to_nat m) x).

(** [M[i][j]]; the sources only index inside the grid (every access is
    guarded by [pos_ok] or by the loop bounds), the embedding returns [d]
    elsewhere. *)
Definition mget {A} (d : A) (M : Matrix A) (i j : Z) : A :=
  if (0 <=? i) && (0 <=? j) then
    match M !! Z.to_nat i with
    | Some row => default d (row !! Z.to_nat j)
    | None => d
    end
  else d.

(** [M[i][j] = v] *)
Definition mset {A} (M : Matrix A) (i j : Z) (v : A) : Matrix A :=
  if (0 <=? i) && (0 <=? j) then
    alter (fun row => <[Z.to_nat j := v]> row) (Z.to_nat i) M
  else M.

Definition mdims {A} (M : Matrix A) (n m : Z) : Prop :=
  Z.of_nat (length M) = n /\ Forall (fun row => Z.of_nat (length row) = m) M.

(** ** Priority queues

    [std::priority_queue<T>] with [operator<] given by [less]: [top] is an
    element that is not [less] than any other one. *)

Class StrictWeak {A} (less : A -> A -> bool) := {
  less_asym : forall a b, less a b = true -> less b a = false;
  less_negtrans : forall a b c, less a b = false -> less b c = false -> less a c = false
}.

Class PriorityQueue (A : Type) (less : A -> A -> bool) := {
  pq : Type;
  pq_new : pq;
  pq_push : A -> pq -> pq;
  (* [top] followed by [pop]; [None] on an empty queue *)
  pq_pop : pq -> option (A * pq);
  (* the elements currently stored *)
  pq_items : pq -> list A;
  pq_new_items : pq_items pq_new = [];
  pq_push_items : forall x q, Permutation (pq_items (pq_push x q)) (x :: pq_items q);
  pq_pop_none : forall q, pq_pop q = None <-> pq_items q = [];
  pq_pop_some : forall q x q', pq_pop q = Some (x, q') ->
    Permutation (pq_items q) (x :: pq_items q') /\
    Forall (fun y => less x y = false) (pq_items q')
}.

Arguments pq A less {_}.
Arguments pq_new {A less _}.
Arguments pq_push {A less _} x q.
Arguments pq_pop {A less _} q.
Arguments pq_items {A less _} q.

Definition pq_is_empty {A less} `{!PriorityQueue A less} (q : pq A less) : bool :=
  match pq_pop q with None => true | Some _ => false end.

(** A reference implementation: an unordered list, [pop] selects a greatest
    element by a linear scan. *)
Module ListPQ.
Section Impl.
Context {A : Type} (less : A -> A -> bool) `{!StrictWeak less}.

Fixpoint extract_max (x : A) (l : list A) : A * list A :=
  match l with
  | [] => (x, [])
  | y :: l' =>
      let '(b, r) := extract_max y l' in
      if less x b then (b, x :: r) else (x, b :: r)
  end.

Definition pop (l : list A) : option (A * list A) :=
  match l with
  | [] => None
  | x :: l' => Some (extract_max x l')
  end.

Lemma extract_max_perm x l b r :
  extract_max x l = (b, r) -> Permutation (x :: l) (b :: r).
Proof.
  revert x b r. induction l as [|y l IH]; intros x b r; simpl.
  - intros [= <- <-]. reflexivity.
  - destruct (extract_max y l) as [b' r'] eqn:E.
    specialize (IH _ _ _ E).
    destruct (less x b'); intros [= <- <-].
    + rewrite IH. apply perm_swap.
    + rewrite IH. reflexivity.
Qed.

Lemma extract_max_greatest x l b r :
  extract_max x l = (b, r) -> Forall (fun y => less b y = false) r.
Proof.
  revert x b r. induction l as [|y l IH]; intros x b r; simpl.
  - intros [= <- <-]. constructor.
  - destruct (extract_max y l) as [b' r'] eqn:E.
    specialize (IH _ _ _ E).
    destruct (less x b') eqn:L; intros [= <- <-].
    + constructor; [by apply less_asym|done].
    + constructor; [done|].
      eapply Forall_impl; [exact IH|].
      intros z Hz. simpl in Hz. by eapply less_negtrans.
Qed.

Lemma pop_none l : pop l = None <-> l = [].
Proof. destruct l; simpl; split; congruence. Qed.

Lemma pop_some l x l' :
  pop l = Some (x, l') ->
  Permutation l (x :: l') /\ Forall (fun y => less x y = false) l'.
Proof.
  destruct l as [|y l]; simpl; [congruence|]. intros [= E].
  split; [by apply extract_max_perm|by eapply extract_max_greatest].
Qed.

Global Instance list_pq : PriorityQueue A less := {|
  pq := list A;
  pq_new := [];
  pq_push x q := x :: q;
  pq_pop := pop;
  pq_items q := q;
  pq_new_items := eq_refl;
  pq_push_items x q := Permutation_refl (x :: q);
  pq_pop_none := pop_none;
  pq_pop_some := pop_some
|}.
End Impl.
End ListPQ.

(** ** The player's constants *)

Definition BAZOOKA : Z := 6.
Definition GUN : Z := 5.
Definition HAMMER : Z := 4.
Definition BUILDER : Z := 3.
Definition FOOD : Z := 2.
Definition MONEY : Z := 1.
Definition EMPTY : Z := 0.
Definition FRIENDLY_CITIZEN : Z := -1.
Definition WALL : Z := -2.
Definition ENEMY_BUILDER : Z := -3.
Definition ENEMY_HAMMER : Z := -4.
Definition ENEMY_GUN : Z := -5.
Definition ENEMY_BAZOOKA : Z := -6.

Definition NOT_IMPORTANT : Z := -1.
Definition BUILD_PRIORITY : Z := 0.
Definition RUN_PRIORITY : Z := 15.
Definition RUN_DEATH_PRIORITY : Z := 20.
Definition VERY_HIGH_PRIORITY : Z := 500.

Definition MONEY_PROFIT : Z := 12.
Definition HEALTH_PROFIT : Z := 17.
Definition ABOUT_TO_DIE_BONUS : Z := 5.
Definition ATTACK_PROFIT : Z := 19.
Definition WEAPON_PROFIT : Z := 25.
Definition STEAL_WEAPON_PROFIT : Z := 12.
Definition BAZOOKA_EXTRA_PROFIT : Z := 3.
Definition WARRIOR_EXTRA_PROFIT : Z := 3.

Definition BARRICADE_THRESHOLD : Z := 2.
Definition BARRICADE_INTERRUPT_THRESHOLD : Z := 5.
Definition PERCENT_BUILD : Z := 70.
Definition COST_WALK_INTO_FRIENDLY : Z := 3.

(** ** Instructions and vertices *)

Record Instr := mkInstr {
  priority : Z;
  is_build : bool;
  id : Z;
  dir : Dir
}.

(** [Instr::operator<] *)
Definition Instr_less (a b : Instr) : bool :=
  if priority a =? priority b then id a <? id b
  else priority a <? priority b.

Record Vertex := mkVertex {
  v_dist : Z;
  v_pos : Pos;
  v_dir : Dir
}.

(** [Vertex::operator<]: less attractive when the distance is greater. *)
Definition Vertex_less (a b : Vertex) : bool := v_dist a >? v_dist b.

Global Instance Instr_less_sw : StrictWeak Instr_less.
Proof.
  split; unfold Instr_less; intros; repeat case_match; lia.
Qed.

Global Instance Vertex_less_sw : StrictWeak Vertex_less.
Proof.
  split; unfold Vertex_less; intros; lia.
Qed.

Record Bonus_Info := mkBonus {
  b_type : Z;            (* 'U' = 85, 'M' = 77, 'W' = 87 *)
  closest_dist : Z;
  closest_is_friendly : bool
}.

Definition type_U : Z := 85.
Definition type_M : Z := 77.
Definition type_W : Z := 87.

(** [Bonus_Info()] and [Bonus_Info(char c)] *)
Definition Bonus_default : Bonus_Info := mkBonus type_U 0 false.
Definition Bonus_of (c : Z) : Bonus_Info := mkBonus c 0 false.

(** ** The player *)

Section Model.
Context `{IQ : !PriorityQueue Instr Instr_less}.
Context `{VQ : !PriorityQueue Vertex Vertex_less}.

(** The attributes of [struct Eldar].  The two pointers [bonus_distances]
    and [bonus_distances_prev] always designate the two maps
    [bonus_distances_odd] and [bonus_distances_even], in one order or the
    other: [cur_odd] says that [bonus_distances] points to the odd one. *)
Record Eldar := mkEldar {
  sz_n : Z;
  sz_m : Z;
  Board : Matrix Z;
  Board_Enemy : Matrix Z;
  Board_Barricades : Matrix Z;
  num_barricades : Z;
  instruction_buffer : pq Instr Instr_less;
  bonus_distances_odd : gmap Pos Bonus_Info;
  bonus_distances_even : gmap Pos Bonus_Info;
  cur_odd : bool
}.

Definition set_Board (e : Eldar) (B : Matrix Z) : Eldar :=
  mkEldar (sz_n e) (sz_m e) B (Board_Enemy e) (Board_Barricades e)
    (num_barricades e) (instruction_buffer e)
    (bonus_distances_odd e) (bonus_distances_even e) (cur_odd e).

Definition set_Board_Enemy (e : Eldar) (B : Matrix Z) : Eldar :=
  mkEldar (sz_n e) (sz_m e) (Board e) B (Board_Barricades e)
    (num_barricades e) (instruction_buffer e)
    (bonus_distances_odd e) (bonus_distances_even e) (cur_odd e).

Definition set_Board_Barricades (e : Eldar) (B : Matrix Z) : Eldar :=
  mkEldar (sz_n e) (sz_m e) (Board e) (Board_Enemy e) B
    (num_barricades e) (instruction_buffer e)
    (bonus_distances_odd e) (bonus_distances_even e) (cur_odd e).

Definition set_num_barricades (e : Eldar) (n : Z) : Eldar :=
  mkEldar (sz_n e) (sz_m e) (Board e) (Board_Enemy e) (Board_Barricades e)
    n (instruction_buffer e)
    (bonus_distances_odd e) (bonus_distances_even e) (cur_odd e).

Definition set_instruction_buffer (e : Eldar) (q : pq Instr Instr_less) : Eldar :=
  mkEldar (sz_n e) (sz_m e) (Board e) (Board_Enemy e) (Board_Barricades e)
    (num_barricades e) q
    (bonus_distances_odd e) (bonus_distances_even e) (cur_odd e).

Definition set_cur_odd (e : Eldar) (b : bool) : Eldar :=
  mkEldar (sz_n e) (sz_m e) (Board e) (Board_Enemy e) (Board_Barricades e)
    (num_barricades e) (instruction_buffer e)
    (bonus_distances_odd e) (bonus_distances_even e) b.

(** [*bonus_distances] and [*bonus_distances_prev], read and written through
    the pointers. *)
Definition bonus_distances (e : Eldar) : gmap Pos Bonus_Info :=
  if cur_odd e then bonus_distances_odd e else bonus_distances_even e.

Definition bonus_distances_prev (e : Eldar) : gmap Pos Bonus_Info :=
  if cur_odd e then bonus_distances_even e else bonus_distances_odd e.

Definition set_bonus_distances (e : Eldar) (m : gmap Pos Bonus_Info) : Eldar :=
  if cur_odd e then
    mkEldar (sz_n e) (sz_m e) (Board e) (Board_Enemy e) (Board_Barricades e)
      (num_barricades e) (instruction_buffer e) m (bonus_distances_even e) (cur_odd e)
  else
    mkEldar (sz_n e) (sz_m e) (Board e) (Board_Enemy e) (Board_Barricades e)
      (num_barricades e) (instruction_buffer e) (bonus_distances_odd e) m (cur_odd e).

Definition set_bonus_distances_prev (e : Eldar) (m : gmap Pos Bonus_Info) : Eldar :=
  if cur_odd e then
    mkEldar (sz_n e) (sz_m e) (Board e) (Board_Enemy e) (Board_Barricades e)
      (num_barricades e) (instruction_buffer e) (bonus_distances_odd e) m (cur_odd e)
  else
    mkEldar (sz_n e) (sz_m e) (Board e) (Board_Enemy e) (Board_Barricades e)
      (num_barricades e) (instruction_buffer e) m (bonus_distances_even e) (cur_odd e).

(** [std::map::operator[]]: the entry is created with the default value when
    it is missing. *)
Definition map_index (m : gmap Pos Bonus_Info) (p : Pos) : Bonus_Info * gmap Pos Bonus_Info :=
  match m !! p with
  | Some b => (b, m)
  | None => (Bonus_default, <[p := Bonus_default]> m)
  end.

Variable h : Host.

(** *** Inline helpers *)

Definition _move (e : Eldar) (priority id : Z) (where_ : Dir) : Eldar :=
  set_instruction_buffer e (pq_push (mkInstr priority false id where_) (instruction_buffer e)).

Definition _build (e : Eldar) (priority id : Z) (where_ : Dir) : Eldar :=
  set_instruction_buffer e (pq_push (mkInstr priority true id where_) (instruction_buffer e)).

Definition board (e : Eldar) (p : Pos) : Z := mget 0 (Board e) (pi p) (pj p).
Definition board_enemy (e : Eldar) (p : Pos) : Z := mget 0 (Board_Enemy e) (pi p) (pj p).
Definition board_barricades (e : Eldar) (p : Pos) : Z := mget 0 (Board_Barricades e) (pi p) (pj p).

Definition my_weapon (cit : Citizen) : Z :=
  match cit_weapon cit with
  | NoWeapon => BUILDER
  | Hammer => HAMMER
  | Gun => GUN
  | Bazooka => BAZOOKA
  end.

(** *** build_board and its helpers *)

Definition initialize (e : Eldar) : Eldar :=
  let n := board_rows h in
  let m := board_cols h in
  mkEldar n m (mnew n m 0) (mnew n m 0) (mnew n m 0)
    (num_barricades e) (instruction_buffer e)
    (bonus_distances_odd e) (bonus_distances_even e) (cur_odd e).

(** The working state of [compute_closest]. *)
Record Closest := mkClosest {
  cc_dist : Matrix Z;
  cc_visited : Matrix bool;
  cc_Q : pq Vertex Vertex_less
}.

(** The test made on a dequeued position [u]: [Some info'] when the search
    returns there with the record filled in. *)
Definition cc_found (e : Eldar) (WEAPON : Z) (u : Pos) (distance : Z) (info : Bonus_Info)
  : option Bonus_Info :=
  if (board e u <=? ENEMY_BUILDER) || (board e u =? FRIENDLY_CITIZEN) then
    if b_type info =? type_M then
      Some (mkBonus (b_type info) distance (board e u =? FRIENDLY_CITIZEN))
    else if b_type info =? type_W then
      if board e u =? FRIENDLY_CITIZEN then
        let c := citizen h (c_id (cell h (pi u) (pj u))) in
        if bool_decide (cit_type c = Warrior) && (my_weapon c <? WEAPON) then
          Some (mkBonus (b_type info) distance true)
        else None
      else if (board e u <? ENEMY_BUILDER) && (- board e u <? WEAPON) then
        Some (mkBonus (b_type info) distance false)
      else None
    else None
  else None.

(** One iteration of [for (Dir d : Directions)] in [compute_closest]; the
    local [distance] of the enclosing iteration is threaded through, since
    the two barricade statements assign to it.  The two divisions by
    [bazooka_strength_demolish()] are not guarded in the source: they are
    defined for a rate other than zero. *)
Definition cc_relax (e : Eldar) (u : Pos) (acc : Z * Matrix Z * pq Vertex Vertex_less) (d : Dir)
  : Z * Matrix Z * pq Vertex Vertex_less :=
  let '(distance, dist, Q) := acc in
  let new_p := pos_add u d in
  if pos_ok h new_p && negb (board e new_p =? WALL) then
    let new_distance := wrap_ushort (mget 0 dist (pi u) (pj u) + 1) in
    let distance :=
      if board_barricades e new_p <? 0
      then distance + Z.quot (- board_barricades e new_p) (bazooka_strength_demolish h)
      else distance in
    let distance :=
      if board_barricades e new_p >? 0
      then distance + Z.quot (board_barricades e new_p) (bazooka_strength_demolish h)
      else distance in
    if new_distance <? mget 0 dist (pi new_p) (pj new_p) then
      (distance, mset dist (pi new_p) (pj new_p) new_distance,
       pq_push (mkVertex new_distance new_p Up) Q)
    else (distance, dist, Q)
  else acc.

(** [while (not Q.empty())] of [compute_closest]; [None] when the fuel runs
    out. *)
Fixpoint cc_loop (e : Eldar) (WEAPON : Z) (fuel : nat) (info : Bonus_Info) (s : Closest)
  : option Bonus_Info :=
  match fuel with
  | O => None
  | S fuel =>
      match pq_pop (cc_Q s) with
      | None => Some info
      | Some (v, Q) =>
          let u := v_pos v in
          if mget false (cc_visited s) (pi u) (pj u) then
            cc_loop e WEAPON fuel info (mkClosest (cc_dist s) (cc_visited s) Q)
          else
            let visited := mset (cc_visited s) (pi u) (pj u) true in
            let distance := mget 0 (cc_dist s) (pi u) (pj u) in
            match cc_found e WEAPON u distance info with
            | Some info' => Some info'
            | None =>
                let '(_, dist, Q) := fold_left (cc_relax e u) Directions (distance, cc_dist s, Q) in
                cc_loop e WEAPON fuel info (mkClosest dist visited Q)
            end
      end
  end.

(** Enough iterations for the search on an [n] x [m] grid: every push lowers
    an entry of [dist], which starts at [USHRT_MAX]. *)
Definition search_fuel (e : Eldar) : nat :=
  Z.to_nat (sz_n e * sz_m e * 65540 + 8).

(** [compute_closest(origin, info)]; the vertices pushed there leave [dir]
    unset, the embedding stores [Up]. *)
Definition compute_closest (e : Eldar) (origin : Pos) (info : Bonus_Info) : option Bonus_Info :=
  let dist := mnew (sz_n e) (sz_m e) USHRT_MAX in
  let visited := mnew (sz_n e) (sz_m e) false in
  let WEAPON := board e origin in
  let dist := mset dist (pi origin) (pj origin) 0 in
  let Q := pq_push (mkVertex 0 origin Up) pq_new in
  cc_loop e WEAPON (search_fuel e) info (mkClosest dist visited Q).

Definition update_danger (cell enemy : Z) : Z :=
  if (cell >? 0) || (cell <=? enemy) then cell else enemy.

(** [if (pos_ok(i, j)) update_danger(Board_Enemy[i][j], enemy)] *)
Definition update_danger_at (BE : Matrix Z) (i j : Z) (enemy : Z) : Matrix Z :=
  if pos_ok h (mkPos i j) then mset BE i j (update_danger (mget 0 BE i j) enemy) else BE.

Definition enemy_code (cit : Citizen) : Z :=
  if bool_decide (cit_type cit = Builder) then ENEMY_BUILDER
  else if bool_decide (cit_weapon cit = Hammer) then ENEMY_HAMMER
  else if bool_decide (cit_weapon cit = Gun) then ENEMY_GUN
  else ENEMY_BAZOOKA.

(** [bonus_distances->insert({p, Bonus_Info(c)})]: [insert] keeps an entry
    that is already there. *)
Definition bonus_insert (e : Eldar) (p : Pos) (c : Z) : Eldar :=
  match bonus_distances e !! p with
  | Some _ => e
  | None => set_bonus_distances e (<[p := Bonus_of c]> (bonus_distances e))
  end.

(** The body of the double loop of [build_board] for the cell [(i, j)]. *)
Definition build_cell (e : Eldar) (i j : Z) : Eldar :=
  let c := cell h i j in
  let e :=
    if bool_decide (c_type c = Building) then set_Board e (mset (Board e) i j WALL)
    else if bool_decide (c_bonus c = Food) then set_Board e (mset (Board e) i j FOOD)
    else if bool_decide (c_bonus c = Money) then
      bonus_insert (set_Board e (mset (Board e) i j MONEY)) (mkPos i j) type_M
    else if bool_decide (c_weapon c = Gun) then
      bonus_insert (set_Board e (mset (Board e) i j GUN)) (mkPos i j) type_W
    else if bool_decide (c_weapon c = Bazooka) then
      bonus_insert (set_Board e (mset (Board e) i j BAZOOKA)) (mkPos i j) type_W
    else if negb (c_id c =? -1) then
      let cit := citizen h (c_id c) in
      if cit_player cit =? me h then set_Board e (mset (Board e) i j FRIENDLY_CITIZEN)
      else
        let enemy := enemy_code cit in
        let e := set_Board e (mset (Board e) i j enemy) in
        let BE := mset (Board_Enemy e) i j (wrap_char (cit_life cit)) in
        let BE := update_danger_at BE (i - 1) j enemy in
        let BE := update_danger_at BE (i + 1) j enemy in
        let BE := update_danger_at BE i (j - 1) enemy in
        let BE := update_danger_at BE i (j + 1) enemy in
        set_Board_Enemy e BE
    else set_Board e (mset (Board e) i j EMPTY) in
  if c_resistance c =? -1 then set_Board_Barricades e (mset (Board_Barricades e) i j 0)
  else if c_b_owner c =? me h then
    set_Board_Barricades e (mset (Board_Barricades e) i j (c_resistance c))
  else set_Board_Barricades e (mset (Board_Barricades e) i j (- c_resistance c)).

(** [for (i = 0; i < sz_n; ++i) for (j = 0; j < sz_m; ++j) body] *)
Definition for_cells {S : Type} (n m : Z) (body : S -> Z -> Z -> S) (s : S) : S :=
  fold_left (fun s i => fold_left (fun s j => body s i j) (seqZ 0 m) s) (seqZ 0 n) s.

(** The part of [build_board] that fills the three matrices and registers the
    bonuses. *)
Definition build_matrices (e : Eldar) : Eldar :=
  let e := set_bonus_distances e ∅ in
  let e := for_cells (sz_n e) (sz_m e)
             (fun e i j => set_Board_Enemy e (mset (Board_Enemy e) i j 0)) e in
  for_cells (sz_n e) (sz_m e) build_cell e.

(** The closing loop of [build_board]: [compute_closest] on every registered
    bonus.  Each call only writes its own record, so the order of the
    iteration is immaterial; a search that ran out of fuel would leave no
    record (see [compute_closest_total] and [build_board_records]). *)
Definition build_board (e : Eldar) : Eldar :=
  let e := build_matrices e in
  set_bonus_distances e (map_imap (fun p info => compute_closest e p info) (bonus_distances e)).

(** *** approach_target and its helpers *)

Definition is_stronger (e : Eldar) (cit : Citizen) (i j : Z) : bool :=
  let weapon := my_weapon cit in
  if weapon =? - mget 0 (Board e) i j
  then cit_life cit >? cit_life (citizen h (c_id (cell h i j)))
  else weapon >? - mget 0 (Board e) i j.

Definition strength_demolish (weapon : Z) : Z :=
  if weapon =? BUILDER then builder_strength_demolish h
  else if weapon =? HAMMER then hammer_strength_demolish h
  else if weapon =? GUN then gun_strength_demolish h
  else bazooka_strength_demolish h.

Definition has_buildable_barricade (e : Eldar) (pos : Pos) : bool :=
  pos_ok h pos && (board_barricades e pos >? 0)
  && negb (board e pos =? FRIENDLY_CITIZEN)
  && (board_barricades e pos <? Z.quot (barricade_max_resistance h * PERCENT_BUILD) 100).

Definition is_danger (e : Eldar) (pos : Pos) (my_weapon : Z) : bool :=
  if is_day h && is_round_day h (round h + 1) then false
  else - board_enemy e pos >? my_weapon.

(** [no_brainer(i, j, my_weapon, is_warrior)]: the result and the value left
    in the reference parameter [my_weapon]. *)
Definition no_brainer (e : Eldar) (i j : Z) (my_weapon : Z) (is_warrior : bool) : bool * Z :=
  if (mget 0 (Board e) i j <=? ENEMY_BUILDER) && (- mget 0 (Board e) i j <=? my_weapon)
     && is_night h
     && (mget 0 (Board_Enemy e) i j <=? life_lost_in_attack h)
     && (mget 0 (Board_Barricades e) i j =? 0)
  then (true, my_weapon)
  else if is_warrior && (mget 0 (Board e) i j >? my_weapon)
  then (true, mget 0 (Board e) i j)
  else (false, my_weapon).

(** [add_movement_penalties(pos, distance, weapon)]: the new value of the
    [unsigned short] reference [distance].  The divisions by
    [strength_demolish(weapon)] and by [life_lost_in_attack()] are not
    guarded in the source: they are defined for rates other than zero. *)
Definition add_movement_penalties (e : Eldar) (pos : Pos) (distance : Z) (weapon : Z) : Z :=
  let distance :=
    if board_barricades e pos <? 0
    then wrap_ushort (distance + Z.quot (- board_barricades e pos) (strength_demolish weapon))
    else distance in
  let distance :=
    if board e pos <=? ENEMY_BUILDER
    then wrap_ushort (distance + (Z.quot (board_enemy e pos) (life_lost_in_attack h) - 1))
    else distance in
  if board e pos =? FRIENDLY_CITIZEN
  then wrap_ushort (distance + COST_WALK_INTO_FRIENDLY)
  else distance.

(** The working state of [approach_target].  [s_take_ownership] is the
    pointer into [*bonus_distances] ([None] for [nullptr]), kept as the key
    of the record it points to; [s_ai] carries the player, whose bonus maps
    [operator[]] may extend. *)
Record Search := mkSearch {
  s_dist : Matrix Z;
  s_visited : Matrix bool;
  s_Q : pq Vertex Vertex_less;
  s_best_dir : Dir;
  s_best_profit : Z;
  s_take_ownership : option Pos;
  s_take_ownership_dist : Z;
  s_ai : Eldar
}.

(** [if (profit > best_profit) { best_profit = profit; best_dir = dir;
    take_ownership = nullptr; }] *)
Definition improve (s : Search) (profit : Z) (dir : Dir) : Search :=
  if profit >? s_best_profit s then
    mkSearch (s_dist s) (s_visited s) (s_Q s) dir profit None (s_take_ownership_dist s) (s_ai s)
  else s.

Definition set_s_ai (s : Search) (e : Eldar) : Search :=
  mkSearch (s_dist s) (s_visited s) (s_Q s) (s_best_dir s) (s_best_profit s)
    (s_take_ownership s) (s_take_ownership_dist s) e.

(** The outcome of the first loop over the directions. *)
Inductive Seeded :=
  | Wait                                               (* [return false] *)
  | Grab (d : Dir)                                     (* [_move(VERY_HIGH_PRIORITY, ID, d); return true] *)
  | Seeds (dist : Matrix Z) (Q : pq Vertex Vertex_less).

(** The test that guards the enqueueing of an initial direction. *)
Definition seed_ok (e : Eldar) (WEAPON : Z) (new_p : Pos) : bool :=
  negb (board e new_p =? WALL) && negb (is_danger e new_p WEAPON)
  && (- board e new_p <? WEAPON).

Definition cell_safe (e : Eldar) (WEAPON : Z) (new_p : Pos) : bool :=
  forallb (fun d => negb (pos_ok h (pos_add new_p d) && is_danger e (pos_add new_p d) WEAPON))
    Directions.

Definition push_seed (e : Eldar) (WEAPON : Z) (new_p : Pos) (d : Dir)
  (dist : Matrix Z) (Q : pq Vertex Vertex_less) : Matrix Z * pq Vertex Vertex_less :=
  let distance := add_movement_penalties e new_p 1 WEAPON in
  (mset dist (pi new_p) (pj new_p) distance, pq_push (mkVertex distance new_p d) Q).

(** "First try to move just to the safest directions". *)
Fixpoint seed_safe (e : Eldar) (WEAPON : Z) (is_warrior : bool) (origin : Pos)
  (ds : list Dir) (dist : Matrix Z) (Q : pq Vertex Vertex_less) : Seeded :=
  match ds with
  | [] => Seeds dist Q
  | d :: ds =>
      let new_p := pos_add origin d in
      if negb (pos_ok h new_p) then seed_safe e WEAPON is_warrior origin ds dist Q
      else
        let '(nb, temp_weapon) := no_brainer e (pi new_p) (pj new_p) WEAPON is_warrior in
        if nb then
          if temp_weapon <? - board_enemy e new_p then Wait else Grab d
        else if cell_safe e WEAPON new_p && seed_ok e WEAPON new_p then
          let '(dist, Q) := push_seed e WEAPON new_p d dist Q in
          seed_safe e WEAPON is_warrior origin ds dist Q
        else seed_safe e WEAPON is_warrior origin ds dist Q
  end.

(** "If no such direction exists, attempt to go to less safe directions". *)
Definition seed_unsafe (e : Eldar) (WEAPON : Z) (origin : Pos)
  (acc : Matrix Z * pq Vertex Vertex_less) (d : Dir) : Matrix Z * pq Vertex Vertex_less :=
  let new_p := pos_add origin d in
  if negb (pos_ok h new_p) then acc
  else if seed_ok e WEAPON new_p then push_seed e WEAPON new_p d (fst acc) (snd acc)
  else acc.

(** The profit of a money cell at [distance], given the closest distances
    recorded this round and last round. *)
Definition money_profit (distance closest_dist : Z) (prev : Z) : Z :=
  let profit := MONEY_PROFIT - distance in
  if (profit >? 0) && (closest_dist <? distance) && (closest_dist <? prev) then 0
  else profit.

(** The evaluation of a dequeued position [u]: the new state and whether the
    search goes on to the neighbours of [u] ([false] for [continue]). *)
Definition evaluate (c : Citizen) (is_warrior NEED_HEAL : bool) (WEAPON : Z)
  (u : Pos) (dir : Dir) (s : Search) : bool * Search :=
  let e := s_ai s in
  let distance := mget 0 (s_dist s) (pi u) (pj u) in
  if is_warrior && (board e u <=? ENEMY_BUILDER) && is_stronger e c (pi u) (pj u)
     && is_round_night h (round h + mget 0 (s_dist s) (pi u) (pj u)) then
    let profit := ATTACK_PROFIT - distance in
    let profit := if board e u <? ENEMY_BUILDER then profit + WARRIOR_EXTRA_PROFIT else profit in
    (false, improve s profit dir)
  else if board e u =? MONEY then
    let profit := MONEY_PROFIT - distance in
    let '(info, bd) := map_index (bonus_distances e) u in
    let e := set_bonus_distances e bd in
    let closest := closest_dist info in
    (* last round's record of [u] is only looked up, and its entry only
       created, when the first two conjuncts hold *)
    let '(prev, e) :=
      if (profit >? 0) && (closest <? distance) then
        let '(pinfo, bdp) := map_index (bonus_distances_prev e) u in
        (closest_dist pinfo, set_bonus_distances_prev e bdp)
      else (0, e) in
    (true, improve (set_s_ai s e) (money_profit distance closest prev) dir)
  else if NEED_HEAL && (board e u =? FOOD) then
    let profit := HEALTH_PROFIT - distance in
    let profit := if life_lost_in_attack h >=? cit_life c then profit + ABOUT_TO_DIE_BONUS else profit in
    (true, improve s profit dir)
  else if board e u >=? GUN then
    let '(info, bd) := map_index (bonus_distances e) u in
    let e := set_bonus_distances e bd in
    let s := set_s_ai s e in
    if closest_dist info >=? distance then
      if is_warrior && (board e u >? WEAPON) then
        let profit := WEAPON_PROFIT - distance in
        let profit := if board e u =? BAZOOKA then profit + BAZOOKA_EXTRA_PROFIT * 2 else profit in
        (true, improve s profit dir)
      else if closest_is_friendly info then
        (true, mkSearch (mset (s_dist s) (pi u) (pj u) (wrap_ushort (distance + 4)))
                 (s_visited s) (s_Q s) (s_best_dir s) (s_best_profit s)
                 (s_take_ownership s) (s_take_ownership_dist s) (s_ai s))
      else
        let profit := STEAL_WEAPON_PROFIT - distance in
        let profit := if board e u =? BAZOOKA then profit + BAZOOKA_EXTRA_PROFIT else profit in
        if profit >? s_best_profit s then
          (true, mkSearch (s_dist s) (s_visited s) (s_Q s) dir profit (Some u) distance (s_ai s))
        else (true, s)
    else (true, s)
  else (true, s).

(** One iteration of "keep searching on adjacent positions". *)
Definition relax (e : Eldar) (WEAPON : Z) (u : Pos) (dir : Dir)
  (acc : Matrix Z * pq Vertex Vertex_less) (d : Dir) : Matrix Z * pq Vertex Vertex_less :=
  let '(dist, Q) := acc in
  let new_p := pos_add u d in
  if pos_ok h new_p && negb (board e new_p =? WALL) then
    let new_distance := wrap_ushort (mget 0 dist (pi u) (pj u) + 1) in
    let new_distance := add_movement_penalties e new_p new_distance WEAPON in
    if new_distance <? mget 0 dist (pi new_p) (pj new_p) then
      (mset dist (pi new_p) (pj new_p) new_distance, pq_push (mkVertex new_distance new_p dir) Q)
    else acc
  else acc.

(** The body of [while (not Q.empty())] for the dequeued vertex [v]. *)
Definition search_step (c : Citizen) (is_warrior NEED_HEAL : bool) (WEAPON : Z)
  (v : Vertex) (Q : pq Vertex Vertex_less) (s : Search) : Search :=
  let u := v_pos v in
  let dir := v_dir v in
  let s := mkSearch (s_dist s) (s_visited s) Q (s_best_dir s) (s_best_profit s)
             (s_take_ownership s) (s_take_ownership_dist s) (s_ai s) in
  if mget false (s_visited s) (pi u) (pj u) then s
  else
    let s := mkSearch (s_dist s) (mset (s_visited s) (pi u) (pj u) true) (s_Q s)
               (s_best_dir s) (s_best_profit s)
               (s_take_ownership s) (s_take_ownership_dist s) (s_ai s) in
    let '(expand, s) := evaluate c is_warrior NEED_HEAL WEAPON u dir s in
    if expand then
      let '(dist, Q) := fold_left (relax (s_ai s) WEAPON u dir) Directions (s_dist s, s_Q s) in
      mkSearch dist (s_visited s) Q (s_best_dir s) (s_best_profit s)
        (s_take_ownership s) (s_take_ownership_dist s) (s_ai s)
    else s.

(** [while (not Q.empty())] of [approach_target]; [None] when the fuel runs
    out. *)
Fixpoint search_loop (c : Citizen) (is_warrior NEED_HEAL : bool) (WEAPON : Z)
  (fuel : nat) (s : Search) : option Search :=
  match fuel with
  | O => None
  | S fuel =>
      match pq_pop (s_Q s) with
      | None => Some s
      | Some (v, Q) =>
          search_loop c is_warrior NEED_HEAL WEAPON fuel
            (search_step c is_warrior NEED_HEAL WEAPON v Q s)
      end
  end.

(** The threshold under which a builder prefers to build. *)
Definition barricade_threshold (e : Eldar) (is_warrior : bool) (origin : Pos) : Z :=
  if is_day h && negb is_warrior && (board_barricades e origin =? 0) then
    let t := if num_barricades e <? max_num_barricades h then BARRICADE_THRESHOLD else INT_MIN in
    fold_left (fun t d => if has_buildable_barricade e (pos_add origin d)
                          then BARRICADE_INTERRUPT_THRESHOLD else t) Directions t
  else INT_MIN.

(** "All vertices have been dequeued: go to best vertex or build barricade". *)
Definition decide_move (c : Citizen) (ID : Z) (is_warrior : bool) (WEAPON : Z) (s : Search)
  : bool * Eldar :=
  let e := s_ai s in
  let origin := cit_pos c in
  if s_best_profit s =? INT_MIN then (false, e)
  else if s_best_profit s <=? barricade_threshold e is_warrior origin then (false, e)
  else
    let new_p := pos_add origin (s_best_dir s) in
    if is_danger e origin WEAPON && (mget 0 (s_dist s) (pi new_p) (pj new_p) >? 1) then (false, e)
    else
      let best_profit :=
        if is_danger e origin WEAPON then
          if life_lost_in_attack h >=? cit_life c then RUN_DEATH_PRIORITY else RUN_PRIORITY
        else if board_enemy e new_p =? 0 then NOT_IMPORTANT
        else s_best_profit s in
      let e :=
        match s_take_ownership s with
        | Some u =>
            let info := default Bonus_default (bonus_distances e !! u) in
            set_bonus_distances e
              (<[u := mkBonus (b_type info) (s_take_ownership_dist s) true]> (bonus_distances e))
        | None => e
        end in
      (true, _move e best_profit ID (s_best_dir s)).

(** [approach_target(ID, is_warrior)]: the returned flag and the player
    afterwards; [None] only if the search ran out of fuel. *)
Definition approach_target (e : Eldar) (ID : Z) (is_warrior : bool) : option (bool * Eldar) :=
  let dist := mnew (sz_n e) (sz_m e) USHRT_MAX in
  let visited := mnew (sz_n e) (sz_m e) false in
  let c := citizen h ID in
  let origin := cit_pos c in
  let NEED_HEAL :=
    if is_warrior then cit_life c <? warrior_ini_life h
    else cit_life c <? builder_ini_life h in
  let WEAPON := my_weapon c in
  let dist := mset dist (pi origin) (pj origin) 0 in
  let visited := mset visited (pi origin) (pj origin) true in
  match seed_safe e WEAPON is_warrior origin Directions dist pq_new with
  | Wait => Some (false, e)
  | Grab d => Some (true, _move e VERY_HIGH_PRIORITY ID d)
  | Seeds dist Q =>
      let '(dist, Q) :=
        if pq_is_empty Q
        then fold_left (seed_unsafe e WEAPON origin) Directions (dist, Q)
        else (dist, Q) in
      match search_loop c is_warrior NEED_HEAL WEAPON (search_fuel e)
              (mkSearch dist visited Q Left INT_MIN None 0 e) with
      | Some s => Some (decide_move c ID is_warrior WEAPON s)
      | None => None
      end
  end.

(** *** The tasks of the citizens *)

(** The first direction of [Directions] that satisfies [f], as found by a
    loop that returns at the first hit. *)
Definition first_dir (f : Dir -> bool) : option Dir := List.find f Directions.

Definition builder_day_task (e : Eldar) (id : Z) : option Eldar :=
  match approach_target e id false with
  | None => None
  | Some (true, e) => Some e
  | Some (false, e) =>
      let pos := cit_pos (citizen h id) in
      match first_dir (fun d => has_buildable_barricade e (pos_add pos d)) with
      | Some d => Some (_build e BUILD_PRIORITY id d)
      | None =>
          if num_barricades e >=? max_num_barricades h then Some e
          else
            match first_dir (fun d => pos_ok h (pos_add pos d)
                                      && (board e (pos_add pos d) =? EMPTY)
                                      && (board_enemy e (pos_add pos d) =? 0)
                                      && (board_barricades e (pos_add pos d) =? 0)) with
            | Some d =>
                Some (_build (set_num_barricades e (num_barricades e + 1)) BUILD_PRIORITY id d)
            | None =>
                match first_dir (fun d => pos_ok h (pos_add pos d)
                                          && (board e (pos_add pos d) =? EMPTY)
                                          && (board_barricades e (pos_add pos d) =? 0)) with
                | Some d =>
                    Some (_build (set_num_barricades e (num_barricades e + 1)) BUILD_PRIORITY id d)
                | None => Some e
                end
            end
      end
  end.

Definition warrior_day_task (e : Eldar) (id : Z) : option Eldar :=
  match approach_target e id true with
  | None => None
  | Some (_, e) => Some e
  end.

Definition is_escape_route (e : Eldar) (pos : Pos) (my_weapon : Z) : bool :=
  pos_ok h pos && negb (board e pos =? WALL) && (- board_enemy e pos <=? my_weapon).

(** The escape of a citizen that has to wait on an unsafe cell, shared by
    the two night tasks: [sentinel] is the initial [best_outcome]. *)
Definition run_away (e : Eldar) (id : Z) (c : Citizen) (WEAPON sentinel : Z) : Eldar :=
  let pos := cit_pos c in
  if - board_enemy e pos >? WEAPON then
    let priority :=
      if life_lost_in_attack h >=? cit_life c then RUN_DEATH_PRIORITY else RUN_PRIORITY in
    match first_dir (fun d => pos_ok h (pos_add pos d) && (board_barricades e (pos_add pos d) >? 0)) with
    | Some d => _move e priority id d
    | None =>
        let '(best_outcome, dir) :=
          fold_left (fun acc d =>
                       if is_escape_route e (pos_add pos d) WEAPON
                          && (board e (pos_add pos d) >? fst acc)
                       then (board e (pos_add pos d), d) else acc)
            Directions (sentinel, Up) in
        if negb (best_outcome =? sentinel) then _move e priority id dir else e
    end
  else e.

Definition builder_night_task (e : Eldar) (id : Z) : option Eldar :=
  match approach_target e id false with
  | None => None
  | Some (true, e) => Some e
  | Some (false, e) => Some (run_away e id (citizen h id) BUILDER (-1))
  end.

Definition warrior_night_task (e : Eldar) (id : Z) : option Eldar :=
  match approach_target e id true with
  | None => None
  | Some (true, e) => Some e
  | Some (false, e) =>
      let c := citizen h id in
      Some (run_away e id c (my_weapon c) INT_MIN)
  end.

(** *** play *)

(** What the player sends to the host. *)
Inductive Command :=
  | CmdMove (id : Z) (d : Dir)
  | CmdBuild (id : Z) (d : Dir).

Definition send (com : Instr) : Command :=
  if is_build com then CmdBuild (id com) (dir com) else CmdMove (id com) (dir com).

(** [while (not instruction_buffer.empty())]: the instructions in the order
    in which they leave the buffer. *)
Fixpoint flush_loop (fuel : nat) (q : pq Instr Instr_less)
  : option (list Instr * pq Instr Instr_less) :=
  match fuel with
  | O => None
  | S fuel =>
      match pq_pop q with
      | None => Some ([], q)
      | Some (com, q) =>
          match flush_loop fuel q with
          | Some (coms, q) => Some (com :: coms, q)
          | None => None
          end
      end
  end.

(** The loop runs once per buffered instruction, and once more to see the
    buffer empty. *)
Definition flush (q : pq Instr Instr_less) : option (list Instr * pq Instr Instr_less) :=
  flush_loop (S (length (pq_items q))) q.

(** [for (int id : ids) task(id)] *)
Fixpoint for_each (task : Eldar -> Z -> option Eldar) (ids : list Z) (e : Eldar) : option Eldar :=
  match ids with
  | [] => Some e
  | id :: ids =>
      match task e id with
      | Some e => for_each task ids e
      | None => None
      end
  end.

(** [play()]: the player after the round and the commands sent. *)
Definition play (e : Eldar) : option (Eldar * list Command) :=
  let e := if sz_n e =? 0 then initialize e else e in
  let e := set_cur_odd e (Z.odd (round h)) in
  let e := build_board e in
  let e := set_num_barricades e (barricades_me h) in
  let tasks : option Eldar :=
    if is_day h then
      match for_each builder_day_task (builders_me h) e with
      | Some e => for_each warrior_day_task (warriors_me h) e
      | None => None
      end
    else
      match for_each builder_night_task (builders_me h) e with
      | Some e => for_each warrior_night_task (warriors_me h) e
      | None => None
      end in
  match tasks with
  | Some e =>
      match flush (instruction_buffer e) with
      | Some (coms, q) => Some (set_instruction_buffer e q, map send coms)
      | None => None
      end
  | None => None
  end.

End Model.

(** * Scenarios *)

(** Concrete boards on which the statements above are exercised, with the
    list-based priority queue. *)
Module Scenario.

#[export] Instance IQ : PriorityQueue Instr Instr_less := ListPQ.list_pq Instr_less.
#[export] Instance VQ : PriorityQueue Vertex Vertex_less := ListPQ.list_pq Vertex_less.

Definition street : Cell := mkCell Street NoBonus NoWeapon (-1) (-1) (-1).
Definition wall : Cell := mkCell Building NoBonus NoWeapon (-1) (-1) (-1).
Definition person (id : Z) : Cell := mkCell Street NoBonus NoWeapon id (-1) (-1).
Definition bonus (b : BonusType) : Cell := mkCell Street b NoWeapon (-1) (-1) (-1).
Definition weapon (w : WeaponType) : Cell := mkCell Street NoBonus w (-1) (-1) (-1).
Definition barricade (owner r : Z) : Cell := mkCell Street NoBonus NoWeapon (-1) r owner.

Definition nobody : Citizen := mkCitizen Builder NoWeapon 0 (-1) (mkPos 0 0).

Definition roster (l : list (Z * Citizen)) (id : Z) : Citizen :=
  match List.find (fun x => fst x =? id) l with
  | Some x => snd x
  | None => nobody
  end.

(** A host with player 0 as [me], 25 rounds of day followed by 25 of night,
    20 points of life lost per hit, and the grid and citizens given. *)
Definition host (g : list (list Cell)) (cits : list (Z * Citizen)) (rnd : Z)
  (bld war : list Z) : Host :=
  mkHost (Z.of_nat (length g)) (Z.of_nat (length (hd [] g)))
    (fun i j => mget wall g i j) (roster cits) 0 rnd (fun r => r mod 50 <? 25)
    20 60 100 3 10 10 30 320 3 0 bld war.

(** The player before its first round. *)
Definition Eldar0 : Eldar := mkEldar 0 0 [] [] [] 0 pq_new ∅ ∅ false.

Definition world (h : Host) : Eldar := build_board h (initialize h Eldar0).

(** Two enemies side by side, a builder and a bazooka. *)
Definition two_enemies : Host :=
  host [[person 1; street; person 2]]
    [(1, mkCitizen Builder NoWeapon 50 1 (mkPos 0 0));
     (2, mkCitizen Warrior Bazooka 80 1 (mkPos 0 2))] 30 [] [].

Definition neighbours : Host :=
  host [[person 1; person 2]]
    [(1, mkCitizen Builder NoWeapon 50 1 (mkPos 0 0));
     (2, mkCitizen Warrior Bazooka 80 1 (mkPos 0 1))] 30 [] [].

(** Night; my warrior 1 (hammer) in the centre, a bazooka on the ground
    above it, an enemy with a gun next to the bazooka. *)
Definition grab_board : Host :=
  host [[person 2; weapon Bazooka; street];
        [street;   person 1;       street];
        [street;   street;         street]]
    [(1, mkCitizen Warrior Hammer 100 0 (mkPos 1 1));
     (2, mkCitizen Warrior Gun 80 1 (mkPos 0 0))] 30 [] [1].

(** Night; my warrior 1 (hammer) in the centre, a gun on the ground above it
    guarded by an enemy bazooka, and an enemy gun to the left of my warrior. *)
Definition guarded_board : Host :=
  host [[person 2; weapon Gun; street];
        [person 3; person 1;   street];
        [street;   street;     street]]
    [(1, mkCitizen Warrior Hammer 100 0 (mkPos 1 1));
     (2, mkCitizen Warrior Bazooka 80 1 (mkPos 0 0));
     (3, mkCitizen Warrior Gun 80 1 (mkPos 1 0))] 30 [] [1].


(** Night; my warrior 1 (hammer, 10 points of life) below an enemy with a
    hammer and 20 points of life. *)
Definition duel_board : Host :=
  host [[street; person 2; street];
        [street; person 1; street]]
    [(1, mkCitizen Warrior Hammer 10 0 (mkPos 1 1));
     (2, mkCitizen Warrior Hammer 20 1 (mkPos 0 1))] 30 [] [1].

(** Day; my warrior 1 two cells away from money. *)
Definition money_board : Host :=
  host [[person 1; street; bonus Money]]
    [(1, mkCitizen Warrior Hammer 100 0 (mkPos 0 0))] 3 [] [1].

(** Day; my builder 1 next to an empty cell, nothing to fetch. *)
Definition idle_board : Host :=
  host [[person 1; street]]
    [(1, mkCitizen Builder NoWeapon 60 0 (mkPos 0 0))] 3 [1] [].

(** Money at the left end, an enemy barricade of resistance 90 in the
    middle, an enemy at the right end. *)
Definition barricade_board : Host :=
  host [[bonus Money; barricade 1 90; person 1]]
    [(1, mkCitizen Builder NoWeapon 50 1 (mkPos 0 2))] 3 [] [].


(** Night; my warrior 1 (hammer) between a gun guarded by an enemy bazooka,
    above it, and a bazooka that nobody guards, below it. *)
Definition two_weapons : Host :=
  host [[person 2; weapon Gun;     street];
        [street;   person 1;       street];
        [street;   weapon Bazooka; street]]
    [(1, mkCitizen Warrior Hammer 100 0 (mkPos 1 1));
     (2, mkCitizen Warrior Bazooka 80 1 (mkPos 0 0))] 30 [] [1].

(** Night; my warrior 1 (gun) below an enemy with a hammer that stands next
    to an enemy bazooka. *)
Definition escorted_board : Host :=
  host [[person 3; person 2; street];
        [street;   person 1; street]]
    [(1, mkCitizen Warrior Gun 100 0 (mkPos 1 1));
     (2, mkCitizen Warrior Hammer 80 1 (mkPos 0 1));
     (3, mkCitizen Warrior Bazooka 80 1 (mkPos 0 0))] 30 [] [1].

(** Night; my warrior 1 (hammer) one cell away from an enemy builder. *)
Definition patrol_board : Host :=
  host [[street;   person 2; street];
        [person 1; street;   bonus Money]]
    [(1, mkCitizen Warrior Hammer 100 0 (mkPos 1 0));
     (2, mkCitizen Builder NoWeapon 60 1 (mkPos 0 1))] 30 [] [1].

(** The player after the planner ran for citizen [ID] on the fresh world. *)
Definition planned (h : Host) (ID : Z) (is_warrior : bool) : Eldar :=
  match approach_target h (world h) ID is_warrior with
  | Some (_, e) => e
  | None => world h
  end.

(** The money of [money_board] with a contender recorded at distance 3, this
    round as well as last round, while my warrior sees it at distance 5. *)
Definition contested_world : Eldar :=
  set_bonus_distances_prev
    (set_bonus_distances (world money_board) {[ mkPos 0 2 := mkBonus type_M 3 false ]})
    {[ mkPos 0 2 := mkBonus type_M 3 false ]}.

Definition contested_search : Search :=
  mkSearch [[0; 4; 5]] [[true; true; true]] pq_new Left INT_MIN None 0 contested_world.

End Scenario.

(** * The instruction buffer *)

Section Flush.
Context `{IQ : !PriorityQueue Instr Instr_less}.

(** The ordering key of an instruction. *)
Definition key (c : Instr) : Z * Z := (priority c, id c).

(** The order in which keys leave the buffer: priority descending, then
    citizen id descending. *)
Definition key_ge (k1 k2 : Z * Z) : Prop :=
  k1.1 > k2.1 \/ (k1.1 = k2.1 /\ k1.2 >= k2.2).

(** The order the specification words: priority descending, then citizen id
    ascending. *)
Definition key_ge_id_ascending (k1 k2 : Z * Z) : Prop :=
  k1.1 > k2.1 \/ (k1.1 = k2.1 /\ k1.2 <= k2.2).

(** The buffer after the instructions of [l] were added one by one. *)
Definition push_all (l : list Instr) : pq Instr Instr_less :=
  fold_left (fun q c => pq_push c q) l pq_new.

Lemma Instr_less_false a b : Instr_less a b = false <-> key_ge (key a) (key b).
Proof.
  unfold Instr_less, key_ge, key; simpl.
  destruct (priority a =? priority b) eqn:E; [apply Z.eqb_eq in E|apply Z.eqb_neq in E].
  - rewrite Z.ltb_ge. lia.
  - rewrite Z.ltb_ge. lia.
Qed.

Global Instance key_ge_antisym : AntiSymm (=) key_ge.
Proof.
  intros [p1 i1] [p2 i2]; unfold key_ge; simpl. intros H1 H2.
  f_equal; lia.
Qed.

Lemma push_all_items l : Permutation (pq_items (push_all l)) l.
Proof.
  unfold push_all.
  assert (G : forall q, Permutation (pq_items (fold_left (fun q c => pq_push c q) l q))
                          (l ++ pq_items q)).
  { induction l as [|c l IH]; intros q; simpl; [reflexivity|].
    rewrite IH, pq_push_items. symmetry. apply Permutation_middle. }
  rewrite G, pq_new_items, app_nil_r. reflexivity.
Qed.

Lemma flush_loop_spec fuel (q : pq Instr Instr_less) :
  (length (pq_items q) < fuel)%nat ->
  exists out qf, flush_loop fuel q = Some (out, qf)
    /\ pq_items qf = []
    /\ Permutation out (pq_items q)
    /\ StronglySorted (fun a b => Instr_less a b = false) out.
Proof.
  revert q. induction fuel as [|fuel IH]; intros q Hlen; [lia|].
  simpl. destruct (pq_pop q) as [[com q']|] eqn:E.
  - apply pq_pop_some in E as [Hperm Hmax].
    assert (Hl : (length (pq_items q') < fuel)%nat).
    { apply Permutation_length in Hperm. simpl in Hperm. lia. }
    destruct (IH q' Hl) as (out & qf & -> & Hqf & Hp & Hs).
    exists (com :: out), qf. split; [done|]. split; [done|]. split.
    + rewrite Hperm. by constructor.
    + constructor; [done|]. by rewrite Hp.
  - apply pq_pop_none in E. exists [], q. rewrite E. repeat split; constructor.
Qed.

Lemma flush_spec (q : pq Instr Instr_less) :
  exists out qf, flush q = Some (out, qf)
    /\ pq_items qf = []
    /\ Permutation out (pq_items q)
    /\ StronglySorted key_ge (map key out).
Proof.
  destruct (flush_loop_spec (S (length (pq_items q))) q) as (out & qf & E & Hqf & Hp & Hs); [lia|].
  exists out, qf. repeat split; try done.
  apply (StronglySorted_fmap key (fun a b => Instr_less a b = false) key_ge); [|done].
  intros a b. apply Instr_less_false.
Qed.

(** Flushing the buffer filled from [l]: it terminates, sends the
    instructions of [l], each once, and their keys leave in [key_ge] order. *)
Lemma flush_push_all (l : list Instr) :
  exists out qf, flush (push_all l) = Some (out, qf)
    /\ Permutation out l
    /\ StronglySorted key_ge (map key out).
Proof.
  destruct (flush_spec (push_all l)) as (o & q & E & _ & Hp & Hs).
  rewrite push_all_items in Hp. by exists o, q.
Qed.

(** C2 (amended): whatever the order of insertion of a given multiset of
    instructions, the flush terminates, sends every instruction exactly once,
    and the sequence of (priority, id) keys it sends is the same: sorted by
    priority descending and, among equal priorities, by citizen id
    DEscending. *)
Theorem flush_order_deterministic (l1 l2 : list Instr) :
  Permutation l1 l2 ->
  exists o1 o2 q1 q2,
    flush (push_all l1) = Some (o1, q1) /\ flush (push_all l2) = Some (o2, q2)
    /\ Permutation o1 l1 /\ Permutation o2 l2
    /\ map key o1 = map key o2
    /\ StronglySorted key_ge (map key o1).
Proof.
  intros Hperm.
  destruct (flush_push_all l1) as (o1 & q1 & E1 & Hp1 & Hs1).
  destruct (flush_push_all l2) as (o2 & q2 & E2 & Hp2 & Hs2).
  exists o1, o2, q1, q2. repeat split; try done.
  apply (StronglySorted_unique key_ge); [done|done|].
  apply Permutation_map. by rewrite Hp1, Hp2, Hperm.
Qed.

Lemma same_keys_same_list (o1 o2 : list Instr) :
  Permutation o1 o2 -> NoDup (map key o1) -> map key o1 = map key o2 -> o1 = o2.
Proof.
  revert o2. induction o1 as [|x o IH]; intros [|y o2] Hp Hnd Hk; try done.
  assert (Hxy : key x = key y) by (change (hd (key x) (map key (x :: o)) = key y); by rewrite Hk).
  assert (Hk' : map key o = map key o2) by (change (tl (map key (x :: o)) = map key o2); by rewrite Hk).
  change (NoDup (key x :: map key o)) in Hnd.
  apply NoDup_cons in Hnd as [Hx Hnd].
  assert (Hy : In y (x :: o)).
  { eapply Permutation_in; [symmetry; exact Hp|by left]. }
  destruct Hy as [->|Hy].
  - f_equal. apply IH; [by eapply Permutation_cons_inv|done|done].
  - exfalso. apply Hx. rewrite Hxy. apply list_elem_of_In. by apply in_map.
Qed.

(** Instructions with pairwise different keys (one instruction per citizen,
    as the tasks produce them) are sent in one and the same order. *)
Lemma flush_order_unique (l1 l2 : list Instr) :
  Permutation l1 l2 -> NoDup (map key l1) ->
  exists o q1 q2,
    flush (push_all l1) = Some (o, q1) /\ flush (push_all l2) = Some (o, q2).
Proof.
  intros Hperm Hnd.
  destruct (flush_push_all l1) as (o1 & q1 & E1 & Hp1 & Hs1).
  destruct (flush_push_all l2) as (o2 & q2 & E2 & Hp2 & Hs2).
  assert (Hk : map key o1 = map key o2).
  { apply (StronglySorted_unique key_ge); [done|done|].
    apply Permutation_map. by rewrite Hp1, Hp2, Hperm. }
  exists o1, q1, q2. split; [done|]. rewrite E2. do 2 f_equal.
  symmetry. apply same_keys_same_list; [|  |done].
  - by rewrite Hp1, Hp2.
  - assert (Hm : Permutation (map key o1) (map key l1)) by (by apply Permutation_map).
    by rewrite Hm.
Qed.

End Flush.

(** * Matrices: reading after writing *)

Section MatrixFacts.
Context {A : Type}.
Implicit Types (M : Matrix A) (i j n m : Z).

Lemma mdims_mnew n m (x : A) : 0 <= n -> 0 <= m -> mdims (mnew n m x) n m.
Proof.
  intros Hn Hm. unfold mdims, mnew. split.
  - rewrite length_replicate. lia.
  - apply Forall_replicate. rewrite length_replicate. lia.
Qed.

Lemma mdims_mset M i j (v : A) n m : mdims M n m -> mdims (mset M i j v) n m.
Proof.
  unfold mdims, mset. intros [Hn Hm]. case_match; [|done]. split.
  - by rewrite length_alter.
  - apply Forall_alter; [done|]. intros row _ Hrow. by rewrite length_insert.
Qed.

Lemma mget_mset_eq (d : A) M i j v n m :
  mdims M n m -> 0 <= i < n -> 0 <= j < m -> mget d (mset M i j v) i j = v.
Proof.
  unfold mdims, mget, mset. intros [Hn Hm] Hi Hj.
  assert (E : (0 <=? i) && (0 <=? j) = true) by (apply andb_true_iff; lia).
  rewrite E.
  destruct (lookup_lt_is_Some_2 M (Z.to_nat i)) as [row Hrow]; [lia|].
  rewrite list_lookup_alter_eq, Hrow. simpl.
  rewrite list_lookup_insert_eq; [done|].
  rewrite Forall_forall in Hm. specialize (Hm row).
  assert (Z.of_nat (length row) = m); [|lia].
  apply Hm. eapply list_elem_of_lookup_2. exact Hrow.
Qed.

Lemma mget_mset_ne (d : A) M i j v i' j' :
  (i, j) <> (i', j') -> mget d (mset M i j v) i' j' = mget d M i' j'.
Proof.
  unfold mget, mset. intros Hne.
  destruct ((0 <=? i') && (0 <=? j')) eqn:E'; [|done].
  destruct ((0 <=? i) && (0 <=? j)) eqn:E; [|done].
  apply andb_true_iff in E as [Hi Hj], E' as [Hi' Hj'].
  destruct (decide (Z.to_nat i = Z.to_nat i')) as [Ei|Ei].
  - rewrite Ei, list_lookup_alter_eq.
    destruct (M !! Z.to_nat i') as [row|]; simpl; [|done].
    rewrite list_lookup_insert_ne; [done|].
    intros Ej. apply Hne. f_equal; lia.
  - by rewrite list_lookup_alter_ne.
Qed.

Lemma mget_mnew (d x : A) n m i j :
  0 <= i < n -> 0 <= j < m -> mget d (mnew n m x) i j = x.
Proof.
  unfold mget, mnew. intros Hi Hj.
  assert (E : (0 <=? i) && (0 <=? j) = true) by (apply andb_true_iff; lia).
  rewrite E, lookup_replicate_2 by lia. simpl.
  by rewrite lookup_replicate_2 by lia.
Qed.

End MatrixFacts.

(** ** Sums over a matrix *)

Definition rsum {A} (f : A -> Z) (row : list A) : Z := foldr (fun x a => f x + a) 0 row.

Definition msum {A} (f : A -> Z) (M : Matrix A) : Z := foldr (fun row a => rsum f row + a) 0 M.

Section MatrixSums.
Context {A : Type} (f : A -> Z).
Implicit Types (M : Matrix A) (row : list A) (i j n m : Z).

Lemma rsum_insert row k v x :
  row !! k = Some x -> rsum f (<[k := v]> row) = rsum f row - f x + f v.
Proof.
  revert k. induction row as [|y row IH]; intros [|k] Hk; simpl in *; simplify_eq.
  - lia.
  - change (list_insert k v row) with (<[k := v]> row). rewrite (IH k Hk). lia.
Qed.

Lemma rsum_replicate k (x : A) : rsum f (replicate k x) = Z.of_nat k * f x.
Proof. induction k as [|k IH]; simpl; [lia|]. rewrite IH. lia. Qed.

Lemma rsum_bounds row lo hi :
  (forall x, lo <= f x <= hi) ->
  Z.of_nat (length row) * lo <= rsum f row <= Z.of_nat (length row) * hi.
Proof.
  intros Hf. induction row as [|y row IH]; simpl; [lia|].
  specialize (Hf y). lia.
Qed.

Lemma msum_alter M k (g : list A -> list A) row :
  M !! k = Some row -> msum f (alter g k M) = msum f M - rsum f row + rsum f (g row).
Proof.
  revert k. induction M as [|r M IH]; intros [|k] Hk; simpl in *; simplify_eq.
  - lia.
  - change (list_alter g k M) with (alter g k M). rewrite (IH k Hk). lia.
Qed.

Lemma msum_mnew n m (x : A) : 0 <= n -> 0 <= m -> msum f (mnew n m x) = n * m * f x.
Proof.
  intros Hn Hm. unfold mnew.
  assert (G : forall k row, msum f (replicate k row) = Z.of_nat k * rsum f row).
  { induction k as [|k IH]; intros row; simpl; [lia|]. rewrite IH. lia. }
  rewrite G, rsum_replicate. rewrite !Z2Nat.id by lia. lia.
Qed.

Definition inside n m i j : Prop := 0 <= i < n /\ 0 <= j < m.

Lemma mdims_lookup M n m i j :
  mdims M n m -> inside n m i j ->
  exists row x, M !! Z.to_nat i = Some row /\ row !! Z.to_nat j = Some x.
Proof.
  intros [Hn Hm] [Hi Hj].
  destruct (lookup_lt_is_Some_2 M (Z.to_nat i)) as [row Hrow]; [lia|].
  assert (Hlen : Z.of_nat (length row) = m).
  { rewrite Forall_forall in Hm. apply Hm. by eapply list_elem_of_lookup_2. }
  destruct (lookup_lt_is_Some_2 row (Z.to_nat j)) as [x Hx]; [lia|].
  by exists row, x.
Qed.

Lemma msum_mset_inside (d : A) M n m i j v :
  mdims M n m -> inside n m i j ->
  msum f (mset M i j v) = msum f M - f (mget d M i j) + f v.
Proof.
  intros Hd Hin. destruct (mdims_lookup M n m i j Hd Hin) as (row & x & Hrow & Hx).
  destruct Hin as [Hi Hj]. unfold mset, mget.
  assert (E : (0 <=? i) && (0 <=? j) = true) by (apply andb_true_iff; lia).
  rewrite E, Hrow, Hx. simpl.
  rewrite (msum_alter M _ _ row Hrow), (rsum_insert row _ v x Hx). lia.
Qed.

Lemma mset_outside M n m i j v : mdims M n m -> ~ inside n m i j -> mset M i j v = M.
Proof.
  intros [Hn Hm] Hout. unfold mset.
  destruct ((0 <=? i) && (0 <=? j)) eqn:E; [|done].
  apply andb_true_iff in E as [Hi Hj].
  destruct (M !! Z.to_nat i) as [row|] eqn:Hrow.
  - apply list_eq. intros k. destruct (decide (k = Z.to_nat i)) as [->|Hne].
    + rewrite list_lookup_alter_eq, Hrow. simpl. f_equal.
      apply list_insert_ge.
      assert (Hlen : Z.of_nat (length row) = m).
      { rewrite Forall_forall in Hm. apply Hm. by eapply list_elem_of_lookup_2. }
      apply lookup_lt_Some in Hrow. unfold inside in Hout. lia.
    + by rewrite list_lookup_alter_ne.
  - apply list_eq. intros k. destruct (decide (k = Z.to_nat i)) as [->|Hne].
    + by rewrite list_lookup_alter_eq, Hrow.
    + by rewrite list_lookup_alter_ne.
Qed.

Lemma mget_outside (d : A) M n m i j : mdims M n m -> ~ inside n m i j -> mget d M i j = d.
Proof.
  intros [Hn Hm] Hout. unfold mget.
  destruct ((0 <=? i) && (0 <=? j)) eqn:E; [|done].
  apply andb_true_iff in E as [Hi Hj].
  destruct (M !! Z.to_nat i) as [row|] eqn:Hrow; [|done].
  assert (Hlen : Z.of_nat (length row) = m).
  { rewrite Forall_forall in Hm. apply Hm. by eapply list_elem_of_lookup_2. }
  apply lookup_lt_Some in Hrow.
  rewrite lookup_ge_None_2; [done|]. unfold inside in Hout. lia.
Qed.

Lemma msum_bounds M n m lo hi :
  mdims M n m -> (forall x, lo <= f x <= hi) -> lo <= 0 <= hi ->
  0 <= n -> 0 <= m ->
  n * m * lo <= msum f M <= n * m * hi.
Proof.
  intros [Hn Hm] Hf H0 Hn0 Hm0. subst n.
  induction M as [|row M IH]; simpl; [lia|].
  apply Forall_cons in Hm as [Hrow Hm]. specialize (IH Hm ltac:(lia)).
  pose proof (rsum_bounds row lo hi Hf) as Hr. rewrite Hrow in Hr.
  rewrite Nat2Z.inj_succ. nia.
Qed.

End MatrixSums.

(** The cells of an [n] x [m] grid in the order of the double loop. *)
Definition cells (n m : Z) : list (Z * Z) :=
  i ← seqZ 0 n; (fun j => (i, j)) <$> seqZ 0 m.

Lemma for_cells_cells {S : Type} n m (body : S -> Z -> Z -> S) (s : S) :
  for_cells n m body s = fold_left (fun s p => body s p.1 p.2) (cells n m) s.
Proof.
  unfold for_cells, cells. revert s.
  induction (seqZ 0 n) as [|i l IH]; intros s; simpl; [done|].
  rewrite fold_left_app, <- IH. f_equal.
  generalize (seqZ 0 m). intros js. revert s.
  induction js as [|j js IHj]; intros s; simpl; [done|]. apply IHj.
Qed.

Lemma elem_of_cells n m i j : (i, j) ∈ cells n m <-> 0 <= i < n /\ 0 <= j < m.
Proof.
  unfold cells. rewrite list_elem_of_bind. split.
  - intros (i' & Hj & Hi). apply list_elem_of_fmap in Hj as (j' & [= -> ->] & Hj).
    apply elem_of_seqZ in Hi, Hj. lia.
  - intros [Hi Hj]. exists i. split; [|apply elem_of_seqZ; lia].
    apply list_elem_of_fmap. exists j. split; [done|apply elem_of_seqZ; lia].
Qed.

(** * The world model: [build_board] *)

Section WorldModel.
Context `{IQ : !PriorityQueue Instr Instr_less}.
Context `{VQ : !PriorityQueue Vertex Vertex_less}.
Variable h : Host.

(** The host's view of a cell, as [build_board] reads it: the enemy standing
    there, if the cell is classified as an enemy. *)
Definition enemy_at (i j : Z) : option Citizen :=
  let c := cell h i j in
  if bool_decide (c_type c = Building) then None
  else if bool_decide (c_bonus c = Food) then None
  else if bool_decide (c_bonus c = Money) then None
  else if bool_decide (c_weapon c = Gun) then None
  else if bool_decide (c_weapon c = Bazooka) then None
  else if negb (c_id c =? -1) then
    let cit := citizen h (c_id c) in
    if cit_player cit =? me h then None else Some cit
  else None.

(** The code [build_board] stores in [Board] for a cell. *)
Definition terrain (i j : Z) : Z :=
  let c := cell h i j in
  if bool_decide (c_type c = Building) then WALL
  else if bool_decide (c_bonus c = Food) then FOOD
  else if bool_decide (c_bonus c = Money) then MONEY
  else if bool_decide (c_weapon c = Gun) then GUN
  else if bool_decide (c_weapon c = Bazooka) then BAZOOKA
  else if negb (c_id c =? -1) then
    let cit := citizen h (c_id c) in
    if cit_player cit =? me h then FRIENDLY_CITIZEN else enemy_code cit
  else EMPTY.

(** The threat halo as the specification words it: the tier of the strongest
    enemy orthogonally adjacent to [p] in the terrain matrix [B] (enemy tiers
    are negative and decrease with strength), or zero if there is none. *)
Definition adjacent_enemy_tier (B : Matrix Z) (q : Pos) : Z :=
  if pos_ok h q && (mget 0 B (pi q) (pj q) <=? ENEMY_BUILDER)
  then mget 0 B (pi q) (pj q) else 0.

Definition threat_halo (B : Matrix Z) (p : Pos) : Z :=
  fold_left (fun acc d => Z.min acc (adjacent_enemy_tier B (pos_add p d))) Directions 0.

(** The player's sizes and matrices agree with the host's grid, as they do
    from [initialize] on. *)
Definition sized (e : Eldar) : Prop :=
  sz_n e = board_rows h /\ sz_m e = board_cols h
  /\ mdims (Board e) (board_rows h) (board_cols h)
  /\ mdims (Board_Enemy e) (board_rows h) (board_cols h)
  /\ mdims (Board_Barricades e) (board_rows h) (board_cols h).

Definition in_grid (i j : Z) : Prop :=
  0 <= i < board_rows h /\ 0 <= j < board_cols h.

Lemma pos_ok_in_grid i j : pos_ok h (mkPos i j) = true <-> in_grid i j.
Proof.
  unfold pos_ok, in_grid; simpl.
  rewrite !andb_true_iff, !Z.leb_le, !Z.ltb_lt. lia.
Qed.

Lemma enemy_code_range cit : -6 <= enemy_code cit <= -3.
Proof.
  unfold enemy_code, ENEMY_BUILDER, ENEMY_HAMMER, ENEMY_GUN, ENEMY_BAZOOKA.
  repeat case_bool_decide; lia.
Qed.

Lemma terrain_enemy i j :
  match enemy_at i j with
  | Some cit => terrain i j = enemy_code cit
  | None => ENEMY_BUILDER < terrain i j
  end.
Proof.
  unfold enemy_at, terrain, ENEMY_BUILDER, WALL, FOOD, MONEY, GUN, BAZOOKA,
    FRIENDLY_CITIZEN, EMPTY.
  repeat (case_bool_decide || case_match); simplify_eq/=; try lia; done.
Qed.

Lemma bonus_insert_fields (e : Eldar) p c :
  sz_n (bonus_insert e p c) = sz_n e /\ sz_m (bonus_insert e p c) = sz_m e
  /\ Board (bonus_insert e p c) = Board e
  /\ Board_Enemy (bonus_insert e p c) = Board_Enemy e
  /\ Board_Barricades (bonus_insert e p c) = Board_Barricades e
  /\ num_barricades (bonus_insert e p c) = num_barricades e
  /\ instruction_buffer (bonus_insert e p c) = instruction_buffer e
  /\ cur_odd (bonus_insert e p c) = cur_odd e.
Proof.
  unfold bonus_insert, set_bonus_distances.
  destruct (bonus_distances e !! p); [done|]. by destruct (cur_odd e).
Qed.

(** What one iteration of the double loop does to the three matrices. *)
Lemma build_cell_Board (e : Eldar) i j :
  Board (build_cell h e i j) = mset (Board e) i j (terrain i j).
Proof.
  unfold build_cell, terrain.
  repeat (case_bool_decide || case_match); simpl;
    rewrite ?(proj1 (proj2 (proj2 (bonus_insert_fields _ _ _)))); done.
Qed.

Lemma build_cell_sz (e : Eldar) i j :
  sz_n (build_cell h e i j) = sz_n e /\ sz_m (build_cell h e i j) = sz_m e.
Proof.
  unfold build_cell.
  repeat (case_bool_decide || case_match); simpl;
    rewrite ?(proj1 (bonus_insert_fields _ _ _)),
            ?(proj1 (proj2 (bonus_insert_fields _ _ _))); done.
Qed.

Definition danger_zone (BE : Matrix Z) (i j : Z) (cit : Citizen) : Matrix Z :=
  let enemy := enemy_code cit in
  let BE := mset BE i j (wrap_char (cit_life cit)) in
  let BE := update_danger_at h BE (i - 1) j enemy in
  let BE := update_danger_at h BE (i + 1) j enemy in
  let BE := update_danger_at h BE i (j - 1) enemy in
  update_danger_at h BE i (j + 1) enemy.

Lemma build_cell_Board_Enemy (e : Eldar) i j :
  Board_Enemy (build_cell h e i j) =
  match enemy_at i j with
  | Some cit => danger_zone (Board_Enemy e) i j cit
  | None => Board_Enemy e
  end.
Proof.
  unfold build_cell, enemy_at, danger_zone.
  repeat (case_bool_decide || case_match); simplify_eq/=;
    rewrite ?(proj1 (proj2 (proj2 (proj2 (bonus_insert_fields _ _ _))))); done.
Qed.

Lemma build_cell_Board_Barricades_dims (e : Eldar) i j n m :
  mdims (Board_Barricades e) n m -> mdims (Board_Barricades (build_cell h e i j)) n m.
Proof.
  unfold build_cell. intros Hd.
  repeat (case_bool_decide || case_match); simpl;
    rewrite ?(proj1 (proj2 (proj2 (proj2 (proj2 (bonus_insert_fields _ _ _))))));
    by apply mdims_mset.
Qed.

Lemma update_danger_at_dims BE i j t n m :
  mdims BE n m -> mdims (update_danger_at h BE i j t) n m.
Proof. unfold update_danger_at. intros. case_match; [by apply mdims_mset|done]. Qed.

Lemma mget_update_danger_at_ne BE i j t i' j' :
  (i, j) <> (i', j') -> mget 0 (update_danger_at h BE i j t) i' j' = mget 0 BE i' j'.
Proof. unfold update_danger_at. intros. case_match; [by apply mget_mset_ne|done]. Qed.

Lemma mget_update_danger_at_eq BE i j t :
  mdims BE (board_rows h) (board_cols h) -> in_grid i j ->
  mget 0 (update_danger_at h BE i j t) i j = update_danger (mget 0 BE i j) t.
Proof.
  unfold update_danger_at. intros Hd Hg.
  rewrite (proj2 (pos_ok_in_grid i j) Hg).
  destruct Hg. by eapply mget_mset_eq.
Qed.

Lemma danger_zone_dims BE i j cit n m :
  mdims BE n m -> mdims (danger_zone BE i j cit) n m.
Proof.
  intros. unfold danger_zone. by repeat apply update_danger_at_dims; apply mdims_mset.
Qed.

(** The four cells next to [(i, j)]. *)
Definition nbrs (c : Z * Z) : list (Z * Z) :=
  [(c.1 - 1, c.2); (c.1 + 1, c.2); (c.1, c.2 - 1); (c.1, c.2 + 1)].

Lemma elem_of_nbrs c p :
  p ∈ nbrs c <->
  (p.1 = c.1 - 1 /\ p.2 = c.2) \/ (p.1 = c.1 + 1 /\ p.2 = c.2)
  \/ (p.1 = c.1 /\ p.2 = c.2 - 1) \/ (p.1 = c.1 /\ p.2 = c.2 + 1).
Proof.
  destruct c as [ci cj], p as [p1 p2]. unfold nbrs; simpl.
  rewrite !elem_of_cons, elem_of_nil.
  split.
  - intros H; destruct_or!; simplify_eq; tauto.
  - intros [[-> ->]|[[-> ->]|[[-> ->]|[-> ->]]]]; tauto.
Qed.

Lemma nbrs_sym c p : p ∈ nbrs c <-> c ∈ nbrs p.
Proof. rewrite !elem_of_nbrs. lia. Qed.

(** The cell of the enemy keeps its health; a neighbour inside the grid gets
    one [update_danger]; every other cell is untouched. *)
Lemma mget_danger_zone_self BE i j cit :
  mdims BE (board_rows h) (board_cols h) -> in_grid i j ->
  mget 0 (danger_zone BE i j cit) i j = wrap_char (cit_life cit).
Proof.
  intros Hd [Hi Hj]. unfold danger_zone.
  rewrite !mget_update_danger_at_ne by (intros [=]; lia).
  by eapply mget_mset_eq.
Qed.

Lemma mget_danger_zone_nbr BE i j cit i' j' :
  mdims BE (board_rows h) (board_cols h) -> in_grid i' j' ->
  (i', j') ∈ nbrs (i, j) ->
  mget 0 (danger_zone BE i j cit) i' j' = update_danger (mget 0 BE i' j') (enemy_code cit).
Proof.
  intros Hd Hg Hn. unfold danger_zone.
  assert (Hd' : mdims (mset BE i j (wrap_char (cit_life cit))) (board_rows h) (board_cols h))
    by (by apply mdims_mset).
  assert (Hself : mget 0 (mset BE i j (wrap_char (cit_life cit))) i' j' = mget 0 BE i' j').
  { apply mget_mset_ne. intros [= -> ->]. unfold nbrs in Hn; simpl in Hn.
    rewrite !elem_of_cons, elem_of_nil in Hn. destruct_or!; simplify_eq; lia. }
  unfold nbrs in Hn; simpl in Hn. rewrite !elem_of_cons, elem_of_nil in Hn.
  destruct Hn as [Hn|[Hn|[Hn|[Hn|[]]]]]; injection Hn as -> ->.
  - rewrite !mget_update_danger_at_ne by (intros [=]; lia).
    rewrite mget_update_danger_at_eq, Hself; done.
  - rewrite !(mget_update_danger_at_ne _ i) by (intros [=]; lia).
    rewrite mget_update_danger_at_eq; [|by apply update_danger_at_dims|done].
    rewrite mget_update_danger_at_ne by (intros [=]; lia). by rewrite Hself.
  - rewrite mget_update_danger_at_ne by (intros [=]; lia).
    rewrite mget_update_danger_at_eq; [|by repeat apply update_danger_at_dims|done].
    rewrite !mget_update_danger_at_ne by (intros [=]; lia). by rewrite Hself.
  - rewrite mget_update_danger_at_eq; [|by repeat apply update_danger_at_dims|done].
    rewrite !mget_update_danger_at_ne by (intros [=]; lia). by rewrite Hself.
Qed.

Lemma mget_danger_zone_other BE i j cit i' j' :
  (i', j') <> (i, j) -> (i', j') ∉ nbrs (i, j) ->
  mget 0 (danger_zone BE i j cit) i' j' = mget 0 BE i' j'.
Proof.
  intros Hne Hn. unfold danger_zone.
  unfold nbrs in Hn; simpl in Hn. rewrite !not_elem_of_cons in Hn.
  destruct Hn as (H1 & H2 & H3 & H4 & _).
  rewrite !mget_update_danger_at_ne by congruence.
  apply mget_mset_ne. congruence.
Qed.

(** A loop over a duplicate-free list keeps an invariant that is indexed by
    the elements already treated. *)
Lemma fold_left_prefix_inv {S X : Type} (f : S -> X -> S) (I : list X -> S -> Prop) l s :
  NoDup l -> I [] s ->
  (forall done x s, I done s -> x ∉ done -> x ∈ l -> I (done ++ [x]) (f s x)) ->
  I l (fold_left f l s).
Proof.
  intros Hnd H0 Hstep.
  assert (G : forall todo done s, done ++ todo = l -> I done s ->
                I (done ++ todo) (fold_left f todo s)).
  { induction todo as [|x todo IH]; intros done s' El Hs; simpl.
    - by rewrite app_nil_r.
    - rewrite cons_middle, app_assoc. apply IH.
      + by rewrite <- app_assoc.
      + apply Hstep; [done| |].
        * rewrite <- El in Hnd. apply NoDup_app in Hnd as (_ & Hd & _).
          intros Hx. apply (Hd x Hx). left.
        * rewrite <- El. apply elem_of_app. right. left. }
  apply (G l [] s); done.
Qed.

Lemma NoDup_cells n m : NoDup (cells n m).
Proof.
  unfold cells. generalize (NoDup_seqZ 0 n). generalize (seqZ 0 n). intros l.
  induction l as [|i l IH]; intros Hnd; csimpl; [constructor|].
  apply NoDup_cons in Hnd as [Hi Hnd].
  apply NoDup_app. split; [|split; [|by apply IH]].
  - apply (NoDup_fmap_2 _). apply NoDup_seqZ.
  - intros [a b] Ha Hb. apply list_elem_of_fmap in Ha as (j & [= -> ->] & _).
    apply list_elem_of_bind in Hb as (i' & Hb & Hi').
    apply list_elem_of_fmap in Hb as (j' & [= <- _] & _). done.
Qed.

(** The invariant of the double loop on [Board]. *)
Definition board_inv (done : list (Z * Z)) (B : Matrix Z) : Prop :=
  mdims B (board_rows h) (board_cols h)
  /\ forall i j, (i, j) ∈ done -> in_grid i j -> mget 0 B i j = terrain i j.

(** The invariant of the double loop on [Board_Enemy]: a cell that holds no
    enemy carries the least code among its neighbours treated so far that
    hold an enemy (or zero), a treated enemy cell carries the health of its
    enemy. *)
Record halo_inv (done : list (Z * Z)) (BE : Matrix Z) : Prop := {
  hi_dims : mdims BE (board_rows h) (board_cols h);
  hi_le0 : forall i j, in_grid i j -> enemy_at i j = None -> mget 0 BE i j <= 0;
  hi_le : forall i j q cit, in_grid i j -> enemy_at i j = None ->
    q ∈ nbrs (i, j) -> q ∈ done -> enemy_at q.1 q.2 = Some cit ->
    mget 0 BE i j <= enemy_code cit;
  hi_attained : forall i j, in_grid i j -> enemy_at i j = None ->
    mget 0 BE i j = 0 \/
    exists q cit, q ∈ nbrs (i, j) /\ q ∈ done /\ in_grid q.1 q.2
      /\ enemy_at q.1 q.2 = Some cit /\ mget 0 BE i j = enemy_code cit;
  hi_enemy : forall i j cit, (i, j) ∈ done -> in_grid i j ->
    enemy_at i j = Some cit -> 0 < wrap_char (cit_life cit) ->
    mget 0 BE i j = wrap_char (cit_life cit)
}.

Lemma update_danger_min c t : c <= 0 -> update_danger c t = Z.min c t.
Proof.
  intros Hc. unfold update_danger.
  destruct (c >? 0) eqn:E1; [lia|]. destruct (c <=? t) eqn:E2; simpl; lia.
Qed.

Lemma update_danger_health c t : 0 < c -> update_danger c t = c.
Proof. intros Hc. unfold update_danger. destruct (c >? 0) eqn:E1; [done|lia]. Qed.

Local Ltac halo_witness :=
  repeat split;
  first [ done
        | by apply nbrs_sym
        | by (apply elem_of_app; left)
        | by (apply elem_of_app; right; left)
        | (unfold in_grid in *; simpl in *; lia) ].

Lemma halo_inv_step done BE ci cj :
  halo_inv done BE -> in_grid ci cj -> (ci, cj) ∉ done ->
  halo_inv (done ++ [(ci, cj)])
    (match enemy_at ci cj with
     | Some cit => danger_zone BE ci cj cit
     | None => BE
     end).
Proof.
  intros [Hd H0 Hle Hat Hen] Hc Hnew.
  destruct (enemy_at ci cj) as [citc|] eqn:Ec.
  - pose proof (enemy_code_range citc) as Hr.
    assert (Hval : forall i j, in_grid i j -> (i, j) <> (ci, cj) ->
              mget 0 (danger_zone BE ci cj citc) i j =
              if decide ((i, j) ∈ nbrs (ci, cj))
              then update_danger (mget 0 BE i j) (enemy_code citc)
              else mget 0 BE i j).
    { intros i j Hg Hne. case_decide.
      - by apply mget_danger_zone_nbr.
      - by apply mget_danger_zone_other. }
    split.
    + by apply danger_zone_dims.
    + intros i j Hg He. rewrite Hval by congruence.
      specialize (H0 i j Hg He). case_decide; [|done].
      rewrite update_danger_min by done. lia.
    + intros i j q cit Hg He Hq Hqd Heq. rewrite Hval by congruence.
      specialize (H0 i j Hg He).
      apply elem_of_app in Hqd as [Hqd|Hqd].
      * specialize (Hle i j q cit Hg He Hq Hqd Heq).
        case_decide; [|done]. rewrite update_danger_min by done. lia.
      * apply list_elem_of_singleton in Hqd as ->. simpl in Heq.
        rewrite Ec in Heq. injection Heq as <-.
        rewrite decide_True by (by apply nbrs_sym).
        rewrite update_danger_min by done. lia.
    + intros i j Hg He. rewrite Hval by congruence.
      specialize (H0 i j Hg He).
      destruct (Hat i j Hg He) as [Hz|(q & cit & Hq & Hqd & Hqg & Heq & Hv)].
      * case_decide; [|by left].
        rewrite update_danger_min, Hz by done.
        right. exists (ci, cj), citc. halo_witness.
      * case_decide.
        -- rewrite update_danger_min by done.
           destruct (Z.min_spec (mget 0 BE i j) (enemy_code citc)) as [[_ ->]|[_ ->]].
           ++ right. exists q, cit. halo_witness.
           ++ right. exists (ci, cj), citc. halo_witness.
        -- right. exists q, cit. halo_witness.
    + intros i j cit Hin Hg He Hpos.
      apply elem_of_app in Hin as [Hin|Hin].
      * assert (Hne : (i, j) <> (ci, cj)) by (intros [= -> ->]; done).
        rewrite Hval by done.
        specialize (Hen i j cit Hin Hg He Hpos).
        case_decide; [|done]. rewrite update_danger_health; lia.
      * apply list_elem_of_singleton in Hin. injection Hin as -> ->.
        rewrite Ec in He. injection He as <-.
        by apply mget_danger_zone_self.
  - split; [done|done| | |].
    + intros i j q cit Hg He Hq Hqd Heq.
      apply elem_of_app in Hqd as [Hqd|Hqd]; [by eapply Hle|].
      apply list_elem_of_singleton in Hqd as ->. simpl in Heq. congruence.
    + intros i j Hg He.
      destruct (Hat i j Hg He) as [Hz|(q & cit & Hq & Hqd & Hqg & Heq & Hv)]; [by left|].
      right. exists q, cit. halo_witness.
    + intros i j cit Hin Hg He Hpos.
      apply elem_of_app in Hin as [Hin|Hin]; [by apply Hen|].
      apply list_elem_of_singleton in Hin. injection Hin as -> ->. congruence.
Qed.

(** The first double loop of [build_board] clears [Board_Enemy]. *)
Lemma clear_enemy_spec (e : Eldar) :
  sized e ->
  let e' := for_cells (sz_n e) (sz_m e)
              (fun e i j => set_Board_Enemy e (mset (Board_Enemy e) i j 0)) e in
  sized e' /\ Board e' = Board e /\ Board_Barricades e' = Board_Barricades e
  /\ forall i j, in_grid i j -> mget 0 (Board_Enemy e') i j = 0.
Proof.
  intros (Hn & Hm & HB & HE & HR). cbv zeta. rewrite for_cells_cells, Hn, Hm.
  set (I := fun (done : list (Z * Z)) (e' : Eldar) =>
    sz_n e' = board_rows h /\ sz_m e' = board_cols h
    /\ Board e' = Board e /\ Board_Barricades e' = Board_Barricades e
    /\ mdims (Board_Enemy e') (board_rows h) (board_cols h)
    /\ forall i j, (i, j) ∈ done -> in_grid i j -> mget 0 (Board_Enemy e') i j = 0).
  assert (HI : I (cells (board_rows h) (board_cols h))
                 (fold_left (fun s p => set_Board_Enemy s (mset (Board_Enemy s) p.1 p.2 0))
                    (cells (board_rows h) (board_cols h)) e)).
  { apply (fold_left_prefix_inv _ I).
    - apply NoDup_cells.
    - unfold I. split_and!; try done. intros i j Hin. by apply elem_of_nil in Hin.
    - intros done [ci cj] s (H1 & H2 & H3 & H4 & H5 & H6) _ Hc.
      apply elem_of_cells in Hc. unfold I; simpl.
      split_and!; try done; try (by apply mdims_mset).
      intros i j Hin Hg. apply elem_of_app in Hin as [Hin|Hin].
      + destruct (decide ((ci, cj) = (i, j))) as [[= -> ->]|Hne].
        * eapply mget_mset_eq; [exact H5|lia|lia].
        * rewrite mget_mset_ne by done. by apply H6.
      + apply list_elem_of_singleton in Hin. injection Hin as -> ->.
        eapply mget_mset_eq; [exact H5|lia|lia]. }
  destruct HI as (H1 & H2 & H3 & H4 & H5 & H6).
  split; [|split; [done|split; [done|]]].
  - unfold sized. rewrite H3, H4. done.
  - intros i j Hg. apply H6; [|done]. by apply elem_of_cells.
Qed.

(** The second double loop fills the matrices. *)
Lemma fill_spec (e : Eldar) :
  sized e -> (forall i j, in_grid i j -> mget 0 (Board_Enemy e) i j = 0) ->
  let e' := for_cells (sz_n e) (sz_m e) (build_cell h) e in
  sized e'
  /\ board_inv (cells (board_rows h) (board_cols h)) (Board e')
  /\ halo_inv (cells (board_rows h) (board_cols h)) (Board_Enemy e').
Proof.
  intros (Hn & Hm & HB & HE & HR) Hzero. cbv zeta. rewrite for_cells_cells, Hn, Hm.
  set (I := fun (done : list (Z * Z)) (e' : Eldar) =>
    sz_n e' = board_rows h /\ sz_m e' = board_cols h
    /\ mdims (Board_Barricades e') (board_rows h) (board_cols h)
    /\ board_inv done (Board e') /\ halo_inv done (Board_Enemy e')).
  assert (HI : I (cells (board_rows h) (board_cols h))
                 (fold_left (fun s p => build_cell h s p.1 p.2)
                    (cells (board_rows h) (board_cols h)) e)).
  { apply (fold_left_prefix_inv _ I).
    - apply NoDup_cells.
    - unfold I. split_and!; try done.
      + split; [done|]. intros i j Hin. by apply elem_of_nil in Hin.
      + split; [done| | | |].
        * intros i j Hg _. rewrite Hzero; done.
        * intros i j q cit _ _ _ Hin. by apply elem_of_nil in Hin.
        * intros i j Hg _. left. by apply Hzero.
        * intros i j cit Hin. by apply elem_of_nil in Hin.
    - intros done [ci cj] s (H1 & H2 & H3 & [H4 H4'] & H5) Hnew Hc.
      apply elem_of_cells in Hc. unfold I; simpl.
      destruct (build_cell_sz s ci cj) as [-> ->].
      rewrite build_cell_Board, build_cell_Board_Enemy.
      split; [done|]. split; [done|]. split; [by apply build_cell_Board_Barricades_dims|].
      split; [|by apply halo_inv_step].
      split; [by apply mdims_mset|].
      intros i j Hin Hg. apply elem_of_app in Hin as [Hin|Hin].
      + destruct (decide ((ci, cj) = (i, j))) as [[= -> ->]|Hne].
        * eapply mget_mset_eq; [exact H4|lia|lia].
        * rewrite mget_mset_ne by done. by apply H4'.
      + apply list_elem_of_singleton in Hin. injection Hin as -> ->.
        eapply mget_mset_eq; [exact H4|lia|lia]. }
  destruct HI as (H1 & H2 & H3 & H4 & H5).
  split; [|done]. unfold sized. split_and!; try done; [apply H4|apply H5].
Qed.

Lemma set_bonus_distances_fields (e : Eldar) m :
  sz_n (set_bonus_distances e m) = sz_n e /\ sz_m (set_bonus_distances e m) = sz_m e
  /\ Board (set_bonus_distances e m) = Board e
  /\ Board_Enemy (set_bonus_distances e m) = Board_Enemy e
  /\ Board_Barricades (set_bonus_distances e m) = Board_Barricades e
  /\ num_barricades (set_bonus_distances e m) = num_barricades e
  /\ instruction_buffer (set_bonus_distances e m) = instruction_buffer e
  /\ cur_odd (set_bonus_distances e m) = cur_odd e.
Proof. unfold set_bonus_distances. by destruct (cur_odd e). Qed.

Lemma sized_set_bonus_distances (e : Eldar) m : sized e -> sized (set_bonus_distances e m).
Proof.
  unfold sized. destruct (set_bonus_distances_fields e m) as (-> & -> & -> & -> & -> & _). done.
Qed.

Lemma build_matrices_spec (e : Eldar) :
  sized e ->
  sized (build_matrices h e)
  /\ board_inv (cells (board_rows h) (board_cols h)) (Board (build_matrices h e))
  /\ halo_inv (cells (board_rows h) (board_cols h)) (Board_Enemy (build_matrices h e)).
Proof.
  intros Hs. unfold build_matrices. cbv zeta.
  pose proof (sized_set_bonus_distances e ∅ Hs) as Hs1.
  set (e1 := set_bonus_distances e ∅) in *.
  destruct (clear_enemy_spec e1 Hs1) as (Hs2 & _ & _ & Hz). cbv zeta in Hs2, Hz.
  set (e2 := for_cells (sz_n e1) (sz_m e1) _ e1) in *.
  by apply fill_spec.
Qed.

(** The terrain matrix is the classification of the host's cells. *)
Lemma build_board_Board (e : Eldar) i j :
  sized e -> in_grid i j -> mget 0 (Board (build_board h e)) i j = terrain i j.
Proof.
  intros Hs Hg. unfold build_board.
  destruct (set_bonus_distances_fields (build_matrices h e)
    (map_imap (fun p info => compute_closest h (build_matrices h e) p info)
       (bonus_distances (build_matrices h e)))) as (_ & _ & -> & _).
  destruct (build_matrices_spec e Hs) as (_ & [_ HB] & _).
  apply HB; [|done]. by apply elem_of_cells.
Qed.

Lemma build_board_Board_Enemy (e : Eldar) :
  Board_Enemy (build_board h e) = Board_Enemy (build_matrices h e).
Proof.
  unfold build_board.
  by destruct (set_bonus_distances_fields (build_matrices h e)
    (map_imap (fun p info => compute_closest h (build_matrices h e) p info)
       (bonus_distances (build_matrices h e)))) as (_ & _ & _ & -> & _).
Qed.

Lemma build_board_sized (e : Eldar) : sized e -> sized (build_board h e).
Proof.
  intros Hs. unfold build_board. apply sized_set_bonus_distances.
  by apply build_matrices_spec.
Qed.

Lemma adjacent_enemy_tier_built (e : Eldar) q1 q2 :
  sized e ->
  adjacent_enemy_tier (Board (build_board h e)) (mkPos q1 q2) =
  if pos_ok h (mkPos q1 q2) then
    match enemy_at q1 q2 with Some cit => enemy_code cit | None => 0 end
  else 0.
Proof.
  intros Hs. unfold adjacent_enemy_tier. simpl.
  destruct (pos_ok h (mkPos q1 q2)) eqn:Hok; [|done]. simpl.
  apply pos_ok_in_grid in Hok. rewrite build_board_Board by done.
  pose proof (terrain_enemy q1 q2) as Ht.
  destruct (enemy_at q1 q2) as [cit|].
  - pose proof (enemy_code_range cit). rewrite Ht.
    unfold ENEMY_BUILDER. case_match; [done|lia].
  - unfold ENEMY_BUILDER in *. case_match; [lia|done].
Qed.

(** C3 (amended): after [build_board], in every cell of the grid that does
    not itself hold an enemy, [Board_Enemy] is the tier of the strongest
    enemy orthogonally adjacent to it in [Board], or zero if there is none; a
    cell that holds an enemy carries that enemy's (positive) health instead;
    and the merge [update_danger] is a minimum on enemy codes, so a stronger
    neighbour's value is never replaced by a weaker one. *)
Theorem build_board_threat_halo (e : Eldar) (p : Pos) :
  sized e -> pos_ok h p = true ->
  (ENEMY_BUILDER < board (build_board h e) p ->
     board_enemy (build_board h e) p = threat_halo (Board (build_board h e)) p)
  /\ (board (build_board h e) p <= ENEMY_BUILDER ->
      exists cit, enemy_at (pi p) (pj p) = Some cit
        /\ board (build_board h e) p = enemy_code cit
        /\ (0 < wrap_char (cit_life cit) ->
            board_enemy (build_board h e) p = wrap_char (cit_life cit)))
  /\ (forall cell enemy, cell <= 0 -> update_danger cell enemy = Z.min cell enemy).
Proof.
  intros Hs Hok. destruct p as [i j].
  pose proof (proj1 (pos_ok_in_grid i j) Hok) as Hg.
  destruct (build_matrices_spec e Hs) as (_ & _ & [Hd H0 Hle Hat Hen]).
  pose proof (terrain_enemy i j) as Ht.
  unfold board, board_enemy; simpl.
  rewrite build_board_Board, build_board_Board_Enemy by done.
  split; [|split; [|apply update_danger_min]].
  - intros Hfree.
    destruct (enemy_at i j) as [cit|] eqn:Ee.
    { pose proof (enemy_code_range cit). unfold ENEMY_BUILDER in *. lia. }
    unfold threat_halo; simpl.
    rewrite !adjacent_enemy_tier_built by done.
    specialize (H0 i j Hg Ee). specialize (Hat i j Hg Ee).
    assert (Hnb : forall q1 q2, (q1, q2) ∈ nbrs (i, j) ->
              mget 0 (Board_Enemy (build_matrices h e)) i j <=
              (if pos_ok h (mkPos q1 q2) then
                 match enemy_at q1 q2 with Some cit => enemy_code cit | None => 0 end
               else 0)).
    { intros q1 q2 Hq. destruct (pos_ok h (mkPos q1 q2)) eqn:Hqok; [|done].
      apply pos_ok_in_grid in Hqok.
      destruct (enemy_at q1 q2) as [cit|] eqn:Eq; [|done].
      apply (Hle i j (q1, q2) cit); try done. by apply elem_of_cells. }
    pose proof (Hnb (i - 1) j) as HU. pose proof (Hnb (i + 1) j) as HD.
    pose proof (Hnb i (j - 1)) as HL. pose proof (Hnb i (j + 1)) as HR.
    rewrite elem_of_nbrs in HU, HD, HL, HR. simpl in HU, HD, HL, HR.
    specialize (HU ltac:(lia)). specialize (HD ltac:(lia)).
    specialize (HL ltac:(lia)). specialize (HR ltac:(lia)).
    destruct Hat as [Hz|(q & cit & Hq & _ & Hqg & Heq & Hv)]; [lia|].
    destruct q as [q1 q2]. simpl in Hqg, Heq.
    apply pos_ok_in_grid in Hqg.
    apply elem_of_nbrs in Hq. simpl in Hq.
    destruct Hq as [[-> ->]|[[-> ->]|[[-> ->]|[-> ->]]]];
      rewrite Hqg, Heq in *; lia.
  - intros Hen'.
    destruct (enemy_at i j) as [cit|] eqn:Ee; [|unfold ENEMY_BUILDER in *; lia].
    exists cit. split; [done|]. split; [done|].
    intros Hpos. apply Hen; try done. by apply elem_of_cells.
Qed.

Lemma initialize_sized (e : Eldar) :
  0 <= board_rows h -> 0 <= board_cols h -> sized (initialize h e).
Proof.
  intros Hn Hm. unfold sized, initialize; simpl.
  split_and!; try done; by apply mdims_mnew.
Qed.

End WorldModel.

(** * The planner: the fast path of [approach_target] *)

Section FastPath.
Context `{IQ : !PriorityQueue Instr Instr_less}.
Context `{VQ : !PriorityQueue Vertex Vertex_less}.
Variable h : Host.

(** The two ways in which a neighbour [p] is a no-brainer for a citizen
    whose weapon is [WEAPON]: an enemy that one hit finishes, or a better
    weapon. *)
Definition kill_ready (e : Eldar) (WEAPON : Z) (p : Pos) : bool :=
  (board e p <=? ENEMY_BUILDER) && (- board e p <=? WEAPON) && is_night h
  && (board_enemy e p <=? life_lost_in_attack h) && (board_barricades e p =? 0).

Definition better_weapon (e : Eldar) (WEAPON : Z) (is_warrior : bool) (p : Pos) : bool :=
  is_warrior && (board e p >? WEAPON).

(** The tier against which the fast path weighs the threat at [p]: the
    citizen's own weapon for a kill, the weapon lying at [p] for a grab. *)
Definition fast_tier (e : Eldar) (WEAPON : Z) (p : Pos) : Z :=
  if kill_ready e WEAPON p then WEAPON else board e p.

Lemma no_brainer_spec (e : Eldar) (WEAPON : Z) (is_warrior : bool) (p : Pos) :
  no_brainer h e (pi p) (pj p) WEAPON is_warrior =
  if kill_ready e WEAPON p || better_weapon e WEAPON is_warrior p
  then (true, fast_tier e WEAPON p) else (false, WEAPON).
Proof.
  unfold no_brainer, fast_tier, better_weapon, kill_ready, board, board_enemy, board_barricades.
  destruct (_ && _ && is_night h && _ && _); [done|]. simpl.
  by destruct (is_warrior && _).
Qed.

Lemma seed_safe_first (e : Eldar) WEAPON is_warrior origin l1 d l2 dist Q :
  Forall (fun d' => pos_ok h (pos_add origin d') = true ->
            kill_ready e WEAPON (pos_add origin d') = false
            /\ better_weapon e WEAPON is_warrior (pos_add origin d') = false) l1 ->
  pos_ok h (pos_add origin d) = true ->
  kill_ready e WEAPON (pos_add origin d) || better_weapon e WEAPON is_warrior (pos_add origin d) = true ->
  seed_safe h e WEAPON is_warrior origin (l1 ++ d :: l2) dist Q =
  if fast_tier e WEAPON (pos_add origin d) <? - board_enemy e (pos_add origin d)
  then Wait else Grab d.
Proof.
  intros Hl1 Hok Hq. revert dist Q.
  induction l1 as [|d' l1 IH]; intros dist Q; simpl.
  - rewrite Hok, no_brainer_spec, Hq. simpl. done.
  - apply Forall_cons in Hl1 as [Hd' Hl1].
    specialize (IH Hl1).
    destruct (pos_ok h (pos_add origin d')) eqn:Hok'; simpl; [|by apply IH].
    destruct (Hd' eq_refl) as [Hk Hb].
    rewrite no_brainer_spec, Hk, Hb. simpl.
    destruct (cell_safe h e WEAPON (pos_add origin d') && seed_ok h e WEAPON (pos_add origin d')).
    + unfold push_seed. apply IH.
    + apply IH.
Qed.

(** The outcome of [approach_target] when [d] is the first direction, in the
    order of [Directions], whose cell is a no-brainer. *)
Lemma approach_target_fast (e : Eldar) (ID : Z) (is_warrior : bool) l1 d l2 :
  let c := citizen h ID in
  let WEAPON := my_weapon c in
  let p := pos_add (cit_pos c) d in
  Directions = l1 ++ d :: l2 ->
  Forall (fun d' => pos_ok h (pos_add (cit_pos c) d') = true ->
            kill_ready e WEAPON (pos_add (cit_pos c) d') = false
            /\ better_weapon e WEAPON is_warrior (pos_add (cit_pos c) d') = false) l1 ->
  pos_ok h p = true ->
  kill_ready e WEAPON p || better_weapon e WEAPON is_warrior p = true ->
  approach_target h e ID is_warrior =
  Some (if fast_tier e WEAPON p <? - board_enemy e p
        then (false, e) else (true, _move e VERY_HIGH_PRIORITY ID d)).
Proof.
  intros c WEAPON p HD Hl1 Hok Hq. unfold approach_target.
  rewrite HD. fold c. fold WEAPON.
  rewrite (seed_safe_first e WEAPON is_warrior (cit_pos c) l1 d l2) by done.
  fold p. by destruct (fast_tier e WEAPON p <? - board_enemy e p).
Qed.

(** C6 (amended): when some neighbour inside the grid is a no-brainer, the
    first such neighbour [d] in the order Up, Down, Left, Right decides the
    call of the planner, and the general search is not run: the planner
    queues a move to [d] at the highest priority and reports success, unless
    [Board_Enemy] at that cell records a tier above the tier the fast path
    counts on (the citizen's weapon for a kill, the new weapon for a grab);
    in that case the planner queues nothing and reports failure, leaving the
    player as it was (the caller's fallback still runs). *)
Theorem no_brainer_wins (e : Eldar) (ID : Z) (is_warrior : bool) l1 d l2 :
  let c := citizen h ID in
  let WEAPON := my_weapon c in
  let p := pos_add (cit_pos c) d in
  Directions = l1 ++ d :: l2 ->
  Forall (fun d' => pos_ok h (pos_add (cit_pos c) d') = true ->
            kill_ready e WEAPON (pos_add (cit_pos c) d') = false
            /\ better_weapon e WEAPON is_warrior (pos_add (cit_pos c) d') = false) l1 ->
  pos_ok h p = true ->
  kill_ready e WEAPON p || better_weapon e WEAPON is_warrior p = true ->
  (fast_tier e WEAPON p < - board_enemy e p ->
     approach_target h e ID is_warrior = Some (false, e))
  /\ (- board_enemy e p <= fast_tier e WEAPON p ->
      approach_target h e ID is_warrior = Some (true, _move e VERY_HIGH_PRIORITY ID d)
      /\ Permutation (pq_items (instruction_buffer (_move e VERY_HIGH_PRIORITY ID d)))
           (mkInstr 500 false ID d :: pq_items (instruction_buffer e))).
Proof.
  intros c WEAPON p HD Hl1 Hok Hq.
  pose proof (approach_target_fast e ID is_warrior l1 d l2 HD Hl1 Hok Hq) as E.
  fold c WEAPON p in E.
  split; intros Hcmp.
  - rewrite E. by rewrite (proj2 (Z.ltb_lt _ _) Hcmp).
  - rewrite E. rewrite (proj2 (Z.ltb_ge _ _) Hcmp). split; [done|].
    unfold _move. destruct e; simpl. apply pq_push_items.
Qed.

End FastPath.

(** * The planner: the general search of [approach_target] *)

Section Search.
Context `{IQ : !PriorityQueue Instr Instr_less}.
Context `{VQ : !PriorityQueue Vertex Vertex_less}.
Variable h : Host.

(** Two states of the player that differ at most in the bonus maps. *)
Definition same_world (e e' : Eldar) : Prop :=
  sz_n e' = sz_n e /\ sz_m e' = sz_m e
  /\ Board e' = Board e /\ Board_Enemy e' = Board_Enemy e
  /\ Board_Barricades e' = Board_Barricades e
  /\ num_barricades e' = num_barricades e
  /\ instruction_buffer e' = instruction_buffer e
  /\ cur_odd e' = cur_odd e.

Lemma same_world_refl e : same_world e e.
Proof. by repeat split. Qed.

Lemma same_world_trans e1 e2 e3 : same_world e1 e2 -> same_world e2 e3 -> same_world e1 e3.
Proof.
  unfold same_world. intros (?&?&?&?&?&?&?&?) (?&?&?&?&?&?&?&?).
  split_and!; congruence.
Qed.

Lemma same_world_set_bonus_distances e m : same_world e (set_bonus_distances e m).
Proof. unfold same_world, set_bonus_distances. by destruct (cur_odd e). Qed.

Lemma same_world_set_bonus_distances_prev e m : same_world e (set_bonus_distances_prev e m).
Proof. unfold same_world, set_bonus_distances_prev. by destruct (cur_odd e). Qed.

Lemma same_world_board e e' p : same_world e e' -> board e' p = board e p.
Proof. intros (?&?&HB&?). unfold board. by rewrite HB. Qed.

Lemma same_world_board_enemy e e' p : same_world e e' -> board_enemy e' p = board_enemy e p.
Proof. intros (?&?&?&HB&?). unfold board_enemy. by rewrite HB. Qed.

Lemma same_world_board_barricades e e' p :
  same_world e e' -> board_barricades e' p = board_barricades e p.
Proof. intros (?&?&?&?&HB&?). unfold board_barricades. by rewrite HB. Qed.

Lemma same_world_is_danger e e' p w : same_world e e' -> is_danger h e' p w = is_danger h e p w.
Proof. intros H. unfold is_danger. by rewrite (same_world_board_enemy e e' p H). Qed.

Lemma same_world_seed_ok e e' w p : same_world e e' -> seed_ok h e' w p = seed_ok h e w p.
Proof.
  intros H. unfold seed_ok.
  by rewrite (same_world_board e e' p H), (same_world_is_danger e e' p w H).
Qed.

(** The state of the search differs from [s] at most in the fields a
    profitable cell may set. *)
Lemma improve_fields s profit dir :
  s_dist (improve s profit dir) = s_dist s
  /\ s_visited (improve s profit dir) = s_visited s
  /\ s_Q (improve s profit dir) = s_Q s
  /\ s_ai (improve s profit dir) = s_ai s.
Proof. unfold improve. by case_match. Qed.

Lemma improve_best s profit dir :
  (s_best_profit (improve s profit dir) = s_best_profit s
   /\ s_best_dir (improve s profit dir) = s_best_dir s
   /\ s_take_ownership (improve s profit dir) = s_take_ownership s
   /\ s_take_ownership_dist (improve s profit dir) = s_take_ownership_dist s)
  \/ (s_best_profit s < s_best_profit (improve s profit dir)
      /\ s_best_profit (improve s profit dir) = profit
      /\ s_best_dir (improve s profit dir) = dir
      /\ s_take_ownership (improve s profit dir) = None).
Proof.
  unfold improve. destruct (profit >? s_best_profit s) eqn:E; [right|left]; simpl; [|done].
  split_and!; try done. lia.
Qed.

(** What [evaluate] leaves alone, and how it may change the best target. *)
Lemma evaluate_spec c is_warrior NEED_HEAL WEAPON u dir s expand s' :
  evaluate h c is_warrior NEED_HEAL WEAPON u dir s = (expand, s') ->
  s_visited s' = s_visited s /\ s_Q s' = s_Q s
  /\ same_world (s_ai s) (s_ai s')
  /\ ((s_best_profit s' = s_best_profit s /\ s_best_dir s' = s_best_dir s)
      \/ (s_best_profit s < s_best_profit s' /\ s_best_dir s' = dir)).
Proof.
  unfold evaluate. intros E.
  repeat match type of E with
  | context [map_index ?m ?u] => destruct (map_index m u) eqn:?
  | context [if ?b then _ else _] => destruct b eqn:?
  | (let '(_, _) := ?x in _) = _ => destruct x eqn:?
  end; simplify_eq/=;
  repeat match goal with
  | |- context [improve ?s ?p ?d] =>
      let F := fresh in let B := fresh in
      pose proof (improve_fields s p d) as F; pose proof (improve_best s p d) as B;
      generalize dependent (improve s p d); intros
  end; simpl in *;
  split_and!;
  try match goal with
  | |- same_world _ _ =>
      repeat match goal with H : _ /\ _ |- _ => destruct H end;
      repeat match goal with H : s_ai _ = _ |- _ => rewrite H end; simpl;
      eauto using same_world_refl, same_world_trans, same_world_set_bonus_distances,
        same_world_set_bonus_distances_prev
  end;
  try (intuition (simpl in *; congruence || lia)).
Qed.

(** Every vertex that [relax] adds carries the direction [dir]. *)
Lemma relax_items e WEAPON u dir (good : Dir -> Prop) acc d :
  good dir ->
  Forall (fun v => good (v_dir v)) (pq_items acc.2) ->
  Forall (fun v => good (v_dir v)) (pq_items (relax h e WEAPON u dir acc d).2).
Proof.
  intros Hdir Hacc. unfold relax. destruct acc as [dist Q]. simpl in *.
  repeat case_match; simpl; try done.
  rewrite pq_push_items. by constructor.
Qed.

Lemma relax_all_items e WEAPON u dir (good : Dir -> Prop) ds acc :
  good dir ->
  Forall (fun v => good (v_dir v)) (pq_items acc.2) ->
  Forall (fun v => good (v_dir v)) (pq_items (fold_left (relax h e WEAPON u dir) ds acc).2).
Proof.
  intros Hdir. revert acc. induction ds as [|d ds IH]; intros acc Hacc; simpl; [done|].
  apply IH. by apply relax_items.
Qed.

(** The invariant of the search: the world is the one the search started in,
    every pending vertex was reached through a direction that passed the
    test [good] of the seeding, and so was the best target, if any. *)
Record search_inv (e0 : Eldar) (good : Dir -> Prop) (s : Search) : Prop := {
  si_world : same_world e0 (s_ai s);
  si_queue : Forall (fun v => good (v_dir v)) (pq_items (s_Q s));
  si_floor : INT_MIN <= s_best_profit s;
  si_best : INT_MIN < s_best_profit s -> good (s_best_dir s)
}.

Lemma search_step_inv e0 good c is_warrior NEED_HEAL WEAPON v Q s :
  search_inv e0 good s ->
  pq_pop (s_Q s) = Some (v, Q) ->
  search_inv e0 good (search_step h c is_warrior NEED_HEAL WEAPON v Q s).
Proof.
  intros [Hw Hq Hf Hb] Hpop.
  apply pq_pop_some in Hpop as [Hperm _].
  rewrite Hperm in Hq. apply Forall_cons in Hq as [Hv Hq].
  unfold search_step.
  cbn [s_visited s_dist s_Q s_best_dir s_best_profit s_take_ownership
       s_take_ownership_dist s_ai].
  destruct (mget false (s_visited s) (pi (v_pos v)) (pj (v_pos v))).
  { by split. }
  destruct (evaluate _ _ _ _ _ _ _ _) as [expand s1] eqn:Ev.
  apply evaluate_spec in Ev as (_ & EQ & Hw1 & Hbest).
  cbn [s_visited s_dist s_Q s_best_dir s_best_profit s_take_ownership
       s_take_ownership_dist s_ai] in *.
  assert (Hf1 : INT_MIN <= s_best_profit s1) by (destruct Hbest as [[-> _]|[? _]]; lia).
  assert (Hb1 : INT_MIN < s_best_profit s1 -> good (s_best_dir s1)).
  { destruct Hbest as [[-> ->]|[_ ->]]; [done|by intros _]. }
  destruct expand.
  - destruct (fold_left _ _ _) as [dist Q2] eqn:EF.
    split; simpl; try done.
    + by eapply same_world_trans.
    + pose proof (relax_all_items (s_ai s1) WEAPON (v_pos v) (v_dir v) good Directions
                    (s_dist s1, s_Q s1) Hv) as HR.
      rewrite EF in HR. apply HR. simpl. by rewrite EQ.
  - split; try done.
    + by eapply same_world_trans.
    + by rewrite EQ.
Qed.

Lemma search_loop_inv e0 good c is_warrior NEED_HEAL WEAPON fuel s s' :
  search_inv e0 good s ->
  search_loop h c is_warrior NEED_HEAL WEAPON fuel s = Some s' ->
  search_inv e0 good s'.
Proof.
  revert s. induction fuel as [|fuel IH]; intros s Hs; simpl; [done|].
  destruct (pq_pop (s_Q s)) as [[v Q]|] eqn:Hpop.
  - intros E. eapply IH; [|exact E]. by apply search_step_inv.
  - by intros [= <-].
Qed.

(** The directions the seeding may enqueue. *)
Definition seed_dir (e : Eldar) (WEAPON : Z) (origin : Pos) (d : Dir) : Prop :=
  pos_ok h (pos_add origin d) = true /\ seed_ok h e WEAPON (pos_add origin d) = true.

Lemma seed_safe_spec e WEAPON is_warrior origin ds dist Q :
  Forall (fun v => seed_dir e WEAPON origin (v_dir v)) (pq_items Q) ->
  match seed_safe h e WEAPON is_warrior origin ds dist Q with
  | Wait => True
  | Grab d =>
      pos_ok h (pos_add origin d) = true
      /\ kill_ready h e WEAPON (pos_add origin d)
         || better_weapon e WEAPON is_warrior (pos_add origin d) = true
      /\ - board_enemy e (pos_add origin d) <= fast_tier h e WEAPON (pos_add origin d)
  | Seeds dist' Q' => Forall (fun v => seed_dir e WEAPON origin (v_dir v)) (pq_items Q')
  end.
Proof.
  revert dist Q. induction ds as [|d ds IH]; intros dist Q HQ; simpl; [done|].
  destruct (pos_ok h (pos_add origin d)) eqn:Hok; simpl; [|by apply IH].
  rewrite no_brainer_spec.
  destruct (kill_ready h e WEAPON (pos_add origin d)
            || better_weapon e WEAPON is_warrior (pos_add origin d)) eqn:Hq.
  - destruct (fast_tier h e WEAPON (pos_add origin d) <? - board_enemy e (pos_add origin d)) eqn:Hc;
      [done|]. split_and!; try done. lia.
  - destruct (cell_safe h e WEAPON (pos_add origin d)) eqn:Hs; simpl; [|by apply IH].
    destruct (seed_ok h e WEAPON (pos_add origin d)) eqn:Hso; [|by apply IH].
    unfold push_seed. apply IH. rewrite pq_push_items. constructor; [|done].
    by split.
Qed.

Lemma seed_unsafe_spec e WEAPON origin ds acc :
  Forall (fun v => seed_dir e WEAPON origin (v_dir v)) (pq_items acc.2) ->
  Forall (fun v => seed_dir e WEAPON origin (v_dir v))
    (pq_items (fold_left (seed_unsafe h e WEAPON origin) ds acc).2).
Proof.
  revert acc. induction ds as [|d ds IH]; intros acc Hacc; simpl; [done|].
  apply IH. unfold seed_unsafe.
  destruct (pos_ok h (pos_add origin d)) eqn:Hok; simpl; [|done].
  destruct (seed_ok h e WEAPON (pos_add origin d)) eqn:Hso; [|done].
  unfold push_seed; simpl. rewrite pq_push_items. constructor; [|done]. by split.
Qed.

Lemma same_world_move e e' prio ID d :
  same_world e e' ->
  Permutation (pq_items (instruction_buffer (_move e' prio ID d)))
    (mkInstr prio false ID d :: pq_items (instruction_buffer e)).
Proof.
  intros (?&?&?&?&?&?&Hb&?). unfold _move. destruct e'; simpl in *. subst.
  apply pq_push_items.
Qed.

Lemma my_weapon_range c : BUILDER <= my_weapon c <= BAZOOKA.
Proof. unfold my_weapon, BUILDER, HAMMER, GUN, BAZOOKA. destruct (cit_weapon c); lia. Qed.

(** The three ways in which [approach_target] returns. *)
Lemma approach_target_inv (e : Eldar) (ID : Z) (is_warrior : bool) r :
  approach_target h e ID is_warrior = Some r ->
  let c := citizen h ID in
  let WEAPON := my_weapon c in
  r = (false, e)
  \/ (exists d, r = (true, _move e VERY_HIGH_PRIORITY ID d)
        /\ pos_ok h (pos_add (cit_pos c) d) = true
        /\ kill_ready h e WEAPON (pos_add (cit_pos c) d)
           || better_weapon e WEAPON is_warrior (pos_add (cit_pos c) d) = true
        /\ - board_enemy e (pos_add (cit_pos c) d) <= fast_tier h e WEAPON (pos_add (cit_pos c) d))
  \/ (exists s, search_inv e (seed_dir e WEAPON (cit_pos c)) s
        /\ r = decide_move h c ID is_warrior WEAPON s).
Proof.
  intros E c WEAPON. unfold approach_target in E. cbv zeta in E. fold c in E. fold WEAPON in E.
  match type of E with
  | match seed_safe ?h ?e ?W ?w ?o ?ds ?dist ?Q with _ => _ end = _ =>
      pose proof (seed_safe_spec e W w o ds dist Q) as HS;
      destruct (seed_safe h e W w o ds dist Q) as [|d|dist1 Q1]
  end.
  - left. by injection E.
  - right. left. injection E as <-.
    destruct HS as (Hok & Hq & Hc); [by rewrite pq_new_items|].
    by exists d.
  - right. right.
    specialize (HS ltac:(by rewrite pq_new_items)).
    set (seeded := if pq_is_empty Q1
                   then fold_left (seed_unsafe h e WEAPON (cit_pos c)) Directions (dist1, Q1)
                   else (dist1, Q1)) in E.
    assert (HQ2 : Forall (fun v => seed_dir e WEAPON (cit_pos c) (v_dir v)) (pq_items seeded.2)).
    { unfold seeded. destruct (pq_is_empty Q1); [|done]. by apply seed_unsafe_spec. }
    destruct seeded as [dist2 Q2]. simpl in HQ2.
    match type of E with
    | context [search_loop ?h ?c ?w ?nh ?W ?f ?s] =>
        destruct (search_loop h c w nh W f s) as [s'|] eqn:EL; [|done]
    end.
    exists s'. split; [|by injection E].
    eapply search_loop_inv; [|exact EL].
    split; simpl; [apply same_world_refl|done|done|unfold INT_MIN; lia].
Qed.

(** A call that reports no action has queued nothing and has left the
    matrices alone. *)
Lemma approach_target_false_world (e : Eldar) (ID : Z) (is_warrior : bool) e' :
  approach_target h e ID is_warrior = Some (false, e') -> same_world e e'.
Proof.
  intros E. apply approach_target_inv in E as [E|[(d & E & _)|(s & Hinv & E)]].
  - injection E as <-. apply same_world_refl.
  - done.
  - destruct Hinv as [Hw _ _ _]. unfold decide_move in E.
    repeat case_match; simplify_eq; done.
Qed.

End Search.

(** * The planner on the board of the round

    The tasks of a round find the matrices as [build_board] left them.  On
    such a board the values the planner reads in [Board_Enemy] can be read
    back in terms of the neighbours of a cell: the threat halo where the cell
    holds no enemy, the occupant's health where it holds one. *)

Section BuiltBoards.
Context `{IQ : !PriorityQueue Instr Instr_less}.
Context `{VQ : !PriorityQueue Vertex Vertex_less}.
Variable h : Host.

(** The terrain and danger matrices of [e] are those [build_board] computes
    from the host's cells, as the tasks of a round find them
    ([round_start_built], [same_matrices_built]). *)
Definition board_built (e : Eldar) : Prop :=
  exists e0, sized h e0
    /\ Board e = Board (build_board h e0)
    /\ Board_Enemy e = Board_Enemy (build_board h e0).

Lemma build_board_built (e0 : Eldar) : sized h e0 -> board_built (build_board h e0).
Proof. intros Hs. by exists e0. Qed.

Lemma board_built_same_world (e e' : Eldar) :
  same_world e e' -> board_built e -> board_built e'.
Proof.
  intros (_ & _ & HB & HE & _) (e0 & Hs & H1 & H2).
  exists e0. split; [done|]. split; congruence.
Qed.

(** What [Board_Enemy] holds on a built board: the halo at a cell without an
    enemy, the health of the enemy at its own cell. *)
Lemma board_built_cells (e : Eldar) (p : Pos) :
  board_built e -> pos_ok h p = true ->
  (ENEMY_BUILDER < board e p -> board_enemy e p = threat_halo h (Board e) p)
  /\ (board e p <= ENEMY_BUILDER ->
      let cit := citizen h (c_id (cell h (pi p) (pj p))) in
      board e p = enemy_code cit
      /\ (0 < wrap_char (cit_life cit) -> board_enemy e p = wrap_char (cit_life cit))).
Proof.
  intros (e0 & Hs & EB & EE) Hok. destruct p as [i j].
  pose proof (proj1 (pos_ok_in_grid h i j) Hok) as Hg.
  destruct (build_matrices_spec h e0 Hs) as (_ & _ & [Hd H0 Hle Hat Hen]).
  pose proof (terrain_enemy h i j) as Ht.
  unfold board, board_enemy; simpl. rewrite EB, EE.
  rewrite build_board_Board, build_board_Board_Enemy by done.
  split.
  - intros Hfree.
    destruct (enemy_at h i j) as [cit|] eqn:Ee.
    { pose proof (enemy_code_range cit). unfold ENEMY_BUILDER in *. lia. }
    unfold threat_halo; simpl.
    rewrite !adjacent_enemy_tier_built by done.
    specialize (H0 i j Hg Ee). specialize (Hat i j Hg Ee).
    assert (Hnb : forall q1 q2, (q1, q2) ∈ nbrs (i, j) ->
              mget 0 (Board_Enemy (build_matrices h e0)) i j <=
              (if pos_ok h (mkPos q1 q2) then
                 match enemy_at h q1 q2 with Some cit => enemy_code cit | None => 0 end
               else 0)).
    { intros q1 q2 Hq. destruct (pos_ok h (mkPos q1 q2)) eqn:Hqok; [|done].
      apply pos_ok_in_grid in Hqok.
      destruct (enemy_at h q1 q2) as [cit|] eqn:Eq; [|done].
      apply (Hle i j (q1, q2) cit); try done. by apply elem_of_cells. }
    pose proof (Hnb (i - 1) j) as HU. pose proof (Hnb (i + 1) j) as HD.
    pose proof (Hnb i (j - 1)) as HL. pose proof (Hnb i (j + 1)) as HR.
    rewrite elem_of_nbrs in HU, HD, HL, HR. simpl in HU, HD, HL, HR.
    specialize (HU ltac:(lia)). specialize (HD ltac:(lia)).
    specialize (HL ltac:(lia)). specialize (HR ltac:(lia)).
    destruct Hat as [Hz|(q & cit & Hq & _ & Hqg & Heq & Hv)]; [lia|].
    destruct q as [q1 q2]. simpl in Hqg, Heq.
    apply pos_ok_in_grid in Hqg.
    apply elem_of_nbrs in Hq. simpl in Hq.
    destruct Hq as [[-> ->]|[[-> ->]|[[-> ->]|[-> ->]]]];
      rewrite Hqg, Heq in *; lia.
  - intros Hen'.
    destruct (enemy_at h i j) as [cit|] eqn:Ee; [|unfold ENEMY_BUILDER in *; lia].
    assert (Ec : cit = citizen h (c_id (cell h i j))).
    { unfold enemy_at in Ee. repeat case_match; simplify_eq; done. }
    subst cit. split; [done|].
    intros Hpos. apply Hen; try done. by apply elem_of_cells.
Qed.

(** The halo is a lower bound of the codes of the adjacent enemies, and it
    is attained. *)
Lemma threat_halo_spec (B : Matrix Z) (p : Pos) (w : Z) :
  0 <= w ->
  - threat_halo h B p <= w
  <-> forall d, pos_ok h (pos_add p d) = true ->
        mget 0 B (pi (pos_add p d)) (pj (pos_add p d)) <= ENEMY_BUILDER ->
        - mget 0 B (pi (pos_add p d)) (pj (pos_add p d)) <= w.
Proof.
  intros Hw. unfold threat_halo, Directions. cbn [fold_left].
  assert (Ht : forall d,
    (- adjacent_enemy_tier h B (pos_add p d) <= w)
    <-> (pos_ok h (pos_add p d) = true ->
         mget 0 B (pi (pos_add p d)) (pj (pos_add p d)) <= ENEMY_BUILDER ->
         - mget 0 B (pi (pos_add p d)) (pj (pos_add p d)) <= w)).
  { intros d. unfold adjacent_enemy_tier.
    destruct (pos_ok h (pos_add p d)); simpl; [|split; [done|lia]].
    destruct (_ <=? ENEMY_BUILDER) eqn:E; [apply Z.leb_le in E|apply Z.leb_gt in E].
    - split; [by intros|]. intros H. by apply H.
    - split; [lia|lia]. }
  split.
  - intros H d. apply Ht. destruct d; lia.
  - intros H.
    pose proof (proj2 (Ht Up) (H Up)). pose proof (proj2 (Ht Down) (H Down)).
    pose proof (proj2 (Ht Left) (H Left)). pose proof (proj2 (Ht Right) (H Right)).
    lia.
Qed.

(** On a built board, the threat test of the planner at a cell that holds no
    enemy is a test on the enemies standing next to that cell. *)
Lemma board_built_threat (e : Eldar) (p : Pos) (w : Z) :
  board_built e -> pos_ok h p = true -> ENEMY_BUILDER < board e p -> 0 <= w ->
  - board_enemy e p <= w
  <-> forall d, pos_ok h (pos_add p d) = true ->
        board e (pos_add p d) <= ENEMY_BUILDER -> - board e (pos_add p d) <= w.
Proof.
  intros Hb Hok Hfree Hw.
  rewrite (proj1 (board_built_cells e p Hb Hok) Hfree).
  by apply threat_halo_spec.
Qed.



(** C9 (amended): the safety check of the weapon grab uses the tier of the
    weapon on the ground, not the weapon the citizen holds.  On the board of
    the round, let [d] be the first no-brainer neighbour of a combatant, in
    the order Up, Down, Left, Right, and let it hold a strictly better
    weapon.  If no enemy next to the weapon has a tier above the tier of that
    weapon, the planner reports success and has queued the step onto it at
    the highest priority, whatever the tier of those enemies relative to the
    weapon the citizen holds; if some enemy next to the weapon has a tier
    above it, the planner queues nothing and reports failure. *)
Theorem weapon_grab_uses_new_tier (e : Eldar) (ID : Z) l1 d l2 :
  let c := citizen h ID in
  let WEAPON := my_weapon c in
  let p := pos_add (cit_pos c) d in
  board_built e ->
  Directions = l1 ++ d :: l2 ->
  Forall (fun d' => pos_ok h (pos_add (cit_pos c) d') = true ->
            kill_ready h e WEAPON (pos_add (cit_pos c) d') = false
            /\ better_weapon e WEAPON true (pos_add (cit_pos c) d') = false) l1 ->
  pos_ok h p = true ->
  WEAPON < board e p ->
  ((forall d', pos_ok h (pos_add p d') = true ->
      board e (pos_add p d') <= ENEMY_BUILDER -> - board e (pos_add p d') <= board e p) ->
   approach_target h e ID true = Some (true, _move e VERY_HIGH_PRIORITY ID d)
   /\ Permutation (pq_items (instruction_buffer (_move e VERY_HIGH_PRIORITY ID d)))
        (mkInstr 500 false ID d :: pq_items (instruction_buffer e)))
  /\ (forall d', pos_ok h (pos_add p d') = true ->
        board e (pos_add p d') <= ENEMY_BUILDER -> board e p < - board e (pos_add p d') ->
      approach_target h e ID true = Some (false, e)).
Proof.
  intros c WEAPON p Hb HD Hl1 Hok Hbetter.
  pose proof (my_weapon_range c) as HW. fold WEAPON in HW.
  assert (Hfree : ENEMY_BUILDER < board e p) by (unfold ENEMY_BUILDER, BUILDER in *; lia).
  assert (Hk : kill_ready h e WEAPON p = false).
  { unfold kill_ready. replace (board e p <=? ENEMY_BUILDER) with false; [done|].
    symmetry. apply Z.leb_gt. done. }
  assert (Hq : better_weapon e WEAPON true p = true).
  { unfold better_weapon. simpl. by apply Z.gtb_lt. }
  pose proof (approach_target_fast h e ID true l1 d l2 HD Hl1 Hok) as E.
  fold c WEAPON p in E.
  rewrite E by (by rewrite Hk, Hq). clear E.
  unfold fast_tier. rewrite Hk.
  pose proof (board_built_threat e p (board e p) Hb Hok Hfree
                ltac:(unfold BUILDER in *; lia)) as Hthreat.
  split.
  - intros Hnb. apply (proj2 Hthreat) in Hnb.
    rewrite (proj2 (Z.ltb_ge _ _) Hnb). split; [done|].
    unfold _move. destruct e; simpl. apply pq_push_items.
  - intros d' Hok' Hen Hlt.
    destruct (board e p <? - board_enemy e p) eqn:Ec; [done|].
    apply Z.ltb_ge in Ec. pose proof (proj1 Hthreat Ec d' Hok' Hen). lia.
Qed.

(** C1 (amended): a move proposed by the planner never targets a wall nor a
    cell holding an enemy of strictly higher tier than the citizen.  A first
    step chosen by the general search moreover never targets an enemy of the
    same tier, and never a cell that [is_danger] judges unsafe for the
    citizen's current weapon; [is_danger] reads [Board_Enemy] at the target
    itself, so on the board of the round, and unless this round and the next
    are both day rounds, a target that holds no enemy has no enemy of a tier
    above the citizen's weapon next to it, while nothing is known of the
    cells next to a target that holds an enemy.  A move of the fast path is
    only weighed against the tier the fast path counts on: [Board_Enemy] at
    the target does not exceed the citizen's tier for a kill, or the tier of
    the weapon being grabbed for a grab, in which case no enemy next to the
    weapon has a tier above the tier of that weapon.  In every case the move
    is the one instruction the call adds to the buffer. *)
Theorem planner_moves_are_guarded (e : Eldar) (ID : Z) (is_warrior : bool) (e' : Eldar) :
  approach_target h e ID is_warrior = Some (true, e') ->
  let c := citizen h ID in
  let WEAPON := my_weapon c in
  exists prio d e'',
    e' = _move e'' prio ID d /\ same_world e e''
    /\ Permutation (pq_items (instruction_buffer e'))
         (mkInstr prio false ID d :: pq_items (instruction_buffer e))
    /\ let p := pos_add (cit_pos c) d in
       pos_ok h p = true /\ board e p <> WALL /\ - board e p <= WEAPON
       /\ ((prio = VERY_HIGH_PRIORITY
            /\ kill_ready h e WEAPON p || better_weapon e WEAPON is_warrior p = true
            /\ - board_enemy e p <= fast_tier h e WEAPON p
            /\ (board_built e -> ENEMY_BUILDER < board e p ->
                forall d', pos_ok h (pos_add p d') = true ->
                  board e (pos_add p d') <= ENEMY_BUILDER ->
                  - board e (pos_add p d') <= board e p))
           \/ (- board e p < WEAPON /\ is_danger h e p WEAPON = false
               /\ (board_built e -> ENEMY_BUILDER < board e p ->
                   is_day h && is_round_day h (round h + 1) = false ->
                   forall d', pos_ok h (pos_add p d') = true ->
                     board e (pos_add p d') <= ENEMY_BUILDER ->
                     - board e (pos_add p d') <= WEAPON))).
Proof.
  intros E c WEAPON.
  pose proof (my_weapon_range c) as HW. subst WEAPON c.
  apply approach_target_inv in E as [E|[(d & E & Hok & Hq & Hc)|(s' & Hinv & ED)]].
  - done.
  - injection E as ->.
    exists VERY_HIGH_PRIORITY, d, e. split; [done|]. split; [apply same_world_refl|].
    split; [apply same_world_move, same_world_refl|].
    cbv zeta. split; [done|].
    set (p := pos_add (cit_pos (citizen h ID)) d) in *.
    set (WEAPON := my_weapon (citizen h ID)) in *.
    assert (Hcases : board e p <= ENEMY_BUILDER /\ - board e p <= WEAPON
                     \/ WEAPON < board e p).
    { apply orb_true_iff in Hq as [Hk|Hb].
      - left. unfold kill_ready in Hk. rewrite !andb_true_iff in Hk.
        destruct Hk as ((((H1 & H2) & _) & _) & _). lia.
      - right. unfold better_weapon in Hb. apply andb_true_iff in Hb as [_ Hb]. lia. }
    split; [unfold WALL, ENEMY_BUILDER, BUILDER, BAZOOKA in *; lia|].
    split; [unfold WALL, ENEMY_BUILDER, BUILDER, BAZOOKA in *; lia|].
    left. split_and!; try done.
    intros Hb Hfree.
    assert (Hk : kill_ready h e WEAPON p = false).
    { unfold kill_ready. replace (board e p <=? ENEMY_BUILDER) with false; [done|].
      symmetry. by apply Z.leb_gt. }
    unfold fast_tier in Hc. rewrite Hk in Hc.
    apply (board_built_threat e p (board e p) Hb Hok Hfree); [|done].
    unfold ENEMY_BUILDER, BUILDER in *. lia.
  - symmetry in ED. destruct Hinv as [Hw _ Hf Hb].
    unfold decide_move in ED.
    destruct (s_best_profit s' =? INT_MIN) eqn:E1; [done|].
    destruct (_ <=? barricade_threshold _ _ _ _) eqn:E2; [done|].
    destruct (_ && _) eqn:E3; [done|].
    injection ED as <-.
    destruct Hb as [Hok Hso]; [lia|].
    eexists _, (s_best_dir s'), _. split; [reflexivity|].
    match goal with
    | |- same_world ?a ?b /\ _ => assert (Hsw : same_world a b)
    end.
    { eapply same_world_trans; [exact Hw|].
      destruct (s_take_ownership s'); [apply same_world_set_bonus_distances|apply same_world_refl]. }
    split; [exact Hsw|]. split; [by apply same_world_move|].
    cbv zeta. split; [done|].
    unfold seed_ok in Hso. rewrite !andb_true_iff, !negb_true_iff in Hso.
    destruct Hso as ((Hwall & Hdanger) & Htier).
    split; [unfold WALL in *; lia|]. split; [lia|]. right.
    split; [lia|]. split; [done|].
    intros Hbuilt Hfree Hnight.
    unfold is_danger in Hdanger. rewrite Hnight in Hdanger.
    apply (board_built_threat e _ (my_weapon (citizen h ID)) Hbuilt Hok Hfree); [|lia].
    unfold BUILDER in *. lia.
Qed.

End BuiltBoards.

(** * Termination of the searches *)

Section Termination.
Context `{IQ : !PriorityQueue Instr Instr_less}.
Context `{VQ : !PriorityQueue Vertex Vertex_less}.
Variable h : Host.

Lemma wrap_ushort_range x : 0 <= wrap_ushort x <= 65535.
Proof. unfold wrap_ushort. pose proof (Z.mod_pos_bound x 65536). lia. Qed.

Lemma add_movement_penalties_range e pos distance weapon :
  0 <= distance <= 65535 ->
  0 <= add_movement_penalties h e pos distance weapon <= 65535.
Proof.
  intros Hd. unfold add_movement_penalties.
  repeat case_match; try apply wrap_ushort_range; done.
Qed.

(** The weight of an entry of [dist] and of an entry of [visited] in the
    measure of the search. *)
Definition clamp (x : Z) : Z := Z.max 0 (Z.min 65535 x).
Definition unvisited (b : bool) : Z := if b then 0 else 1.

Lemma clamp_id x : 0 <= x <= 65535 -> clamp x = x.
Proof. unfold clamp. lia. Qed.

(** The distances are [unsigned short] values. *)
Definition in_range (dist : Matrix Z) : Prop :=
  forall i j, 0 <= mget 0 dist i j <= 65535.

Lemma in_range_mset dist i j v :
  in_range dist -> 0 <= v <= 65535 -> in_range (mset dist i j v).
Proof.
  intros Hr Hv i' j'. unfold mget, mset.
  destruct ((0 <=? i') && (0 <=? j')) eqn:E'; [|lia].
  destruct ((0 <=? i) && (0 <=? j)) eqn:E.
  - pose proof (Hr i' j') as Hr'. unfold mget in Hr'. rewrite E' in Hr'.
    destruct (decide (Z.to_nat i = Z.to_nat i')) as [Ei|Ei].
    + rewrite Ei, list_lookup_alter_eq.
      destruct (dist !! Z.to_nat i') as [row|]; simpl; [|lia].
      destruct (decide (Z.to_nat j = Z.to_nat j')) as [Ej|Ej].
      * rewrite Ej. destruct (decide (Z.to_nat j' < length row)%nat).
        -- by rewrite list_lookup_insert_eq.
        -- by rewrite list_insert_ge by lia.
      * by rewrite list_lookup_insert_ne.
    + by rewrite list_lookup_alter_ne.
  - pose proof (Hr i' j') as Hr'. unfold mget in Hr'. by rewrite E' in Hr'.
Qed.

Lemma in_range_mnew n m x : 0 <= x <= 65535 -> in_range (mnew n m x).
Proof.
  intros Hx i j. unfold mget, mnew.
  destruct ((0 <=? i) && (0 <=? j)); [|lia].
  destruct (replicate (Z.to_nat n) _ !! Z.to_nat i) as [row|] eqn:Hrow; [|lia].
  apply lookup_replicate in Hrow as [-> _].
  destruct (replicate (Z.to_nat m) x !! Z.to_nat j) as [y|] eqn:Hy; simpl; [|lia].
  by apply lookup_replicate in Hy as [-> _].
Qed.

(** One relaxation never raises the number of pending vertices plus the sum
    of the distances: a vertex is only pushed together with a strict decrease
    of an entry inside the matrix. *)
Lemma lower_entry (dist : Matrix Z) n m i j v (Q : pq Vertex Vertex_less) x :
  mdims dist n m -> in_range dist -> 0 <= v <= 65535 ->
  v < mget 0 dist i j ->
  mdims (mset dist i j v) n m /\ in_range (mset dist i j v)
  /\ Z.of_nat (length (pq_items (pq_push x Q))) + msum clamp (mset dist i j v)
     <= Z.of_nat (length (pq_items Q)) + msum clamp dist.
Proof.
  intros Hd Hr Hv Hlt.
  split; [by apply mdims_mset|]. split; [by apply in_range_mset|].
  pose proof (Permutation_length (pq_push_items x Q)) as Hlen. simpl in Hlen.
  destruct (decide (inside n m i j)) as [Hin|Hout].
  - rewrite (msum_mset_inside clamp 0 dist n m i j v Hd Hin).
    rewrite (clamp_id v Hv), (clamp_id _ (Hr i j)). lia.
  - rewrite (mget_outside 0 dist n m i j Hd Hout) in Hlt. lia.
Qed.

Lemma relax_measure e WEAPON u dir n m acc d :
  mdims acc.1 n m -> in_range acc.1 ->
  mdims (relax h e WEAPON u dir acc d).1 n m
  /\ in_range (relax h e WEAPON u dir acc d).1
  /\ Z.of_nat (length (pq_items (relax h e WEAPON u dir acc d).2))
       + msum clamp (relax h e WEAPON u dir acc d).1
     <= Z.of_nat (length (pq_items acc.2)) + msum clamp acc.1.
Proof.
  destruct acc as [dist Q]. simpl. intros Hd Hr. unfold relax.
  destruct (pos_ok h (pos_add u d) && negb (board e (pos_add u d) =? WALL));
    [|simpl; split_and!; try done; lia].
  destruct (_ <? _) eqn:Hlt; [|simpl; split_and!; try done; lia].
  apply Z.ltb_lt in Hlt. simpl. apply lower_entry; try done.
  apply add_movement_penalties_range, wrap_ushort_range.
Qed.

Lemma relax_all_measure e WEAPON u dir n m ds acc :
  mdims acc.1 n m -> in_range acc.1 ->
  mdims (fold_left (relax h e WEAPON u dir) ds acc).1 n m
  /\ in_range (fold_left (relax h e WEAPON u dir) ds acc).1
  /\ Z.of_nat (length (pq_items (fold_left (relax h e WEAPON u dir) ds acc).2))
       + msum clamp (fold_left (relax h e WEAPON u dir) ds acc).1
     <= Z.of_nat (length (pq_items acc.2)) + msum clamp acc.1.
Proof.
  revert acc. induction ds as [|d ds IH]; intros acc Hd Hr; simpl; [split_and!; try done; lia|].
  destruct (relax_measure e WEAPON u dir n m acc d Hd Hr) as (Hd1 & Hr1 & Hm1).
  destruct (IH _ Hd1 Hr1) as (Hd2 & Hr2 & Hm2). split_and!; try done. lia.
Qed.

(** [evaluate] changes [dist] at most by the four turns added to [u]. *)
Lemma evaluate_dist c is_warrior NEED_HEAL WEAPON u dir s expand s' :
  evaluate h c is_warrior NEED_HEAL WEAPON u dir s = (expand, s') ->
  s_dist s' = s_dist s
  \/ s_dist s' = mset (s_dist s) (pi u) (pj u)
                   (wrap_ushort (mget 0 (s_dist s) (pi u) (pj u) + 4)).
Proof.
  unfold evaluate. intros E.
  repeat match type of E with
  | context [map_index ?m ?u] => destruct (map_index m u) eqn:?
  | context [if ?b then _ else _] => destruct b eqn:?
  | (let '(_, _) := ?x in _) = _ => destruct x eqn:?
  end; simplify_eq/=;
  repeat match goal with
  | |- context [improve ?s ?p ?d] =>
      let F := fresh in
      pose proof (improve_fields s p d) as F; destruct F as (-> & _)
  end; simpl; auto.
Qed.

(** The shape of the working matrices of a search on an [n] x [m] grid. *)
Record shaped (n m : Z) (s : Search) : Prop := {
  sh_dist : mdims (s_dist s) n m;
  sh_visited : mdims (s_visited s) n m;
  sh_range : in_range (s_dist s)
}.

(** The measure that every iteration of the loop lowers. *)
Definition search_measure (s : Search) : Z :=
  Z.of_nat (length (pq_items (s_Q s))) + msum clamp (s_dist s)
  + 4 * msum unvisited (s_visited s).

Lemma msum_nonneg {A} (f : A -> Z) (M : Matrix A) : (forall x, 0 <= f x) -> 0 <= msum f M.
Proof.
  intros Hf. induction M as [|row M IH]; simpl; [lia|].
  assert (0 <= rsum f row); [|lia].
  induction row as [|x row IHr]; simpl; [lia|]. specialize (Hf x). lia.
Qed.

Lemma search_measure_nonneg s : 0 <= search_measure s.
Proof.
  unfold search_measure.
  pose proof (msum_nonneg clamp (s_dist s) ltac:(intros; unfold clamp; lia)).
  pose proof (msum_nonneg unvisited (s_visited s) ltac:(intros []; simpl; lia)).
  lia.
Qed.

Lemma search_step_measure c is_warrior NEED_HEAL WEAPON n m v Q s :
  shaped n m s ->
  pq_pop (s_Q s) = Some (v, Q) ->
  shaped n m (search_step h c is_warrior NEED_HEAL WEAPON v Q s)
  /\ search_measure (search_step h c is_warrior NEED_HEAL WEAPON v Q s) < search_measure s.
Proof.
  intros [Hd Hv Hr] Hpop.
  apply pq_pop_some in Hpop as [Hperm _]. apply Permutation_length in Hperm. simpl in Hperm.
  unfold search_step.
  cbn [s_visited s_dist s_Q s_best_dir s_best_profit s_take_ownership
       s_take_ownership_dist s_ai].
  set (u := v_pos v).
  destruct (mget false (s_visited s) (pi u) (pj u)) eqn:Hvis.
  { split; [by split|]. unfold search_measure; simpl. lia. }
  destruct (evaluate _ _ _ _ _ _ _ _) as [expand s1] eqn:Ev.
  pose proof (evaluate_dist _ _ _ _ _ _ _ _ _ Ev) as Hdist.
  apply evaluate_spec in Ev as (EV & EQ & _ & _).
  cbn [s_visited s_dist s_Q s_best_dir s_best_profit s_take_ownership
       s_take_ownership_dist s_ai] in *.
  (* marking [u] pays for the four turns that [evaluate] may add *)
  assert (Hmark : mdims (s_dist s1) n m /\ in_range (s_dist s1)
                  /\ msum clamp (s_dist s1) + 4 * msum unvisited (s_visited s1)
                     <= msum clamp (s_dist s) + 4 * msum unvisited (s_visited s)).
  { rewrite EV. destruct (decide (inside n m (pi u) (pj u))) as [Hin|Hout].
    - rewrite (msum_mset_inside unvisited false (s_visited s) n m _ _ true Hv Hin), Hvis.
      simpl. destruct Hdist as [->| ->].
      + split_and!; try done. lia.
      + pose proof (wrap_ushort_range (mget 0 (s_dist s) (pi u) (pj u) + 4)) as Hw.
        split; [by apply mdims_mset|]. split; [by apply in_range_mset|].
        rewrite (msum_mset_inside clamp 0 (s_dist s) n m _ _ _ Hd Hin).
        rewrite (clamp_id _ Hw), (clamp_id _ (Hr (pi u) (pj u))).
        pose proof (Hr (pi u) (pj u)) as Hu. unfold wrap_ushort in *.
        pose proof (Z.mod_le (mget 0 (s_dist s) (pi u) (pj u) + 4) 65536 ltac:(lia) ltac:(lia)).
        lia.
    - rewrite (mset_outside (s_visited s) n m _ _ true Hv Hout).
      destruct Hdist as [->| ->]; [split_and!; try done; lia|].
      rewrite (mset_outside (s_dist s) n m _ _ _ Hd Hout). split_and!; try done; lia. }
  destruct Hmark as (Hd1 & Hr1 & Hm1).
  assert (Hv1 : mdims (s_visited s1) n m) by (rewrite EV; by apply mdims_mset).
  destruct expand.
  - pose proof (relax_all_measure (s_ai s1) WEAPON u (v_dir v) n m Directions
                  (s_dist s1, s_Q s1) Hd1 Hr1) as (Hd2 & Hr2 & Hm2).
    destruct (fold_left _ _ _) as [dist2 Q2]. simpl in *.
    split; [by split|]. unfold search_measure; simpl. rewrite EQ in Hm2. lia.
  - split; [by split|]. unfold search_measure. rewrite EQ. lia.
Qed.

Lemma search_loop_terminates c is_warrior NEED_HEAL WEAPON n m fuel s :
  shaped n m s -> search_measure s < Z.of_nat fuel ->
  exists s', search_loop h c is_warrior NEED_HEAL WEAPON fuel s = Some s'.
Proof.
  revert s. induction fuel as [|fuel IH]; intros s Hs Hm.
  - pose proof (search_measure_nonneg s). lia.
  - simpl. destruct (pq_pop (s_Q s)) as [[v Q]|] eqn:Hpop; [|by eexists].
    destruct (search_step_measure c is_warrior NEED_HEAL WEAPON n m v Q s Hs Hpop) as [Hs' Hm'].
    apply IH; [done|lia].
Qed.

(** The seeding hands over well-shaped matrices and at most one vertex per
    direction. *)
Lemma push_seed_shape e WEAPON new_p d n m dist (Q : pq Vertex Vertex_less) :
  mdims dist n m -> in_range dist ->
  mdims (push_seed h e WEAPON new_p d dist Q).1 n m
  /\ in_range (push_seed h e WEAPON new_p d dist Q).1
  /\ length (pq_items (push_seed h e WEAPON new_p d dist Q).2) = S (length (pq_items Q)).
Proof.
  intros Hd Hr. unfold push_seed; simpl.
  split; [by apply mdims_mset|]. split.
  - apply in_range_mset; [done|]. apply add_movement_penalties_range. lia.
  - apply (Permutation_length (pq_push_items _ Q)).
Qed.

Lemma seed_safe_shape e WEAPON is_warrior origin n m ds dist Q dist' Q' :
  mdims dist n m -> in_range dist ->
  seed_safe h e WEAPON is_warrior origin ds dist Q = Seeds dist' Q' ->
  mdims dist' n m /\ in_range dist'
  /\ (length (pq_items Q') <= length (pq_items Q) + length ds)%nat.
Proof.
  revert dist Q. induction ds as [|d ds IH]; intros dist Q Hd Hr; simpl.
  - intros [= <- <-]. split_and!; try done. lia.
  - destruct (pos_ok h (pos_add origin d)); simpl.
    2:{ intros E. destruct (IH _ _ Hd Hr E) as (? & ? & ?). split_and!; try done. lia. }
    destruct (no_brainer _ _ _ _ _ _) as [[] tw]; [by case_match|].
    destruct (cell_safe _ _ _ _ && seed_ok _ _ _ _).
    + pose proof (push_seed_shape e WEAPON (pos_add origin d) d n m dist Q Hd Hr)
        as (Hd1 & Hr1 & Hl1).
      unfold push_seed in *. cbn [fst snd] in *.
      intros E. destruct (IH _ _ Hd1 Hr1 E) as (? & ? & ?). split_and!; try done. lia.
    + intros E. destruct (IH _ _ Hd Hr E) as (? & ? & ?). split_and!; try done. lia.
Qed.

Lemma seed_unsafe_shape e WEAPON origin n m ds acc :
  mdims acc.1 n m -> in_range acc.1 ->
  mdims (fold_left (seed_unsafe h e WEAPON origin) ds acc).1 n m
  /\ in_range (fold_left (seed_unsafe h e WEAPON origin) ds acc).1
  /\ (length (pq_items (fold_left (seed_unsafe h e WEAPON origin) ds acc).2)
      <= length (pq_items acc.2) + length ds)%nat.
Proof.
  revert acc. induction ds as [|d ds IH]; intros acc Hd Hr; simpl.
  - split_and!; try done. lia.
  - assert (Hstep : mdims (seed_unsafe h e WEAPON origin acc d).1 n m
                    /\ in_range (seed_unsafe h e WEAPON origin acc d).1
                    /\ (length (pq_items (seed_unsafe h e WEAPON origin acc d).2)
                        <= S (length (pq_items acc.2)))%nat).
    { unfold seed_unsafe. destruct (negb _); [split_and!; try done; lia|].
      destruct (seed_ok _ _ _ _); [|split_and!; try done; lia].
      destruct (push_seed_shape e WEAPON (pos_add origin d) d n m acc.1 acc.2 Hd Hr)
        as (? & ? & ->). split_and!; try done. }
    destruct Hstep as (Hd1 & Hr1 & Hl1).
    destruct (IH _ Hd1 Hr1) as (? & ? & ?). split_and!; try done. lia.
Qed.

Lemma pq_is_empty_items {A less} `{!PriorityQueue A less} (q : pq A less) :
  pq_is_empty q = true -> pq_items q = [].
Proof.
  unfold pq_is_empty. destruct (pq_pop q) eqn:E; [done|]. intros _. by apply pq_pop_none.
Qed.

(** The planner always returns: the fuel of [approach_target] is enough. *)
Lemma approach_target_total (e : Eldar) (ID : Z) (is_warrior : bool) :
  0 <= sz_n e -> 0 <= sz_m e ->
  exists r, approach_target h e ID is_warrior = Some r.
Proof.
  intros Hn Hm. unfold approach_target. cbv zeta.
  set (c := citizen h ID). set (origin := cit_pos c). set (WEAPON := my_weapon c).
  set (dist0 := mset (mnew (sz_n e) (sz_m e) USHRT_MAX) (pi origin) (pj origin) 0).
  set (visited0 := mset (mnew (sz_n e) (sz_m e) false) (pi origin) (pj origin) true).
  assert (Hd0 : mdims dist0 (sz_n e) (sz_m e)) by (apply mdims_mset; by apply mdims_mnew).
  assert (Hr0 : in_range dist0).
  { apply in_range_mset; [|lia]. apply in_range_mnew. unfold USHRT_MAX. lia. }
  assert (Hv0 : mdims visited0 (sz_n e) (sz_m e)) by (apply mdims_mset; by apply mdims_mnew).
  destruct (seed_safe h e WEAPON is_warrior origin Directions dist0 pq_new)
    as [|d|dist1 Q1] eqn:ES; [by eexists|by eexists|].
  apply (seed_safe_shape e WEAPON is_warrior origin _ _ _ _ _ _ _ Hd0 Hr0) in ES
    as (Hd1 & Hr1 & Hl1).
  rewrite pq_new_items in Hl1. simpl in Hl1.
  set (seeded := if pq_is_empty Q1 then _ else _).
  assert (Hseeded : mdims seeded.1 (sz_n e) (sz_m e) /\ in_range seeded.1
                    /\ (length (pq_items seeded.2) <= 4)%nat).
  { unfold seeded. destruct (pq_is_empty Q1) eqn:EQ; [|done].
    destruct (seed_unsafe_shape e WEAPON origin _ _ Directions (dist1, Q1) Hd1 Hr1)
      as (? & ? & Hl). split_and!; try done.
    cbn [fst snd] in Hl. rewrite (pq_is_empty_items Q1 EQ) in Hl. exact Hl. }
  destruct seeded as [dist2 Q2]. simpl in Hseeded. destruct Hseeded as (Hd2 & Hr2 & Hl2).
  match goal with
  | |- context [search_loop ?h ?c ?w ?nh ?W ?f ?s] =>
      destruct (search_loop_terminates c w nh W (sz_n e) (sz_m e) f s) as [s' ->];
        [by split| |by eexists]
  end.
  unfold search_measure, search_fuel; simpl.
  pose proof (msum_bounds clamp dist2 _ _ 0 65535 Hd2 ltac:(intros; unfold clamp; lia)
                ltac:(lia) Hn Hm).
  pose proof (msum_bounds unvisited visited0 _ _ 0 1 Hv0 ltac:(intros []; simpl; lia)
                ltac:(lia) Hn Hm).
  rewrite Z2Nat.id by nia. nia.
Qed.

(** The same argument for [compute_closest]. *)
Lemma cc_relax_measure e u n m acc d :
  mdims acc.1.2 n m -> in_range acc.1.2 ->
  mdims (cc_relax h e u acc d).1.2 n m
  /\ in_range (cc_relax h e u acc d).1.2
  /\ Z.of_nat (length (pq_items (cc_relax h e u acc d).2))
       + msum clamp (cc_relax h e u acc d).1.2
     <= Z.of_nat (length (pq_items acc.2)) + msum clamp acc.1.2.
Proof.
  destruct acc as [[x dist] Q]. simpl. intros Hd Hr. unfold cc_relax.
  destruct (pos_ok h (pos_add u d) && negb (board e (pos_add u d) =? WALL));
    [|simpl; split_and!; try done; lia].
  destruct (_ <? _) eqn:Hlt; [|simpl; split_and!; try done; lia].
  apply Z.ltb_lt in Hlt. simpl. apply lower_entry; try done.
  apply wrap_ushort_range.
Qed.

Lemma cc_relax_all_measure e u n m ds acc :
  mdims acc.1.2 n m -> in_range acc.1.2 ->
  mdims (fold_left (cc_relax h e u) ds acc).1.2 n m
  /\ in_range (fold_left (cc_relax h e u) ds acc).1.2
  /\ Z.of_nat (length (pq_items (fold_left (cc_relax h e u) ds acc).2))
       + msum clamp (fold_left (cc_relax h e u) ds acc).1.2
     <= Z.of_nat (length (pq_items acc.2)) + msum clamp acc.1.2.
Proof.
  revert acc. induction ds as [|d ds IH]; intros acc Hd Hr; simpl; [split_and!; try done; lia|].
  destruct (cc_relax_measure e u n m acc d Hd Hr) as (Hd1 & Hr1 & Hm1).
  destruct (IH _ Hd1 Hr1) as (Hd2 & Hr2 & Hm2). split_and!; try done. lia.
Qed.

Lemma cc_loop_terminates e WEAPON n m fuel info s :
  mdims (cc_dist s) n m -> in_range (cc_dist s) ->
  Z.of_nat (length (pq_items (cc_Q s))) + msum clamp (cc_dist s) < Z.of_nat fuel ->
  exists info', cc_loop h e WEAPON fuel info s = Some info'.
Proof.
  revert s. induction fuel as [|fuel IH]; intros s Hd Hr Hm.
  - pose proof (msum_nonneg clamp (cc_dist s) ltac:(intros; unfold clamp; lia)). lia.
  - cbn [cc_loop]. destruct (pq_pop (cc_Q s)) as [[v Q]|] eqn:Hpop; [|by eexists].
    apply pq_pop_some in Hpop as [Hperm _]. apply Permutation_length in Hperm.
    simpl in Hperm.
    destruct (mget false (cc_visited s) _ _).
    { apply IH; simpl; try done. lia. }
    destruct (cc_found _ _ _ _ _ _); [by eexists|].
    pose proof (cc_relax_all_measure e (v_pos v) n m Directions
                  (mget 0 (cc_dist s) (pi (v_pos v)) (pj (v_pos v)), cc_dist s, Q) Hd Hr)
      as (Hd2 & Hr2 & Hm2).
    destruct (fold_left _ _ _) as [[x dist2] Q2]. simpl in *.
    apply IH; simpl; try done. lia.
Qed.

(** [compute_closest] always returns a record. *)
Lemma compute_closest_total (e : Eldar) (origin : Pos) (info : Bonus_Info) :
  0 <= sz_n e -> 0 <= sz_m e ->
  exists info', compute_closest h e origin info = Some info'.
Proof.
  intros Hn Hm. unfold compute_closest. cbv zeta.
  set (dist0 := mset (mnew (sz_n e) (sz_m e) USHRT_MAX) (pi origin) (pj origin) 0).
  assert (Hd0 : mdims dist0 (sz_n e) (sz_m e)) by (apply mdims_mset; by apply mdims_mnew).
  assert (Hr0 : in_range dist0).
  { apply in_range_mset; [|lia]. apply in_range_mnew. unfold USHRT_MAX. lia. }
  apply (cc_loop_terminates e _ (sz_n e) (sz_m e)); simpl; try done.
  pose proof (Permutation_length (pq_push_items (mkVertex 0 origin Up) pq_new)) as Hl.
  rewrite pq_new_items in Hl. simpl in Hl. rewrite Hl.
  pose proof (msum_bounds clamp dist0 _ _ 0 65535 Hd0 ltac:(intros; unfold clamp; lia)
                ltac:(lia) Hn Hm).
  unfold search_fuel. rewrite Z2Nat.id by nia. nia.
Qed.

End Termination.

(** * The round as a whole

    With the searches terminating, every task returns and so does [play]. *)

Section Totality.
Context `{IQ : !PriorityQueue Instr Instr_less}.
Context `{VQ : !PriorityQueue Vertex Vertex_less}.
Variable h : Host.

(** The sizes of the matrices, fixed by [initialize]. *)
Definition same_sizes (e e' : Eldar) : Prop := sz_n e' = sz_n e /\ sz_m e' = sz_m e.

Lemma for_cells_sizes n m (body : Eldar -> Z -> Z -> Eldar) e :
  (forall e i j, same_sizes e (body e i j)) -> same_sizes e (for_cells n m body e).
Proof.
  intros Hb. rewrite for_cells_cells.
  generalize (cells n m). intros l. revert e.
  induction l as [|[i j] l IH]; intros e; simpl; [done|].
  destruct (IH (body e i j)) as [H1 H2]. destruct (Hb e i j) as [H3 H4].
  split; congruence.
Qed.

Lemma build_board_sizes (e : Eldar) : same_sizes e (build_board h e).
Proof.
  unfold build_board, build_matrices. cbv zeta.
  set (e1 := set_bonus_distances e ∅).
  assert (H1 : same_sizes e e1) by (unfold e1, same_sizes, set_bonus_distances; by destruct (cur_odd e)).
  set (e2 := for_cells (sz_n e1) (sz_m e1) _ e1).
  assert (H2 : same_sizes e1 e2) by (apply for_cells_sizes; by intros).
  set (e3 := for_cells (sz_n e2) (sz_m e2) _ e2).
  assert (H3 : same_sizes e2 e3) by (apply for_cells_sizes; intros; apply build_cell_sz).
  assert (H4 : same_sizes e3 (set_bonus_distances e3
                 (map_imap (fun p info => compute_closest h e3 p info) (bonus_distances e3))))
    by (unfold same_sizes, set_bonus_distances; by destruct (cur_odd e3)).
  unfold same_sizes in *. split; intuition congruence.
Qed.

(** The closing loop of [build_board] keeps a record for every bonus that
    the double loop registered: the one [compute_closest] filled in. *)
Lemma build_board_records (e : Eldar) (p : Pos) (info : Bonus_Info) :
  0 <= sz_n e -> 0 <= sz_m e ->
  bonus_distances (build_matrices h e) !! p = Some info ->
  exists info',
    compute_closest h (build_matrices h e) p info = Some info'
    /\ bonus_distances (build_board h e) !! p = Some info'.
Proof.
  intros Hn Hm Hp.
  assert (Hs : same_sizes e (build_matrices h e)).
  { unfold build_matrices. cbv zeta.
    set (e1 := set_bonus_distances e ∅).
    assert (H1 : same_sizes e e1)
      by (unfold e1, same_sizes, set_bonus_distances; by destruct (cur_odd e)).
    set (e2 := for_cells (sz_n e1) (sz_m e1) _ e1).
    assert (H2 : same_sizes e1 e2) by (apply for_cells_sizes; by intros).
    assert (H3 : same_sizes e2 (for_cells (sz_n e2) (sz_m e2) (build_cell h) e2))
      by (apply for_cells_sizes; intros; apply build_cell_sz).
    unfold same_sizes in *. split; intuition congruence. }
  destruct Hs as [Hsn Hsm].
  destruct (compute_closest_total h (build_matrices h e) p info) as [info' E]; [lia|lia|].
  exists info'. split; [done|].
  unfold build_board. cbv zeta.
  assert (Hset : forall (e0 : Eldar) m, bonus_distances (set_bonus_distances e0 m) = m).
  { intros e0 m. unfold bonus_distances, set_bonus_distances.
    by destruct e0 as [? ? ? ? ? ? ? ? ? []]. }
  rewrite Hset, map_lookup_imap, Hp. exact E.
Qed.

Lemma approach_target_sizes (e : Eldar) (ID : Z) (is_warrior : bool) b e' :
  approach_target h e ID is_warrior = Some (b, e') -> same_sizes e e'.
Proof.
  intros E. apply approach_target_inv in E as [E|[(d & E & _)|(s & Hinv & E)]].
  - by injection E as -> ->.
  - by injection E as -> ->.
  - destruct Hinv as [(Hw1 & Hw2 & _) _ _ _]. unfold decide_move in E.
    repeat case_match; simplify_eq; unfold same_sizes, set_bonus_distances;
      simpl; repeat case_match; simpl; done.
Qed.

Lemma run_away_sizes (e : Eldar) id c W sentinel :
  same_sizes e (run_away h e id c W sentinel).
Proof. unfold run_away. repeat case_match; done. Qed.

(** A task: it returns, and leaves the sizes alone. *)
Definition total_task (task : Eldar -> Z -> option Eldar) : Prop :=
  forall e id, 0 <= sz_n e -> 0 <= sz_m e ->
    exists e', task e id = Some e' /\ same_sizes e e'.

Lemma builder_day_task_total : total_task (builder_day_task h).
Proof.
  intros e id Hn Hm. unfold builder_day_task.
  destruct (approach_target_total h e id false Hn Hm) as [[b e1] E]. rewrite E.
  apply approach_target_sizes in E.
  destruct b; [by exists e1|].
  repeat case_match; eexists; (split; [reflexivity|]); exact E.
Qed.

Lemma warrior_day_task_total : total_task (warrior_day_task h).
Proof.
  intros e id Hn Hm. unfold warrior_day_task.
  destruct (approach_target_total h e id true Hn Hm) as [[b e1] E]. rewrite E.
  apply approach_target_sizes in E. by exists e1.
Qed.

Lemma builder_night_task_total : total_task (builder_night_task h).
Proof.
  intros e id Hn Hm. unfold builder_night_task.
  destruct (approach_target_total h e id false Hn Hm) as [[b e1] E]. rewrite E.
  apply approach_target_sizes in E.
  destruct b; [by exists e1|].
  eexists. split; [reflexivity|].
  destruct (run_away_sizes e1 id (citizen h id) BUILDER (-1)) as [H1 H2].
  destruct E as [H3 H4]. split; congruence.
Qed.

Lemma warrior_night_task_total : total_task (warrior_night_task h).
Proof.
  intros e id Hn Hm. unfold warrior_night_task.
  destruct (approach_target_total h e id true Hn Hm) as [[b e1] E]. rewrite E.
  apply approach_target_sizes in E.
  destruct b; [by exists e1|].
  eexists. split; [reflexivity|].
  destruct (run_away_sizes e1 id (citizen h id) (my_weapon (citizen h id)) INT_MIN) as [H1 H2].
  destruct E as [H3 H4]. split; congruence.
Qed.

Lemma for_each_total task ids :
  total_task task ->
  forall e, 0 <= sz_n e -> 0 <= sz_m e ->
    exists e', for_each task ids e = Some e' /\ same_sizes e e'.
Proof.
  intros Ht. induction ids as [|id ids IH]; intros e Hn Hm; simpl.
  - by exists e.
  - destruct (Ht e id Hn Hm) as (e1 & -> & H1 & H2).
    destruct (IH e1) as (e2 & -> & H3 & H4); [lia|lia|].
    exists e2. split; [done|]. split; congruence.
Qed.

(** [play] returns every round, whatever the board the host shows. *)
Lemma play_total (e : Eldar) :
  0 <= board_rows h -> 0 <= board_cols h -> 0 <= sz_n e -> 0 <= sz_m e ->
  exists e' coms, play h e = Some (e', coms).
Proof.
  intros Hr Hc Hn Hm. unfold play. cbv zeta.
  set (e1 := if sz_n e =? 0 then initialize h e else e).
  assert (H1 : 0 <= sz_n e1 /\ 0 <= sz_m e1).
  { unfold e1. destruct (sz_n e =? 0); simpl; done. }
  set (e2 := set_num_barricades _ _).
  assert (H2 : 0 <= sz_n e2 /\ 0 <= sz_m e2).
  { unfold e2. simpl. destruct (build_board_sizes (set_cur_odd e1 (Z.odd (round h)))) as [-> ->].
    done. }
  clearbody e2. clear e1 H1. destruct H2 as [H2n H2m].
  assert (Ht : exists e3,
    (if is_day h
     then match for_each (builder_day_task h) (builders_me h) e2 with
          | Some e => for_each (warrior_day_task h) (warriors_me h) e
          | None => None
          end
     else match for_each (builder_night_task h) (builders_me h) e2 with
          | Some e => for_each (warrior_night_task h) (warriors_me h) e
          | None => None
          end) = Some e3).
  { destruct (is_day h).
    - destruct (for_each_total _ (builders_me h) builder_day_task_total e2 H2n H2m)
        as (e3 & -> & H3 & H4).
      destruct (for_each_total _ (warriors_me h) warrior_day_task_total e3)
        as (e4 & -> & _); [lia|lia|]. by exists e4.
    - destruct (for_each_total _ (builders_me h) builder_night_task_total e2 H2n H2m)
        as (e3 & -> & H3 & H4).
      destruct (for_each_total _ (warriors_me h) warrior_night_task_total e3)
        as (e4 & -> & _); [lia|lia|]. by exists e4. }
  destruct Ht as [e3 ->].
  destruct (flush_spec (instruction_buffer e3)) as (out & qf & -> & _).
  by eexists _, _.
Qed.

End Totality.

(** * Hosts on which a round is defined

    The source divides by the demolition rates and by the damage of a hit
    without a guard, and indexes its matrices with the positions of the
    citizens it is given.  A run of the source is therefore only defined on a
    host whose rates are positive and whose citizens stand inside the grid,
    for a player whose matrices have the dimensions of the grid. *)

Section Hosts.
Context `{IQ : !PriorityQueue Instr Instr_less}.
Context `{VQ : !PriorityQueue Vertex Vertex_less}.
Variable h : Host.

(** The divisors of [add_movement_penalties] and [compute_closest]. *)
Definition rates_positive : Prop :=
  0 < builder_strength_demolish h /\ 0 < hammer_strength_demolish h
  /\ 0 < gun_strength_demolish h /\ 0 < bazooka_strength_demolish h
  /\ 0 < life_lost_in_attack h.

Definition host_ok : Prop :=
  0 <= board_rows h /\ 0 <= board_cols h /\ rates_positive
  /\ Forall (fun id => pos_ok h (cit_pos (citizen h id)) = true)
       (builders_me h ++ warriors_me h).

Lemma strength_demolish_positive (weapon : Z) :
  rates_positive -> 0 < strength_demolish h weapon.
Proof.
  intros (H1 & H2 & H3 & H4 & _). unfold strength_demolish. repeat case_match; done.
Qed.

(** [play] returns for a player that is fresh ([sz_n = 0], so that the
    round starts with [initialize]) or sized. *)
Lemma play_returns (e : Eldar) :
  0 <= board_rows h -> 0 <= board_cols h ->
  (sz_n e <> 0 -> 0 <= sz_n e /\ 0 <= sz_m e) ->
  exists e' coms, play h e = Some (e', coms).
Proof.
  intros Hr Hc Hsz. unfold play. cbv zeta.
  set (e1 := if sz_n e =? 0 then initialize h e else e).
  assert (H1 : 0 <= sz_n e1 /\ 0 <= sz_m e1).
  { unfold e1. destruct (sz_n e =? 0) eqn:E0; simpl; [done|].
    apply Hsz. by apply Z.eqb_neq. }
  set (e2 := set_num_barricades _ _).
  assert (H2 : 0 <= sz_n e2 /\ 0 <= sz_m e2).
  { unfold e2. simpl.
    destruct (build_board_sizes h (set_cur_odd e1 (Z.odd (round h)))) as [-> ->]. done. }
  clearbody e2. clear e1 H1. destruct H2 as [H2n H2m].
  assert (Ht : exists e3,
    (if is_day h
     then match for_each (builder_day_task h) (builders_me h) e2 with
          | Some e => for_each (warrior_day_task h) (warriors_me h) e
          | None => None
          end
     else match for_each (builder_night_task h) (builders_me h) e2 with
          | Some e => for_each (warrior_night_task h) (warriors_me h) e
          | None => None
          end) = Some e3).
  { destruct (is_day h).
    - destruct (for_each_total _ (builders_me h) (builder_day_task_total h) e2 H2n H2m)
        as (e3 & -> & H3 & H4).
      destruct (for_each_total _ (warriors_me h) (warrior_day_task_total h) e3)
        as (e4 & -> & _); [lia|lia|]. by exists e4.
    - destruct (for_each_total _ (builders_me h) (builder_night_task_total h) e2 H2n H2m)
        as (e3 & -> & H3 & H4).
      destruct (for_each_total _ (warriors_me h) (warrior_night_task_total h) e3)
        as (e4 & -> & _); [lia|lia|]. by exists e4. }
  destruct Ht as [e3 ->].
  destruct (flush_spec (instruction_buffer e3)) as (out & qf & -> & _).
  by eexists _, _.
Qed.

End Hosts.

(** * The planner: a weapon nobody is entitled to *)

Section Unclaimed.
Context `{IQ : !PriorityQueue Instr Instr_less}.
Context `{VQ : !PriorityQueue Vertex Vertex_less}.
Variable h : Host.

(** The closest distance that [operator[]] reads for the cell [u]: the
    recorded one, or the default of a fresh record. *)
Definition record_dist (m : gmap Pos Bonus_Info) (u : Pos) : Z :=
  closest_dist (default Bonus_default (m !! u)).

(** The magnitudes of the game keep the distances far from the capacity of
    an [unsigned short]: hits and demolition rates are positive, the health
    stored for an enemy is not negative, the penalties of a cell add up to at
    most [P] turns, and a path through every cell of the grid stays below
    65535 turns. *)
Definition cost_ok (e : Eldar) (WEAPON P : Z) (c : Z * Z) : bool :=
  let p := mkPos c.1 c.2 in
  implb (board e p <=? ENEMY_BUILDER) (0 <=? board_enemy e p)
  && ((if board_barricades e p <? 0
       then Z.quot (- board_barricades e p) (strength_demolish h WEAPON) else 0)
      + (if board e p <=? ENEMY_BUILDER
         then Z.quot (board_enemy e p) (life_lost_in_attack h) else 0)
      + COST_WALK_INTO_FRIENDLY <=? P).

Definition calm (e : Eldar) (WEAPON P : Z) : bool :=
  (0 <? life_lost_in_attack h) && (0 <? strength_demolish h WEAPON)
  && forallb (cost_ok e WEAPON P) (cells (sz_n e) (sz_m e))
  && ((sz_n e * sz_m e + 1) * (P + 5) <? 65535)
  && (0 <=? P) && (0 <=? sz_n e) && (0 <=? sz_m e).

Lemma calm_cell e WEAPON P i j :
  calm e WEAPON P = true -> inside (sz_n e) (sz_m e) i j ->
  0 < life_lost_in_attack h /\ 0 < strength_demolish h WEAPON
  /\ cost_ok e WEAPON P (i, j) = true.
Proof.
  unfold calm. rewrite !andb_true_iff, !Z.ltb_lt.
  intros ((((((H1 & H2) & H3) & _) & _) & _) & _) Hin.
  split; [done|]. split; [done|].
  rewrite forallb_forall in H3. apply H3. apply list_elem_of_In. by apply elem_of_cells.
Qed.

Lemma wrap_ushort_id x : 0 <= x <= 65535 -> wrap_ushort x = x.
Proof. intros. unfold wrap_ushort. apply Z.mod_small. lia. Qed.

(** Without overflow an edge into [p] costs between 0 and [P + 1] turns, and
    at least one turn when [p] holds a weapon. *)
Lemma add_movement_penalties_calm e WEAPON P p d :
  calm e WEAPON P = true -> inside (sz_n e) (sz_m e) (pi p) (pj p) ->
  0 <= d -> d + 1 + P <= 65535 ->
  d <= add_movement_penalties h e p (d + 1) WEAPON <= d + 1 + P
  /\ (GUN <= board e p -> d + 1 <= add_movement_penalties h e p (d + 1) WEAPON).
Proof.
  intros Hc Hin Hd Hmax. destruct p as [i j]. simpl in Hin.
  destruct (calm_cell e WEAPON P i j Hc Hin) as (Hl & Hs & Hcost).
  unfold cost_ok in Hcost. simpl in Hcost.
  apply andb_true_iff in Hcost as [Hlife Hsum]. apply Z.leb_le in Hsum.
  unfold add_movement_penalties, COST_WALK_INTO_FRIENDLY, ENEMY_BUILDER, FRIENDLY_CITIZEN,
    GUN in *.
  set (B := board e (mkPos i j)) in *.
  set (bb := board_barricades e (mkPos i j)) in *.
  set (be := board_enemy e (mkPos i j)) in *.
  assert (Hq1 : bb < 0 -> 0 <= Z.quot (- bb) (strength_demolish h WEAPON)).
  { intros. apply Z.quot_pos; lia. }
  assert (Hq2 : B <= -3 -> 0 <= Z.quot be (life_lost_in_attack h)).
  { intros HB. apply Z.quot_pos; [|lia].
    apply Z.leb_le in HB. rewrite HB in Hlife. simpl in Hlife. lia. }
  destruct (bb <? 0) eqn:E1; [apply Z.ltb_lt in E1|apply Z.ltb_ge in E1];
  destruct (B <=? -3) eqn:E2; [apply Z.leb_le in E2|apply Z.leb_gt in E2
                              |apply Z.leb_le in E2|apply Z.leb_gt in E2];
  (destruct (B =? -1) eqn:E3; [apply Z.eqb_eq in E3|apply Z.eqb_neq in E3]);
  try specialize (Hq1 E1); try specialize (Hq2 E2);
  rewrite ?wrap_ushort_id by (rewrite ?wrap_ushort_id by lia; lia); lia.
Qed.

(** The bonus maps only grow by default records during a search. *)
Definition records_kept (m0 m : gmap Pos Bonus_Info) : Prop :=
  forall p, m !! p = m0 !! p \/ (m0 !! p = None /\ m !! p = Some Bonus_default).

Lemma records_kept_refl m : records_kept m m.
Proof. intros p. by left. Qed.

Lemma records_kept_trans m0 m1 m2 :
  records_kept m0 m1 -> records_kept m1 m2 -> records_kept m0 m2.
Proof.
  intros H1 H2 p. destruct (H1 p) as [E1|[E1 E1']], (H2 p) as [E2|[E2 E2']].
  - left. congruence.
  - right. split; congruence.
  - right. split; congruence.
  - congruence.
Qed.

Lemma records_kept_map_index m u : records_kept m (map_index m u).2.
Proof.
  intros p. unfold map_index. destruct (m !! u) eqn:E; simpl; [by left|].
  destruct (decide (u = p)) as [->|Hne].
  - right. by rewrite lookup_insert_eq.
  - left. by rewrite lookup_insert_ne.
Qed.

Lemma records_kept_dist m0 m p : records_kept m0 m -> record_dist m p = record_dist m0 p.
Proof. intros H. unfold record_dist. by destruct (H p) as [->|[-> ->]]. Qed.

Lemma map_index_dist m u : closest_dist (map_index m u).1 = record_dist m u.
Proof. unfold map_index, record_dist. by destruct (m !! u). Qed.

Lemma bonus_distances_set (e : Eldar) m : bonus_distances (set_bonus_distances e m) = m.
Proof. unfold bonus_distances, set_bonus_distances. by destruct e as [? ? ? ? ? ? ? ? ? []]. Qed.

Lemma bonus_distances_set_prev (e : Eldar) m :
  bonus_distances (set_bonus_distances_prev e m) = bonus_distances e.
Proof.
  unfold bonus_distances, set_bonus_distances_prev. by destruct e as [? ? ? ? ? ? ? ? ? []].
Qed.

Lemma set_bonus_distances_id (e : Eldar) : set_bonus_distances e (bonus_distances e) = e.
Proof. unfold bonus_distances, set_bonus_distances. by destruct e as [? ? ? ? ? ? ? ? ? []]. Qed.

(** What [evaluate] may do to the bonus records and to the claim on a
    weapon. *)
Lemma evaluate_records c is_warrior NEED_HEAL WEAPON u dir s expand s' :
  evaluate h c is_warrior NEED_HEAL WEAPON u dir s = (expand, s') ->
  records_kept (bonus_distances (s_ai s)) (bonus_distances (s_ai s'))
  /\ (s_take_ownership s' = s_take_ownership s
      \/ s_take_ownership s' = None
      \/ (s_take_ownership s' = Some u /\ GUN <= board (s_ai s) u
          /\ mget 0 (s_dist s) (pi u) (pj u) <= record_dist (bonus_distances (s_ai s)) u)).
Proof.
  unfold evaluate. intros E.
  repeat match type of E with
  | context [map_index ?m ?u] =>
      let K := fresh "K" in let D := fresh "D" in
      pose proof (records_kept_map_index m u) as K;
      pose proof (map_index_dist m u) as D;
      destruct (map_index m u); simpl in K, D
  | context [if ?b then _ else _] => destruct b eqn:?
  | (let '(_, _) := ?x in _) = _ => destruct x eqn:?
  end; simplify_eq/=;
  repeat match goal with
  | |- context [improve ?s ?p ?d] =>
      let F := fresh in let B := fresh in
      pose proof (improve_fields s p d) as F; pose proof (improve_best s p d) as B;
      generalize dependent (improve s p d); intros
  end; simpl in *;
  repeat match goal with H : _ /\ _ |- _ => destruct H end;
  repeat match goal with H : s_ai _ = _ |- _ => rewrite H end; simpl;
  rewrite ?bonus_distances_set_prev, ?bonus_distances_set;
  (split; [first [apply records_kept_refl | assumption]|]);
  try (intuition (simpl in *; congruence)).
  all: right; right; split_and!; [done|lia|lia].
Qed.

(** A weapon cell whose record says distance 0 is passed over by a citizen
    that is at least one turn away. *)
Lemma evaluate_zero_record c is_warrior NEED_HEAL WEAPON u dir s info :
  GUN <= board (s_ai s) u ->
  bonus_distances (s_ai s) !! u = Some info -> closest_dist info = 0 ->
  1 <= mget 0 (s_dist s) (pi u) (pj u) ->
  evaluate h c is_warrior NEED_HEAL WEAPON u dir s = (true, s).
Proof.
  intros Hw Hrec Hzero Hd. unfold evaluate, GUN, ENEMY_BUILDER, MONEY, FOOD in *.
  replace (board (s_ai s) u <=? -3) with false by (symmetry; apply Z.leb_gt; lia).
  replace (board (s_ai s) u =? 1) with false by (symmetry; apply Z.eqb_neq; lia).
  replace (board (s_ai s) u =? 2) with false by (symmetry; apply Z.eqb_neq; lia).
  replace (board (s_ai s) u >=? 5) with true by (symmetry; apply Z.geb_le; lia).
  rewrite !andb_false_r. cbn [andb].
  unfold map_index. rewrite Hrec, set_bonus_distances_id, Hzero.
  replace (0 >=? mget 0 (s_dist s) (pi u) (pj u)) with false
    by (symmetry; rewrite Z.geb_leb; apply Z.leb_gt; lia).
  by destruct s.
Qed.

Lemma calm_sizes e WEAPON P :
  calm e WEAPON P = true ->
  (sz_n e * sz_m e + 1) * (P + 5) < 65535 /\ 0 <= P /\ 0 <= sz_n e /\ 0 <= sz_m e.
Proof.
  unfold calm. rewrite !andb_true_iff, !Z.ltb_lt, !Z.leb_le. tauto.
Qed.

Lemma mget_mset_full {A} (d : A) (M : Matrix A) n m i j v i' j' :
  mdims M n m ->
  mget d (mset M i j v) i' j' =
  if decide ((i, j) = (i', j') /\ inside n m i j) then v else mget d M i' j'.
Proof.
  intros Hd. case_decide as Hc.
  - destruct Hc as [[= <- <-] [Hi Hj]]. by eapply mget_mset_eq.
  - destruct (decide ((i, j) = (i', j'))) as [[= <- <-]|Hne].
    + rewrite (mset_outside M n m i j v Hd); [done|]. intros Hin. apply Hc. by split.
    + by apply mget_mset_ne.
Qed.

Section Invariant.
Variables (e0 : Eldar) (WEAPON P : Z).
Hypothesis Hsized : sized h e0.
Hypothesis Hcalm : calm e0 WEAPON P = true.

Definition marked (b : bool) : Z := if b then 1 else 0.

(** The bound on the distances written so far: every visit allows [P + 5]
    more turns. *)
Definition bound (visited : Matrix bool) : Z := (msum marked visited + 1) * (P + 5).

Lemma pos_ok_inside p :
  pos_ok h p = true <-> inside (sz_n e0) (sz_m e0) (pi p) (pj p).
Proof.
  destruct Hsized as (-> & -> & _). destruct p as [i j]. apply pos_ok_in_grid.
Qed.

Lemma bound_max visited :
  mdims visited (sz_n e0) (sz_m e0) -> P + 5 <= bound visited < 65535.
Proof.
  intros Hv. destruct (calm_sizes _ _ _ Hcalm) as (Hmax & HP & Hn & Hm).
  pose proof (msum_bounds marked visited _ _ 0 1 Hv ltac:(intros []; simpl; lia)
                ltac:(lia) Hn Hm).
  unfold bound. nia.
Qed.

(** The invariant of the search on a calm board. *)
Record calm_inv (s : Search) : Prop := {
  ci_world : same_world e0 (s_ai s);
  ci_records : records_kept (bonus_distances e0) (bonus_distances (s_ai s));
  ci_dist : mdims (s_dist s) (sz_n e0) (sz_m e0);
  ci_visited : mdims (s_visited s) (sz_n e0) (sz_m e0);
  ci_range : in_range (s_dist s);
  ci_queue : Forall (fun v => inside (sz_n e0) (sz_m e0) (pi (v_pos v)) (pj (v_pos v))
                              /\ mget 0 (s_dist s) (pi (v_pos v)) (pj (v_pos v))
                                 <= bound (s_visited s))
               (pq_items (s_Q s));
  ci_weapon : forall i j, inside (sz_n e0) (sz_m e0) i j ->
    GUN <= mget 0 (Board e0) i j ->
    mget false (s_visited s) i j = false -> 1 <= mget 0 (s_dist s) i j;
  ci_owner : forall p, s_take_ownership s = Some p ->
    1 <= record_dist (bonus_distances e0) p
}.

(** The part of the invariant that the relaxations maintain, for the
    position [u] being expanded. *)
Definition relax_inv (visited : Matrix bool) (u : Pos) (B : Z)
  (acc : Matrix Z * pq Vertex Vertex_less) : Prop :=
  mdims acc.1 (sz_n e0) (sz_m e0) /\ in_range acc.1
  /\ Forall (fun v => inside (sz_n e0) (sz_m e0) (pi (v_pos v)) (pj (v_pos v))
                      /\ mget 0 acc.1 (pi (v_pos v)) (pj (v_pos v)) <= B + P + 5)
       (pq_items acc.2)
  /\ mget 0 acc.1 (pi u) (pj u) <= B + 4
  /\ (forall i j, inside (sz_n e0) (sz_m e0) i j -> GUN <= mget 0 (Board e0) i j ->
        mget false visited i j = false -> 1 <= mget 0 acc.1 i j).

Lemma relax_calm e visited u dir B acc d :
  same_world e0 e -> B + P + 5 < 65535 ->
  relax_inv visited u B acc -> relax_inv visited u B (relax h e WEAPON u dir acc d).
Proof.
  intros Hw HB (Hd & Hr & HQ & Hu & Hweap). destruct acc as [dist Q]. simpl in *.
  unfold relax.
  destruct (pos_ok h (pos_add u d)) eqn:Hok; simpl; [|by split_and!].
  destruct (negb _); simpl; [|by split_and!].
  apply pos_ok_inside in Hok.
  set (new_p := pos_add u d) in *.
  pose proof (Hr (pi u) (pj u)) as Hu0.
  destruct (calm_sizes _ _ _ Hcalm) as (_ & HP & _ & _).
  rewrite (wrap_ushort_id (mget 0 dist (pi u) (pj u) + 1)) by lia.
  assert (Hcalm' : calm e WEAPON P = true).
  { destruct Hw as (Hn & Hm & HBd & HBe & HBb & _). revert Hcalm.
    unfold calm, cost_ok, board, board_enemy, board_barricades.
    by rewrite Hn, Hm, HBd, HBe, HBb. }
  assert (Hin' : inside (sz_n e) (sz_m e) (pi new_p) (pj new_p)).
  { destruct Hw as (-> & -> & _). done. }
  destruct (add_movement_penalties_calm e WEAPON P new_p (mget 0 dist (pi u) (pj u))
              Hcalm' Hin' ltac:(lia) ltac:(lia)) as [Hnew Hnew_weapon].
  rewrite (same_world_board e0 e new_p Hw) in Hnew_weapon.
  set (new_distance := add_movement_penalties h e new_p (mget 0 dist (pi u) (pj u) + 1) WEAPON)
    in *.
  destruct (new_distance <? mget 0 dist (pi new_p) (pj new_p)) eqn:Hlt; [|by split_and!].
  apply Z.ltb_lt in Hlt. simpl.
  assert (Hlower : forall i j, mget 0 (mset dist (pi new_p) (pj new_p) new_distance) i j
                               <= mget 0 dist i j).
  { intros i j. rewrite (mget_mset_full 0 dist _ _ _ _ _ i j Hd).
    case_decide as Hc; [|lia]. destruct Hc as [[= <- <-] _]. lia. }
  unfold relax_inv. cbn [fst snd]. split_and!.
  - by apply mdims_mset.
  - apply in_range_mset; [done|lia].
  - rewrite pq_push_items. constructor; simpl.
    + split; [done|]. rewrite (mget_mset_eq 0 dist _ _ _ _ _ Hd); [lia|apply Hok|apply Hok].
    + eapply Forall_impl; [exact HQ|]. intros v [Hv1 Hv2]. split; [done|].
      specialize (Hlower (pi (v_pos v)) (pj (v_pos v))). lia.
  - specialize (Hlower (pi u) (pj u)). lia.
  - intros i j Hin Hgun Hunv. rewrite (mget_mset_full 0 dist _ _ _ _ _ i j Hd).
    case_decide as Hc; [|by apply Hweap]. destruct Hc as [[= <- <-] _].
    unfold board in Hnew_weapon. specialize (Hnew_weapon Hgun). lia.
Qed.

Lemma relax_all_calm e visited u dir B ds acc :
  same_world e0 e -> B + P + 5 < 65535 ->
  relax_inv visited u B acc ->
  relax_inv visited u B (fold_left (relax h e WEAPON u dir) ds acc).
Proof.
  intros Hw HB. revert acc. induction ds as [|d ds IH]; intros acc Hacc; simpl; [done|].
  apply IH. by apply relax_calm.
Qed.

Lemma search_step_calm c is_warrior NEED_HEAL v Q s :
  calm_inv s -> pq_pop (s_Q s) = Some (v, Q) ->
  calm_inv (search_step h c is_warrior NEED_HEAL WEAPON v Q s).
Proof.
  intros [Hw Hrec Hd Hv Hr HQ Hweap Hown] Hpop.
  apply pq_pop_some in Hpop as [Hperm _].
  rewrite Hperm in HQ. apply Forall_cons in HQ as [[Hu Hdu] HQ].
  unfold search_step.
  cbn [s_visited s_dist s_Q s_best_dir s_best_profit s_take_ownership
       s_take_ownership_dist s_ai].
  set (u := v_pos v) in *.
  destruct (mget false (s_visited s) (pi u) (pj u)) eqn:Hvis.
  { by split. }
  destruct (calm_sizes _ _ _ Hcalm) as (_ & HP & _ & _).
  pose proof (Hr (pi u) (pj u)) as Hu0.
  pose proof (Hweap (pi u) (pj u) Hu) as Hu1.
  set (visited1 := mset (s_visited s) (pi u) (pj u) true).
  assert (Hv1 : mdims visited1 (sz_n e0) (sz_m e0)) by (by apply mdims_mset).
  assert (Hb1 : bound visited1 = bound (s_visited s) + (P + 5)).
  { unfold bound, visited1.
    rewrite (msum_mset_inside marked false (s_visited s) _ _ _ _ true Hv Hu), Hvis.
    simpl. lia. }
  pose proof (bound_max visited1 Hv1) as Hmax.
  destruct (evaluate _ _ _ _ _ _ _ _) as [expand s1] eqn:Ev.
  pose proof (evaluate_dist _ _ _ _ _ _ _ _ _ _ Ev) as Hdist.
  pose proof (evaluate_records _ _ _ _ _ _ _ _ _ Ev) as [Hrec1 Hown1].
  apply evaluate_spec in Ev as (EV & EQ & Hw1 & _).
  cbn [s_visited s_dist s_Q s_best_dir s_best_profit s_take_ownership
       s_take_ownership_dist s_ai] in *.
  assert (Hw' : same_world e0 (s_ai s1)) by (by eapply same_world_trans).
  assert (Hrec' : records_kept (bonus_distances e0) (bonus_distances (s_ai s1)))
    by (by eapply records_kept_trans).
  assert (Hown' : forall p, s_take_ownership s1 = Some p ->
                    1 <= record_dist (bonus_distances e0) p).
  { intros p Hp. destruct Hown1 as [E|[E|(E & Hgun & Hle)]].
    - apply Hown. congruence.
    - congruence.
    - assert (p = u) as -> by congruence.
      rewrite (same_world_board e0 (s_ai s) u Hw) in Hgun.
      rewrite (records_kept_dist _ _ u Hrec) in Hle.
      specialize (Hu1 Hgun Hvis). lia. }
  (* the distances after [evaluate] *)
  assert (Hd1 : mdims (s_dist s1) (sz_n e0) (sz_m e0) /\ in_range (s_dist s1)
                /\ (forall i j, mget 0 (s_dist s1) i j <= mget 0 (s_dist s) i j + 4)
                /\ (forall i j, (i, j) <> (pi u, pj u) ->
                      mget 0 (s_dist s1) i j = mget 0 (s_dist s) i j)).
  { destruct Hdist as [->| ->].
    - split_and!; try done. intros; lia.
    - rewrite (wrap_ushort_id (mget 0 (s_dist s) (pi u) (pj u) + 4)) by lia.
      split; [by apply mdims_mset|]. split; [apply in_range_mset; [done|lia]|]. split.
      + intros i j. rewrite (mget_mset_full 0 (s_dist s) _ _ _ _ _ i j Hd).
        case_decide as Hc; [|lia]. destruct Hc as [[= <- <-] _]. lia.
      + intros i j Hne. by apply mget_mset_ne. }
  destruct Hd1 as (Hd1 & Hr1 & Hle1 & Hsame1).
  assert (Hweap1 : forall i j, inside (sz_n e0) (sz_m e0) i j ->
                     GUN <= mget 0 (Board e0) i j ->
                     mget false visited1 i j = false -> 1 <= mget 0 (s_dist s1) i j).
  { intros i j Hin Hgun. unfold visited1.
    rewrite (mget_mset_full false (s_visited s) _ _ _ _ _ i j Hv).
    case_decide as Hc; [done|]. intros Hunv.
    rewrite Hsame1; [by apply Hweap|]. intros [= -> ->]. apply Hc. by split. }
  assert (HR : relax_inv visited1 u (bound (s_visited s)) (s_dist s1, s_Q s1)).
  { unfold relax_inv. cbn [fst snd]. rewrite EQ. split_and!; try done.
    - eapply Forall_impl; [exact HQ|]. intros v' [Hv1' Hv2']. split; [done|].
      specialize (Hle1 (pi (v_pos v')) (pj (v_pos v'))). lia.
    - specialize (Hle1 (pi u) (pj u)). lia. }
  destruct expand.
  - pose proof (relax_all_calm (s_ai s1) visited1 u (v_dir v) (bound (s_visited s))
                  Directions _ Hw' ltac:(lia) HR) as (Hd2 & Hr2 & HQ2 & _ & Hweap2).
    destruct (fold_left _ _ _) as [dist2 Q2]. cbn [fst snd] in *.
    split; cbn [s_visited s_dist s_Q s_best_dir s_best_profit s_take_ownership
                s_take_ownership_dist s_ai]; try done; rewrite ?EV; try done.
    fold visited1. rewrite Hb1.
    eapply Forall_impl; [exact HQ2|]. intros v' [? ?]. split; [done|lia].
  - destruct HR as (_ & _ & HQ2 & _ & _). cbn [fst snd] in HQ2.
    split; try done; rewrite ?EV; try done.
    fold visited1. rewrite Hb1.
    eapply Forall_impl; [exact HQ2|]. intros v' [? ?]. split; [done|lia].
Qed.

(** The states the loop of [approach_target] goes through. *)
Inductive search_reaches (c : Citizen) (is_warrior NEED_HEAL : bool) : Search -> Search -> Prop :=
  | reach_here s : search_reaches c is_warrior NEED_HEAL s s
  | reach_step s v Q s' :
      pq_pop (s_Q s) = Some (v, Q) ->
      search_reaches c is_warrior NEED_HEAL
        (search_step h c is_warrior NEED_HEAL WEAPON v Q s) s' ->
      search_reaches c is_warrior NEED_HEAL s s'.

Lemma search_reaches_calm c is_warrior NEED_HEAL s s' :
  search_reaches c is_warrior NEED_HEAL s s' -> calm_inv s -> calm_inv s'.
Proof. induction 1 as [|s v Q s' Hpop _ IH]; [done|]. intros Hs. apply IH. by apply search_step_calm. Qed.

Lemma search_reaches_one c is_warrior NEED_HEAL s v Q :
  pq_pop (s_Q s) = Some (v, Q) ->
  search_reaches c is_warrior NEED_HEAL s (search_step h c is_warrior NEED_HEAL WEAPON v Q s).
Proof. intros Hpop. eapply reach_step; [exact Hpop|apply reach_here]. Qed.

Lemma search_loop_reaches c is_warrior NEED_HEAL fuel s s' :
  search_loop h c is_warrior NEED_HEAL WEAPON fuel s = Some s' ->
  search_reaches c is_warrior NEED_HEAL s s'.
Proof.
  revert s. induction fuel as [|fuel IH]; intros s; simpl; [done|].
  destruct (pq_pop (s_Q s)) as [[v Q]|] eqn:Hpop.
  - intros E. eapply reach_step; [exact Hpop|]. by apply IH.
  - intros [= <-]. constructor.
Qed.

(** The seeding establishes the invariant. *)
Definition seed_inv (origin : Pos) (acc : Matrix Z * pq Vertex Vertex_less) : Prop :=
  mdims acc.1 (sz_n e0) (sz_m e0) /\ in_range acc.1
  /\ Forall (fun v => inside (sz_n e0) (sz_m e0) (pi (v_pos v)) (pj (v_pos v))
                      /\ mget 0 acc.1 (pi (v_pos v)) (pj (v_pos v)) <= P + 1)
       (pq_items acc.2)
  /\ (forall i j, inside (sz_n e0) (sz_m e0) i j -> GUN <= mget 0 (Board e0) i j ->
        (i, j) <> (pi origin, pj origin) -> 1 <= mget 0 acc.1 i j).

Lemma push_seed_calm origin new_p d dist Q :
  pos_ok h new_p = true ->
  seed_inv origin (dist, Q) -> seed_inv origin (push_seed h e0 WEAPON new_p d dist Q).
Proof.
  intros Hok (Hd & Hr & HQ & Hweap). cbn [fst snd] in *.
  apply pos_ok_inside in Hok.
  destruct (calm_sizes _ _ _ Hcalm) as (Hmax & HP & Hn & Hm).
  destruct (add_movement_penalties_calm e0 WEAPON P new_p 0 Hcalm Hok ltac:(lia) ltac:(nia))
    as [Hnew Hnew_weapon].
  change (0 + 1) with 1 in *.
  unfold push_seed, seed_inv. cbn [fst snd].
  set (distance := add_movement_penalties h e0 new_p 1 WEAPON) in *.
  split_and!.
  - by apply mdims_mset.
  - apply in_range_mset; [done|lia].
  - rewrite pq_push_items. constructor; simpl.
    + split; [done|]. rewrite (mget_mset_eq 0 dist _ _ _ _ _ Hd); [lia|apply Hok|apply Hok].
    + eapply Forall_impl; [exact HQ|]. intros v [Hv1 Hv2]. split; [done|].
      rewrite (mget_mset_full 0 dist _ _ _ _ _ _ _ Hd). case_decide; lia.
  - intros i j Hin Hgun Hne. rewrite (mget_mset_full 0 dist _ _ _ _ _ i j Hd).
    case_decide as Hc; [|by apply Hweap]. destruct Hc as [[= <- <-] _].
    unfold board in Hnew_weapon. specialize (Hnew_weapon Hgun). lia.
Qed.

Lemma seed_safe_calm is_warrior origin ds dist Q dist' Q' :
  seed_inv origin (dist, Q) ->
  seed_safe h e0 WEAPON is_warrior origin ds dist Q = Seeds dist' Q' ->
  seed_inv origin (dist', Q').
Proof.
  revert dist Q. induction ds as [|d ds IH]; intros dist Q Hinv; simpl.
  - by intros [= <- <-].
  - destruct (pos_ok h (pos_add origin d)) eqn:Hok; simpl; [|by apply IH].
    destruct (no_brainer _ _ _ _ _ _) as [[] tw]; [by case_match|].
    destruct (cell_safe _ _ _ _ && seed_ok _ _ _ _); [|by apply IH].
    pose proof (push_seed_calm origin (pos_add origin d) d dist Q Hok Hinv) as Hinv'.
    unfold push_seed in *. apply IH. exact Hinv'.
Qed.

Lemma seed_unsafe_calm origin ds acc :
  seed_inv origin acc -> seed_inv origin (fold_left (seed_unsafe h e0 WEAPON origin) ds acc).
Proof.
  revert acc. induction ds as [|d ds IH]; intros acc Hinv; simpl; [done|].
  apply IH. unfold seed_unsafe.
  destruct (pos_ok h (pos_add origin d)) eqn:Hok; simpl; [|done].
  destruct (seed_ok _ _ _ _); [|done].
  destruct acc as [dist Q]. by apply push_seed_calm.
Qed.

End Invariant.

(** The state in which the loop of [approach_target] starts, unless the fast
    path returned before. *)
Definition first_state (e : Eldar) (ID : Z) (is_warrior : bool) : option Search :=
  let c := citizen h ID in
  let origin := cit_pos c in
  let WEAPON := my_weapon c in
  let dist := mset (mnew (sz_n e) (sz_m e) USHRT_MAX) (pi origin) (pj origin) 0 in
  let visited := mset (mnew (sz_n e) (sz_m e) false) (pi origin) (pj origin) true in
  match seed_safe h e WEAPON is_warrior origin Directions dist pq_new with
  | Seeds dist Q =>
      let '(dist, Q) :=
        if pq_is_empty Q
        then fold_left (seed_unsafe h e WEAPON origin) Directions (dist, Q)
        else (dist, Q) in
      Some (mkSearch dist visited Q Left INT_MIN None 0 e)
  | _ => None
  end.

(** Whether the citizen needs healing, as [approach_target] computes it. *)
Definition need_heal (c : Citizen) (is_warrior : bool) : bool :=
  if is_warrior then cit_life c <? warrior_ini_life h
  else cit_life c <? builder_ini_life h.

Lemma approach_target_first_state (e : Eldar) (ID : Z) (is_warrior : bool) s0 :
  first_state e ID is_warrior = Some s0 ->
  approach_target h e ID is_warrior =
  match search_loop h (citizen h ID) is_warrior (need_heal (citizen h ID) is_warrior)
          (my_weapon (citizen h ID)) (search_fuel e) s0 with
  | Some s => Some (decide_move h (citizen h ID) ID is_warrior (my_weapon (citizen h ID)) s)
  | None => None
  end.
Proof.
  unfold first_state, approach_target, need_heal. cbv zeta.
  destruct (seed_safe _ _ _ _ _ _ _ _) as [| |dist Q]; try done.
  destruct (if pq_is_empty Q then _ else _) as [dist2 Q2]. by intros [= <-].
Qed.

Lemma first_state_calm (e : Eldar) (ID : Z) (is_warrior : bool) P s0 :
  sized h e -> calm e (my_weapon (citizen h ID)) P = true ->
  first_state e ID is_warrior = Some s0 ->
  calm_inv e P s0
  /\ s_visited s0 = mset (mnew (sz_n e) (sz_m e) false)
                      (pi (cit_pos (citizen h ID))) (pj (cit_pos (citizen h ID))) true.
Proof.
  intros Hs Hc. unfold first_state. cbv zeta.
  set (c := citizen h ID) in *. set (origin := cit_pos c). set (WEAPON := my_weapon c) in *.
  destruct (calm_sizes _ _ _ Hc) as (Hmax & HP & Hn & Hm).
  set (dist0 := mset (mnew (sz_n e) (sz_m e) USHRT_MAX) (pi origin) (pj origin) 0).
  set (visited0 := mset (mnew (sz_n e) (sz_m e) false) (pi origin) (pj origin) true).
  assert (Hd0 : mdims (mnew (sz_n e) (sz_m e) USHRT_MAX) (sz_n e) (sz_m e))
    by (by apply mdims_mnew).
  assert (Hv0 : mdims visited0 (sz_n e) (sz_m e)) by (apply mdims_mset; by apply mdims_mnew).
  assert (Hinv0 : seed_inv e P origin (dist0, pq_new)).
  { unfold seed_inv. cbn [fst snd]. split_and!.
    - by apply mdims_mset.
    - apply in_range_mset; [|lia]. apply in_range_mnew. unfold USHRT_MAX. lia.
    - rewrite pq_new_items. constructor.
    - intros i j Hin _ Hne. unfold dist0. rewrite mget_mset_ne by congruence.
      rewrite mget_mnew by apply Hin. unfold USHRT_MAX. lia. }
  destruct (seed_safe h e WEAPON is_warrior origin Directions dist0 pq_new)
    as [| |dist1 Q1] eqn:ES; try done.
  apply (seed_safe_calm e WEAPON P Hs Hc) in ES; [|done].
  set (seeded := if pq_is_empty Q1 then _ else _).
  assert (Hseeded : seed_inv e P origin seeded).
  { unfold seeded. destruct (pq_is_empty Q1); [|done]. by apply seed_unsafe_calm. }
  destruct seeded as [dist2 Q2]. intros [= <-]. split; [|done].
  destruct Hseeded as (Hd2 & Hr2 & HQ2 & Hw2). cbn [fst snd] in *.
  pose proof (bound_max e WEAPON P Hc visited0 Hv0) as Hb.
  split; cbn [s_visited s_dist s_Q s_best_dir s_best_profit s_take_ownership
              s_take_ownership_dist s_ai];
    try done; try apply same_world_refl; try apply records_kept_refl.
  - eapply Forall_impl; [exact HQ2|]. intros v [? ?]. split; [done|]. fold visited0. lia.
  - intros i j Hin Hgun Hunv. apply Hw2; try done. intros [= -> ->].
    unfold visited0 in Hunv. rewrite (mget_mset_eq false _ _ _ _ _ _
      (mdims_mnew (sz_n e) (sz_m e) false Hn Hm)) in Hunv; [done|apply Hin|apply Hin].
Qed.

(** The record that [decide_move] may overwrite is not one with distance 0. *)
Lemma decide_move_records c ID is_warrior WEAPON s b e' u :
  decide_move h c ID is_warrior WEAPON s = (b, e') ->
  (forall p, s_take_ownership s = Some p -> p <> u) ->
  bonus_distances e' !! u = bonus_distances (s_ai s) !! u.
Proof.
  assert (Hmove : forall e prio d, bonus_distances (_move e prio ID d) = bonus_distances e).
  { intros e prio d. by destruct e. }
  unfold decide_move. intros E Hown.
  repeat match type of E with
  | context [if ?b then _ else _] => destruct b eqn:?
  end; simplify_eq; try done.
  all: rewrite Hmove; destruct (s_take_ownership s) as [p|] eqn:Ep; [|done].
  all: rewrite bonus_distances_set, lookup_insert_ne; [done|]; by apply Hown.
Qed.

(** C10: on a calm board, a weapon cell [u] whose record kept the default
    distance 0 is never considered by the planner of any citizen.  Whenever
    the search is about to evaluate [u], the citizen's own distance to [u] is
    at least 1, hence above the recorded 0, and the evaluation of [u] changes
    nothing: no candidate, no claim, no four-turn penalty.  And when the
    planner returns, the record of [u] is what it was, so the same holds for
    the citizens planned afterwards. *)
Theorem unclaimed_weapon_is_ignored (e : Eldar) (ID : Z) (is_warrior : bool) (P : Z)
  (u : Pos) (info : Bonus_Info) :
  let c := citizen h ID in
  let WEAPON := my_weapon c in
  sized h e -> calm e WEAPON P = true ->
  pos_ok h u = true -> GUN <= board e u ->
  bonus_distances e !! u = Some info -> closest_dist info = 0 ->
  (forall s0 s, first_state e ID is_warrior = Some s0 ->
     search_reaches WEAPON c is_warrior (need_heal c is_warrior) s0 s ->
     mget false (s_visited s) (pi u) (pj u) = false ->
     1 <= mget 0 (s_dist s) (pi u) (pj u)
     /\ forall visited Q dir,
         evaluate h c is_warrior (need_heal c is_warrior) WEAPON u dir
           (mkSearch (s_dist s) visited Q (s_best_dir s) (s_best_profit s)
              (s_take_ownership s) (s_take_ownership_dist s) (s_ai s))
         = (true, mkSearch (s_dist s) visited Q (s_best_dir s) (s_best_profit s)
                    (s_take_ownership s) (s_take_ownership_dist s) (s_ai s)))
  /\ (forall b e', approach_target h e ID is_warrior = Some (b, e') ->
       bonus_distances e' !! u = Some info).
Proof.
  intros c WEAPON Hs Hc Hok Hgun Hrec Hzero.
  assert (Hin : inside (sz_n e) (sz_m e) (pi u) (pj u)) by (by apply (pos_ok_inside e Hs)).
  assert (Hstate : forall s0 s, first_state e ID is_warrior = Some s0 ->
            search_reaches WEAPON c is_warrior (need_heal c is_warrior) s0 s ->
            calm_inv e P s /\ bonus_distances (s_ai s) !! u = Some info).
  { intros s0 s H0 Hreach.
    destruct (first_state_calm e ID is_warrior P s0 Hs Hc H0) as [Hinv0 _].
    pose proof (search_reaches_calm e WEAPON P Hs Hc _ _ _ _ _ Hreach Hinv0) as Hinv.
    split; [done|].
    destruct Hinv as [_ Hk _ _ _ _ _ _]. destruct (Hk u) as [->|[E _]]; [done|congruence]. }
  split.
  - intros s0 s H0 Hreach Hunv.
    destruct (Hstate s0 s H0 Hreach) as [Hinv Hrec'].
    destruct Hinv as [Hw _ _ _ _ _ Hweap _].
    assert (Hd : 1 <= mget 0 (s_dist s) (pi u) (pj u)) by (by apply Hweap).
    split; [done|]. intros visited Q dir.
    apply (evaluate_zero_record _ _ _ _ _ _ _ info); simpl; try done.
    by rewrite (same_world_board e (s_ai s) u Hw).
  - intros b e' E.
    destruct (first_state e ID is_warrior) as [s0|] eqn:H0.
    + rewrite (approach_target_first_state e ID is_warrior s0 H0) in E.
      fold c WEAPON in E.
      destruct (search_loop _ _ _ _ _ _ _) as [s|] eqn:EL; [|done].
      injection E as E.
      apply search_loop_reaches in EL.
      destruct (Hstate s0 s eq_refl EL) as [Hinv Hrec'].
      rewrite <- Hrec'. eapply decide_move_records; [exact E|].
      destruct Hinv as [_ _ _ _ _ _ _ Hown].
      intros p Hp ->. pose proof (Hown u Hp) as Hone.
      unfold record_dist in Hone. rewrite Hrec in Hone. simpl in Hone. lia.
    + revert E H0. unfold approach_target, first_state. cbv zeta.
      destruct (seed_safe _ _ _ _ _ _ _ _) as [|d|dist Q].
      * by intros [= <- <-].
      * intros [= <- <-] _. unfold _move, set_instruction_buffer, bonus_distances in *.
        simpl. done.
      * by destruct (if pq_is_empty Q then _ else _).
Qed.

End Unclaimed.

(** * The planner: the profit of a money cell *)

Section Money.
Context `{IQ : !PriorityQueue Instr Instr_less}.
Context `{VQ : !PriorityQueue Vertex Vertex_less}.
Variable h : Host.

(** The profit of a money cell as the specification words it: forced to zero
    when another citizen is closer to the money than the evaluating citizen
    (at [distance]) this round and was already closer last round. *)
Definition money_profit_as_specified (distance closest prev : Z) : Z :=
  if (closest <? distance) && (prev <? distance) then 0 else MONEY_PROFIT - distance.

Lemma map_index_record m u : closest_dist (map_index m u).1 = record_dist m u.
Proof. unfold map_index, record_dist. by destruct (m !! u). Qed.

Lemma bonus_distances_prev_set (e : Eldar) m :
  bonus_distances_prev (set_bonus_distances e m) = bonus_distances_prev e.
Proof. unfold bonus_distances_prev, set_bonus_distances. by destruct (cur_odd e). Qed.

(** C4 (amended): at a money cell the candidate profit is the money value
    minus the distance, replaced by zero exactly when that value is positive,
    the closest distance recorded for the cell this round is strictly below
    the citizen's distance, and it is strictly below the closest distance
    recorded for the cell last round (the contender came closer); the
    candidate replaces the best target only if it is strictly better.  In
    particular the profit stands when the contender is equidistant, or when
    its recorded distance did not shrink since last round. *)
Theorem money_cell_profit (c : Citizen) (is_warrior NEED_HEAL : bool) (WEAPON : Z)
  (u : Pos) (dir : Dir) (s : Search) :
  board (s_ai s) u = MONEY ->
  let distance := mget 0 (s_dist s) (pi u) (pj u) in
  let closest := record_dist (bonus_distances (s_ai s)) u in
  let prev := record_dist (bonus_distances_prev (s_ai s)) u in
  let profit :=
    if (0 <? MONEY_PROFIT - distance) && (closest <? distance) && (closest <? prev)
    then 0 else MONEY_PROFIT - distance in
  exists s', evaluate h c is_warrior NEED_HEAL WEAPON u dir s = (true, s')
    /\ s_dist s' = s_dist s
    /\ (if profit >? s_best_profit s
        then s_best_profit s' = profit /\ s_best_dir s' = dir /\ s_take_ownership s' = None
        else s_best_profit s' = s_best_profit s /\ s_best_dir s' = s_best_dir s
             /\ s_take_ownership s' = s_take_ownership s)
    /\ (closest = distance -> profit = MONEY_PROFIT - distance)
    /\ (prev <= closest -> profit = MONEY_PROFIT - distance).
Proof.
  intros Hm distance closest prev profit. unfold evaluate.
  rewrite Hm. unfold MONEY at 1 2, ENEMY_BUILDER at 1.
  replace (is_warrior && (1 <=? -3)) with false by (by destruct is_warrior).
  cbn [andb]. change (1 =? MONEY) with true. cbv iota.
  fold distance.
  pose proof (map_index_record (bonus_distances (s_ai s)) u) as Hc. fold closest in Hc.
  destruct (map_index (bonus_distances (s_ai s)) u) as [info bd]. simpl in Hc.
  rewrite Hc.
  assert (Hprofit : forall p e1,
    (let '(prev0, e2) :=
       if (MONEY_PROFIT - distance >? 0) && (closest <? distance)
       then (let '(pinfo, bdp) := map_index (bonus_distances_prev (set_bonus_distances (s_ai s) bd)) u in
             (closest_dist pinfo, set_bonus_distances_prev (set_bonus_distances (s_ai s) bd) bdp))
       else (0, set_bonus_distances (s_ai s) bd) in
     (true, improve (set_s_ai s e2) (money_profit distance closest prev0) dir)) = (p, e1) ->
    p = true /\ exists e2, e1 = improve (set_s_ai s e2) profit dir).
  { intros p e1. unfold profit, money_profit.
    rewrite bonus_distances_prev_set.
    pose proof (map_index_record (bonus_distances_prev (s_ai s)) u) as Hp. fold prev in Hp.
    destruct (map_index (bonus_distances_prev (s_ai s)) u) as [pinfo bdp]. simpl in Hp.
    rewrite Hp. rewrite (Z.gtb_ltb (MONEY_PROFIT - distance) 0).
    destruct (0 <? MONEY_PROFIT - distance); simpl.
    - destruct (closest <? distance); simpl; intros [= <- <-]; eauto.
    - intros [= <- <-]; eauto. }
  match goal with |- exists s', ?X = _ /\ _ => destruct X as [p e1] eqn:EX end.
  apply Hprofit in EX as [-> (e2 & ->)].
  eexists. split; [reflexivity|].
  split; [by destruct (improve_fields (set_s_ai s e2) profit dir) as (-> & _)|].
  split.
  - unfold improve. simpl. by destruct (profit >? s_best_profit s).
  - unfold profit. split; intros Hcmp.
    + replace (closest <? distance) with false by (symmetry; apply Z.ltb_ge; lia).
      by rewrite andb_false_r.
    + replace (closest <? prev) with false by (symmetry; apply Z.ltb_ge; lia).
      by rewrite andb_false_r.
Qed.

End Money.

(** * The day task of a builder *)

Section BuilderDay.
Context `{IQ : !PriorityQueue Instr Instr_less}.
Context `{VQ : !PriorityQueue Vertex Vertex_less}.
Variable h : Host.

(** [d] is the first direction, in the order of [Directions], that passes
    the test [f]; no direction passes it. *)
Definition first_of (f : Dir -> bool) (d : Dir) : Prop :=
  exists l1 l2, Directions = l1 ++ d :: l2 /\ f d = true /\ Forall (fun d' => f d' = false) l1.

Definition none_of (f : Dir -> bool) : Prop := Forall (fun d => f d = false) Directions.

Lemma find_first_of {A} (f : A -> bool) l1 d l2 :
  f d = true -> Forall (fun d' => f d' = false) l1 -> List.find f (l1 ++ d :: l2) = Some d.
Proof.
  intros Hd Hl1. induction Hl1 as [|x l Hx Hl IH]; simpl.
  - by rewrite Hd.
  - by rewrite Hx.
Qed.

Lemma find_none_of {A} (f : A -> bool) l :
  Forall (fun d' => f d' = false) l -> List.find f l = None.
Proof. intros Hl. induction Hl as [|x l Hx Hl IH]; simpl; [done|by rewrite Hx]. Qed.

Lemma first_dir_first_of f d : first_of f d -> first_dir f = Some d.
Proof.
  intros (l1 & l2 & HD & Hd & Hl1). unfold first_dir. rewrite HD. by apply find_first_of.
Qed.

Lemma first_dir_none_of f : none_of f -> first_dir f = None.
Proof. apply find_none_of. Qed.

(** The three tests of the fallback, on the cell next to [pos] in direction
    [d]. *)
Definition improvable (e : Eldar) (pos : Pos) (d : Dir) : bool :=
  has_buildable_barricade h e (pos_add pos d).

Definition free_and_calm (e : Eldar) (pos : Pos) (d : Dir) : bool :=
  pos_ok h (pos_add pos d) && (board e (pos_add pos d) =? EMPTY)
  && (board_enemy e (pos_add pos d) =? 0) && (board_barricades e (pos_add pos d) =? 0).

Definition free (e : Eldar) (pos : Pos) (d : Dir) : bool :=
  pos_ok h (pos_add pos d) && (board e (pos_add pos d) =? EMPTY)
  && (board_barricades e (pos_add pos d) =? 0).

Lemma same_world_tests e e' pos d :
  same_world e e' ->
  improvable e' pos d = improvable e pos d
  /\ free_and_calm e' pos d = free_and_calm e pos d
  /\ free e' pos d = free e pos d.
Proof.
  intros Hw. unfold improvable, has_buildable_barricade, free_and_calm, free.
  by rewrite !(same_world_board e e' _ Hw), !(same_world_board_enemy e e' _ Hw),
    !(same_world_board_barricades e e' _ Hw).
Qed.

(** C7: when the planner reports no action for a builder, the day task
    improves the first improvable own barricade next to it, at the build
    priority; failing that, and with the quota unmet, it starts a barricade
    on the first adjacent cell that is empty, without barricade, and neither
    holds nor neighbours an enemy, else on the first adjacent cell that is
    empty and without barricade, and counts the new barricade; otherwise it
    queues nothing. *)
Theorem builder_day_fallback (e e1 : Eldar) (id : Z) :
  approach_target h e id false = Some (false, e1) ->
  let pos := cit_pos (citizen h id) in
  exists e2, builder_day_task h e id = Some e2
    /\ (forall d, first_of (improvable e pos) d ->
          e2 = _build e1 BUILD_PRIORITY id d
          /\ num_barricades e2 = num_barricades e
          /\ Permutation (pq_items (instruction_buffer e2))
               (mkInstr BUILD_PRIORITY true id d :: pq_items (instruction_buffer e)))
    /\ (none_of (improvable e pos) -> max_num_barricades h <= num_barricades e -> e2 = e1)
    /\ (none_of (improvable e pos) -> num_barricades e < max_num_barricades h ->
        forall d, first_of (free_and_calm e pos) d
                  \/ (none_of (free_and_calm e pos) /\ first_of (free e pos) d) ->
          e2 = _build (set_num_barricades e1 (num_barricades e + 1)) BUILD_PRIORITY id d
          /\ num_barricades e2 = num_barricades e + 1
          /\ Permutation (pq_items (instruction_buffer e2))
               (mkInstr BUILD_PRIORITY true id d :: pq_items (instruction_buffer e)))
    /\ (none_of (improvable e pos) -> num_barricades e < max_num_barricades h ->
        none_of (free e pos) -> e2 = e1).
Proof.
  intros E pos.
  pose proof (approach_target_false_world h e id false e1 E) as Hw.
  assert (Hf : forall f g : Dir -> bool, (forall d, g d = f d) -> first_dir g = first_dir f).
  { intros f g Hfg. unfold first_dir. induction Directions as [|x l IH]; simpl; [done|].
    by rewrite Hfg, IH. }
  unfold builder_day_task. rewrite E. fold pos.
  rewrite (Hf (improvable e pos) (fun d => has_buildable_barricade h e1 (pos_add pos d)))
    by (intros d; apply (same_world_tests e e1 pos d Hw)).
  rewrite (Hf (free_and_calm e pos) (fun d => _ && _ && _ && _))
    by (intros d; apply (same_world_tests e e1 pos d Hw)).
  rewrite (Hf (free e pos) (fun d => _ && _ && _))
    by (intros d; apply (same_world_tests e e1 pos d Hw)).
  destruct Hw as (_ & _ & _ & _ & _ & Hnum & Hbuf & _). rewrite Hnum.
  assert (Hbuild : forall e' d, instruction_buffer e' = instruction_buffer e ->
            Permutation (pq_items (instruction_buffer (_build e' BUILD_PRIORITY id d)))
              (mkInstr BUILD_PRIORITY true id d :: pq_items (instruction_buffer e))).
  { intros e' d He'. unfold _build. destruct e'; simpl in *. subst. apply pq_push_items. }
  assert (Hexcl : forall f d, first_of f d -> none_of f -> False).
  { intros f d (l1 & l2 & HD & Hd & _) Hn. unfold none_of in Hn. rewrite HD in Hn.
    apply Forall_app in Hn as [_ Hn]. apply Forall_cons in Hn as [Hn _]. congruence. }
  destruct (first_dir (improvable e pos)) as [d0|] eqn:E0.
  { eexists. split; [reflexivity|]. split_and!.
    - intros d Hd. rewrite (first_dir_first_of _ _ Hd) in E0. injection E0 as <-.
      split; [done|]. split; [by destruct e1|]. by apply Hbuild.
    - intros Hn. by rewrite (first_dir_none_of _ Hn) in E0.
    - intros Hn. by rewrite (first_dir_none_of _ Hn) in E0.
    - intros Hn. by rewrite (first_dir_none_of _ Hn) in E0. }
  assert (Himp : forall d, ~ first_of (improvable e pos) d).
  { intros d Hd. by rewrite (first_dir_first_of _ _ Hd) in E0. }
  destruct (num_barricades e >=? max_num_barricades h) eqn:Eq.
  { eexists. split; [reflexivity|]. split_and!; try done; try lia.
    intros d Hd. by destruct (Himp d). }
  destruct (first_dir (free_and_calm e pos)) as [d1|] eqn:E1.
  { eexists. split; [reflexivity|]. split_and!; try lia.
    - intros d Hd. by destruct (Himp d).
    - intros _ _ d [Hd|[Hn _]].
      + rewrite (first_dir_first_of _ _ Hd) in E1. injection E1 as <-.
        split; [done|]. split; [by destruct e1|]. apply Hbuild. by destruct e1.
      + by rewrite (first_dir_none_of _ Hn) in E1.
    - intros _ _ Hn. exfalso.
      unfold first_dir in E1. apply find_some in E1 as [_ H1].
      unfold none_of in Hn. rewrite Forall_forall in Hn.
      assert (Hin : d1 ∈ Directions) by (destruct d1; unfold Directions; set_solver).
      specialize (Hn d1 Hin). unfold free_and_calm in H1. unfold free in Hn.
      rewrite !andb_true_iff in H1. destruct H1 as (((Ha & Hb) & _) & Hc).
      by rewrite Ha, Hb, Hc in Hn. }
  destruct (first_dir (free e pos)) as [d2|] eqn:E2.
  { eexists. split; [reflexivity|]. split_and!; try lia.
    - intros d Hd. by destruct (Himp d).
    - intros _ _ d [Hd|[_ Hd]].
      + by rewrite (first_dir_first_of _ _ Hd) in E1.
      + rewrite (first_dir_first_of _ _ Hd) in E2. injection E2 as <-.
        split; [done|]. split; [by destruct e1|]. apply Hbuild. by destruct e1.
    - intros _ _ Hn. by rewrite (first_dir_none_of _ Hn) in E2. }
  eexists. split; [reflexivity|]. split_and!; try done; try lia.
  - intros d Hd. by destruct (Himp d).
  - intros _ _ d [Hd|[_ Hd]].
    + by rewrite (first_dir_first_of _ _ Hd) in E1.
    + by rewrite (first_dir_first_of _ _ Hd) in E2.
Qed.

End BuilderDay.

(** * The proximity index: the cost of an edge in [compute_closest] *)

Section Closest.
Context `{IQ : !PriorityQueue Instr Instr_less}.
Context `{VQ : !PriorityQueue Vertex Vertex_less}.
Variable h : Host.

(** The relaxation as the specification and the comment in the source word
    it: the estimate of the turns needed to demolish a barricade on the
    destination is added to the cost of the edge, that is to [new_distance]. *)
Definition cc_relax_as_specified (e : Eldar) (u : Pos)
  (acc : Matrix Z * pq Vertex Vertex_less) (d : Dir) : Matrix Z * pq Vertex Vertex_less :=
  let '(dist, Q) := acc in
  let new_p := pos_add u d in
  if pos_ok h new_p && negb (board e new_p =? WALL) then
    let new_distance := wrap_ushort (mget 0 dist (pi u) (pj u) + 1) in
    let new_distance :=
      if board_barricades e new_p <? 0
      then wrap_ushort (new_distance
                        + Z.quot (- board_barricades e new_p) (bazooka_strength_demolish h))
      else new_distance in
    let new_distance :=
      if board_barricades e new_p >? 0
      then wrap_ushort (new_distance
                        + Z.quot (board_barricades e new_p) (bazooka_strength_demolish h))
      else new_distance in
    if new_distance <? mget 0 dist (pi new_p) (pj new_p) then
      (mset dist (pi new_p) (pj new_p) new_distance,
       pq_push (mkVertex new_distance new_p Up) Q)
    else acc
  else acc.

Fixpoint cc_loop_as_specified (e : Eldar) (WEAPON : Z) (fuel : nat) (info : Bonus_Info)
  (s : Closest) : option Bonus_Info :=
  match fuel with
  | O => None
  | S fuel =>
      match pq_pop (cc_Q s) with
      | None => Some info
      | Some (v, Q) =>
          let u := v_pos v in
          if mget false (cc_visited s) (pi u) (pj u) then
            cc_loop_as_specified e WEAPON fuel info (mkClosest (cc_dist s) (cc_visited s) Q)
          else
            let visited := mset (cc_visited s) (pi u) (pj u) true in
            let distance := mget 0 (cc_dist s) (pi u) (pj u) in
            match cc_found h e WEAPON u distance info with
            | Some info' => Some info'
            | None =>
                let '(dist, Q) :=
                  fold_left (cc_relax_as_specified e u) Directions (cc_dist s, Q) in
                cc_loop_as_specified e WEAPON fuel info (mkClosest dist visited Q)
            end
      end
  end.

Definition compute_closest_as_specified (e : Eldar) (origin : Pos) (info : Bonus_Info)
  : option Bonus_Info :=
  let dist := mset (mnew (sz_n e) (sz_m e) USHRT_MAX) (pi origin) (pj origin) 0 in
  let visited := mnew (sz_n e) (sz_m e) false in
  cc_loop_as_specified e (board e origin) (search_fuel e) info
    (mkClosest dist visited (pq_push (mkVertex 0 origin Up) pq_new)).

(** In the source the two barricade statements add to [distance], the copy
    of [dist[u]] that is not read again: neither the matrix of distances nor
    the queue depends on the barricades. *)
Lemma cc_relax_barricades (e : Eldar) B u acc acc' d :
  acc.1.2 = acc'.1.2 -> acc.2 = acc'.2 ->
  (cc_relax h (set_Board_Barricades e B) u acc d).1.2 = (cc_relax h e u acc' d).1.2
  /\ (cc_relax h (set_Board_Barricades e B) u acc d).2 = (cc_relax h e u acc' d).2.
Proof.
  destruct acc as [[x dist] Q], acc' as [[x' dist'] Q']. simpl. intros <- <-.
  unfold cc_relax.
  change (board (set_Board_Barricades e B)) with (board e).
  destruct (pos_ok h (pos_add u d) && negb (board e (pos_add u d) =? WALL)); [|done].
  by destruct (_ <? mget 0 dist _ _).
Qed.

Lemma cc_relax_all_barricades (e : Eldar) B u ds acc acc' :
  acc.1.2 = acc'.1.2 -> acc.2 = acc'.2 ->
  (fold_left (cc_relax h (set_Board_Barricades e B) u) ds acc).1.2
  = (fold_left (cc_relax h e u) ds acc').1.2
  /\ (fold_left (cc_relax h (set_Board_Barricades e B) u) ds acc).2
     = (fold_left (cc_relax h e u) ds acc').2.
Proof.
  revert acc acc'. induction ds as [|d ds IH]; intros acc acc' H1 H2; simpl; [done|].
  destruct (cc_relax_barricades e B u acc acc' d H1 H2) as [H3 H4]. by apply IH.
Qed.

Lemma cc_loop_barricades (e : Eldar) B WEAPON fuel info s :
  cc_loop h (set_Board_Barricades e B) WEAPON fuel info s = cc_loop h e WEAPON fuel info s.
Proof.
  revert s. induction fuel as [|fuel IH]; intros s; [done|].
  cbn [cc_loop].
  destruct (pq_pop (cc_Q s)) as [[v Q]|]; [|done].
  destruct (mget false (cc_visited s) _ _); [apply IH|].
  change (cc_found h (set_Board_Barricades e B)) with (cc_found h e).
  destruct (cc_found h e WEAPON (v_pos v) _ info); [done|].
  pose proof (cc_relax_all_barricades e B (v_pos v) Directions
                (mget 0 (cc_dist s) (pi (v_pos v)) (pj (v_pos v)), cc_dist s, Q)
                (mget 0 (cc_dist s) (pi (v_pos v)) (pj (v_pos v)), cc_dist s, Q)
                eq_refl eq_refl) as [H1 H2].
  destruct (fold_left (cc_relax h (set_Board_Barricades e B) (v_pos v)) _ _) as [[x1 d1] Q1].
  destruct (fold_left (cc_relax h e (v_pos v)) _ _) as [[x2 d2] Q2].
  simpl in H1, H2. subst. apply IH.
Qed.

(** The record [compute_closest] fills in is the same whatever the
    barricades on the board. *)
Lemma compute_closest_ignores_barricades (e : Eldar) B origin info :
  compute_closest h (set_Board_Barricades e B) origin info = compute_closest h e origin info.
Proof. unfold compute_closest. apply cc_loop_barricades. Qed.

End Closest.

(** * The planner as a whole *)

Section Planner.
Context `{IQ : !PriorityQueue Instr Instr_less}.
Context `{VQ : !PriorityQueue Vertex Vertex_less}.
Variable h : Host.

(** A property that every iteration of the loop keeps holds when the loop
    ends. *)
Lemma search_loop_keeps (I : Search -> Prop) c is_warrior NEED_HEAL WEAPON fuel s s' :
  (forall s v Q, I s -> pq_pop (s_Q s) = Some (v, Q) ->
     I (search_step h c is_warrior NEED_HEAL WEAPON v Q s)) ->
  I s -> search_loop h c is_warrior NEED_HEAL WEAPON fuel s = Some s' -> I s'.
Proof.
  intros Hstep. revert s. induction fuel as [|fuel IH]; intros s Hs; simpl; [done|].
  destruct (pq_pop (s_Q s)) as [[v Q]|] eqn:Hpop.
  - intros E. eapply IH; [|exact E]. by apply Hstep.
  - by intros [= <-].
Qed.

(** The three ways in which [approach_target] returns: the fast path waits,
    the fast path moves onto a no-brainer, or the loop ran from the seeded
    state to its end. *)
Lemma approach_target_cases (e : Eldar) (ID : Z) (is_warrior : bool) r :
  approach_target h e ID is_warrior = Some r ->
  let c := citizen h ID in
  (first_state h e ID is_warrior = None
   /\ (r = (false, e)
       \/ exists d, r = (true, _move e VERY_HIGH_PRIORITY ID d)
            /\ pos_ok h (pos_add (cit_pos c) d) = true
            /\ kill_ready h e (my_weapon c) (pos_add (cit_pos c) d)
               || better_weapon e (my_weapon c) is_warrior (pos_add (cit_pos c) d) = true
            /\ - board_enemy e (pos_add (cit_pos c) d)
               <= fast_tier h e (my_weapon c) (pos_add (cit_pos c) d)))
  \/ (exists s0 s, first_state h e ID is_warrior = Some s0
        /\ search_loop h c is_warrior (need_heal h c is_warrior) (my_weapon c)
             (search_fuel e) s0 = Some s
        /\ r = decide_move h c ID is_warrior (my_weapon c) s).
Proof.
  intros E c.
  destruct (first_state h e ID is_warrior) as [s0|] eqn:E0.
  - right. rewrite (approach_target_first_state h e ID is_warrior s0 E0) in E.
    fold c in E.
    destruct (search_loop _ _ _ _ _ _ _) as [s|] eqn:EL; [|done].
    exists s0, s. split; [done|]. split; [done|]. by injection E.
  - left. split; [done|].
    unfold first_state in E0. unfold approach_target in E. cbv zeta in E, E0.
    fold c in E, E0.
    match type of E with
    | match seed_safe ?h ?e ?W ?w ?o ?ds ?dist ?Q with _ => _ end = _ =>
        pose proof (seed_safe_spec h e W w o ds dist Q) as HS;
        destruct (seed_safe h e W w o ds dist Q) as [|d|dist1 Q1]
    end.
    + left. by injection E.
    + right. exists d. split; [by injection E|].
      apply HS. rewrite pq_new_items. constructor.
    + by destruct (if pq_is_empty Q1 then _ else _).
Qed.

(** The seeded state has well-shaped matrices, no target yet and no claim. *)
Lemma first_state_shape (e : Eldar) (ID : Z) (is_warrior : bool) s0 :
  0 <= sz_n e -> 0 <= sz_m e ->
  first_state h e ID is_warrior = Some s0 ->
  shaped (sz_n e) (sz_m e) s0
  /\ s_best_profit s0 = INT_MIN /\ s_take_ownership s0 = None /\ s_ai s0 = e.
Proof.
  intros Hn Hm. unfold first_state. cbv zeta.
  set (c := citizen h ID). set (origin := cit_pos c). set (WEAPON := my_weapon c).
  set (dist0 := mset (mnew (sz_n e) (sz_m e) USHRT_MAX) (pi origin) (pj origin) 0).
  set (visited0 := mset (mnew (sz_n e) (sz_m e) false) (pi origin) (pj origin) true).
  assert (Hd0 : mdims dist0 (sz_n e) (sz_m e)) by (apply mdims_mset; by apply mdims_mnew).
  assert (Hr0 : in_range dist0).
  { apply in_range_mset; [|lia]. apply in_range_mnew. unfold USHRT_MAX. lia. }
  assert (Hv0 : mdims visited0 (sz_n e) (sz_m e)) by (apply mdims_mset; by apply mdims_mnew).
  destruct (seed_safe h e WEAPON is_warrior origin Directions dist0 pq_new)
    as [|d|dist1 Q1] eqn:ES; [done|done|].
  apply (seed_safe_shape h e WEAPON is_warrior origin _ _ _ _ _ _ _ Hd0 Hr0) in ES
    as (Hd1 & Hr1 & _).
  set (seeded := if pq_is_empty Q1 then _ else _).
  assert (Hseeded : mdims seeded.1 (sz_n e) (sz_m e) /\ in_range seeded.1).
  { unfold seeded. destruct (pq_is_empty Q1) eqn:EQ; [|done].
    destruct (seed_unsafe_shape h e WEAPON origin _ _ Directions (dist1, Q1) Hd1 Hr1)
      as (? & ? & _). done. }
  destruct seeded as [dist2 Q2]. simpl in Hseeded. destruct Hseeded as [Hd2 Hr2].
  intros [= <-]. by split_and!.
Qed.

(** What [decide_move] does to the player: nothing when it reports no
    action; otherwise it queues one move of the citizen towards the best
    target, after claiming the weapon it means to steal, if any. *)
Lemma decide_move_effect c ID is_warrior WEAPON s b e' :
  decide_move h c ID is_warrior WEAPON s = (b, e') ->
  (b = false /\ e' = s_ai s)
  \/ (b = true /\ exists prio e'',
        e' = _move e'' prio ID (s_best_dir s)
        /\ same_world (s_ai s) e''
        /\ bonus_distances_prev e'' = bonus_distances_prev (s_ai s)
        /\ (prio = RUN_DEATH_PRIORITY \/ prio = RUN_PRIORITY \/ prio = NOT_IMPORTANT
            \/ prio = s_best_profit s)).
Proof.
  unfold decide_move. cbv zeta. intros E.
  repeat match type of E with
  | context [if ?b then _ else _] => destruct b eqn:?
  end; simplify_eq; try (by left); right; (split; [done|]);
  eexists _, _; (split; [reflexivity|]);
  (destruct (s_take_ownership s);
   [split; [apply same_world_set_bonus_distances|];
    split; [apply bonus_distances_prev_set|]
   |split; [apply same_world_refl|]; split; [done|]]); auto.
Qed.


(** The sizes, the matrices and the orientation of the bonus maps. *)
Definition same_matrices (e e' : Eldar) : Prop :=
  sz_n e' = sz_n e /\ sz_m e' = sz_m e
  /\ Board e' = Board e /\ Board_Enemy e' = Board_Enemy e
  /\ Board_Barricades e' = Board_Barricades e /\ cur_odd e' = cur_odd e.

Lemma same_matrices_refl e : same_matrices e e.
Proof. by repeat split. Qed.

Lemma same_matrices_trans e1 e2 e3 :
  same_matrices e1 e2 -> same_matrices e2 e3 -> same_matrices e1 e3.
Proof.
  unfold same_matrices. intros (?&?&?&?&?&?) (?&?&?&?&?&?). split_and!; congruence.
Qed.

Lemma same_world_matrices e e' : same_world e e' -> same_matrices e e'.
Proof. unfold same_world, same_matrices. intros (?&?&?&?&?&?&?&?). by split_and!. Qed.

(** The loop of the planner never leaves the world it started in. *)
Lemma search_loop_world c is_warrior NEED_HEAL WEAPON fuel s s' :
  search_loop h c is_warrior NEED_HEAL WEAPON fuel s = Some s' ->
  INT_MIN <= s_best_profit s ->
  same_world (s_ai s) (s_ai s') /\ INT_MIN <= s_best_profit s'.
Proof.
  intros EL Hf.
  assert (H0 : search_inv (s_ai s) (fun _ => True) s).
  { split; [apply same_world_refl| |done|done]. by apply Forall_forall. }
  destruct (search_loop_inv h _ _ _ _ _ _ _ _ _ H0 EL) as [Hw _ Hf' _]. done.
Qed.

(** The effect of a call of the planner: it reports [true] exactly when it
    queued one move of the citizen, and it never touches the matrices or the
    count of barricades. *)
Lemma approach_target_effect (e : Eldar) (ID : Z) (is_warrior : bool) b e' :
  approach_target h e ID is_warrior = Some (b, e') ->
  same_matrices e e' /\ num_barricades e' = num_barricades e
  /\ if b
     then exists prio d,
            Permutation (pq_items (instruction_buffer e'))
              (mkInstr prio false ID d :: pq_items (instruction_buffer e))
     else instruction_buffer e' = instruction_buffer e.
Proof.
  intros E. apply approach_target_cases in E as [[_ [E|(d & E & _)]]|(s0 & s & E0 & EL & E)].
  - injection E as -> ->. split; [apply same_matrices_refl|done].
  - injection E as -> ->. split; [by repeat split|]. split; [done|].
    exists VERY_HIGH_PRIORITY, d. unfold _move; simpl. apply pq_push_items.
  - assert (Hs0 : s_best_profit s0 = INT_MIN /\ s_ai s0 = e).
    { unfold first_state in E0. cbv zeta in E0.
      destruct (seed_safe _ _ _ _ _ _ _ _) as [| |dist Q]; try done.
      destruct (if pq_is_empty Q then _ else _). by injection E0 as <-. }
    destruct Hs0 as [Hp0 Ha0].
    apply search_loop_world in EL as [Hw _]; [|lia]. rewrite Ha0 in Hw.
    symmetry in E. apply decide_move_effect in E as [[-> ->]|(-> & prio & e'' & -> & Hw' & _)].
    + split; [by apply same_world_matrices|]. by destruct Hw as (?&?&?&?&?&?&?&?).
    + pose proof (same_world_trans _ _ _ Hw Hw') as Hw2.
      split; [|split].
      * apply same_world_matrices in Hw2. unfold same_matrices in *. by simpl.
      * simpl. by destruct Hw2 as (?&?&?&?&?&?&?&?).
      * exists prio, (s_best_dir s). by apply same_world_move.
Qed.

End Planner.

(** * The tasks and the round *)

Section Round.
Context `{IQ : !PriorityQueue Instr Instr_less}.
Context `{VQ : !PriorityQueue Vertex Vertex_less}.
Variable h : Host.

(** The citizen a command is addressed to. *)
Definition citizen_of (com : Command) : Z :=
  match com with CmdMove ID _ => ID | CmdBuild ID _ => ID end.

Lemma citizen_of_send i : citizen_of (send i) = id i.
Proof. unfold send. by destruct (is_build i). Qed.

(** The effect of the task of the citizen [ID]: the matrices are left alone
    and at most one instruction is queued, for [ID]; it is a build only if
    [may_build]. *)
Definition task_effect (may_build : bool) (ID : Z) (e e' : Eldar) : Prop :=
  same_matrices e e'
  /\ (instruction_buffer e' = instruction_buffer e
      \/ exists i, Permutation (pq_items (instruction_buffer e'))
                     (i :: pq_items (instruction_buffer e))
           /\ id i = ID /\ (is_build i = true -> may_build = true)).

Lemma task_effect_planner (may_build : bool) e ID is_warrior b e' :
  approach_target h e ID is_warrior = Some (b, e') ->
  task_effect may_build ID e e'.
Proof.
  intros E. apply approach_target_effect in E as (Hm & _ & Hb). split; [done|].
  destruct b; [|by left]. destruct Hb as (prio & d & Hp). right.
  exists (mkInstr prio false ID d). by split_and!.
Qed.

Lemma task_effect_build e e1 ID d n :
  task_effect true ID e e1 -> instruction_buffer e1 = instruction_buffer e ->
  task_effect true ID e (_build (set_num_barricades e1 n) BUILD_PRIORITY ID d).
Proof.
  intros [Hm _] Hb. split; [exact Hm|]. right.
  exists (mkInstr BUILD_PRIORITY true ID d). split_and!; try done.
  unfold _build; simpl. rewrite pq_push_items. by rewrite Hb.
Qed.

Lemma builder_day_task_effect e ID e' :
  builder_day_task h e ID = Some e' -> task_effect true ID e e'.
Proof.
  unfold builder_day_task. intros E.
  destruct (approach_target h e ID false) as [[b e1]|] eqn:EA; [|done].
  pose proof (task_effect_planner true _ _ _ _ _ EA) as Ht.
  apply approach_target_effect in EA as (_ & _ & Hb).
  destruct b; [by injection E as <-|].
  repeat case_match; simplify_eq; try done; by apply task_effect_build.
Qed.

Lemma warrior_day_task_effect e ID e' :
  warrior_day_task h e ID = Some e' -> task_effect false ID e e'.
Proof.
  unfold warrior_day_task. intros E.
  destruct (approach_target h e ID true) as [[b e1]|] eqn:EA; [|done].
  injection E as <-. by eapply task_effect_planner.
Qed.

Lemma run_away_effect e e1 ID c W sentinel :
  task_effect false ID e e1 -> instruction_buffer e1 = instruction_buffer e ->
  task_effect false ID e (run_away h e1 ID c W sentinel).
Proof.
  intros [Hm _] Hb. unfold run_away.
  repeat case_match; try (split; [exact Hm|by left]);
    (split; [exact Hm|]; right; eexists (mkInstr _ false ID _); split_and!; try done;
     unfold _move; simpl; rewrite pq_push_items; by rewrite Hb).
Qed.

Lemma builder_night_task_effect e ID e' :
  builder_night_task h e ID = Some e' -> task_effect false ID e e'.
Proof.
  unfold builder_night_task. intros E.
  destruct (approach_target h e ID false) as [[b e1]|] eqn:EA; [|done].
  pose proof (task_effect_planner false _ _ _ _ _ EA) as Ht.
  apply approach_target_effect in EA as (_ & _ & Hb).
  destruct b; injection E as <-; [done|]. by apply run_away_effect.
Qed.

Lemma warrior_night_task_effect e ID e' :
  warrior_night_task h e ID = Some e' -> task_effect false ID e e'.
Proof.
  unfold warrior_night_task. intros E.
  destruct (approach_target h e ID true) as [[b e1]|] eqn:EA; [|done].
  pose proof (task_effect_planner false _ _ _ _ _ EA) as Ht.
  apply approach_target_effect in EA as (_ & _ & Hb).
  destruct b; injection E as <-; [done|]. by apply run_away_effect.
Qed.

(** The effect of a loop over the citizens [ids]: the instructions [l] it
    queued are for citizens of [ids], at most one for each occurrence. *)
Definition loop_effect (may_build : bool) (ids : list Z) (l : list Instr) (e e' : Eldar) : Prop :=
  same_matrices e e'
  /\ Permutation (pq_items (instruction_buffer e')) (l ++ pq_items (instruction_buffer e))
  /\ map id l ⊆+ ids
  /\ Forall (fun i => is_build i = true -> may_build = true) l.

Lemma for_each_effect (task : Eldar -> Z -> option Eldar) may_build ids e e' :
  (forall e ID e', task e ID = Some e' -> task_effect may_build ID e e') ->
  for_each task ids e = Some e' ->
  exists l, loop_effect may_build ids l e e'.
Proof.
  intros Ht. revert e. induction ids as [|ID ids IH]; intros e; simpl.
  - intros [= <-]. exists []. split; [apply same_matrices_refl|]. by split_and!.
  - destruct (task e ID) as [e1|] eqn:E1; [|done]. intros E.
    destruct (IH _ E) as (l & Hm & Hp & Hs & Hf).
    destruct (Ht _ _ _ E1) as [Hm1 [Hb|(i & Hi & <- & Hbuild)]].
    + exists l. split; [by eapply same_matrices_trans|]. rewrite Hb in Hp.
      split_and!; try done. by apply submseteq_cons.
    + exists (l ++ [i]). split; [by eapply same_matrices_trans|]. split_and!.
      * rewrite Hp, Hi, <- app_assoc. done.
      * rewrite map_app. simpl.
        rewrite <- (Permutation_cons_append (map id l) (id i)). by apply submseteq_skip.
      * apply Forall_app. split; [done|]. by constructor.
Qed.

(** [build_board] does not touch the instruction buffer. *)
Lemma for_cells_keeps {X} (f : Eldar -> X) n m (body : Eldar -> Z -> Z -> Eldar) e :
  (forall e i j, f (body e i j) = f e) -> f (for_cells n m body e) = f e.
Proof.
  intros Hb. rewrite for_cells_cells.
  generalize (cells n m). intros l. revert e.
  induction l as [|[i j] l IH]; intros e; simpl; [done|]. by rewrite IH.
Qed.

Lemma build_cell_buffer e i j :
  instruction_buffer (build_cell h e i j) = instruction_buffer e.
Proof.
  unfold build_cell.
  repeat (case_bool_decide || case_match); simpl;
    rewrite ?(proj1 (proj2 (proj2 (proj2 (proj2 (proj2 (proj2 (bonus_insert_fields _ _ _))))))));
    done.
Qed.

Lemma set_bonus_distances_buffer (e : Eldar) m :
  instruction_buffer (set_bonus_distances e m) = instruction_buffer e.
Proof. unfold set_bonus_distances. by destruct (cur_odd e). Qed.

Lemma build_board_buffer e : instruction_buffer (build_board h e) = instruction_buffer e.
Proof.
  unfold build_board, build_matrices. cbv zeta.
  rewrite set_bonus_distances_buffer.
  rewrite (for_cells_keeps instruction_buffer) by apply build_cell_buffer.
  rewrite (for_cells_keeps instruction_buffer) by done.
  apply set_bonus_distances_buffer.
Qed.

(** The player at the start of the tasks of a round. *)
Definition round_start (e : Eldar) : Eldar :=
  set_num_barricades
    (build_board h (set_cur_odd (if sz_n e =? 0 then initialize h e else e) (Z.odd (round h))))
    (barricades_me h).

Lemma round_start_buffer e : instruction_buffer (round_start e) = instruction_buffer e.
Proof.
  unfold round_start. simpl. rewrite build_board_buffer. simpl.
  by destruct (sz_n e =? 0).
Qed.

(** The tasks of a round run on a built board: the round starts on one, and
    no task touches the matrices. *)
Lemma round_start_built (e : Eldar) :
  0 <= board_rows h -> 0 <= board_cols h -> (sz_n e <> 0 -> sized h e) ->
  board_built h (round_start e).
Proof.
  intros Hr Hc Hs. unfold round_start.
  set (e1 := if sz_n e =? 0 then initialize h e else e).
  assert (H1 : sized h e1).
  { unfold e1. destruct (sz_n e =? 0) eqn:E0; [by apply initialize_sized|].
    apply Hs. by apply Z.eqb_neq. }
  exists (set_cur_odd e1 (Z.odd (round h))). split; [exact H1|]. done.
Qed.

Lemma same_matrices_built (e e' : Eldar) :
  same_matrices e e' -> board_built h e -> board_built h e'.
Proof.
  intros (_ & _ & HB & HE & _) (e0 & Hs & H1 & H2).
  exists e0. split; [done|]. split; congruence.
Qed.

(** The anatomy of a round: the world model is rebuilt, the builders and
    then the warriors run their task, and the buffer is flushed. *)
Lemma play_inv (e e' : Eldar) (coms : list Command) :
  play h e = Some (e', coms) ->
  exists e1 e2 lb lw out q,
    loop_effect (is_day h) (builders_me h) lb (round_start e) e1
    /\ loop_effect false (warriors_me h) lw e1 e2
    /\ flush (instruction_buffer e2) = Some (out, q)
    /\ pq_items q = [] /\ Permutation out (pq_items (instruction_buffer e2))
    /\ e' = set_instruction_buffer e2 q /\ coms = map send out.
Proof.
  unfold play. cbv zeta. fold (round_start e). intros E.
  assert (Ht : exists e1 e2 lb lw,
    loop_effect (is_day h) (builders_me h) lb (round_start e) e1
    /\ loop_effect false (warriors_me h) lw e1 e2
    /\ match flush (instruction_buffer e2) with
       | Some (coms0, q) => Some (set_instruction_buffer e2 q, map send coms0)
       | None => None
       end = Some (e', coms)).
  { destruct (is_day h).
    - destruct (for_each (builder_day_task h) _ _) as [e1|] eqn:E1; [|done].
      destruct (for_each (warrior_day_task h) _ _) as [e2|] eqn:E2; [|done].
      apply (for_each_effect _ true) in E1 as [lb Hb]; [|apply builder_day_task_effect].
      apply (for_each_effect _ false) in E2 as [lw Hw]; [|apply warrior_day_task_effect].
      by exists e1, e2, lb, lw.
    - destruct (for_each (builder_night_task h) _ _) as [e1|] eqn:E1; [|done].
      destruct (for_each (warrior_night_task h) _ _) as [e2|] eqn:E2; [|done].
      apply (for_each_effect _ false) in E1 as [lb Hb]; [|apply builder_night_task_effect].
      apply (for_each_effect _ false) in E2 as [lw Hw]; [|apply warrior_night_task_effect].
      by exists e1, e2, lb, lw. }
  destruct Ht as (e1 & e2 & lb & lw & Hb & Hw & Hf).
  destruct (flush_spec (instruction_buffer e2)) as (out & q & Eq & Hq & Hp & _).
  rewrite Eq in Hf. injection Hf as <- <-.
  by exists e1, e2, lb, lw, out, q.
Qed.

(** X1: on a host on which the round is defined, every round returns and
    leaves the instruction buffer empty: nothing is carried over to the next
    round. *)
Theorem play_flushes_buffer (e : Eldar) :
  host_ok h -> (sz_n e <> 0 -> sized h e) ->
  exists e' coms, play h e = Some (e', coms) /\ pq_items (instruction_buffer e') = [].
Proof.
  intros (Hr & Hc & _ & _) Hs.
  destruct (play_returns h e Hr Hc) as (e' & coms & E).
  { intros Hn. destruct (Hs Hn) as (-> & -> & _). done. }
  exists e', coms. split; [done|].
  apply play_inv in E as (e1 & e2 & lb & lw & out & q & _ & _ & _ & Hq & _ & -> & _).
  done.
Qed.

(** The instructions that a round queues, when it starts on an empty
    buffer. *)
Lemma play_queue (e e' : Eldar) (coms : list Command) :
  pq_items (instruction_buffer e) = [] -> play h e = Some (e', coms) ->
  exists lb lw out,
    coms = map send out /\ Permutation out (lw ++ lb)
    /\ map id lb ⊆+ builders_me h /\ map id lw ⊆+ warriors_me h
    /\ Forall (fun i => is_build i = true -> is_day h = true) lb
    /\ Forall (fun i => is_build i = false) lw.
Proof.
  intros He E.
  apply play_inv in E as (e1 & e2 & lb & lw & out & q & Hb & Hw & _ & _ & Hp & _ & ->).
  destruct Hb as (_ & Hpb & Hsb & Hfb). destruct Hw as (_ & Hpw & Hsw & Hfw).
  rewrite round_start_buffer, He, app_nil_r in Hpb.
  exists lb, lw, out. split_and!; try done.
  - by rewrite Hp, Hpw, Hpb.
  - eapply Forall_impl; [exact Hfw|]. intros i Hi. simpl in Hi.
    destruct (is_build i); [|done]. by specialize (Hi eq_refl).
Qed.

(** X2: a round sends at most one command to each citizen that the host lists,
    and none to anybody else. *)
Theorem play_one_command_per_citizen (e e' : Eldar) (coms : list Command) :
  pq_items (instruction_buffer e) = [] -> play h e = Some (e', coms) ->
  map citizen_of coms ⊆+ builders_me h ++ warriors_me h.
Proof.
  intros He E.
  destruct (play_queue e e' coms He E) as (lb & lw & out & -> & Hp & Hsb & Hsw & _).
  rewrite <- list_fmap_compose.
  assert (Hext : map (citizen_of ∘ send) out = map id out).
  { apply map_ext. intros i. apply citizen_of_send. }
  change (citizen_of ∘ send <$> out) with (map (citizen_of ∘ send) out).
  rewrite Hext, Hp, map_app.
  rewrite (Permutation_app_comm (map id lw) (map id lb)).
  by apply submseteq_app.
Qed.

(** X3: barricades are only built by day, and only by builders. *)
Theorem play_builds_by_day (e e' : Eldar) (coms : list Command) (ID : Z) (d : Dir) :
  pq_items (instruction_buffer e) = [] -> play h e = Some (e', coms) ->
  CmdBuild ID d ∈ coms -> is_day h = true /\ ID ∈ builders_me h.
Proof.
  intros He E Hin.
  destruct (play_queue e e' coms He E) as (lb & lw & out & -> & Hp & Hsb & Hsw & Hfb & Hfw).
  apply list_elem_of_fmap in Hin as (i & Hi & Hin).
  assert (Hbuild : is_build i = true /\ id i = ID).
  { unfold send in Hi. destruct (is_build i); [|done]. by injection Hi. }
  destruct Hbuild as [Hbuild <-].
  rewrite Hp in Hin. apply elem_of_app in Hin as [Hin|Hin].
  - rewrite Forall_forall in Hfw. specialize (Hfw i Hin). congruence.
  - rewrite Forall_forall in Hfb. split; [by apply (Hfb i)|].
    eapply elem_of_submseteq; [|exact Hsb].
    apply list_elem_of_fmap. by exists i.
Qed.

End Round.

(** * The world model: barricades and bonus records *)

Section WorldRecords.
Context `{IQ : !PriorityQueue Instr Instr_less}.
Context `{VQ : !PriorityQueue Vertex Vertex_less}.
Variable h : Host.

(** What [build_board] stores in [Board_Barricades] for a cell. *)
Definition barricade_code (i j : Z) : Z :=
  let c := cell h i j in
  if c_resistance c =? -1 then 0
  else if c_b_owner c =? me h then c_resistance c
  else - c_resistance c.

(** The type of the record that [build_board] registers for a cell, if
    any. *)
Definition bonus_type_at (i j : Z) : option Z :=
  let c := cell h i j in
  if bool_decide (c_type c = Building) then None
  else if bool_decide (c_bonus c = Food) then None
  else if bool_decide (c_bonus c = Money) then Some type_M
  else if bool_decide (c_weapon c = Gun) then Some type_W
  else if bool_decide (c_weapon c = Bazooka) then Some type_W
  else None.

Lemma bonus_type_at_terrain i j :
  match bonus_type_at i j with
  | Some t => (terrain h i j = MONEY /\ t = type_M) \/ (GUN <= terrain h i j /\ t = type_W)
  | None => terrain h i j <> MONEY /\ terrain h i j < GUN
  end.
Proof.
  unfold bonus_type_at, terrain. cbv zeta.
  pose proof (enemy_code_range (citizen h (c_id (cell h i j)))).
  repeat (case_bool_decide || case_match);
    unfold MONEY, GUN, BAZOOKA, WALL, FOOD, FRIENDLY_CITIZEN, EMPTY in *; lia.
Qed.

Lemma build_cell_Board_Barricades (e : Eldar) i j :
  Board_Barricades (build_cell h e i j) = mset (Board_Barricades e) i j (barricade_code i j).
Proof.
  unfold build_cell, barricade_code. cbv zeta.
  repeat (case_bool_decide || case_match); simpl;
    rewrite ?(proj1 (proj2 (proj2 (proj2 (proj2 (bonus_insert_fields _ _ _)))))); done.
Qed.

Lemma bonus_distances_insert (e : Eldar) p c :
  bonus_distances (bonus_insert e p c) =
  match bonus_distances e !! p with
  | Some _ => bonus_distances e
  | None => <[p := Bonus_of c]> (bonus_distances e)
  end.
Proof.
  unfold bonus_insert. destruct (bonus_distances e !! p); [done|].
  apply bonus_distances_set.
Qed.

Lemma build_cell_bonus_distances (e : Eldar) i j :
  bonus_distances (build_cell h e i j) =
  match bonus_type_at i j with
  | Some t =>
      match bonus_distances e !! mkPos i j with
      | Some _ => bonus_distances e
      | None => <[mkPos i j := Bonus_of t]> (bonus_distances e)
      end
  | None => bonus_distances e
  end.
Proof.
  unfold build_cell, bonus_type_at. cbv zeta.
  assert (HB : forall (e0 : Eldar) B, bonus_distances (set_Board_Barricades e0 B) = bonus_distances e0)
    by done.
  assert (HE : forall (e0 : Eldar) B, bonus_distances (set_Board_Enemy e0 B) = bonus_distances e0)
    by done.
  assert (HS : forall (e0 : Eldar) B, bonus_distances (set_Board e0 B) = bonus_distances e0)
    by done.
  repeat (case_bool_decide || case_match); rewrite ?HB, ?HE, ?HS, ?bonus_distances_insert;
    simplify_eq; rewrite ?HS in *;
    repeat match goal with H : _ !! _ = _ |- _ => rewrite H end; done.
Qed.


(** The records registered once the cells of [done] have been treated. *)
Definition registered (done : list (Z * Z)) (m : gmap Pos Bonus_Info) : Prop :=
  forall p, m !! p = if bool_decide ((pi p, pj p) ∈ done)
                     then Bonus_of <$> bonus_type_at (pi p) (pj p) else None.

Lemma fill_records (e : Eldar) :
  sized h e -> bonus_distances e = ∅ ->
  let e' := for_cells (sz_n e) (sz_m e) (build_cell h) e in
  (forall i j, in_grid h i j -> mget 0 (Board_Barricades e') i j = barricade_code i j)
  /\ registered (cells (board_rows h) (board_cols h)) (bonus_distances e').
Proof.
  intros (Hn & Hm & HB & HE & HR) Hempty. cbv zeta. rewrite for_cells_cells, Hn, Hm.
  set (I := fun (done : list (Z * Z)) (e' : Eldar) =>
    mdims (Board_Barricades e') (board_rows h) (board_cols h)
    /\ (forall i j, (i, j) ∈ done -> in_grid h i j ->
          mget 0 (Board_Barricades e') i j = barricade_code i j)
    /\ registered done (bonus_distances e')).
  assert (HI : I (cells (board_rows h) (board_cols h))
                 (fold_left (fun s p => build_cell h s p.1 p.2)
                    (cells (board_rows h) (board_cols h)) e)).
  { apply (fold_left_prefix_inv _ I).
    - apply NoDup_cells.
    - unfold I. split_and!; try done.
      + intros i j Hin. by apply elem_of_nil in Hin.
      + intros p. rewrite Hempty, lookup_empty. case_bool_decide as Hin; [|done].
        by apply elem_of_nil in Hin.
    - intros done [ci cj] s (H1 & H2 & H3) Hnew Hc.
      apply elem_of_cells in Hc. unfold I; cbn [fst snd].
      rewrite build_cell_Board_Barricades, build_cell_bonus_distances.
      split; [by apply mdims_mset|]. split.
      + intros i j Hin Hg. apply elem_of_app in Hin as [Hin|Hin].
        * destruct (decide ((ci, cj) = (i, j))) as [[= -> ->]|Hne].
          -- eapply mget_mset_eq; [exact H1|lia|lia].
          -- rewrite mget_mset_ne by done. by apply H2.
        * apply list_elem_of_singleton in Hin. injection Hin as -> ->.
          eapply mget_mset_eq; [exact H1|lia|lia].
      + assert (Hfresh : bonus_distances s !! mkPos ci cj = None).
        { rewrite H3. simpl. by rewrite bool_decide_eq_false_2. }
        rewrite Hfresh. intros p.
        destruct (decide (p = mkPos ci cj)) as [->|Hne].
        * simpl. rewrite bool_decide_eq_true_2
            by (apply elem_of_app; right; apply list_elem_of_singleton; done).
          destruct (bonus_type_at ci cj); [by rewrite lookup_insert_eq|by rewrite Hfresh].
        * assert (Hp : (pi p, pj p) <> (ci, cj)) by (destruct p; simpl; congruence).
          assert (Ho : bonus_distances s !! p
                       = if bool_decide ((pi p, pj p) ∈ done ++ [(ci, cj)])
                         then Bonus_of <$> bonus_type_at (pi p) (pj p) else None).
          { rewrite H3. repeat case_bool_decide; try done.
            - exfalso. apply H0. apply elem_of_app. by left.
            - exfalso. apply elem_of_app in H0 as [?|Hs]; [done|].
              by apply list_elem_of_singleton in Hs. }
          rewrite <- Ho. destruct (bonus_type_at ci cj); [|done].
          by rewrite lookup_insert_ne. }
  destruct HI as (H1 & H2 & H3). split; [|done].
  intros i j Hg. apply H2; [|done]. by apply elem_of_cells.
Qed.

Lemma build_matrices_records (e : Eldar) :
  sized h e ->
  (forall i j, in_grid h i j ->
     mget 0 (Board_Barricades (build_matrices h e)) i j = barricade_code i j)
  /\ registered (cells (board_rows h) (board_cols h)) (bonus_distances (build_matrices h e)).
Proof.
  intros Hs. unfold build_matrices. cbv zeta.
  pose proof (sized_set_bonus_distances h e ∅ Hs) as Hs1.
  pose proof (bonus_distances_set e ∅) as Hb1.
  set (e1 := set_bonus_distances e ∅) in *.
  destruct (clear_enemy_spec h e1 Hs1) as (Hs2 & _ & _ & _). cbv zeta in Hs2.
  assert (Hb2 : bonus_distances (for_cells (sz_n e1) (sz_m e1)
                  (fun e i j => set_Board_Enemy e (mset (Board_Enemy e) i j 0)) e1) = ∅).
  { rewrite (for_cells_keeps bonus_distances); done. }
  set (e2 := for_cells (sz_n e1) (sz_m e1) _ e1) in *.
  by apply fill_records.
Qed.


(** [compute_closest] fills in the distance and the side of a record, never
    its type. *)
Lemma cc_found_type e WEAPON u distance info info' :
  cc_found h e WEAPON u distance info = Some info' -> b_type info' = b_type info.
Proof. unfold cc_found. intros E. repeat case_match; by simplify_eq. Qed.

Lemma cc_loop_type e WEAPON fuel info s info' :
  cc_loop h e WEAPON fuel info s = Some info' -> b_type info' = b_type info.
Proof.
  revert s. induction fuel as [|fuel IH]; intros s; cbn [cc_loop]; [done|].
  destruct (pq_pop (cc_Q s)) as [[v Q]|]; [|by intros [= <-]].
  destruct (mget false (cc_visited s) _ _); [apply IH|].
  destruct (cc_found h e WEAPON (v_pos v) _ info) as [info1|] eqn:Ef.
  - intros [= <-]. by eapply cc_found_type.
  - destruct (fold_left _ _ _) as [[x dist] Q1]. apply IH.
Qed.

Lemma build_board_lookup (e : Eldar) p :
  bonus_distances (build_board h e) !! p
  = bonus_distances (build_matrices h e) !! p ≫= compute_closest h (build_matrices h e) p.
Proof. unfold build_board. cbv zeta. by rewrite bonus_distances_set, map_lookup_imap. Qed.

Lemma build_board_Board_Barricades (e : Eldar) :
  Board_Barricades (build_board h e) = Board_Barricades (build_matrices h e).
Proof.
  unfold build_board.
  by destruct (set_bonus_distances_fields (build_matrices h e)
    (map_imap (fun p info => compute_closest h (build_matrices h e) p info)
       (bonus_distances (build_matrices h e)))) as (_ & _ & _ & _ & -> & _).
Qed.

(** X4: after [build_board] the terrain matrix classifies every cell of the grid
    by the first of: building, food, money, gun, bazooka, citizen (mine or
    not, with the tier of an enemy), nothing.  In particular a cell is a wall
    exactly when the host shows a building, and every code lies between
    [ENEMY_BAZOOKA] and [BAZOOKA]. *)
Theorem build_board_classifies_cells (e : Eldar) (p : Pos) :
  sized h e -> pos_ok h p = true ->
  board (build_board h e) p = terrain h (pi p) (pj p)
  /\ (board (build_board h e) p = WALL <-> c_type (cell h (pi p) (pj p)) = Building)
  /\ ENEMY_BAZOOKA <= board (build_board h e) p <= BAZOOKA.
Proof.
  intros Hs Hp. destruct p as [i j]. apply pos_ok_in_grid in Hp.
  unfold board; simpl. rewrite (build_board_Board h e i j Hs Hp).
  split; [done|]. unfold terrain. cbv zeta.
  pose proof (enemy_code_range (citizen h (c_id (cell h i j)))).
  unfold WALL, FOOD, MONEY, GUN, BAZOOKA, FRIENDLY_CITIZEN, EMPTY, ENEMY_BAZOOKA.
  repeat (case_bool_decide || case_match); split; try lia; split; (done || lia).
Qed.

(** X5: after [build_board] the barricade matrix holds, for every cell of the
    grid, zero when the host shows no barricade, the resistance of a
    barricade of mine, and minus the resistance of a barricade of somebody
    else. *)
Theorem build_board_barricades (e : Eldar) (p : Pos) :
  sized h e -> pos_ok h p = true ->
  let c := cell h (pi p) (pj p) in
  board_barricades (build_board h e) p =
  if c_resistance c =? -1 then 0
  else if c_b_owner c =? me h then c_resistance c else - c_resistance c.
Proof.
  intros Hs Hp. destruct p as [i j]. apply pos_ok_in_grid in Hp. cbv zeta.
  unfold board_barricades; simpl. rewrite build_board_Board_Barricades.
  by rewrite (proj1 (build_matrices_records e Hs) i j Hp).
Qed.

(** X6: after [build_board] the current bonus map holds a record exactly for the
    cells of the grid classified as money or as a weapon (records of earlier
    rounds are gone), and the record has the type of the bonus: ['M'] for
    money, ['W'] for a gun or a bazooka. *)
Theorem build_board_registers_bonuses (e : Eldar) (p : Pos) :
  sized h e ->
  match bonus_distances (build_board h e) !! p with
  | Some info =>
      pos_ok h p = true
      /\ ((board (build_board h e) p = MONEY /\ b_type info = type_M)
          \/ (GUN <= board (build_board h e) p /\ b_type info = type_W))
  | None =>
      pos_ok h p = false
      \/ (board (build_board h e) p <> MONEY /\ board (build_board h e) p < GUN)
  end.
Proof.
  intros Hs. destruct p as [i j].
  rewrite build_board_lookup.
  destruct (build_matrices_records e Hs) as [_ Hreg]. rewrite (Hreg (mkPos i j)). simpl.
  destruct (pos_ok h (mkPos i j)) eqn:Hp.
  - apply pos_ok_in_grid in Hp.
    rewrite bool_decide_eq_true_2 by (by apply elem_of_cells).
    unfold board; simpl. rewrite (build_board_Board h e i j Hs Hp).
    pose proof (bonus_type_at_terrain i j) as Ht.
    destruct (bonus_type_at i j) as [t|]; simpl; [|by right].
    destruct (build_matrices_spec h e Hs) as ((Hn & Hm & _) & _).
    destruct (compute_closest_total h (build_matrices h e) (mkPos i j) (Bonus_of t))
      as [info' E].
    { rewrite Hn. unfold in_grid in Hp. lia. }
    { rewrite Hm. unfold in_grid in Hp. lia. }
    rewrite E. split; [done|].
    apply cc_loop_type in E. simpl in E. rewrite E. exact Ht.
  - rewrite bool_decide_eq_false_2; [by left|].
    intros Hin. apply elem_of_cells in Hin.
    apply (proj2 (pos_ok_in_grid h i j)) in Hin. congruence.
Qed.


Lemma sized_same_matrices (e e' : Eldar) : same_matrices e e' -> sized h e -> sized h e'.
Proof. unfold same_matrices, sized. intros (-> & -> & -> & -> & -> & _). done. Qed.

(** X7: the tasks of a round only read the world model: when [play] returns, the
    matrices still have the dimensions of the host's grid, and [Board] and
    [Board_Barricades] are the ones [build_board] computed from the host's
    cells at the start of the round. *)
Theorem play_keeps_world_model (e e' : Eldar) (coms : list Command) (p : Pos) :
  0 <= board_rows h -> 0 <= board_cols h -> (sz_n e <> 0 -> sized h e) ->
  play h e = Some (e', coms) ->
  sized h e'
  /\ (pos_ok h p = true ->
      board e' p = terrain h (pi p) (pj p)
      /\ board_barricades e' p = barricade_code (pi p) (pj p)).
Proof.
  intros Hr Hc Hsz E.
  apply play_inv in E as (e1 & e2 & lb & lw & out & q & [Hb _] & [Hw _] & _ & _ & _ & -> & _).
  pose proof (same_matrices_trans _ _ _ Hb Hw) as Hm.
  set (e0 := set_cur_odd (if sz_n e =? 0 then initialize h e else e) (Z.odd (round h))).
  assert (Hs0 : sized h e0).
  { unfold e0. destruct (sz_n e =? 0) eqn:Ez.
    - by apply (initialize_sized h e).
    - apply Z.eqb_neq in Ez. by apply Hsz. }
  assert (Hs1 : sized h (round_start h e)) by (by apply (build_board_sized h e0)).
  split; [by apply (sized_same_matrices (round_start h e))|].
  intros Hp. destruct Hm as (_ & _ & HB & _ & HR & _).
  destruct p as [i j]. apply pos_ok_in_grid in Hp.
  unfold board, board_barricades; simpl. rewrite HB, HR.
  split.
  - apply (build_board_Board h e0 i j Hs0 Hp).
  - change (Board_Barricades (round_start h e)) with (Board_Barricades (build_board h e0)).
    rewrite build_board_Board_Barricades.
    apply (proj1 (build_matrices_records e0 Hs0) i j Hp).
Qed.

End WorldRecords.

(** * The proximity index: [compute_closest] finds a nearest citizen *)

Section Nearest.
Context `{IQ : !PriorityQueue Instr Instr_less}.
Context `{VQ : !PriorityQueue Vertex Vertex_less}.
Variable h : Host.

(** A cell onto which the search of [compute_closest] steps: inside the grid
    and not a wall. *)
Definition passable (e : Eldar) (p : Pos) : bool :=
  pos_ok h p && negb (board e p =? WALL).

(** [walk e p q k]: [q] is reached from [p] in [k] steps between adjacent
    cells, each onto a passable cell. *)
Inductive walk (e : Eldar) (p : Pos) : Pos -> Z -> Prop :=
  | walk_here : walk e p p 0
  | walk_step q d k :
      walk e p q k -> passable e (pos_add q d) = true -> walk e p (pos_add q d) (k + 1).

(** The citizen standing on [u] counts for the bonus whose record is [info]
    and whose cell holds [WEAPON]: anybody for money; for a weapon, a warrior
    of mine with a weaker weapon, or an enemy warrior of a lower tier. *)
Definition entitled (e : Eldar) (WEAPON : Z) (info : Bonus_Info) (u : Pos) : bool :=
  ((board e u <=? ENEMY_BUILDER) || (board e u =? FRIENDLY_CITIZEN))
  && (if b_type info =? type_M then true
      else if b_type info =? type_W then
        if board e u =? FRIENDLY_CITIZEN then
          bool_decide (cit_type (citizen h (c_id (cell h (pi u) (pj u)))) = Warrior)
          && (my_weapon (citizen h (c_id (cell h (pi u) (pj u)))) <? WEAPON)
        else (board e u <? ENEMY_BUILDER) && (- board e u <? WEAPON)
      else false).

Lemma cc_found_entitled e WEAPON u distance info :
  cc_found h e WEAPON u distance info =
  if entitled e WEAPON info u
  then Some (mkBonus (b_type info) distance (board e u =? FRIENDLY_CITIZEN))
  else None.
Proof.
  unfold cc_found, entitled. cbv zeta.
  destruct (board e u <=? ENEMY_BUILDER) eqn:E1; destruct (board e u =? FRIENDLY_CITIZEN) eqn:E2;
    simpl; try done;
    destruct (b_type info =? type_M); try done;
    destruct (b_type info =? type_W); try done;
    repeat case_match; try done.
Qed.

Lemma walk_nonneg e p q k : walk e p q k -> 0 <= k.
Proof. induction 1; lia. Qed.

Lemma pos_ok_spec p :
  pos_ok h p = true <-> inside (board_rows h) (board_cols h) (pi p) (pj p).
Proof.
  unfold pos_ok, inside. rewrite !andb_true_iff, !Z.leb_le, !Z.ltb_lt. tauto.
Qed.

Section Frontier.
Variables (e : Eldar) (origin : Pos) (info : Bonus_Info).
Hypothesis Hsmall : board_rows h * board_cols h < 65535.
Hypothesis Horigin : pos_ok h origin = true.

Local Abbreviation D dist p := (mget 0 dist (pi p) (pj p)).
Local Abbreviation V visited p := (mget false visited (pi p) (pj p)).
Local Abbreviation rows := (board_rows h).
Local Abbreviation cols := (board_cols h).
Local Abbreviation good u := (entitled e (board e origin) info u).

(** The invariant of the loop.  A position that was dequeued and marked is
    not entitled, and its distance is final: it is the length of a walk and
    no walk is shorter.  A position with a finite distance that is not yet
    marked is pending in the queue with that distance.  The neighbours of a
    marked position have been relaxed, except across the pairs of [exempt]
    (the directions not yet treated of the position being expanded). *)
Record cc_inv (exempt : Pos -> Dir -> Prop)
  (dist : Matrix Z) (visited : Matrix bool) (Q : pq Vertex Vertex_less) : Prop := {
  ri_dist : mdims dist rows cols;
  ri_visited_dims : mdims visited rows cols;
  ri_range : in_range dist;
  ri_origin : D dist origin = 0;
  ri_queue : forall v, v ∈ pq_items Q ->
    pos_ok h (v_pos v) = true /\ D dist (v_pos v) <= v_dist v < 65535;
  ri_pending : forall p, pos_ok h p = true -> D dist p < 65535 -> V visited p = false ->
    exists v, v ∈ pq_items Q /\ v_pos v = p /\ v_dist v = D dist p;
  ri_sound : forall p, pos_ok h p = true -> D dist p < 65535 -> walk e origin p (D dist p);
  ri_closed : forall p d, V visited p = true -> passable e (pos_add p d) = true ->
    ~ exempt p d -> D dist (pos_add p d) <= D dist p + 1;
  ri_visited : forall p, V visited p = true ->
    D dist p < 65535 /\ good p = false
    /\ (forall k, walk e origin p k -> D dist p <= k)
    /\ D dist p + 1 <= msum marked visited;
  ri_count : forall p, pos_ok h p = true -> D dist p < 65535 ->
    D dist p <= msum marked visited
}.

Lemma cc_inv_weaken (ex1 ex2 : Pos -> Dir -> Prop) dist visited Q :
  (forall p d, ex1 p d -> ex2 p d) ->
  cc_inv ex1 dist visited Q -> cc_inv ex2 dist visited Q.
Proof.
  intros Hex [H1 H2 H3 H4 H5 H6 H7 H8 H9 H10]. split; try done.
  intros p d Hv Hp Hne. apply H8; try done. intros Hx. apply Hne. by apply Hex.
Qed.

Lemma grid_positive : 0 < rows /\ 0 < cols.
Proof. apply pos_ok_spec in Horigin. unfold inside in Horigin. lia. Qed.

Lemma marked_bound (visited : Matrix bool) :
  mdims visited rows cols -> 0 <= msum marked visited <= rows * cols.
Proof.
  intros Hd. destruct grid_positive as [Hr Hc].
  pose proof (msum_bounds marked visited rows cols 0 1 Hd
                ltac:(intros []; simpl; lia) ltac:(lia) ltac:(lia) ltac:(lia)).
  lia.
Qed.

Lemma visited_pos_ok (visited : Matrix bool) p :
  mdims visited rows cols -> V visited p = true -> pos_ok h p = true.
Proof.
  intros Hd Hv. apply pos_ok_spec.
  destruct (decide (inside rows cols (pi p) (pj p))) as [Hin|Hout]; [done|].
  by rewrite (mget_outside false visited rows cols _ _ Hd Hout) in Hv.
Qed.

Lemma D_mset (dist : Matrix Z) q v p :
  mdims dist rows cols -> pos_ok h q = true ->
  D (mset dist (pi q) (pj q) v) p = if decide (p = q) then v else D dist p.
Proof.
  intros Hd Hq. apply pos_ok_spec in Hq.
  rewrite (mget_mset_full 0 dist rows cols _ _ _ _ _ Hd).
  destruct p as [a b], q as [a' b']. simpl in *.
  destruct (decide (mkPos a b = mkPos a' b')) as [[= -> ->]|Hne].
  - by rewrite decide_True.
  - rewrite decide_False; [done|]. intros [[= -> ->] _]. done.
Qed.

Lemma V_mset (visited : Matrix bool) q v p :
  mdims visited rows cols -> pos_ok h q = true ->
  V (mset visited (pi q) (pj q) v) p = if decide (p = q) then v else V visited p.
Proof.
  intros Hd Hq. apply pos_ok_spec in Hq.
  rewrite (mget_mset_full false visited rows cols _ _ _ _ _ Hd).
  destruct p as [a b], q as [a' b']. simpl in *.
  destruct (decide (mkPos a b = mkPos a' b')) as [[= -> ->]|Hne].
  - by rewrite decide_True.
  - rewrite decide_False; [done|]. intros [[= -> ->] _]. done.
Qed.

(** Along a walk from the origin, either the end is marked, or some position
    of the walk is pending with a distance that is at most its rank in the
    walk. *)
Lemma frontier dist visited Q q k :
  cc_inv (fun _ _ => False) dist visited Q ->
  walk e origin q k ->
  V visited q = true
  \/ exists p j, pos_ok h p = true /\ V visited p = false
       /\ D dist p <= j /\ j <= k /\ D dist p < 65535.
Proof.
  intros Hinv Hw. induction Hw as [|q d k Hw IH Hpass].
  - destruct (V visited origin) eqn:Hv; [by left|]. right.
    exists origin, 0. rewrite (ri_origin _ _ _ _ Hinv). split_and!; try done; lia.
  - destruct IH as [Hv|(p & j & Hp & Hv & Hd & Hj & Hf)].
    + destruct (ri_visited _ _ _ _ Hinv q Hv) as (Hfin & _ & Hopt & Hcnt).
      specialize (Hopt k Hw).
      pose proof (ri_closed _ _ _ _ Hinv q d Hv Hpass ltac:(tauto)) as Hcl.
      pose proof (marked_bound visited (ri_visited_dims _ _ _ _ Hinv)) as Hb.
      destruct (V visited (pos_add q d)) eqn:Hv'; [by left|]. right.
      exists (pos_add q d), (k + 1).
      unfold passable in Hpass. apply andb_true_iff in Hpass as [Hok _].
      split_and!; try done; lia.
    + right. exists p, j. split_and!; try done; lia.
Qed.

(** The position that leaves the queue is a nearest one among those not yet
    marked. *)
Lemma nearest_pending dist visited Q v Q1 q k :
  cc_inv (fun _ _ => False) dist visited Q ->
  pq_pop Q = Some (v, Q1) ->
  walk e origin q k -> V visited q = false ->
  D dist (v_pos v) <= k.
Proof.
  intros Hinv Hpop Hw Hq.
  apply pq_pop_some in Hpop as [Hperm Hmin].
  destruct (frontier _ _ _ _ _ Hinv Hw) as [Hv|(p & j & Hp & Hv & Hd & Hj & Hf)];
    [congruence|].
  destruct (ri_pending _ _ _ _ Hinv p Hp Hf Hv) as (v' & Hin & Hpos & Hkey).
  assert (Hv0 : v ∈ pq_items Q) by (rewrite Hperm; left).
  destruct (ri_queue _ _ _ _ Hinv v Hv0) as [_ [Hle _]].
  rewrite Hperm in Hin. apply elem_of_cons in Hin as [->|Hin].
  - rewrite Hpos. lia.
  - rewrite Forall_forall in Hmin. specialize (Hmin v' Hin).
    unfold Vertex_less in Hmin. lia.
Qed.

(** One relaxation. *)
Lemma cc_relax_inv (exempt : Pos -> Dir -> Prop) visited u acc d :
  V visited u = true ->
  cc_inv exempt acc.1.2 visited acc.2 ->
  cc_inv (fun p d' => exempt p d' /\ ~ (p = u /\ d' = d))
    (cc_relax h e u acc d).1.2 visited (cc_relax h e u acc d).2.
Proof.
  destruct acc as [[x dist] Q]. cbn [fst snd]. intros Hu Hinv.
  pose proof Hinv as [H1 H2 H3 H4 H5 H6 H7 H8 H9 H10].
  assert (Hkeep : cc_inv (fun p d' => exempt p d' /\ ~ (p = u /\ d' = d)) dist visited Q
                  \/ passable e (pos_add u d) = true).
  { destruct (passable e (pos_add u d)) eqn:Hp; [by right|]. left.
    split; try done. intros p d' Hv Hpass Hne.
    destruct (decide (p = u /\ d' = d)) as [[-> ->]|Hn]; [congruence|].
    apply H8; try done. tauto. }
  unfold cc_relax. fold (passable e (pos_add u d)).
  destruct (passable e (pos_add u d)) eqn:Hpass; [|by destruct Hkeep].
  clear Hkeep.
  set (new_p := pos_add u d) in *.
  assert (Hok : pos_ok h new_p = true).
  { unfold passable in Hpass. by apply andb_true_iff in Hpass as [? _]. }
  destruct (H9 u Hu) as (Hfin & _ & Hopt & Hcnt).
  pose proof (marked_bound visited H2) as Hb.
  pose proof (H3 (pi u) (pj u)) as Hru.
  assert (Hnd : wrap_ushort (D dist u + 1) = D dist u + 1).
  { apply wrap_ushort_id. lia. }
  rewrite Hnd.
  assert (Huok : pos_ok h u = true) by (by eapply visited_pos_ok).
  assert (Hwalk : walk e origin new_p (D dist u + 1)).
  { apply walk_step; [by apply H7|done]. }
  match goal with
  | |- context [if ?b then _ else _] => destruct b eqn:Hlt
  end; cbn [fst snd].
  - (* the distance of [new_p] is lowered *)
    apply Z.ltb_lt in Hlt.
    assert (Hunv : V visited new_p = false).
    { destruct (V visited new_p) eqn:Hv; [|done].
      destruct (H9 new_p Hv) as (_ & _ & Hopt' & _). specialize (Hopt' _ Hwalk). lia. }
    assert (HD : forall p, D (mset dist (pi new_p) (pj new_p) (D dist u + 1)) p
                           = if decide (p = new_p) then D dist u + 1 else D dist p).
    { intros p. by apply D_mset. }
    assert (Hle : forall p, D (mset dist (pi new_p) (pj new_p) (D dist u + 1)) p <= D dist p).
    { intros p. rewrite HD. case_decide; [subst; lia|lia]. }
    assert (Hvis : forall p, V visited p = true ->
              D (mset dist (pi new_p) (pj new_p) (D dist u + 1)) p = D dist p).
    { intros p Hv. rewrite HD. case_decide; [congruence|done]. }
    split.
    + by apply mdims_mset.
    + done.
    + apply in_range_mset; [done|lia].
    + rewrite HD. case_decide as Ho; [|done]. rewrite <- Ho, H4 in Hlt. lia.
    + intros v Hin. rewrite pq_push_items in Hin. apply elem_of_cons in Hin as [->|Hin].
      * simpl. split; [done|]. rewrite HD. rewrite decide_True by done. lia.
      * destruct (H5 v Hin) as [? [? ?]]. split; [done|]. specialize (Hle (v_pos v)). lia.
    + intros p Hp Hf Hv. rewrite HD in Hf |- *. case_decide as Hpn.
      * exists (mkVertex (D dist u + 1) new_p Up). split_and!; try done.
        rewrite pq_push_items. left.
      * destruct (H6 p Hp Hf Hv) as (v & Hin & ? & ?). exists v. split_and!; try done.
        rewrite pq_push_items. by right.
    + intros p Hp Hf. rewrite HD in Hf |- *. case_decide as Hpn; [by subst|by apply H7].
    + intros p d' Hv Hp' Hne. rewrite (Hvis p Hv).
      destruct (decide (p = u /\ d' = d)) as [[-> ->]|Hn].
      * fold new_p. rewrite HD. rewrite decide_True by done. lia.
      * specialize (Hle (pos_add p d')).
        assert (D dist (pos_add p d') <= D dist p + 1); [|lia].
        apply H8; try done. tauto.
    + intros p Hv. rewrite (Hvis p Hv). by apply H9.
    + intros p Hp Hf. rewrite HD in Hf |- *. case_decide as Hpn; [lia|by apply H10].
  - (* nothing changes *)
    apply Z.ltb_ge in Hlt. split; try done.
    intros p d' Hv Hp' Hne.
    destruct (decide (p = u /\ d' = d)) as [[-> ->]|Hn]; [done|].
    apply H8; try done. tauto.
Qed.

Lemma cc_relax_all_inv visited u ds :
  V visited u = true ->
  forall (exempt : Pos -> Dir -> Prop) acc,
  cc_inv exempt acc.1.2 visited acc.2 ->
  cc_inv (fun p d' => exempt p d' /\ ~ (p = u /\ d' ∈ ds))
    (fold_left (cc_relax h e u) ds acc).1.2 visited (fold_left (cc_relax h e u) ds acc).2.
Proof.
  intros Hu. induction ds as [|d ds IH]; intros exempt acc Hinv; cbn [fold_left].
  - eapply cc_inv_weaken; [|exact Hinv]. intros p d' Hx. split; [done|].
    intros [_ Hin]. by apply elem_of_nil in Hin.
  - eapply cc_inv_weaken; [|apply IH, (cc_relax_inv exempt visited u acc d Hu Hinv)].
    intros p d' [[Hx Hn] Hn']. split; [done|].
    intros [-> Hin]. apply elem_of_cons in Hin as [->|Hin]; tauto.
Qed.

(** What [compute_closest] returns: the record untouched when no entitled
    citizen can be reached from the bonus; otherwise the record of an
    entitled citizen that is reached by a walk of [closest_dist] steps, no
    entitled citizen being reached by a shorter walk. *)
Definition nearest_record (info' : Bonus_Info) : Prop :=
  (info' = info /\ forall u k, walk e origin u k -> good u = false)
  \/ (exists u k, walk e origin u k /\ good u = true
        /\ info' = mkBonus (b_type info) k (board e u =? FRIENDLY_CITIZEN)
        /\ forall u' k', walk e origin u' k' -> good u' = true -> k <= k').

Lemma cc_loop_nearest fuel s info' :
  cc_inv (fun _ _ => False) (cc_dist s) (cc_visited s) (cc_Q s) ->
  cc_loop h e (board e origin) fuel info s = Some info' ->
  nearest_record info'.
Proof.
  revert s. induction fuel as [|fuel IH]; intros s Hinv; cbn [cc_loop]; [done|].
  destruct (pq_pop (cc_Q s)) as [[v Q1]|] eqn:Hpop.
  - pose proof Hinv as [H1 H2 H3 H4 H5 H6 H7 H8 H9 H10].
    pose proof Hpop as Hpop'. apply pq_pop_some in Hpop' as [Hperm Hmin].
    assert (Hv0 : v ∈ pq_items (cc_Q s)) by (rewrite Hperm; left).
    destruct (H5 v Hv0) as [Hvok [Hvle Hvfin]].
    assert (Hsub : forall v', v' ∈ pq_items Q1 -> v' ∈ pq_items (cc_Q s)).
    { intros v' Hin. rewrite Hperm. by right. }
    set (u := v_pos v) in *.
    destruct (V (cc_visited s) u) eqn:Hvis.
    + (* already marked: the vertex is dropped *)
      apply IH. cbn [cc_dist cc_visited cc_Q]. split; try done.
      * intros v' Hin. by apply H5, Hsub.
      * intros p Hp Hf Hv. destruct (H6 p Hp Hf Hv) as (v' & Hin & Hpos & Hkey).
        exists v'. split_and!; try done.
        rewrite Hperm in Hin. apply elem_of_cons in Hin as [->|Hin]; [|done].
        fold u in Hpos. congruence.
    + rewrite cc_found_entitled.
      assert (Hnear : forall q k, walk e origin q k -> V (cc_visited s) q = false ->
                D (cc_dist s) u <= k).
      { intros q k Hw Hq. by eapply nearest_pending. }
      assert (Hgood : forall q k, walk e origin q k -> good q = true -> D (cc_dist s) u <= k).
      { intros q k Hw Hq. apply (Hnear q k Hw).
        destruct (V (cc_visited s) q) eqn:Hvq; [|done].
        destruct (H9 q Hvq) as (_ & Hng & _). congruence. }
      destruct (good u) eqn:Hent.
      * (* found *)
        intros [= <-]. right. exists u, (D (cc_dist s) u).
        split; [apply H7; [done|lia]|]. by split_and!.
      * destruct (fold_left (cc_relax h e u) Directions
                    (D (cc_dist s) u, cc_dist s, Q1)) as [[x dist2] Q2] eqn:EF.
        apply IH. cbn [cc_dist cc_visited cc_Q].
        pose proof (marked_bound _ H2) as Hb.
        assert (Hcnt : msum marked (mset (cc_visited s) (pi u) (pj u) true)
                       = msum marked (cc_visited s) + 1).
        { rewrite (msum_mset_inside marked false _ rows cols _ _ _ H2)
            by (by apply pos_ok_spec).
          rewrite Hvis. simpl. lia. }
        assert (HV : forall p, V (mset (cc_visited s) (pi u) (pj u) true) p
                               = if decide (p = u) then true else V (cc_visited s) p).
        { intros p. by apply V_mset. }
        assert (Hstart : cc_inv (fun p _ => p = u) (cc_dist s)
                           (mset (cc_visited s) (pi u) (pj u) true) Q1).
        { split; try done.
          - by apply mdims_mset.
          - intros v' Hin. by apply H5, Hsub.
          - intros p Hp Hf Hv. rewrite HV in Hv. case_decide as Hpu; [done|].
            destruct (H6 p Hp Hf Hv) as (v' & Hin & Hpos & Hkey).
            exists v'. split_and!; try done.
            rewrite Hperm in Hin. apply elem_of_cons in Hin as [->|Hin]; [|done].
            fold u in Hpos. congruence.
          - intros p d Hv Hp Hne. rewrite HV in Hv. case_decide as Hpu; [done|].
            apply H8; try done. tauto.
          - intros p Hv. rewrite HV in Hv. rewrite Hcnt. case_decide as Hpu.
            + subst p. split_and!; try done; [lia| |].
              * intros k Hw. by apply (Hnear u k).
              * specialize (H10 u Hvok ltac:(lia)). lia.
            + destruct (H9 p Hv) as (? & ? & ? & ?). split_and!; try done. lia.
          - intros p Hp Hf. rewrite Hcnt. specialize (H10 p Hp Hf). lia. }
        assert (Hu' : V (mset (cc_visited s) (pi u) (pj u) true) u = true).
        { rewrite HV. by rewrite decide_True. }
        pose proof (cc_relax_all_inv _ u Directions Hu' (fun p _ => p = u)
                      (D (cc_dist s) u, cc_dist s, Q1) Hstart) as Hend.
        rewrite EF in Hend. cbn [fst snd] in Hend.
        eapply cc_inv_weaken; [|exact Hend].
        intros p d [-> Hn]. apply Hn. split; [done|].
        apply list_elem_of_In. unfold Directions. destruct d; simpl; tauto.
  - (* the queue is empty *)
    intros [= <-]. left. split; [done|]. intros u k Hw.
    apply pq_pop_none in Hpop.
    destruct (frontier _ _ _ _ _ Hinv Hw) as [Hv|(p & j & Hp & Hv & Hd & Hj & Hf)].
    + by destruct (ri_visited _ _ _ _ Hinv u Hv) as (_ & ? & _).
    + destruct (ri_pending _ _ _ _ Hinv p Hp Hf Hv) as (v' & Hin & _).
      rewrite Hpop in Hin. by apply elem_of_nil in Hin.
Qed.

Lemma cc_inv_start :
  cc_inv (fun _ _ => False)
    (mset (mnew rows cols USHRT_MAX) (pi origin) (pj origin) 0)
    (mnew rows cols false)
    (pq_push (mkVertex 0 origin Up) pq_new).
Proof.
  destruct grid_positive as [Hr Hc].
  assert (Hd0 : mdims (mnew rows cols USHRT_MAX) rows cols) by (apply mdims_mnew; lia).
  assert (Hv0 : mdims (mnew rows cols false) rows cols) by (apply mdims_mnew; lia).
  assert (HD : forall p, pos_ok h p = true ->
             D (mset (mnew rows cols USHRT_MAX) (pi origin) (pj origin) 0) p
             = if decide (p = origin) then 0 else 65535).
  { intros p Hp. rewrite D_mset by done. case_decide; [done|].
    apply pos_ok_spec in Hp. by rewrite mget_mnew by apply Hp. }
  assert (HV : forall p, V (mnew rows cols false) p = false).
  { intros p. destruct (decide (inside rows cols (pi p) (pj p))) as [Hin|Hout].
    - by rewrite mget_mnew by apply Hin.
    - by rewrite (mget_outside false _ rows cols _ _ Hv0 Hout). }
  assert (HQ : forall v, v ∈ pq_items (pq_push (mkVertex 0 origin Up) pq_new)
                 <-> v = mkVertex 0 origin Up).
  { intros v. rewrite pq_push_items, pq_new_items. apply list_elem_of_singleton. }
  split.
  - by apply mdims_mset.
  - done.
  - apply in_range_mset; [|lia]. apply in_range_mnew. unfold USHRT_MAX. lia.
  - rewrite HD by done. by rewrite decide_True.
  - intros v Hv. apply HQ in Hv as ->. simpl. split; [done|].
    rewrite HD by done. rewrite decide_True by done. lia.
  - intros p Hp Hf _. rewrite HD in Hf |- * by done. case_decide as Hpo; [|lia].
    exists (mkVertex 0 origin Up). split; [by apply HQ|done].
  - intros p Hp Hf. rewrite HD in Hf |- * by done. case_decide as Hpo; [|lia].
    subst p. constructor.
  - intros p d Hv. by rewrite HV in Hv.
  - intros p Hv. by rewrite HV in Hv.
  - intros p Hp Hf. rewrite HD in Hf |- * by done. case_decide as Hpo; [|lia].
    rewrite msum_mnew by lia. simpl. lia.
Qed.

End Frontier.

Lemma walk_same_board e e' p q k : Board e' = Board e -> walk e p q k -> walk e' p q k.
Proof.
  intros HB. induction 1 as [|q d k Hw IH Hp]; [constructor|].
  apply walk_step; [done|]. unfold passable, board in *. by rewrite HB.
Qed.

Lemma entitled_same_board e e' W info info' u :
  Board e' = Board e -> b_type info' = b_type info ->
  entitled e' W info' u = entitled e W info u.
Proof. intros HB Ht. unfold entitled, board. by rewrite HB, Ht. Qed.

Lemma compute_closest_spec (e : Eldar) (origin : Pos) (info : Bonus_Info) :
  sz_n e = board_rows h -> sz_m e = board_cols h ->
  board_rows h * board_cols h < 65535 ->
  pos_ok h origin = true ->
  exists info', compute_closest h e origin info = Some info'
    /\ nearest_record e origin info info'.
Proof.
  intros Hn Hm Hsmall Horigin.
  destruct (grid_positive origin Horigin) as [Hr Hc].
  destruct (compute_closest_total h e origin info) as [info' E]; [lia|lia|].
  exists info'. split; [done|].
  unfold compute_closest in E. cbv zeta in E. rewrite Hn, Hm in E.
  eapply (cc_loop_nearest e origin info Hsmall Horigin); [|exact E].
  apply (cc_inv_start e origin info Horigin).
Qed.

(** X8: [compute_closest] returns, and what it returns is the record untouched
    when no entitled citizen can be reached from the bonus by a walk that
    avoids the walls; otherwise it is the record of an entitled citizen
    reached by a walk of [closest_dist] steps, with its side, and no
    entitled citizen is reached by a shorter walk.  (A grid of fewer than
    65535 cells keeps the [unsigned short] distances exact.) *)
Theorem compute_closest_finds_nearest (e : Eldar) (origin : Pos) (info : Bonus_Info) :
  sz_n e = board_rows h -> sz_m e = board_cols h ->
  board_rows h * board_cols h < 65535 ->
  pos_ok h origin = true ->
  exists info', compute_closest h e origin info = Some info'
    /\ ((info' = info
         /\ forall u k, walk e origin u k -> entitled e (board e origin) info u = false)
        \/ (exists u k, walk e origin u k
              /\ entitled e (board e origin) info u = true
              /\ info' = mkBonus (b_type info) k (board e u =? FRIENDLY_CITIZEN)
              /\ forall u' k', walk e origin u' k' ->
                   entitled e (board e origin) info u' = true -> k <= k')).
Proof. apply compute_closest_spec. Qed.

(** X9: after [build_board], the record of every money or weapon cell [p] names
    a nearest entitled citizen: [closest_dist] is the length of a shortest
    walk, avoiding the walls, from [p] to an entitled citizen, and
    [closest_is_friendly] tells whether that citizen is mine; when no
    entitled citizen can be reached, the record keeps the distance 0 and the
    side [false] it was created with. *)
Theorem build_board_records_nearest (e : Eldar) (p : Pos) (info : Bonus_Info) :
  sized h e -> board_rows h * board_cols h < 65535 ->
  bonus_distances (build_board h e) !! p = Some info ->
  let e' := build_board h e in
  (closest_dist info = 0 /\ closest_is_friendly info = false
   /\ forall u k, walk e' p u k -> entitled e' (board e' p) info u = false)
  \/ (exists u, walk e' p u (closest_dist info)
        /\ entitled e' (board e' p) info u = true
        /\ closest_is_friendly info = (board e' u =? FRIENDLY_CITIZEN)
        /\ forall u' k', walk e' p u' k' ->
             entitled e' (board e' p) info u' = true -> closest_dist info <= k').
Proof.
  intros Hs Hsmall Hlook. cbv zeta.
  rewrite build_board_lookup in Hlook.
  destruct (build_matrices_records h e Hs) as [_ Hreg]. rewrite (Hreg p) in Hlook.
  case_bool_decide as Hin; [|done].
  assert (Hp : pos_ok h p = true).
  { apply pos_ok_spec. apply elem_of_cells in Hin. exact Hin. }
  destruct (bonus_type_at h (pi p) (pj p)) as [t|]; [|done]. simpl in Hlook.
  destruct (build_matrices_spec h e Hs) as ((Hn & Hm & _) & _).
  destruct (compute_closest_spec (build_matrices h e) p (Bonus_of t) Hn Hm Hsmall Hp)
    as (info' & E & Hnear).
  rewrite E in Hlook. injection Hlook as ->.
  assert (HB : Board (build_board h e) = Board (build_matrices h e)).
  { unfold build_board.
    by destruct (set_bonus_distances_fields (build_matrices h e)
      (map_imap (fun p info => compute_closest h (build_matrices h e) p info)
         (bonus_distances (build_matrices h e)))) as (_ & _ & -> & _). }
  assert (Hb : forall q, board (build_board h e) q = board (build_matrices h e) q).
  { intros q. unfold board. by rewrite HB. }
  assert (Ht : b_type info = t) by (apply cc_loop_type in E; exact E).
  assert (Hent : forall u, entitled (build_board h e) (board (build_board h e) p) info u
                         = entitled (build_matrices h e) (board (build_matrices h e) p)
                             (Bonus_of t) u).
  { intros u. rewrite Hb. by apply entitled_same_board. }
  destruct Hnear as [[-> Hnone]|(u & k & Hw & Hg & -> & Hmin)].
  - left. split; [done|]. split; [done|]. intros u k Hw. rewrite Hent.
    apply (Hnone u k). by apply (walk_same_board (build_board h e)).
  - right. exists u. simpl. split_and!.
    + by apply (walk_same_board (build_matrices h e)).
    + by rewrite Hent.
    + by rewrite Hb.
    + intros u' k' Hw' Hg'. rewrite Hent in Hg'. apply (Hmin u' k'); [|done].
      by apply (walk_same_board (build_board h e)).
Qed.

End Nearest.

(** * The planner: priorities and idle boards *)

Section Priorities.
Context `{IQ : !PriorityQueue Instr Instr_less}.
Context `{VQ : !PriorityQueue Vertex Vertex_less}.
Variable h : Host.

(** No profit exceeds the one of a bazooka at distance 0. *)
Lemma evaluate_profit_bound c is_warrior NEED_HEAL WEAPON u dir s expand s' :
  in_range (s_dist s) -> s_best_profit s <= 31 ->
  evaluate h c is_warrior NEED_HEAL WEAPON u dir s = (expand, s') ->
  s_best_profit s' <= 31.
Proof.
  intros Hr Hb. pose proof (Hr (pi u) (pj u)) as Hu.
  unfold evaluate, money_profit, improve. cbv zeta. intros E.
  unfold ATTACK_PROFIT, WARRIOR_EXTRA_PROFIT, MONEY_PROFIT, HEALTH_PROFIT, ABOUT_TO_DIE_BONUS,
    WEAPON_PROFIT, BAZOOKA_EXTRA_PROFIT, STEAL_WEAPON_PROFIT in E.
  repeat match type of E with
  | context [map_index ?m ?u] => destruct (map_index m u) eqn:?
  | context [if ?b then _ else _] => destruct b eqn:?
  | (let '(_, _) := ?x in _) = _ => destruct x eqn:?
  end; simplify_eq/=; lia.
Qed.

Lemma search_step_profit c is_warrior NEED_HEAL WEAPON v Q s :
  in_range (s_dist s) -> s_best_profit s <= 31 ->
  s_best_profit (search_step h c is_warrior NEED_HEAL WEAPON v Q s) <= 31.
Proof.
  intros Hr Hb. unfold search_step.
  cbn [s_visited s_dist s_Q s_best_dir s_best_profit s_take_ownership
       s_take_ownership_dist s_ai].
  destruct (mget false (s_visited s) _ _); [done|].
  destruct (evaluate _ _ _ _ _ _ _ _) as [expand s1] eqn:Ev.
  apply evaluate_profit_bound in Ev; [|done|done].
  destruct expand; [|done]. by destruct (fold_left _ _ _).
Qed.

Lemma search_loop_profit c is_warrior NEED_HEAL WEAPON n m fuel s s' :
  shaped n m s -> s_best_profit s <= 31 ->
  search_loop h c is_warrior NEED_HEAL WEAPON fuel s = Some s' ->
  s_best_profit s' <= 31.
Proof.
  intros Hs Hb EL.
  apply (search_loop_keeps h (fun s => shaped n m s /\ s_best_profit s <= 31)
           _ _ _ _ _ _ _) in EL; [by destruct EL| |done].
  intros s0 v Q [Hs0 Hb0] Hpop. split.
  - by apply search_step_measure.
  - apply search_step_profit; [apply Hs0|done].
Qed.


(** X10: a move of the fast path is queued at [VERY_HIGH_PRIORITY]; a move chosen
    by the general search is queued with a priority of at most 31, the
    profit of a bazooka at distance 0.  The flush therefore sends every
    kill and every grab before any other move, and before the builds
    (priority 0). *)
Theorem searched_moves_rank_below_fast_path (e : Eldar) (ID : Z) (is_warrior : bool)
  (e' : Eldar) :
  0 <= sz_n e -> 0 <= sz_m e ->
  approach_target h e ID is_warrior = Some (true, e') ->
  let c := citizen h ID in
  exists prio d e'',
    e' = _move e'' prio ID d /\ same_world e e''
    /\ ((prio = VERY_HIGH_PRIORITY
         /\ kill_ready h e (my_weapon c) (pos_add (cit_pos c) d)
            || better_weapon e (my_weapon c) is_warrior (pos_add (cit_pos c) d) = true)
        \/ prio <= 31).
Proof.
  intros Hn Hm E c.
  apply approach_target_cases in E as [[_ [E|(d & E & _ & Hnb & _)]]|(s0 & s & E0 & EL & E)].
  - done.
  - injection E as ->. exists VERY_HIGH_PRIORITY, d, e.
    split; [done|]. split; [apply same_world_refl|]. by left.
  - destruct (first_state_shape h e ID is_warrior s0 Hn Hm E0) as (Hsh & Hp0 & _ & Ha0).
    pose proof (search_loop_profit _ _ _ _ _ _ _ _ _ Hsh ltac:(rewrite Hp0; unfold INT_MIN; lia) EL)
      as Hbound.
    apply search_loop_world in EL as [Hw _]; [|rewrite Hp0; lia]. rewrite Ha0 in Hw.
    symmetry in E.
    apply decide_move_effect in E as [[? _]|(_ & prio & e'' & -> & Hw' & _ & Hprio)]; [done|].
    exists prio, (s_best_dir s), e''. split; [done|].
    split; [by eapply same_world_trans|]. right.
    unfold RUN_DEATH_PRIORITY, RUN_PRIORITY, NOT_IMPORTANT in Hprio. lia.
Qed.

(** A cell that lures nobody: empty, a citizen of mine, a wall, or food when
    the citizen is in full health. *)
Definition dull (NEED_HEAL : bool) (x : Z) : Prop :=
  x = EMPTY \/ x = FRIENDLY_CITIZEN \/ x = WALL \/ (x = FOOD /\ NEED_HEAL = false).

Lemma evaluate_dull c is_warrior NEED_HEAL WEAPON u dir s :
  dull NEED_HEAL (board (s_ai s) u) ->
  evaluate h c is_warrior NEED_HEAL WEAPON u dir s = (true, s).
Proof.
  intros Hd. unfold dull, EMPTY, FRIENDLY_CITIZEN, WALL in Hd. unfold evaluate. cbv zeta.
  assert (E1 : (board (s_ai s) u <=? ENEMY_BUILDER) = false)
    by (apply Z.leb_gt; unfold ENEMY_BUILDER, FOOD in *; lia).
  assert (E2 : (board (s_ai s) u =? MONEY) = false)
    by (apply Z.eqb_neq; unfold MONEY, FOOD in *; lia).
  assert (E3 : NEED_HEAL && (board (s_ai s) u =? FOOD) = false).
  { destruct NEED_HEAL; [|done]. simpl. apply Z.eqb_neq. unfold FOOD in *. intuition lia. }
  assert (E4 : (board (s_ai s) u >=? GUN) = false).
  { destruct (Z.geb_spec (board (s_ai s) u) GUN) as [Hg|]; [|done]. unfold GUN, FOOD in *. lia. }
  rewrite E1, andb_false_r, E2, E3, E4. done.
Qed.

(** X11: on a board without anything to fetch or to attack the planner reports no
    action and changes nothing: the citizen waits (and a builder builds). *)
Theorem planner_idle_without_targets (e : Eldar) (ID : Z) (is_warrior : bool) :
  0 <= sz_n e -> 0 <= sz_m e ->
  (forall p, dull (need_heal h (citizen h ID) is_warrior) (board e p)) ->
  approach_target h e ID is_warrior = Some (false, e).
Proof.
  intros Hn Hm Hdull.
  destruct (approach_target_total h e ID is_warrior Hn Hm) as [r E]. rewrite E. f_equal.
  apply approach_target_cases in E as [[_ [E|(d & _ & _ & Hnb & _)]]|(s0 & s & E0 & EL & E)].
  - done.
  - exfalso. specialize (Hdull (pos_add (cit_pos (citizen h ID)) d)).
    pose proof (my_weapon_range (citizen h ID)) as Hw.
    unfold kill_ready, better_weapon in Hnb.
    unfold dull, EMPTY, FRIENDLY_CITIZEN, WALL, FOOD in Hdull.
    unfold BUILDER, BAZOOKA in Hw.
    apply orb_true_iff in Hnb as [Hk|Hb].
    + repeat (apply andb_true_iff in Hk as [Hk ?]). apply Z.leb_le in Hk.
      unfold ENEMY_BUILDER in Hk. lia.
    + apply andb_true_iff in Hb as [_ Hb].
      destruct (Z.gtb_spec (board e (pos_add (cit_pos (citizen h ID)) d))
                  (my_weapon (citizen h ID))); [lia|done].
  - destruct (first_state_shape h e ID is_warrior s0 Hn Hm E0) as (_ & Hp0 & _ & Ha0).
    apply (search_loop_keeps h (fun s => s_best_profit s = INT_MIN /\ s_ai s = e)) in EL.
    + destruct EL as [Hp Ha]. rewrite E. unfold decide_move. cbv zeta.
      by rewrite Hp, Z.eqb_refl, Ha.
    + intros s1 v Q [Hp1 Ha1] _. unfold search_step.
      cbn [s_visited s_dist s_Q s_best_dir s_best_profit s_take_ownership
           s_take_ownership_dist s_ai].
      destruct (mget false (s_visited s1) _ _); [done|].
      rewrite evaluate_dull by (cbn [s_ai]; rewrite Ha1; apply Hdull).
      cbn [s_visited s_dist s_Q s_best_dir s_best_profit s_take_ownership
           s_take_ownership_dist s_ai].
      by destruct (fold_left _ _ _).
    + done.
Qed.

(** X12: both searches end.  For a sized player, positive rates and a
    citizen, respectively a bonus, inside the grid, [approach_target] and
    [compute_closest] leave their loop after finitely many iterations and
    return. *)
Theorem searches_terminate (e : Eldar) (ID : Z) (is_warrior : bool)
  (origin : Pos) (info : Bonus_Info) :
  sized h e -> rates_positive h ->
  pos_ok h (cit_pos (citizen h ID)) = true -> pos_ok h origin = true ->
  (exists r, approach_target h e ID is_warrior = Some r)
  /\ (exists info', compute_closest h e origin info = Some info').
Proof.
  intros (Hn & Hm & _) _ _ Hok.
  destruct origin as [i j]. apply pos_ok_in_grid in Hok as [Hi Hj].
  split; [apply approach_target_total|apply compute_closest_total]; lia.
Qed.

End Priorities.

(** * The night tasks: running away *)

Section Night.
Context `{IQ : !PriorityQueue Instr Instr_less}.
Context `{VQ : !PriorityQueue Vertex Vertex_less}.
Variable h : Host.

Lemma find_first {A} (f : A -> bool) l d :
  List.find f l = Some d ->
  exists l1 l2, l = l1 ++ d :: l2 /\ f d = true /\ Forall (fun d' => f d' = false) l1.
Proof.
  induction l as [|x l IH]; simpl; [done|].
  destruct (f x) eqn:Hx.
  - intros [= ->]. by exists [], l.
  - intros E. destruct (IH E) as (l1 & l2 & -> & Hd & Hl1).
    exists (x :: l1), l2. split_and!; try done. by constructor.
Qed.

Lemma find_none {A} (f : A -> bool) l :
  List.find f l = None -> Forall (fun d' => f d' = false) l.
Proof.
  induction l as [|x l IH]; simpl; [constructor|].
  destruct (f x) eqn:Hx; [done|]. intros E. constructor; [done|by apply IH].
Qed.

(** The cell next to [pos] in direction [d] holds a barricade of mine. *)
Definition shelter (e : Eldar) (pos : Pos) (d : Dir) : bool :=
  pos_ok h (pos_add pos d) && (board_barricades e (pos_add pos d) >? 0).

(** The loop that picks the escape route with the greatest terrain code. *)
Definition best_escape (e : Eldar) (pos : Pos) (WEAPON : Z) (ds : list Dir) (acc : Z * Dir)
  : Z * Dir :=
  fold_left (fun acc d =>
               if is_escape_route h e (pos_add pos d) WEAPON
                  && (board e (pos_add pos d) >? fst acc)
               then (board e (pos_add pos d), d) else acc) ds acc.

Lemma best_escape_cons e pos WEAPON d ds acc :
  best_escape e pos WEAPON (d :: ds) acc =
  best_escape e pos WEAPON ds
    (if is_escape_route h e (pos_add pos d) WEAPON && (board e (pos_add pos d) >? fst acc)
     then (board e (pos_add pos d), d) else acc).
Proof. done. Qed.

Lemma best_escape_spec e pos WEAPON ds acc :
  let r := best_escape e pos WEAPON ds acc in
  (r = acc
   \/ (acc.1 < r.1 /\ r.1 = board e (pos_add pos r.2)
       /\ is_escape_route h e (pos_add pos r.2) WEAPON = true))
  /\ acc.1 <= r.1
  /\ forall d, d ∈ ds -> is_escape_route h e (pos_add pos d) WEAPON = true ->
       board e (pos_add pos d) <= r.1.
Proof.
  revert acc. induction ds as [|d ds IH]; intros acc; cbv zeta.
  - split; [by left|]. split; [done|]. intros d Hd. by apply elem_of_nil in Hd.
  - rewrite best_escape_cons.
    destruct (is_escape_route h e (pos_add pos d) WEAPON) eqn:Hesc; cbn [andb].
    + destruct (Z.gtb_spec (board e (pos_add pos d)) acc.1) as [Hgt|Hle].
      * destruct (IH (board e (pos_add pos d), d)) as (Hr & Hm & Hall). cbn [fst snd] in *.
        split; [|split; [lia|]].
        -- right. destruct Hr as [->|(? & ? & ?)]; cbn [fst snd]; split_and!; try done; lia.
        -- intros d' Hd' He'. apply elem_of_cons in Hd' as [->|Hd']; [lia|by apply Hall].
      * destruct (IH acc) as (Hr & Hm & Hall).
        split; [done|]. split; [done|].
        intros d' Hd' He'. apply elem_of_cons in Hd' as [->|Hd']; [lia|by apply Hall].
    + destruct (IH acc) as (Hr & Hm & Hall).
      split; [done|]. split; [done|].
      intros d' Hd' He'. apply elem_of_cons in Hd' as [->|Hd']; [congruence|by apply Hall].
Qed.

(** What a citizen does when it has to wait on its cell [pos] at night: it
    stays when no enemy above the tier [WEAPON] is next to it; otherwise it
    takes cover on the first adjacent barricade of mine, or else runs to the
    escape route with the greatest terrain code above [sentinel], or else
    stays. *)
Lemma run_away_spec (e : Eldar) (ID : Z) (c : Citizen) (WEAPON sentinel : Z) :
  let pos := cit_pos c in
  let prio := if life_lost_in_attack h >=? cit_life c
              then RUN_DEATH_PRIORITY else RUN_PRIORITY in
  let r := run_away h e ID c WEAPON sentinel in
  (- board_enemy e pos <= WEAPON /\ r = e)
  \/ (WEAPON < - board_enemy e pos
      /\ ((exists d, first_of (shelter e pos) d /\ r = _move e prio ID d)
          \/ (none_of (shelter e pos)
              /\ ((r = e /\ forall d, is_escape_route h e (pos_add pos d) WEAPON = true ->
                              board e (pos_add pos d) <= sentinel)
                  \/ (exists d, r = _move e prio ID d
                        /\ is_escape_route h e (pos_add pos d) WEAPON = true
                        /\ sentinel < board e (pos_add pos d)
                        /\ forall d', is_escape_route h e (pos_add pos d') WEAPON = true ->
                             board e (pos_add pos d') <= board e (pos_add pos d)))))).
Proof.
  cbv zeta. unfold run_away.
  destruct (Z.gtb_spec (- board_enemy e (cit_pos c)) WEAPON) as [Hgt|Hle]; [|by left].
  right. split; [lia|].
  fold (shelter e (cit_pos c)).
  destruct (first_dir (shelter e (cit_pos c))) as [d|] eqn:Ef.
  - left. exists d. split; [|done]. by apply find_first in Ef.
  - right. split; [by apply find_none in Ef|].
    fold (best_escape e (cit_pos c) WEAPON Directions (sentinel, Up)).
    pose proof (best_escape_spec e (cit_pos c) WEAPON Directions (sentinel, Up)) as Hb.
    cbv zeta in Hb.
    destruct (best_escape e (cit_pos c) WEAPON Directions (sentinel, Up)) as [best dr].
    cbn [fst snd] in Hb. destruct Hb as (Hr & Hm & Hall).
    assert (Hevery : forall d : Dir, d ∈ Directions).
    { intros d. apply list_elem_of_In. unfold Directions. destruct d; simpl; tauto. }
    destruct Hr as [[= -> ->]|(Hlt & Hbest & Hesc)].
    + left. rewrite Z.eqb_refl. split; [done|]. intros d Hd. by apply Hall.
    + right. rewrite (proj2 (Z.eqb_neq best sentinel)) by lia. simpl.
      exists dr. split_and!; try done; [lia|].
      intros d' Hd'. rewrite <- Hbest. by apply Hall.
Qed.


Lemma first_of_ext (f g : Dir -> bool) d :
  (forall d, f d = g d) -> first_of f d -> first_of g d.
Proof.
  intros Hfg (l1 & l2 & HD & Hd & Hl1). exists l1, l2. split_and!; try done.
  - by rewrite <- Hfg.
  - eapply Forall_impl; [exact Hl1|]. intros d'. simpl. by rewrite Hfg.
Qed.

Lemma none_of_ext (f g : Dir -> bool) :
  (forall d, f d = g d) -> none_of f -> none_of g.
Proof.
  intros Hfg Hn. eapply Forall_impl; [exact Hn|]. intros d'. simpl. by rewrite Hfg.
Qed.

Lemma shelter_same_world e e' pos d : same_world e e' -> shelter e' pos d = shelter e pos d.
Proof.
  intros Hw. unfold shelter. by rewrite (same_world_board_barricades e e' _ Hw).
Qed.

Lemma is_escape_route_same_world e e' p W :
  same_world e e' -> is_escape_route h e' p W = is_escape_route h e p W.
Proof.
  intros Hw. unfold is_escape_route.
  by rewrite (same_world_board e e' _ Hw), (same_world_board_enemy e e' _ Hw).
Qed.

(** The escape of [run_away], for a citizen of tier [WEAPON] whose planner
    reported no action and left the player [e1]. *)
Definition escapes (e e1 e2 : Eldar) (ID : Z) (WEAPON sentinel : Z) : Prop :=
  let c := citizen h ID in
  let pos := cit_pos c in
  let prio := if life_lost_in_attack h >=? cit_life c
              then RUN_DEATH_PRIORITY else RUN_PRIORITY in
  (- board_enemy e pos <= WEAPON /\ e2 = e1)
  \/ (WEAPON < - board_enemy e pos
      /\ ((exists d, first_of (shelter e pos) d /\ e2 = _move e1 prio ID d)
          \/ (none_of (shelter e pos)
              /\ ((e2 = e1 /\ forall d, is_escape_route h e (pos_add pos d) WEAPON = true ->
                               board e (pos_add pos d) <= sentinel)
                  \/ (exists d, e2 = _move e1 prio ID d
                        /\ is_escape_route h e (pos_add pos d) WEAPON = true
                        /\ sentinel < board e (pos_add pos d)
                        /\ forall d', is_escape_route h e (pos_add pos d') WEAPON = true ->
                             board e (pos_add pos d') <= board e (pos_add pos d)))))).

Lemma run_away_escapes (e e1 : Eldar) (ID : Z) (WEAPON sentinel : Z) :
  same_world e e1 ->
  escapes e e1 (run_away h e1 ID (citizen h ID) WEAPON sentinel) ID WEAPON sentinel.
Proof.
  intros Hw. unfold escapes. cbv zeta.
  pose proof (run_away_spec e1 ID (citizen h ID) WEAPON sentinel) as Hr. cbv zeta in Hr.
  rewrite (same_world_board_enemy e e1 _ Hw) in Hr.
  assert (Hsh : forall d, shelter e1 (cit_pos (citizen h ID)) d
                          = shelter e (cit_pos (citizen h ID)) d).
  { intros d. by apply shelter_same_world. }
  assert (Hes : forall d, is_escape_route h e1 (pos_add (cit_pos (citizen h ID)) d) WEAPON
                          = is_escape_route h e (pos_add (cit_pos (citizen h ID)) d) WEAPON).
  { intros d. by apply is_escape_route_same_world. }
  assert (Hbo : forall d, board e1 (pos_add (cit_pos (citizen h ID)) d)
                          = board e (pos_add (cit_pos (citizen h ID)) d)).
  { intros d. by apply same_world_board. }
  destruct Hr as [Hr|[Hthreat [(d & Hd & Hr)|[Hnone [[Hr Hall]|(d & Hr & He & Hs & Hall)]]]]].
  - by left.
  - right. split; [done|]. left. exists d. split; [|done]. by eapply first_of_ext.
  - right. split; [done|]. right. split; [by eapply none_of_ext|]. left.
    split; [done|]. intros d Hd. rewrite <- Hbo. apply Hall. by rewrite Hes.
  - right. split; [done|]. right. split; [by eapply none_of_ext|]. right.
    exists d. rewrite <- Hes, <- Hbo. split_and!; try done.
    intros d' Hd'. rewrite <- !Hbo. apply Hall. by rewrite Hes.
Qed.

(** X13: at night, a builder for which the planner reports no action stays on
    its cell unless an enemy warrior is next to it.  Threatened, it takes
    cover on the first adjacent barricade of mine; failing that, it runs to
    the adjacent cell that is an escape route (inside the grid, not a wall,
    not next to an enemy warrior) and holds no citizen, preferring the
    greatest terrain code; failing that too, it stays.  The move is queued
    at [RUN_DEATH_PRIORITY] when one more hit kills the builder, at
    [RUN_PRIORITY] otherwise. *)
Theorem builder_night_escape (e e1 : Eldar) (ID : Z) :
  approach_target h e ID false = Some (false, e1) ->
  exists e2, builder_night_task h e ID = Some e2
    /\ escapes e e1 e2 ID BUILDER (-1).
Proof.
  intros E. unfold builder_night_task. rewrite E. eexists. split; [reflexivity|].
  apply run_away_escapes. by eapply approach_target_false_world.
Qed.

(** X14: at night, a warrior for which the planner reports no action stays on its
    cell unless an enemy of a higher tier is next to it.  Threatened, it
    takes cover on the first adjacent barricade of mine; failing that, it
    runs to the escape route with the greatest terrain code, whatever the
    cell holds; it only stays when no adjacent cell is an escape route. *)
Theorem warrior_night_escape (e e1 : Eldar) (ID : Z) :
  approach_target h e ID true = Some (false, e1) ->
  exists e2, warrior_night_task h e ID = Some e2
    /\ escapes e e1 e2 ID (my_weapon (citizen h ID)) INT_MIN.
Proof.
  intros E. unfold warrior_night_task. rewrite E. eexists. split; [reflexivity|].
  apply run_away_escapes. by eapply approach_target_false_world.
Qed.

End Night.

(** * The memory of the player: last round's records *)

Section PrevRecords.
Context `{IQ : !PriorityQueue Instr Instr_less}.
Context `{VQ : !PriorityQueue Vertex Vertex_less}.
Variable h : Host.

Lemma bonus_distances_prev_set_prev (e : Eldar) m :
  bonus_distances_prev (set_bonus_distances_prev e m) = m.
Proof.
  unfold bonus_distances_prev, set_bonus_distances_prev.
  by destruct e as [? ? ? ? ? ? ? ? ? []].
Qed.

(** The search only reads last round's records: [operator[]] may create a
    default record there, nothing else changes. *)
Lemma evaluate_prev_kept c is_warrior NEED_HEAL WEAPON u dir s expand s' :
  evaluate h c is_warrior NEED_HEAL WEAPON u dir s = (expand, s') ->
  records_kept (bonus_distances_prev (s_ai s)) (bonus_distances_prev (s_ai s')).
Proof.
  unfold evaluate. intros E.
  repeat match type of E with
  | context [map_index ?m ?u] =>
      let K := fresh "K" in
      pose proof (records_kept_map_index m u) as K;
      destruct (map_index m u); simpl in K
  | context [if ?b then _ else _] => destruct b eqn:?
  | (let '(_, _) := ?x in _) = _ => destruct x eqn:?
  end; simplify_eq/=;
  repeat match goal with
  | |- context [improve ?s ?p ?d] =>
      let F := fresh in
      pose proof (improve_fields s p d) as F;
      generalize dependent (improve s p d); intros
  end; simpl in *;
  repeat match goal with H : _ /\ _ |- _ => destruct H end;
  repeat match goal with H : s_ai _ = _ |- _ => rewrite H end; simpl;
  rewrite ?bonus_distances_prev_set_prev, ?bonus_distances_prev_set in *;
  first [apply records_kept_refl | assumption].
Qed.

Lemma search_step_prev_kept c is_warrior NEED_HEAL WEAPON v Q s :
  records_kept (bonus_distances_prev (s_ai s))
    (bonus_distances_prev (s_ai (search_step h c is_warrior NEED_HEAL WEAPON v Q s))).
Proof.
  unfold search_step.
  cbn [s_visited s_dist s_Q s_best_dir s_best_profit s_take_ownership
       s_take_ownership_dist s_ai].
  destruct (mget false (s_visited s) _ _); [apply records_kept_refl|].
  destruct (evaluate _ _ _ _ _ _ _ _) as [expand s1] eqn:Ev.
  apply evaluate_prev_kept in Ev. simpl in Ev.
  destruct expand; [|done]. by destruct (fold_left _ _ _).
Qed.

Lemma approach_target_prev_kept (e : Eldar) (ID : Z) (is_warrior : bool) b e' :
  approach_target h e ID is_warrior = Some (b, e') ->
  records_kept (bonus_distances_prev e) (bonus_distances_prev e').
Proof.
  intros E. apply approach_target_cases in E as [[_ [E|(d & E & _)]]|(s0 & s & E0 & EL & E)].
  - injection E as -> ->. apply records_kept_refl.
  - injection E as -> ->. apply records_kept_refl.
  - assert (Ha0 : s_ai s0 = e).
    { unfold first_state in E0. cbv zeta in E0.
      destruct (seed_safe _ _ _ _ _ _ _ _) as [| |dist Q]; try done.
      destruct (if pq_is_empty Q then _ else _). by injection E0 as <-. }
    apply (search_loop_keeps h (fun s => records_kept (bonus_distances_prev e)
                                           (bonus_distances_prev (s_ai s)))) in EL.
    + symmetry in E.
      apply decide_move_effect in E as [[_ ->]|(_ & prio & e'' & -> & _ & Hp & _)]; [done|].
      change (bonus_distances_prev (_move e'' prio ID (s_best_dir s)))
        with (bonus_distances_prev e''). by rewrite Hp.
    + intros s1 v Q Hk _. eapply records_kept_trans; [exact Hk|].
      apply search_step_prev_kept.
    + rewrite Ha0. apply records_kept_refl.
Qed.

(** The tasks keep last round's records. *)
Definition keeps_prev (task : Eldar -> Z -> option Eldar) : Prop :=
  forall e ID e', task e ID = Some e' ->
    records_kept (bonus_distances_prev e) (bonus_distances_prev e')
    /\ cur_odd e' = cur_odd e.

Lemma approach_target_cur_odd (e : Eldar) (ID : Z) (is_warrior : bool) b e' :
  approach_target h e ID is_warrior = Some (b, e') -> cur_odd e' = cur_odd e.
Proof. intros E. by apply approach_target_effect in E as ((_ & _ & _ & _ & _ & ?) & _). Qed.

Lemma builder_day_task_prev : keeps_prev (builder_day_task h).
Proof.
  intros e ID e'. unfold builder_day_task.
  destruct (approach_target h e ID false) as [[b e1]|] eqn:EA; [|done].
  pose proof (approach_target_prev_kept _ _ _ _ _ EA) as Hk.
  pose proof (approach_target_cur_odd _ _ _ _ _ EA) as Ho.
  intros E. destruct b; [by injection E as <-|].
  repeat case_match; simplify_eq; done.
Qed.

Lemma warrior_day_task_prev : keeps_prev (warrior_day_task h).
Proof.
  intros e ID e'. unfold warrior_day_task.
  destruct (approach_target h e ID true) as [[b e1]|] eqn:EA; [|done].
  intros [= <-]. split; [by eapply approach_target_prev_kept|by eapply approach_target_cur_odd].
Qed.

Lemma run_away_maps (e : Eldar) ID c W sentinel :
  bonus_distances_prev (run_away h e ID c W sentinel) = bonus_distances_prev e
  /\ cur_odd (run_away h e ID c W sentinel) = cur_odd e.
Proof. unfold run_away. repeat case_match; done. Qed.

Lemma builder_night_task_prev : keeps_prev (builder_night_task h).
Proof.
  intros e ID e'. unfold builder_night_task.
  destruct (approach_target h e ID false) as [[b e1]|] eqn:EA; [|done].
  pose proof (approach_target_prev_kept _ _ _ _ _ EA) as Hk.
  pose proof (approach_target_cur_odd _ _ _ _ _ EA) as Ho.
  intros E. destruct b; injection E as <-; [done|].
  destruct (run_away_maps e1 ID (citizen h ID) BUILDER (-1)) as [-> ->]. done.
Qed.

Lemma warrior_night_task_prev : keeps_prev (warrior_night_task h).
Proof.
  intros e ID e'. unfold warrior_night_task.
  destruct (approach_target h e ID true) as [[b e1]|] eqn:EA; [|done].
  pose proof (approach_target_prev_kept _ _ _ _ _ EA) as Hk.
  pose proof (approach_target_cur_odd _ _ _ _ _ EA) as Ho.
  intros E. destruct b; injection E as <-; [done|].
  destruct (run_away_maps e1 ID (citizen h ID) (my_weapon (citizen h ID)) INT_MIN)
    as [-> ->]. done.
Qed.

Lemma for_each_prev task ids e e' :
  keeps_prev task -> for_each task ids e = Some e' ->
  records_kept (bonus_distances_prev e) (bonus_distances_prev e')
  /\ cur_odd e' = cur_odd e.
Proof.
  intros Ht. revert e. induction ids as [|ID ids IH]; intros e; simpl.
  - intros [= <-]. split; [apply records_kept_refl|done].
  - destruct (task e ID) as [e1|] eqn:E1; [|done]. intros E.
    destruct (Ht _ _ _ E1) as [H1 H2]. destruct (IH _ E) as [H3 H4].
    split; [by eapply records_kept_trans|congruence].
Qed.

(** [build_board] rebuilds the current map and leaves the other one alone. *)
Lemma build_cell_prev e i j :
  bonus_distances_prev (build_cell h e i j) = bonus_distances_prev e
  /\ cur_odd (build_cell h e i j) = cur_odd e.
Proof.
  unfold build_cell.
  assert (Hi : forall (e0 : Eldar) p c,
            bonus_distances_prev (bonus_insert e0 p c) = bonus_distances_prev e0
            /\ cur_odd (bonus_insert e0 p c) = cur_odd e0).
  { intros e0 p c. unfold bonus_insert. destruct (bonus_distances e0 !! p); [done|].
    split; [apply bonus_distances_prev_set|].
    unfold set_bonus_distances. by destruct (cur_odd e0). }
  repeat (case_bool_decide || case_match); simpl;
    change (bonus_distances_prev (set_Board_Barricades ?e ?B)) with (bonus_distances_prev e);
    rewrite ?(proj1 (Hi _ _ _)), ?(proj2 (Hi _ _ _)); done.
Qed.

Lemma build_board_prev e :
  bonus_distances_prev (build_board h e) = bonus_distances_prev e
  /\ cur_odd (build_board h e) = cur_odd e.
Proof.
  unfold build_board, build_matrices. cbv zeta.
  assert (Hs : forall (e0 : Eldar) m,
            bonus_distances_prev (set_bonus_distances e0 m) = bonus_distances_prev e0
            /\ cur_odd (set_bonus_distances e0 m) = cur_odd e0).
  { intros e0 m. split; [apply bonus_distances_prev_set|].
    unfold set_bonus_distances. by destruct (cur_odd e0). }
  rewrite (proj1 (Hs _ _)), (proj2 (Hs _ _)).
  rewrite (for_cells_keeps bonus_distances_prev) by (intros; apply build_cell_prev).
  rewrite (for_cells_keeps cur_odd) by (intros; apply build_cell_prev).
  rewrite (for_cells_keeps bonus_distances_prev) by done.
  rewrite (for_cells_keeps cur_odd) by done.
  apply Hs.
Qed.

(** After a round, the map that [bonus_distances] designates is the one of
    the parity of the round, and the other map holds what it held before the
    round, up to default records created by lookups. *)
Lemma play_maps (e e' : Eldar) (coms : list Command) :
  play h e = Some (e', coms) ->
  cur_odd e' = Z.odd (round h)
  /\ records_kept (if Z.odd (round h) then bonus_distances_even e else bonus_distances_odd e)
       (bonus_distances_prev e').
Proof.
  unfold play. cbv zeta. fold (round_start h e). intros E.
  assert (H0 : cur_odd (round_start h e) = Z.odd (round h)
               /\ bonus_distances_prev (round_start h e)
                  = if Z.odd (round h) then bonus_distances_even e else bonus_distances_odd e).
  { unfold round_start.
    change (cur_odd (set_num_barricades ?x ?n)) with (cur_odd x).
    change (bonus_distances_prev (set_num_barricades ?x ?n)) with (bonus_distances_prev x).
    destruct (build_board_prev (set_cur_odd (if sz_n e =? 0 then initialize h e else e)
                                  (Z.odd (round h)))) as [-> ->].
    split; [done|]. unfold bonus_distances_prev. simpl.
    by destruct (sz_n e =? 0). }
  destruct H0 as [Ho Hp].
  assert (Ht : exists e2,
    records_kept (bonus_distances_prev (round_start h e)) (bonus_distances_prev e2)
    /\ cur_odd e2 = cur_odd (round_start h e)
    /\ match flush (instruction_buffer e2) with
       | Some (coms0, q) => Some (set_instruction_buffer e2 q, map send coms0)
       | None => None
       end = Some (e', coms)).
  { destruct (is_day h).
    - destruct (for_each (builder_day_task h) _ _) as [e1|] eqn:E1; [|done].
      destruct (for_each (warrior_day_task h) _ _) as [e2|] eqn:E2; [|done].
      apply (for_each_prev _ _ _ _ builder_day_task_prev) in E1 as [H1 H2].
      apply (for_each_prev _ _ _ _ warrior_day_task_prev) in E2 as [H3 H4].
      exists e2. split_and!; [by eapply records_kept_trans|congruence|done].
    - destruct (for_each (builder_night_task h) _ _) as [e1|] eqn:E1; [|done].
      destruct (for_each (warrior_night_task h) _ _) as [e2|] eqn:E2; [|done].
      apply (for_each_prev _ _ _ _ builder_night_task_prev) in E1 as [H1 H2].
      apply (for_each_prev _ _ _ _ warrior_night_task_prev) in E2 as [H3 H4].
      exists e2. split_and!; [by eapply records_kept_trans|congruence|done]. }
  destruct Ht as (e2 & Hk & Hc & Hf).
  destruct (flush (instruction_buffer e2)) as [[out q]|]; [|done].
  injection Hf as <- <-. simpl. split; [congruence|].
  change (bonus_distances_prev (set_instruction_buffer e2 q)) with (bonus_distances_prev e2).
  by rewrite <- Hp.
Qed.

End PrevRecords.

Section Memory.
Context `{IQ : !PriorityQueue Instr Instr_less}.
Context `{VQ : !PriorityQueue Vertex Vertex_less}.
Variables h1 h2 : Host.

(** X15: the memory of the player.  When two rounds of opposite parity are
    played one after the other, the records that [bonus_distances] holds at
    the end of the first round are what [bonus_distances_prev] holds during
    and after the second one: every record is kept as it was, and the only
    additions are default records created by lookups. *)
Theorem previous_round_records (e0 e1 e2 : Eldar) (c1 c2 : list Command) :
  Z.odd (round h2) = negb (Z.odd (round h1)) ->
  play h1 e0 = Some (e1, c1) -> play h2 e1 = Some (e2, c2) ->
  forall p, bonus_distances_prev e2 !! p = bonus_distances e1 !! p
            \/ (bonus_distances e1 !! p = None
                /\ bonus_distances_prev e2 !! p = Some Bonus_default).
Proof.
  intros Hpar E1 E2.
  apply play_maps in E1 as [Ho1 _]. apply play_maps in E2 as [_ Hk2].
  rewrite Hpar in Hk2. unfold bonus_distances. rewrite Ho1.
  intros p. specialize (Hk2 p). by destruct (Z.odd (round h1)).
Qed.

End Memory.

(** * The orders of the two queues *)

(** X16: [Instr::operator<] and [Vertex::operator<] are strict weak orders, as
    [std::priority_queue] requires of its comparison: irreflexive,
    transitive, and with a transitive incomparability.  Two instructions are
    incomparable exactly when they agree on the priority and on the citizen,
    two vertices exactly when they agree on the distance. *)
Theorem comparators_are_strict_weak_orders :
  (forall a, Instr_less a a = false)
  /\ (forall a b c, Instr_less a b = true -> Instr_less b c = true -> Instr_less a c = true)
  /\ (forall a b, Instr_less a b = false /\ Instr_less b a = false
                  <-> priority a = priority b /\ id a = id b)
  /\ (forall a, Vertex_less a a = false)
  /\ (forall a b c, Vertex_less a b = true -> Vertex_less b c = true -> Vertex_less a c = true)
  /\ (forall a b, Vertex_less a b = false /\ Vertex_less b a = false
                  <-> v_dist a = v_dist b).
Proof.
  unfold Instr_less, Vertex_less. split_and!.
  - intros a. rewrite Z.eqb_refl. apply Z.ltb_irrefl.
  - intros a b c. repeat case_match; lia.
  - intros a b. repeat case_match; lia.
  - intros a. destruct (Z.gtb_spec (v_dist a) (v_dist a)); [lia|done].
  - intros a b c. lia.
  - intros a b. lia.
Qed.

Section Quota.
Context `{IQ : !PriorityQueue Instr Instr_less}.
Context `{VQ : !PriorityQueue Vertex Vertex_less}.
Variable h : Host.

Lemma builder_day_task_quota e ID e' :
  builder_day_task h e ID = Some e' ->
  num_barricades e <= num_barricades e'
  /\ num_barricades e' <= Z.max (num_barricades e) (max_num_barricades h).
Proof.
  unfold builder_day_task. intros E.
  destruct (approach_target h e ID false) as [[b e1]|] eqn:EA; [|done].
  apply approach_target_effect in EA as (_ & Hn & _).
  destruct b; [injection E as <-; lia|].
  repeat case_match; simplify_eq; simpl; lia.
Qed.

(** X17: the builders of a round never count more barricades than the host
    allows: a new barricade is only started, and counted, while the count is
    below [max_num_barricades]. *)
Theorem builders_respect_quota (ids : list Z) (e e' : Eldar) :
  for_each (builder_day_task h) ids e = Some e' ->
  num_barricades e <= num_barricades e'
  /\ num_barricades e' <= Z.max (num_barricades e) (max_num_barricades h).
Proof.
  revert e. induction ids as [|ID ids IH]; intros e; simpl.
  - intros [= <-]. lia.
  - destruct (builder_day_task h e ID) as [e1|] eqn:E1; [|done]. intros E.
    apply builder_day_task_quota in E1. apply IH in E. lia.
Qed.

End Quota.

(** * The planner and the bonus records *)

Section Claims.
Context `{IQ : !PriorityQueue Instr Instr_less}.
Context `{VQ : !PriorityQueue Vertex Vertex_less}.
Variable h : Host.

(** The record that [operator[]] reads for [p]. *)
Definition record_of (m : gmap Pos Bonus_Info) (p : Pos) : Bonus_Info :=
  default Bonus_default (m !! p).

Lemma map_index_fst m u : (map_index m u).1 = record_of m u.
Proof. unfold map_index, record_of. by destruct (m !! u). Qed.

Lemma records_kept_record m0 m p : records_kept m0 m -> record_of m p = record_of m0 p.
Proof. intros Hk. unfold record_of. by destruct (Hk p) as [->|[-> ->]]. Qed.

(** The claim on a weapon that [evaluate] may record: the citizen is at
    most as far from the weapon as the closest entitled citizen, which is
    not mine. *)
Lemma evaluate_claim c is_warrior NEED_HEAL WEAPON u dir s expand s' :
  evaluate h c is_warrior NEED_HEAL WEAPON u dir s = (expand, s') ->
  (s_take_ownership s' = s_take_ownership s
   /\ s_take_ownership_dist s' = s_take_ownership_dist s)
  \/ s_take_ownership s' = None
  \/ (s_take_ownership s' = Some u
      /\ s_take_ownership_dist s' = mget 0 (s_dist s) (pi u) (pj u)
      /\ GUN <= board (s_ai s) u
      /\ mget 0 (s_dist s) (pi u) (pj u)
         <= closest_dist (record_of (bonus_distances (s_ai s)) u)
      /\ closest_is_friendly (record_of (bonus_distances (s_ai s)) u) = false).
Proof.
  unfold evaluate. intros E.
  repeat match type of E with
  | context [map_index ?m ?u] =>
      let D := fresh "D" in
      pose proof (map_index_fst m u) as D;
      destruct (map_index m u); simpl in D
  | context [if ?b then _ else _] => destruct b eqn:?
  | (let '(_, _) := ?x in _) = _ => destruct x eqn:?
  end; simplify_eq/=;
  repeat match goal with
  | |- context [improve ?s ?p ?d] =>
      let F := fresh in let B := fresh in
      pose proof (improve_fields s p d) as F; pose proof (improve_best s p d) as B;
      generalize dependent (improve s p d); intros
  end; simpl in *;
  try (intuition (simpl in *; congruence)).
  all: right; right; split_and!; try done; lia.
Qed.

(** The claim carried by the state of a search that started from [e]. *)
Record claim_inv (e : Eldar) (n m : Z) (s : Search) : Prop := {
  cl_shape : shaped n m s;
  cl_world : same_world e (s_ai s);
  cl_records : records_kept (bonus_distances e) (bonus_distances (s_ai s));
  cl_claim : forall p, s_take_ownership s = Some p ->
    GUN <= board e p
    /\ 0 <= s_take_ownership_dist s <= closest_dist (record_of (bonus_distances e) p)
    /\ closest_is_friendly (record_of (bonus_distances e) p) = false
}.

(** The fields of the state after an iteration are those [evaluate] left,
    on a state that differs from [s] in [visited] and [Q] only. *)
Lemma search_step_fields c is_warrior NEED_HEAL WEAPON v Q s :
  let s' := search_step h c is_warrior NEED_HEAL WEAPON v Q s in
  (s_ai s' = s_ai s /\ s_take_ownership s' = s_take_ownership s
   /\ s_take_ownership_dist s' = s_take_ownership_dist s)
  \/ exists visited Q0 expand s1,
       evaluate h c is_warrior NEED_HEAL WEAPON (v_pos v) (v_dir v)
         (mkSearch (s_dist s) visited Q0 (s_best_dir s) (s_best_profit s)
            (s_take_ownership s) (s_take_ownership_dist s) (s_ai s)) = (expand, s1)
       /\ s_ai s' = s_ai s1 /\ s_take_ownership s' = s_take_ownership s1
       /\ s_take_ownership_dist s' = s_take_ownership_dist s1.
Proof.
  cbv zeta. unfold search_step.
  cbn [s_visited s_dist s_Q s_best_dir s_best_profit s_take_ownership
       s_take_ownership_dist s_ai].
  destruct (mget false (s_visited s) _ _); [by left|]. right.
  destruct (evaluate _ _ _ _ _ _ _ _) as [expand s1] eqn:Ev.
  eexists _, _, expand, s1. split; [exact Ev|].
  destruct expand; [|done]. by destruct (fold_left _ _ _).
Qed.

Lemma search_step_claim e n m c is_warrior NEED_HEAL WEAPON v Q s :
  claim_inv e n m s -> pq_pop (s_Q s) = Some (v, Q) ->
  claim_inv e n m (search_step h c is_warrior NEED_HEAL WEAPON v Q s).
Proof.
  intros [Hsh Hw Hk Hc] Hpop.
  pose proof (search_step_measure h c is_warrior NEED_HEAL WEAPON n m v Q s Hsh Hpop)
    as [Hsh' _].
  pose proof (search_step_fields c is_warrior NEED_HEAL WEAPON v Q s) as Hf. cbv zeta in Hf.
  destruct Hf as [(Ha & Ht & Hd)|(visited & Q0 & expand & s1 & Ev & Ha & Ht & Hd)].
  - split; [done|by rewrite Ha|by rewrite Ha|]. rewrite Ht, Hd. exact Hc.
  - pose proof (evaluate_spec h _ _ _ _ _ _ _ _ _ Ev) as (_ & _ & Hw1 & _).
    pose proof (evaluate_records h _ _ _ _ _ _ _ _ _ Ev) as [Hk1 _].
    pose proof (evaluate_claim _ _ _ _ _ _ _ _ _ Ev) as Hc1.
    cbn [s_visited s_dist s_Q s_best_dir s_best_profit s_take_ownership
         s_take_ownership_dist s_ai] in *.
    split; [done| | |].
    + rewrite Ha. by eapply same_world_trans.
    + rewrite Ha. by eapply records_kept_trans.
    + rewrite Ht, Hd. intros p Hp.
      destruct Hc1 as [[Ht1 Hd1]|[Ht1|(Ht1 & Hd1 & Hg & Hle & Hfr)]].
      * rewrite Ht1 in Hp. rewrite Hd1. by apply Hc.
      * congruence.
      * rewrite Ht1 in Hp. injection Hp as <-.
        rewrite (same_world_board e (s_ai s) _ Hw) in Hg.
        rewrite (records_kept_record _ _ _ Hk) in Hle, Hfr.
        pose proof (sh_range _ _ _ Hsh (pi (v_pos v)) (pj (v_pos v))).
        rewrite Hd1. split_and!; try done; lia.
Qed.

(** X18: the planner never drops a record and never alters the record of a money
    cell.  Besides creating default records by its lookups, it may rewrite
    one record, of a weapon cell whose closest entitled citizen is not mine
    and not closer than the planned citizen: the record then names the
    citizen's own distance, which does not exceed the recorded one, and my
    side.  It does so only together with a move. *)
Theorem planner_record_updates (e : Eldar) (ID : Z) (is_warrior b : bool) (e' : Eldar)
  (p : Pos) :
  0 <= sz_n e -> 0 <= sz_m e ->
  approach_target h e ID is_warrior = Some (b, e') ->
  bonus_distances e' !! p = bonus_distances e !! p
  \/ (bonus_distances e !! p = None /\ bonus_distances e' !! p = Some Bonus_default)
  \/ (b = true /\ GUN <= board e p
      /\ closest_is_friendly (record_of (bonus_distances e) p) = false
      /\ exists d, 0 <= d <= closest_dist (record_of (bonus_distances e) p)
           /\ bonus_distances e' !! p
              = Some (mkBonus (b_type (record_of (bonus_distances e) p)) d true)).
Proof.
  intros Hn Hm E.
  apply approach_target_cases in E as [[_ [E|(d & E & _)]]|(s0 & s & E0 & EL & E)].
  - left. by injection E as -> ->.
  - left. by injection E as -> ->.
  - destruct (first_state_shape h e ID is_warrior s0 Hn Hm E0) as (Hsh & Hp0 & Ht0 & Ha0).
    apply (search_loop_keeps h (claim_inv e (sz_n e) (sz_m e))) in EL.
    + destruct EL as [_ Hw Hk Hc]. symmetry in E. unfold decide_move in E. cbv zeta in E.
      assert (Hstay : bonus_distances (s_ai s) !! p = bonus_distances e !! p
                      \/ (bonus_distances e !! p = None
                          /\ bonus_distances (s_ai s) !! p = Some Bonus_default)).
      { destruct (Hk p) as [?|[? ?]]; [by left|by right]. }
      repeat match type of E with
      | context [if ?b then _ else _] => destruct b eqn:?
      end; simplify_eq; try (destruct Hstay as [?|?]; [by left|by right; left]).
      all: change (bonus_distances (_move ?x ?pr ?i ?d)) with (bonus_distances x).
      all: destruct (s_take_ownership s) as [u|] eqn:Hown;
        [|destruct Hstay as [?|?]; [by left|by right; left]].
      all: rewrite bonus_distances_set.
      all: destruct (decide (p = u)) as [->|Hne];
        [|rewrite lookup_insert_ne by done;
          destruct Hstay as [?|?]; [by left|by right; left]].
      all: right; right; rewrite lookup_insert_eq;
        destruct (Hc u eq_refl) as (Hg & Hd & Hfr);
        split; [done|]; split; [done|]; split; [done|];
        exists (s_take_ownership_dist s); split; [done|];
        fold (record_of (bonus_distances (s_ai s)) u);
        by rewrite (records_kept_record _ _ u Hk).
    + intros s1 v Q Hinv Hpop. by apply search_step_claim.
    + split; [done|rewrite Ha0; apply same_world_refl|rewrite Ha0; apply records_kept_refl|].
      intros q Hq. congruence.
Qed.

End Claims.

(** * The planner: where the first step leads *)

Section Routes.
Context `{IQ : !PriorityQueue Instr Instr_less}.
Context `{VQ : !PriorityQueue Vertex Vertex_less}.
Variable h : Host.

(** A cell that may become the target of a search: it holds an enemy, or a
    bonus or weapon (the positive codes). *)
Definition lure (x : Z) : Prop := x <= ENEMY_BUILDER \/ EMPTY < x.

(** [evaluate] only ever prefers a cell that holds something. *)
Lemma evaluate_lure c is_warrior NEED_HEAL WEAPON u dir s expand s' :
  evaluate h c is_warrior NEED_HEAL WEAPON u dir s = (expand, s') ->
  (s_best_profit s' = s_best_profit s /\ s_best_dir s' = s_best_dir s)
  \/ (s_best_profit s < s_best_profit s' /\ s_best_dir s' = dir
      /\ lure (board (s_ai s) u)).
Proof.
  unfold evaluate, lure. intros E.
  repeat match type of E with
  | context [map_index ?m ?u] => destruct (map_index m u) eqn:?
  | context [if ?b then _ else _] => destruct b eqn:?
  | (let '(_, _) := ?x in _) = _ => destruct x eqn:?
  end; simplify_eq/=;
  repeat match goal with
  | |- context [improve ?s ?p ?d] =>
      let F := fresh in let B := fresh in
      pose proof (improve_fields s p d) as F; pose proof (improve_best s p d) as B;
      generalize dependent (improve s p d); intros
  end; simpl in *;
  repeat match goal with H : _ && _ = true |- _ => apply andb_true_iff in H as [? ?] end;
  unfold ENEMY_BUILDER, EMPTY, MONEY, FOOD, GUN in *;
  try (intuition (simpl in *; first [congruence | lia])).
  all: right; split_and!; try done; lia.
Qed.

(** An invariant of the search about the vertices: [okv dir pos] holds of
    every pending vertex, and [okb] of the direction of the best target. *)
Record path_inv (e : Eldar) (okv : Dir -> Pos -> Prop) (okb : Dir -> Prop) (s : Search)
  : Prop := {
  pa_world : same_world e (s_ai s);
  pa_queue : Forall (fun v => okv (v_dir v) (v_pos v)) (pq_items (s_Q s));
  pa_floor : INT_MIN <= s_best_profit s;
  pa_best : INT_MIN < s_best_profit s -> okb (s_best_dir s)
}.

Lemma relax_path e0 e WEAPON u dir (okv : Dir -> Pos -> Prop) acc d :
  same_world e0 e ->
  (forall d, passable h e0 (pos_add u d) = true -> okv dir (pos_add u d)) ->
  Forall (fun v => okv (v_dir v) (v_pos v)) (pq_items acc.2) ->
  Forall (fun v => okv (v_dir v) (v_pos v)) (pq_items (relax h e WEAPON u dir acc d).2).
Proof.
  intros Hw Hstep Hacc. unfold relax. destruct acc as [dist Q]. cbn [fst snd] in *.
  destruct (pos_ok h (pos_add u d) && negb (board e (pos_add u d) =? WALL)) eqn:Hp; [|done].
  case_match; [|done]. cbn [fst snd]. rewrite pq_push_items. constructor; [|done].
  simpl. apply Hstep. unfold passable. by rewrite <- (same_world_board e0 e _ Hw).
Qed.

Lemma relax_all_path e0 e WEAPON u dir (okv : Dir -> Pos -> Prop) ds acc :
  same_world e0 e ->
  (forall d, passable h e0 (pos_add u d) = true -> okv dir (pos_add u d)) ->
  Forall (fun v => okv (v_dir v) (v_pos v)) (pq_items acc.2) ->
  Forall (fun v => okv (v_dir v) (v_pos v))
    (pq_items (fold_left (relax h e WEAPON u dir) ds acc).2).
Proof.
  intros Hw Hstep. revert acc. induction ds as [|d ds IH]; intros acc Hacc; simpl; [done|].
  apply IH. by eapply relax_path.
Qed.

Lemma search_step_path e0 okv okb c is_warrior NEED_HEAL WEAPON v Q s :
  (forall dir u d, okv dir u -> passable h e0 (pos_add u d) = true -> okv dir (pos_add u d)) ->
  (forall dir u, okv dir u -> lure (board e0 u) -> okb dir) ->
  path_inv e0 okv okb s ->
  pq_pop (s_Q s) = Some (v, Q) ->
  path_inv e0 okv okb (search_step h c is_warrior NEED_HEAL WEAPON v Q s).
Proof.
  intros Hrelax Hlure [Hw Hq Hf Hb] Hpop.
  apply pq_pop_some in Hpop as [Hperm _].
  rewrite Hperm in Hq. apply Forall_cons in Hq as [Hv Hq].
  unfold search_step.
  cbn [s_visited s_dist s_Q s_best_dir s_best_profit s_take_ownership
       s_take_ownership_dist s_ai].
  destruct (mget false (s_visited s) (pi (v_pos v)) (pj (v_pos v))).
  { by split. }
  destruct (evaluate _ _ _ _ _ _ _ _) as [expand s1] eqn:Ev.
  pose proof (evaluate_lure _ _ _ _ _ _ _ _ _ Ev) as Hbest.
  apply evaluate_spec in Ev as (_ & EQ & Hw1 & _).
  cbn [s_visited s_dist s_Q s_best_dir s_best_profit s_take_ownership
       s_take_ownership_dist s_ai] in *.
  assert (Hf1 : INT_MIN <= s_best_profit s1) by (destruct Hbest as [[-> _]|[? _]]; lia).
  assert (Hb1 : INT_MIN < s_best_profit s1 -> okb (s_best_dir s1)).
  { destruct Hbest as [[-> ->]|(_ & -> & Hl)]; [done|]. intros _.
    apply (Hlure _ _ Hv). by rewrite <- (same_world_board e0 (s_ai s) _ Hw). }
  pose proof (same_world_trans _ _ _ Hw Hw1) as Hw2.
  destruct expand.
  - destruct (fold_left _ _ _) as [dist Q2] eqn:EF.
    split; simpl; try done.
    pose proof (relax_all_path e0 (s_ai s1) WEAPON (v_pos v) (v_dir v) okv Directions
                  (s_dist s1, s_Q s1) Hw2) as HR.
    rewrite EF in HR. apply HR.
    + intros d. by apply Hrelax.
    + simpl. by rewrite EQ.
  - split; try done. by rewrite EQ.
Qed.

Lemma search_loop_path e0 okv okb c is_warrior NEED_HEAL WEAPON fuel s s' :
  (forall dir u d, okv dir u -> passable h e0 (pos_add u d) = true -> okv dir (pos_add u d)) ->
  (forall dir u, okv dir u -> lure (board e0 u) -> okb dir) ->
  path_inv e0 okv okb s ->
  search_loop h c is_warrior NEED_HEAL WEAPON fuel s = Some s' ->
  path_inv e0 okv okb s'.
Proof.
  intros Hrelax Hlure Hs EL.
  apply (search_loop_keeps h (path_inv e0 okv okb) _ _ _ _ _ _ _) in EL; [done| |done].
  intros s1 v Q Hinv Hpop. by apply search_step_path.
Qed.

(** The vertices that the seeding enqueues: one for a neighbour of the
    origin that passed [seed_ok]; in the first pass it passed [cell_safe]
    too, and a first pass that enqueues nothing found no neighbour passing
    both. *)
Definition seed_vertex (e : Eldar) (WEAPON : Z) (origin : Pos) (v : Vertex) : Prop :=
  v_pos v = pos_add origin (v_dir v)
  /\ pos_ok h (v_pos v) = true /\ seed_ok h e WEAPON (v_pos v) = true.

Lemma seed_safe_queue e WEAPON is_warrior origin ds dist Q dist' Q' :
  seed_safe h e WEAPON is_warrior origin ds dist Q = Seeds dist' Q' ->
  Forall (fun v => seed_vertex e WEAPON origin v /\ cell_safe h e WEAPON (v_pos v) = true)
    (pq_items Q) ->
  Forall (fun v => seed_vertex e WEAPON origin v /\ cell_safe h e WEAPON (v_pos v) = true)
    (pq_items Q')
  /\ (length (pq_items Q) <= length (pq_items Q'))%nat
  /\ (pq_items Q' = [] ->
      forall d, d ∈ ds -> pos_ok h (pos_add origin d) = true ->
        cell_safe h e WEAPON (pos_add origin d) && seed_ok h e WEAPON (pos_add origin d) = false).
Proof.
  revert dist Q. induction ds as [|d ds IH]; intros dist Q; simpl.
  - intros [= <- <-] HQ. split_and!; try done. intros _ d Hd. by apply elem_of_nil in Hd.
  - destruct (pos_ok h (pos_add origin d)) eqn:Hok; simpl.
    2:{ intros E HQ. destruct (IH _ _ E HQ) as (H1 & H2 & H3). split_and!; try done.
        intros Hnil d' Hd'. apply elem_of_cons in Hd' as [->|Hd']; [congruence|by apply H3]. }
    destruct (no_brainer _ _ _ _ _ _) as [[] tw]; [by case_match|].
    destruct (cell_safe h e WEAPON (pos_add origin d)) eqn:Hs; simpl.
    + destruct (seed_ok h e WEAPON (pos_add origin d)) eqn:Hso.
      * unfold push_seed. intros E HQ.
        destruct (IH _ _ E) as (H1 & H2 & H3).
        { rewrite pq_push_items. constructor; [|done]. unfold seed_vertex; simpl. by split_and!. }
        pose proof (Permutation_length (pq_push_items
          (mkVertex (add_movement_penalties h e (pos_add origin d) 1 WEAPON)
             (pos_add origin d) d) Q)) as Hl.
        simpl in Hl. split_and!; try done; [lia|].
        intros Hnil. rewrite Hnil in H2. simpl in H2. lia.
      * intros E HQ. destruct (IH _ _ E HQ) as (H1 & H2 & H3). split_and!; try done.
        intros Hnil d' Hd'. apply elem_of_cons in Hd' as [->|Hd']; [|by apply H3].
        intros _. by rewrite Hs, Hso.
    + intros E HQ. destruct (IH _ _ E HQ) as (H1 & H2 & H3). split_and!; try done.
      intros Hnil d' Hd'. apply elem_of_cons in Hd' as [->|Hd']; [|by apply H3].
      intros _. by rewrite Hs.
Qed.

Lemma seed_unsafe_queue e WEAPON origin ds acc :
  Forall (seed_vertex e WEAPON origin) (pq_items acc.2) ->
  Forall (seed_vertex e WEAPON origin)
    (pq_items (fold_left (seed_unsafe h e WEAPON origin) ds acc).2).
Proof.
  revert acc. induction ds as [|d ds IH]; intros acc Hacc; simpl; [done|].
  apply IH. unfold seed_unsafe.
  destruct (pos_ok h (pos_add origin d)) eqn:Hok; simpl; [|done].
  destruct (seed_ok h e WEAPON (pos_add origin d)) eqn:Hso; [|done].
  unfold push_seed; simpl. rewrite pq_push_items. constructor; [|done].
  unfold seed_vertex; simpl. by split_and!.
Qed.

Lemma first_state_queue (e : Eldar) (ID : Z) (is_warrior : bool) s0 :
  first_state h e ID is_warrior = Some s0 ->
  let origin := cit_pos (citizen h ID) in
  let WEAPON := my_weapon (citizen h ID) in
  Forall (seed_vertex e WEAPON origin) (pq_items (s_Q s0))
  /\ (Forall (fun v => cell_safe h e WEAPON (v_pos v) = true) (pq_items (s_Q s0))
      \/ forall d, pos_ok h (pos_add origin d) = true ->
           cell_safe h e WEAPON (pos_add origin d) && seed_ok h e WEAPON (pos_add origin d)
           = false).
Proof.
  unfold first_state. cbv zeta.
  destruct (seed_safe _ _ _ _ _ _ _ _) as [| |dist1 Q1] eqn:ES; [done|done|].
  apply seed_safe_queue in ES as (H1 & _ & H3); [|rewrite pq_new_items; constructor].
  destruct (pq_is_empty Q1) eqn:EQ.
  - apply pq_is_empty_items in EQ.
    pose proof (seed_unsafe_queue e (my_weapon (citizen h ID)) (cit_pos (citizen h ID))
                  Directions (dist1, Q1)) as HU.
    destruct (fold_left _ _ _) as [dist2 Q2]. intros [= <-]. simpl.
    split; [apply HU; simpl; rewrite EQ; constructor|].
    right. intros d. apply (H3 EQ).
    apply list_elem_of_In. unfold Directions. destruct d; simpl; tauto.
  - intros [= <-]. simpl. split.
    + eapply Forall_impl; [exact H1|]. by intros v [? _].
    + left. eapply Forall_impl; [exact H1|]. by intros v [_ ?].
Qed.


Lemma decide_move_true c ID is_warrior WEAPON s e' :
  decide_move h c ID is_warrior WEAPON s = (true, e') -> s_best_profit s <> INT_MIN.
Proof.
  unfold decide_move. cbv zeta.
  destruct (s_best_profit s =? INT_MIN) eqn:E; [done|]. intros _. by apply Z.eqb_neq.
Qed.

(** X19: the planner never wanders.  Every move it proposes is a step onto a
    cell inside the grid that is not a wall, from which a walk that avoids
    the walls leads to a cell holding an enemy, a bonus or a weapon (the
    cell of the step itself for the fast path). *)
Theorem planned_move_leads_to_target (e : Eldar) (ID : Z) (is_warrior : bool) (e' : Eldar) :
  approach_target h e ID is_warrior = Some (true, e') ->
  let origin := cit_pos (citizen h ID) in
  exists prio d e'' u k,
    e' = _move e'' prio ID d
    /\ passable h e (pos_add origin d) = true
    /\ walk h e (pos_add origin d) u k
    /\ (board e u <= ENEMY_BUILDER \/ EMPTY < board e u).
Proof.
  intros E. cbv zeta.
  set (origin := cit_pos (citizen h ID)). set (WEAPON := my_weapon (citizen h ID)).
  apply approach_target_cases in E as [[_ [E|(d & E & Hok & Hnb & _)]]|(s0 & s & E0 & EL & E)].
  - done.
  - injection E as ->. fold origin WEAPON in Hok, Hnb.
    assert (Hl : lure (board e (pos_add origin d))).
    { pose proof (my_weapon_range (citizen h ID)) as Hw. fold WEAPON in Hw.
      unfold BUILDER, BAZOOKA in Hw. unfold lure, ENEMY_BUILDER, EMPTY.
      unfold kill_ready, better_weapon in Hnb.
      apply orb_true_iff in Hnb as [Hk|Hb].
      - repeat (apply andb_true_iff in Hk as [Hk ?]). apply Z.leb_le in Hk.
        unfold ENEMY_BUILDER in Hk. lia.
      - apply andb_true_iff in Hb as [_ Hb].
        destruct (Z.gtb_spec (board e (pos_add origin d)) WEAPON); [lia|done]. }
    exists VERY_HIGH_PRIORITY, d, e, (pos_add origin d), 0. split_and!; try done.
    + unfold passable. rewrite Hok. simpl. apply negb_true_iff, Z.eqb_neq.
      unfold lure, ENEMY_BUILDER, EMPTY in Hl. unfold WALL. lia.
    + constructor.
  - fold origin WEAPON in EL, E.
    pose proof (first_state_queue e ID is_warrior s0 E0) as [Hseed _]. cbv zeta in Hseed.
    fold origin WEAPON in Hseed.
    assert (Hs0 : s_best_profit s0 = INT_MIN /\ s_ai s0 = e).
    { unfold first_state in E0. cbv zeta in E0.
      destruct (seed_safe _ _ _ _ _ _ _ _) as [| |dist Q]; try done.
      destruct (if pq_is_empty Q then _ else _). by injection E0 as <-. }
    destruct Hs0 as [Hp0 Ha0].
    set (okv := fun (dir : Dir) (u : Pos) =>
           passable h e (pos_add origin dir) = true
           /\ exists k, walk h e (pos_add origin dir) u k).
    set (okb := fun (dir : Dir) =>
           passable h e (pos_add origin dir) = true
           /\ exists u k, walk h e (pos_add origin dir) u k /\ lure (board e u)).
    apply (search_loop_path e okv okb) in EL.
    + destruct EL as [_ _ Hf Hb]. symmetry in E.
      pose proof (decide_move_true _ _ _ _ _ _ E) as Hne.
      apply decide_move_effect in E as [[? _]|(_ & prio & e'' & -> & _)]; [done|].
      destruct (Hb ltac:(lia)) as (Hpass & u & k & Hw & Hl).
      by exists prio, (s_best_dir s), e'', u, k.
    + intros dir u d [Hp [k Hk]] Hpass. split; [done|]. exists (k + 1). by constructor.
    + intros dir u [Hp [k Hk]] Hl. split; [done|]. by exists u, k.
    + split.
      * rewrite Ha0. apply same_world_refl.
      * eapply Forall_impl; [exact Hseed|]. intros v (Hpos & Hok & Hso). unfold okv.
        rewrite <- Hpos. split; [|exists 0; constructor].
        unfold passable. rewrite Hok. simpl.
        unfold seed_ok in Hso. by repeat (apply andb_true_iff in Hso as [Hso ?]).
      * rewrite Hp0. lia.
      * rewrite Hp0. lia.
Qed.

(** X20: the less safe directions are a last resort.  A move chosen by the
    general search starts onto a cell none of whose neighbours is dangerous
    for the citizen, unless no neighbour of the citizen passes both the
    safety test and the test of the seeding. *)
Theorem unsafe_steps_are_a_last_resort (e : Eldar) (ID : Z) (is_warrior : bool)
  (e' : Eldar) :
  approach_target h e ID is_warrior = Some (true, e') ->
  let origin := cit_pos (citizen h ID) in
  let WEAPON := my_weapon (citizen h ID) in
  exists prio d e'',
    e' = _move e'' prio ID d
    /\ ((prio = VERY_HIGH_PRIORITY
         /\ kill_ready h e WEAPON (pos_add origin d)
            || better_weapon e WEAPON is_warrior (pos_add origin d) = true)
        \/ cell_safe h e WEAPON (pos_add origin d) = true
        \/ forall d', pos_ok h (pos_add origin d') = true ->
             cell_safe h e WEAPON (pos_add origin d')
             && seed_ok h e WEAPON (pos_add origin d') = false).
Proof.
  intros E. cbv zeta.
  set (origin := cit_pos (citizen h ID)). set (WEAPON := my_weapon (citizen h ID)).
  apply approach_target_cases in E as [[_ [E|(d & E & Hok & Hnb & _)]]|(s0 & s & E0 & EL & E)].
  - done.
  - injection E as ->. exists VERY_HIGH_PRIORITY, d, e. split; [done|]. by left.
  - fold origin WEAPON in EL, E.
    pose proof (first_state_queue e ID is_warrior s0 E0) as [Hseed Hsafe]. cbv zeta in Hseed, Hsafe.
    fold origin WEAPON in Hseed, Hsafe.
    assert (Hs0 : s_best_profit s0 = INT_MIN /\ s_ai s0 = e).
    { unfold first_state in E0. cbv zeta in E0.
      destruct (seed_safe _ _ _ _ _ _ _ _) as [| |dist Q]; try done.
      destruct (if pq_is_empty Q then _ else _). by injection E0 as <-. }
    destruct Hs0 as [Hp0 Ha0].
    symmetry in E. pose proof (decide_move_true _ _ _ _ _ _ E) as Hne.
    apply decide_move_effect in E as [[? _]|(_ & prio & e'' & -> & _)]; [done|].
    exists prio, (s_best_dir s), e''. split; [done|]. right.
    destruct Hsafe as [Hsafe|Hnone]; [left|by right].
    set (okv := fun (dir : Dir) (u : Pos) =>
           cell_safe h e WEAPON (pos_add origin dir) = true).
    apply (search_loop_path e okv (fun dir => cell_safe h e WEAPON (pos_add origin dir) = true))
      in EL.
    + destruct EL as [_ _ Hf Hb]. apply Hb. lia.
    + done.
    + done.
    + split.
      * rewrite Ha0. apply same_world_refl.
      * apply Forall_forall. intros v Hv. unfold okv.
        rewrite Forall_forall in Hseed, Hsafe.
        destruct (Hseed v Hv) as (Hpos & _). rewrite <- Hpos. by apply Hsafe.
      * rewrite Hp0. lia.
      * rewrite Hp0. lia.
Qed.

End Routes.

(** * The statements at work on the scenarios *)

Section Checks.
Import Scenario.

Lemma world_built (h : Host) :
  0 <= board_rows h -> 0 <= board_cols h -> board_built h (world h).
Proof. intros. unfold world. apply build_board_built. by apply initialize_sized. Qed.

(** The codes of the enemies next to [p], zero where there is none. *)
Definition enemies_around (h : Host) (p : Pos) : list Z :=
  map (fun d => adjacent_enemy_tier h (Board (world h)) (pos_add p d)) Directions.

(** C2, witness: two instructions of equal priority, inserted in either
    order. *)
Lemma flush_order_deterministic_witness :
  exists o1 o2 q1 q2,
    flush (push_all [mkInstr 0 true 1 Up; mkInstr 0 true 2 Left]) = Some (o1, q1)
    /\ flush (push_all [mkInstr 0 true 2 Left; mkInstr 0 true 1 Up]) = Some (o2, q2)
    /\ Permutation o1 [mkInstr 0 true 1 Up; mkInstr 0 true 2 Left]
    /\ Permutation o2 [mkInstr 0 true 2 Left; mkInstr 0 true 1 Up]
    /\ map key o1 = map key o2
    /\ StronglySorted key_ge (map key o1).
Proof.
  apply (flush_order_deterministic
           [mkInstr 0 true 1 Up; mkInstr 0 true 2 Left]
           [mkInstr 0 true 2 Left; mkInstr 0 true 1 Up]).
  apply perm_swap.
Defined.

(** C2, counterexample: among two instructions of equal priority the one of
    the citizen with the greater id is sent first, so the keys do not come
    out by ascending id. *)
Lemma flush_sends_greater_id_first :
  flush (push_all [mkInstr 0 true 1 Up; mkInstr 0 true 2 Left])
  = Some ([mkInstr 0 true 2 Left; mkInstr 0 true 1 Up], [])
  /\ ~ StronglySorted key_ge_id_ascending
        (map key [mkInstr 0 true 2 Left; mkInstr 0 true 1 Up]).
Proof.
  split; [vm_compute; reflexivity|].
  intros Hs. apply StronglySorted_inv in Hs as [_ Hs].
  apply Forall_cons in Hs as [Hs _].
  unfold key_ge_id_ascending, key in Hs; simpl in Hs. lia.
Qed.

(** C3, witness: the empty cell between the two enemies. *)
Lemma build_board_threat_halo_witness :
  (ENEMY_BUILDER < board (world two_enemies) (mkPos 0 1) ->
     board_enemy (world two_enemies) (mkPos 0 1)
     = threat_halo two_enemies (Board (world two_enemies)) (mkPos 0 1))
  /\ (board (world two_enemies) (mkPos 0 1) <= ENEMY_BUILDER ->
      exists cit, enemy_at two_enemies 0 1 = Some cit
        /\ board (world two_enemies) (mkPos 0 1) = enemy_code cit
        /\ (0 < wrap_char (cit_life cit) ->
            board_enemy (world two_enemies) (mkPos 0 1) = wrap_char (cit_life cit)))
  /\ (forall cell enemy, cell <= 0 -> update_danger cell enemy = Z.min cell enemy).
Proof.
  unfold world.
  apply (build_board_threat_halo two_enemies (initialize two_enemies Eldar0) (mkPos 0 1)).
  - apply initialize_sized; vm_compute; congruence.
  - vm_compute; reflexivity.
Defined.

(** C3, counterexample: the cell of the enemy builder, next to the enemy
    bazooka, holds the builder's health, not the tier of its neighbour. *)
Lemma enemy_cell_holds_health :
  pos_ok neighbours (mkPos 0 0) = true
  /\ board_enemy (world neighbours) (mkPos 0 0) = 50
  /\ threat_halo neighbours (Board (world neighbours)) (mkPos 0 0) = ENEMY_BAZOOKA
  /\ board_enemy (world neighbours) (mkPos 0 0)
     <> threat_halo neighbours (Board (world neighbours)) (mkPos 0 0).
Proof. vm_compute. split_and!; try reflexivity. discriminate. Qed.

(** C1, witness: the warrior of [patrol_board] steps to its right, next to
    the enemy builder, whose tier is not above the hammer's. *)
Lemma planner_moves_are_guarded_witness :
  exists prio d e'',
    planned patrol_board 1 true = _move e'' prio 1 d
    /\ same_world (world patrol_board) e''
    /\ Permutation (pq_items (instruction_buffer (planned patrol_board 1 true)))
         (mkInstr prio false 1 d :: pq_items (instruction_buffer (world patrol_board)))
    /\ let p := pos_add (cit_pos (citizen patrol_board 1)) d in
       pos_ok patrol_board p = true
       /\ board (world patrol_board) p <> WALL
       /\ (prio = VERY_HIGH_PRIORITY
           \/ (is_danger patrol_board (world patrol_board) p HAMMER = false
               /\ forall d', pos_ok patrol_board (pos_add p d') = true ->
                    board (world patrol_board) (pos_add p d') <= ENEMY_BUILDER ->
                    - board (world patrol_board) (pos_add p d') <= HAMMER)).
Proof.
  destruct (planner_moves_are_guarded patrol_board (world patrol_board) 1 true
              (planned patrol_board 1 true))
    as (prio & d & e'' & H1 & H2 & Hq & H3 & H4 & _ & H5).
  { vm_compute; reflexivity. }
  exists prio, d, e''. split; [exact H1|]. split; [exact H2|]. split; [exact Hq|].
  split; [exact H3|]. split; [exact H4|].
  destruct H5 as [(H5 & _)|(_ & H5 & H6)]; [left; exact H5|right].
  split; [exact H5|].
  apply H6.
  - apply world_built; vm_compute; congruence.
  - destruct d; vm_compute; reflexivity.
  - vm_compute; reflexivity.
Defined.

(** C1, counterexample: on [grab_board] the planner sends the hammer warrior
    onto the bazooka, a cell that [is_danger] judges unsafe for a hammer; on
    [duel_board] it sends the warrior onto an enemy of its own tier that has
    more health, which [is_stronger] does not count as weaker; on
    [escorted_board] the general search sends the warrior with the gun onto
    the enemy with the hammer, whose cell is next to an enemy bazooka. *)
Lemma fast_path_ignores_current_tier :
  approach_target grab_board (world grab_board) 1 true
  = Some (true, _move (world grab_board) VERY_HIGH_PRIORITY 1 Up)
  /\ is_danger grab_board (world grab_board)
       (pos_add (cit_pos (citizen grab_board 1)) Up) (my_weapon (citizen grab_board 1)) = true
  /\ approach_target duel_board (world duel_board) 1 true
     = Some (true, _move (world duel_board) VERY_HIGH_PRIORITY 1 Up)
  /\ - board (world duel_board) (pos_add (cit_pos (citizen duel_board 1)) Up)
     = my_weapon (citizen duel_board 1)
  /\ cit_life (citizen duel_board 1) < cit_life (citizen duel_board 2)
  /\ is_stronger duel_board (world duel_board) (citizen duel_board 1) 0 1 = false
  /\ approach_target escorted_board (world escorted_board) 1 true
     = Some (true, _move (world escorted_board) 18 1 Up)
  /\ my_weapon (citizen escorted_board 1) = GUN
  /\ enemies_around escorted_board (pos_add (cit_pos (citizen escorted_board 1)) Up)
     = [0; 0; ENEMY_BAZOOKA; 0].
Proof. vm_compute. split_and!; reflexivity. Qed.

(** C4, witness. *)
Lemma money_cell_profit_witness :
  exists s', evaluate money_board (citizen money_board 1) true false HAMMER
               (mkPos 0 2) Right contested_search = (true, s')
    /\ s_dist s' = s_dist contested_search.
Proof.
  destruct (money_cell_profit money_board (citizen money_board 1) true false HAMMER
              (mkPos 0 2) Right contested_search) as (s' & H1 & H2 & _).
  { vm_compute; reflexivity. }
  exists s'. split; [exact H1|exact H2].
Defined.

(** C4, counterexample: a contender that is closer this round (3 < 5) and
    was already as close last round (3 < 5) does not take the profit away:
    the money is still worth 12 - 5. *)
Lemma steady_contender_keeps_profit :
  record_dist (bonus_distances contested_world) (mkPos 0 2) = 3
  /\ record_dist (bonus_distances_prev contested_world) (mkPos 0 2) = 3
  /\ mget 0 (s_dist contested_search) 0 2 = 5
  /\ s_best_profit
       (evaluate money_board (citizen money_board 1) true false HAMMER
          (mkPos 0 2) Right contested_search).2 = 7
  /\ money_profit_as_specified 5 3 3 = 0.
Proof. vm_compute. split_and!; reflexivity. Qed.

(** C6, witness: the bazooka of [grab_board]. *)
Lemma no_brainer_wins_witness :
  approach_target grab_board (world grab_board) 1 true
  = Some (true, _move (world grab_board) VERY_HIGH_PRIORITY 1 Up).
Proof.
  destruct (no_brainer_wins grab_board (world grab_board) 1 true [] Up [Down; Left; Right])
    as [_ H2].
  - reflexivity.
  - constructor.
  - vm_compute; reflexivity.
  - vm_compute; reflexivity.
  - apply H2. vm_compute. discriminate.
Defined.

(** C6, counterexample: on [guarded_board] the gun above the warrior is a
    no-brainer whose cell is exposed to a bazooka; the planner reports no
    action, and the night task of the warrior then queues an escape move:
    the citizen does not hold its position. *)
Lemma waiting_warrior_runs :
  better_weapon (world guarded_board) (my_weapon (citizen guarded_board 1)) true
    (pos_add (cit_pos (citizen guarded_board 1)) Up) = true
  /\ fast_tier guarded_board (world guarded_board) (my_weapon (citizen guarded_board 1))
       (pos_add (cit_pos (citizen guarded_board 1)) Up)
     < - board_enemy (world guarded_board) (pos_add (cit_pos (citizen guarded_board 1)) Up)
  /\ approach_target guarded_board (world guarded_board) 1 true
     = Some (false, world guarded_board)
  /\ warrior_night_task guarded_board (world guarded_board) 1
     = Some (_move (world guarded_board) RUN_PRIORITY 1 Down)
  /\ pq_items (instruction_buffer (_move (world guarded_board) RUN_PRIORITY 1 Down))
     = [mkInstr 15 false 1 Down].
Proof. vm_compute. split_and!; reflexivity. Qed.

(** C7, witness: the builder of [idle_board] starts a barricade to its
    right. *)
Lemma builder_day_fallback_witness :
  exists e2, builder_day_task idle_board (world idle_board) 1 = Some e2
    /\ num_barricades e2 = num_barricades (world idle_board) + 1
    /\ Permutation (pq_items (instruction_buffer e2))
         (mkInstr BUILD_PRIORITY true 1 Right :: pq_items (instruction_buffer (world idle_board))).
Proof.
  destruct (builder_day_fallback idle_board (world idle_board) (planned idle_board 1 false) 1)
    as (e2 & H1 & _ & _ & H3 & _).
  { vm_compute; reflexivity. }
  exists e2. split; [exact H1|].
  destruct (H3 ltac:(repeat constructor) ltac:(vm_compute; reflexivity) Right) as (_ & H4 & H5).
  { left. exists [Up; Down; Left], []. split; [reflexivity|].
    split; [vm_compute; reflexivity|]. repeat constructor. }
  split; [exact H4|exact H5].
Defined.



(** C9, witness: the hammer warrior of [grab_board] steps onto the bazooka
    next to an enemy gun. *)
Lemma weapon_grab_uses_new_tier_witness :
  approach_target grab_board (world grab_board) 1 true
  = Some (true, _move (world grab_board) VERY_HIGH_PRIORITY 1 Up)
  /\ Permutation
       (pq_items (instruction_buffer (_move (world grab_board) VERY_HIGH_PRIORITY 1 Up)))
       (mkInstr 500 false 1 Up :: pq_items (instruction_buffer (world grab_board))).
Proof.
  apply (weapon_grab_uses_new_tier grab_board (world grab_board) 1 [] Up [Down; Left; Right]).
  - apply world_built; vm_compute; congruence.
  - reflexivity.
  - constructor.
  - vm_compute; reflexivity.
  - vm_compute; reflexivity.
  - intros d' _. destruct d'; vm_compute; congruence.
Defined.

(** C9, counterexample: on [two_weapons] the bazooka below the warrior is a
    strictly better weapon with no enemy next to it, but the gun above the
    warrior comes first in the scan and is guarded by a bazooka: the planner
    reports failure and queues nothing. *)
Lemma first_weapon_decides :
  pos_ok two_weapons (pos_add (cit_pos (citizen two_weapons 1)) Down) = true
  /\ better_weapon (world two_weapons) (my_weapon (citizen two_weapons 1)) true
       (pos_add (cit_pos (citizen two_weapons 1)) Down) = true
  /\ enemies_around two_weapons (pos_add (cit_pos (citizen two_weapons 1)) Down) = [0; 0; 0; 0]
  /\ approach_target two_weapons (world two_weapons) 1 true = Some (false, world two_weapons)
  /\ pq_items (instruction_buffer (world two_weapons)) = [].
Proof. vm_compute. split_and!; reflexivity. Qed.

(** C5, evaluated on [barricade_board]: the money is two cells away from the
    enemy, with a barricade of resistance 90 in between, which the strongest
    demolition rate (30 per turn) takes three turns to demolish.  The source
    records the distance 2, which is also what it records once the barricade
    is removed; with the cost of the claim (the estimate added to the edge)
    the record is 5. *)
Theorem barricade_adds_no_cost :
  board_barricades (world barricade_board) (mkPos 0 1) = -90
  /\ bazooka_strength_demolish barricade_board = 30
  /\ bonus_distances (world barricade_board) !! mkPos 0 0 = Some (mkBonus type_M 2 false)
  /\ compute_closest barricade_board
       (set_Board_Barricades (build_matrices barricade_board (initialize barricade_board Eldar0))
          [[0; 0; 0]])
       (mkPos 0 0) (Bonus_of type_M)
     = Some (mkBonus type_M 2 false)
  /\ compute_closest_as_specified barricade_board
       (build_matrices barricade_board (initialize barricade_board Eldar0))
       (mkPos 0 0) (Bonus_of type_M)
     = Some (mkBonus type_M 5 false).
Proof. vm_compute. split_and!; reflexivity. Qed.

(** Day; my builder 1 two cells away from a gun that nobody is entitled to:
    there is no warrior on the board. *)
Definition lonely_gun : Host :=
  host [[person 1; street; weapon Gun]]
    [(1, mkCitizen Builder NoWeapon 60 0 (mkPos 0 0))] 3 [1] [].

(** The search of the builder before its first iteration, and after it. *)
Definition lonely_start : Search :=
  match first_state lonely_gun (world lonely_gun) 1 false with
  | Some s => s
  | None => mkSearch [] [] pq_new Left INT_MIN None 0 (world lonely_gun)
  end.

Abbreviation lonely_next :=
  (search_step lonely_gun (citizen lonely_gun 1) false
     (need_heal lonely_gun (citizen lonely_gun 1) false) (my_weapon (citizen lonely_gun 1))
     (mkVertex 1 (mkPos 0 1) Right) [] lonely_start).

(** C10, witness: the gun of [lonely_gun] is about to be evaluated at
    distance 2, and its record is untouched when the planner returns. *)
Lemma unclaimed_weapon_is_ignored_witness :
  1 <= mget 0 (s_dist lonely_next) (pi (mkPos 0 2)) (pj (mkPos 0 2))
  /\ bonus_distances (planned lonely_gun 1 false) !! mkPos 0 2 = Some (Bonus_of type_W).
Proof.
  assert (A1 : sized lonely_gun (world lonely_gun)).
  { unfold world. apply build_board_sized. apply initialize_sized; vm_compute; congruence. }
  assert (A2 : calm lonely_gun (world lonely_gun) (my_weapon (citizen lonely_gun 1)) 3 = true)
    by (vm_compute; reflexivity).
  assert (A3 : pos_ok lonely_gun (mkPos 0 2) = true) by (vm_compute; reflexivity).
  assert (A4 : GUN <= board (world lonely_gun) (mkPos 0 2)) by (vm_compute; discriminate).
  assert (A5 : bonus_distances (world lonely_gun) !! mkPos 0 2 = Some (Bonus_of type_W))
    by (vm_compute; reflexivity).
  assert (A6 : closest_dist (Bonus_of type_W) = 0) by reflexivity.
  destruct (unclaimed_weapon_is_ignored lonely_gun (world lonely_gun) 1 false 3
              (mkPos 0 2) (Bonus_of type_W) A1 A2 A3 A4 A5 A6) as [H1 H2].
  assert (B1 : first_state lonely_gun (world lonely_gun) 1 false = Some lonely_start)
    by (vm_compute; reflexivity).
  assert (B2 : pq_pop (s_Q lonely_start) = Some (mkVertex 1 (mkPos 0 1) Right, []))
    by (vm_compute; reflexivity).
  assert (B3 : mget false (s_visited lonely_next) (pi (mkPos 0 2)) (pj (mkPos 0 2)) = false)
    by (vm_compute; reflexivity).
  assert (C1 : approach_target lonely_gun (world lonely_gun) 1 false
               = Some (false, planned lonely_gun 1 false)) by (vm_compute; reflexivity).
  split.
  - exact (proj1 (H1 lonely_start lonely_next B1
                    (search_reaches_one _ _ _ _ _ _ _ _ B2) B3)).
  - exact (H2 false _ C1).
Defined.

End Checks.

(** * The further properties at work on the scenarios *)

Section FurtherChecks.
Import Scenario.

(** The outcome of a round. *)
Definition played (h : Host) (e : Eldar) : Eldar * list Command :=
  match play h e with
  | Some r => r
  | None => (e, [])
  end.

(** The player after the day loop over the builders. *)
Definition built (h : Host) (e : Eldar) : Eldar :=
  match for_each (builder_day_task h) (builders_me h) e with
  | Some e' => e'
  | None => e
  end.

(** Night; my builder 1 between an enemy with a hammer and an empty cell. *)
Definition cornered_board : Host :=
  host [[person 2; person 1; street]]
    [(1, mkCitizen Builder NoWeapon 60 0 (mkPos 0 1));
     (2, mkCitizen Warrior Hammer 80 1 (mkPos 0 0))] 30 [1] [].

(** The board of [money_board], one round earlier. *)
Definition money_board_before : Host :=
  host [[person 1; street; bonus Money]]
    [(1, mkCitizen Warrior Hammer 100 0 (mkPos 0 0))] 2 [] [1].

Lemma mget_all {A} (P : A -> Prop) (d : A) (M : list (list A)) i j :
  P d -> Forall (Forall P) M -> P (mget d M i j).
Proof.
  intros Hd HM. unfold mget. destruct ((0 <=? i) && (0 <=? j)); [|done].
  destruct (M !! Z.to_nat i) as [row|] eqn:Hrow; [|done].
  rewrite Forall_forall in HM. specialize (HM row (list_elem_of_lookup_2 _ _ _ Hrow)).
  destruct (row !! Z.to_nat j) as [x|] eqn:Hx; simpl; [|done].
  rewrite Forall_forall in HM. apply HM. by eapply list_elem_of_lookup_2.
Qed.

(** X1, witness: the first round on [money_board]. *)
Lemma play_flushes_buffer_witness :
  exists e' coms, play money_board Eldar0 = Some (e', coms)
    /\ pq_items (instruction_buffer e') = [].
Proof.
  apply (play_flushes_buffer money_board Eldar0).
  - unfold host_ok, rates_positive; simpl. split_and!; try lia. repeat constructor.
  - intros Hn. by contradict Hn.
Defined.

(** X2, witness: one command, for the warrior. *)
Lemma play_one_command_per_citizen_witness :
  map citizen_of (played money_board Eldar0).2
  ⊆+ builders_me money_board ++ warriors_me money_board.
Proof.
  apply (play_one_command_per_citizen money_board Eldar0 (played money_board Eldar0).1).
  - reflexivity.
  - vm_compute; reflexivity.
Defined.

(** X3, witness: the build of [idle_board] is sent by day, for a
    builder. *)
Lemma play_builds_by_day_witness :
  is_day idle_board = true /\ 1 ∈ builders_me idle_board.
Proof.
  apply (play_builds_by_day idle_board Eldar0 (played idle_board Eldar0).1
           (played idle_board Eldar0).2 1 Right).
  - reflexivity.
  - vm_compute; reflexivity.
  - apply list_elem_of_In. vm_compute. left. reflexivity.
Defined.

(** X4, witness: the three cells of [two_enemies]; the middle one is
    empty. *)
Lemma build_board_classifies_cells_witness :
  board (world two_enemies) (mkPos 0 1) = terrain two_enemies 0 1
  /\ (board (world two_enemies) (mkPos 0 1) = WALL
      <-> c_type (cell two_enemies 0 1) = Building)
  /\ ENEMY_BAZOOKA <= board (world two_enemies) (mkPos 0 1) <= BAZOOKA.
Proof.
  unfold world.
  apply (build_board_classifies_cells two_enemies (initialize two_enemies Eldar0) (mkPos 0 1)).
  - apply initialize_sized; vm_compute; congruence.
  - vm_compute; reflexivity.
Defined.

(** X5, witness: the enemy barricade of [barricade_board]. *)
Lemma build_board_barricades_witness :
  board_barricades (world barricade_board) (mkPos 0 1) = -90.
Proof.
  unfold world.
  rewrite (build_board_barricades barricade_board (initialize barricade_board Eldar0)
             (mkPos 0 1)).
  - vm_compute; reflexivity.
  - apply initialize_sized; vm_compute; congruence.
  - vm_compute; reflexivity.
Defined.

(** X6, witness: the money of [money_board] is registered, the empty cell
    next to it is not. *)
Lemma build_board_registers_bonuses_witness :
  match bonus_distances (world money_board) !! mkPos 0 1 with
  | Some info =>
      pos_ok money_board (mkPos 0 1) = true
      /\ ((board (world money_board) (mkPos 0 1) = MONEY /\ b_type info = type_M)
          \/ (GUN <= board (world money_board) (mkPos 0 1) /\ b_type info = type_W))
  | None =>
      pos_ok money_board (mkPos 0 1) = false
      \/ (board (world money_board) (mkPos 0 1) <> MONEY
          /\ board (world money_board) (mkPos 0 1) < GUN)
  end.
Proof.
  unfold world.
  apply (build_board_registers_bonuses money_board (initialize money_board Eldar0) (mkPos 0 1)).
  apply initialize_sized; vm_compute; congruence.
Defined.

(** X7, witness: after the first round on [idle_board]. *)
Lemma play_keeps_world_model_witness :
  sized idle_board (played idle_board Eldar0).1
  /\ (pos_ok idle_board (mkPos 0 1) = true ->
      board (played idle_board Eldar0).1 (mkPos 0 1) = terrain idle_board 0 1
      /\ board_barricades (played idle_board Eldar0).1 (mkPos 0 1)
         = barricade_code idle_board 0 1).
Proof.
  apply (play_keeps_world_model idle_board Eldar0 (played idle_board Eldar0).1
           (played idle_board Eldar0).2 (mkPos 0 1)).
  - vm_compute; congruence.
  - vm_compute; congruence.
  - intros H. exfalso. apply H. reflexivity.
  - vm_compute; reflexivity.
Defined.

(** X8, witness: the money of [barricade_board]. *)
Lemma compute_closest_finds_nearest_witness :
  exists info',
    compute_closest barricade_board
      (build_matrices barricade_board (initialize barricade_board Eldar0))
      (mkPos 0 0) (Bonus_of type_M) = Some info'.
Proof.
  destruct (compute_closest_finds_nearest barricade_board
              (build_matrices barricade_board (initialize barricade_board Eldar0))
              (mkPos 0 0) (Bonus_of type_M)) as (info' & E & _).
  - vm_compute; reflexivity.
  - vm_compute; reflexivity.
  - vm_compute; reflexivity.
  - vm_compute; reflexivity.
  - by exists info'.
Defined.


(** X9, witness: the record of the money of [barricade_board] names the
    enemy builder two steps away. *)
Lemma build_board_records_nearest_witness :
  exists u, walk barricade_board (world barricade_board) (mkPos 0 0) u 2
    /\ entitled barricade_board (world barricade_board)
         (board (world barricade_board) (mkPos 0 0)) (mkBonus type_M 2 false) u = true.
Proof.
  assert (A1 : sized barricade_board (initialize barricade_board Eldar0))
    by (apply initialize_sized; vm_compute; congruence).
  assert (A2 : board_rows barricade_board * board_cols barricade_board < 65535)
    by (vm_compute; reflexivity).
  assert (A3 : bonus_distances (build_board barricade_board (initialize barricade_board Eldar0))
               !! mkPos 0 0 = Some (mkBonus type_M 2 false)) by (vm_compute; reflexivity).
  destruct (build_board_records_nearest barricade_board (initialize barricade_board Eldar0)
              (mkPos 0 0) (mkBonus type_M 2 false) A1 A2 A3)
    as [(Hz & _)|(u & Hw & He & _)].
  - simpl in Hz. discriminate.
  - exists u. split; [exact Hw|exact He].
Defined.

(** X10, witness: the warrior of [money_board] walks to the money at a low
    priority. *)
Lemma searched_moves_rank_below_fast_path_witness :
  exists prio d e'',
    planned money_board 1 true = _move e'' prio 1 d
    /\ (prio = VERY_HIGH_PRIORITY \/ prio <= 31).
Proof.
  destruct (searched_moves_rank_below_fast_path money_board (world money_board) 1 true
              (planned money_board 1 true))
    as (prio & d & e'' & H1 & _ & H3).
  - vm_compute; congruence.
  - vm_compute; congruence.
  - vm_compute; reflexivity.
  - exists prio, d, e''. split; [exact H1|].
    destruct H3 as [[H3 _]|H3]; [left; exact H3|right; exact H3].
Defined.

(** X11, witness: the builder of [idle_board] has nothing to fetch. *)
Lemma planner_idle_without_targets_witness :
  approach_target idle_board (world idle_board) 1 false = Some (false, world idle_board).
Proof.
  apply (planner_idle_without_targets idle_board (world idle_board) 1 false).
  - vm_compute; congruence.
  - vm_compute; congruence.
  - intros p. unfold board.
    assert (HB : Board (world idle_board) = [[-1; 0]]) by (vm_compute; reflexivity).
    rewrite HB. apply mget_all; [by left|].
    apply Forall_cons. split; [|constructor].
    apply Forall_cons. split; [right; left; reflexivity|].
    apply Forall_cons. split; [left; reflexivity|constructor].
Defined.

(** X12, witness: the searches of [money_board]. *)
Lemma searches_terminate_witness :
  (exists r, approach_target money_board (world money_board) 1 true = Some r)
  /\ (exists info', compute_closest money_board (world money_board) (mkPos 0 2)
                      (Bonus_of type_M) = Some info').
Proof.
  apply (searches_terminate money_board (world money_board) 1 true (mkPos 0 2)
           (Bonus_of type_M)).
  - unfold world. apply build_board_sized. apply initialize_sized; vm_compute; congruence.
  - vm_compute. split_and!; reflexivity.
  - vm_compute; reflexivity.
  - vm_compute; reflexivity.
Defined.

(** X13, witness: the builder of [cornered_board] runs to the empty cell on
    its right. *)
Lemma builder_night_escape_witness :
  exists e2, builder_night_task cornered_board (world cornered_board) 1 = Some e2
    /\ escapes cornered_board (world cornered_board) (planned cornered_board 1 false) e2
         1 BUILDER (-1).
Proof.
  apply (builder_night_escape cornered_board (world cornered_board)
           (planned cornered_board 1 false) 1).
  vm_compute; reflexivity.
Defined.

(** X14, witness: the warrior of [guarded_board] runs downwards. *)
Lemma warrior_night_escape_witness :
  exists e2, warrior_night_task guarded_board (world guarded_board) 1 = Some e2
    /\ escapes guarded_board (world guarded_board) (planned guarded_board 1 true) e2
         1 (my_weapon (citizen guarded_board 1)) INT_MIN.
Proof.
  apply (warrior_night_escape guarded_board (world guarded_board)
           (planned guarded_board 1 true) 1).
  vm_compute; reflexivity.
Defined.

(** X15, witness: the record of the money after round 2 is last round's
    record in round 3. *)
Lemma previous_round_records_witness :
  bonus_distances_prev (played money_board (played money_board_before Eldar0).1).1
    !! mkPos 0 2
  = bonus_distances (played money_board_before Eldar0).1 !! mkPos 0 2
  \/ (bonus_distances (played money_board_before Eldar0).1 !! mkPos 0 2 = None
      /\ bonus_distances_prev (played money_board (played money_board_before Eldar0).1).1
           !! mkPos 0 2 = Some Bonus_default).
Proof.
  apply (previous_round_records money_board_before money_board Eldar0
           (played money_board_before Eldar0).1
           (played money_board (played money_board_before Eldar0).1).1
           (played money_board_before Eldar0).2
           (played money_board (played money_board_before Eldar0).1).2).
  - vm_compute; reflexivity.
  - vm_compute; reflexivity.
  - vm_compute; reflexivity.
Defined.

(** X17, witness: the builder of [idle_board] starts the first barricade. *)
Lemma builders_respect_quota_witness :
  num_barricades (world idle_board) <= num_barricades (built idle_board (world idle_board))
  /\ num_barricades (built idle_board (world idle_board))
     <= Z.max (num_barricades (world idle_board)) (max_num_barricades idle_board).
Proof.
  apply (builders_respect_quota idle_board (builders_me idle_board) (world idle_board)
           (built idle_board (world idle_board))).
  vm_compute; reflexivity.
Defined.

(** X18, witness: the planner of the warrior of [money_board] leaves the
    record of the money as it was. *)
Lemma planner_record_updates_witness :
  bonus_distances (planned money_board 1 true) !! mkPos 0 2
  = bonus_distances (world money_board) !! mkPos 0 2.
Proof.
  destruct (planner_record_updates money_board (world money_board) 1 true true
              (planned money_board 1 true) (mkPos 0 2))
    as [H|[[H _]|(_ & H & _)]].
  - vm_compute; congruence.
  - vm_compute; congruence.
  - vm_compute; reflexivity.
  - exact H.
  - exfalso. revert H. vm_compute. discriminate.
  - exfalso. revert H. vm_compute. intros H. apply H. reflexivity.
Defined.

(** X19, witness: the first step of the warrior of [money_board] leads to
    the money. *)
Lemma planned_move_leads_to_target_witness :
  exists prio d e'' u k,
    planned money_board 1 true = _move e'' prio 1 d
    /\ walk money_board (world money_board)
         (pos_add (cit_pos (citizen money_board 1)) d) u k
    /\ (board (world money_board) u <= ENEMY_BUILDER \/ EMPTY < board (world money_board) u).
Proof.
  destruct (planned_move_leads_to_target money_board (world money_board) 1 true
              (planned money_board 1 true))
    as (prio & d & e'' & u & k & H1 & _ & H3 & H4).
  - vm_compute; reflexivity.
  - exists prio, d, e'', u, k. split; [exact H1|]. split; [exact H3|exact H4].
Defined.

(** X20, witness: the same step is onto a safe cell. *)
Lemma unsafe_steps_are_a_last_resort_witness :
  exists prio d e'', planned money_board 1 true = _move e'' prio 1 d.
Proof.
  destruct (unsafe_steps_are_a_last_resort money_board (world money_board) 1 true
              (planned money_board 1 true))
    as (prio & d & e'' & H1 & _).
  - vm_compute; reflexivity.
  - exists prio, d, e''. exact H1.
Defined.

End FurtherChecks.
